(* ===== verification/_CoqProject ===== *)
-Q . S2P
Prelude.v
Task.v
Foreign.v
Naming.v
Wireguard.v
Connection.v
ConnStore.v
Subscription.v
Key.v
Inbound.v
Node.v
Link.v
Metrics.v
Db.v
World.v
Pool.v
Stream.v
Trials.v
Sync.v
Consistency.v
SyncSafe.v
Reload.v
SyncSpec.v
Background.v
Http.v
ApiConn.v
ApiSub.v
ApiKey.v
Conduct.v
ApiTrial.v
Mail.v
ApiNode.v
Api.v
Conducts.v
Restart.v
Service.v
Client.v
Warp.v
Routing.v
HttpSpec.v
Auth.v
AuthHttp.v
Xray.v
Agent.v
Batch.v
Collect.v
Startup.v
Config.v
NodeInit.v
Settings.v
Tables.v
Mirror.v
Deliver.v
Listen.v
Process.v
Contract.v
Truth.v
Deployed.v
Lifetime.v
System.v
CodeErrors.v
UnitTests.v
