(* ===== verification/Prelude.v ===== *)
(** * A verified model of the pony VPN control plane

    The repository is a control plane for a fleet of VPN servers, in Rust:

    - the API server ([src/src/bin/api/]) keeps subscriptions, connections,
      nodes and activation keys in PostgreSQL, mirrors them in a cache, answers
      HTTP requests, and announces every change of a connection on a ZeroMQ
      bus;
    - a node's agent ([src/src/bin/node/]) hears the announcements of its
      environment and carries them out on the node's WireGuard interface and
      its Xray process;
    - the authentication service ([src/src/bin/auth/]) hears those about
      Hysteria2 tokens and answers the proxies' questions about them;
    - the shared library ([src/src/]) has the data, the tables, the text
      forms, the links, the metrics store and the snapshots.

    A comment [[symbol] -- path:first-last] above a definition names the code
    it translates, the path being relative to [src/src/].

    ** The files

    Foundations.
    - [Prelude]: results, machine integers, strings as the code uses them,
      lists, and the unspecified iteration order of a hash map
      ([IterOrder], over which every theorem quantifies).
    - [Task]: an asynchronous task as a resumption of atomic actions; [run]
      for one task alone, [pool_step] and [reachable] for any number of them
      interleaved, the joins of futures, and the rely/guarantee condition
      [okp] with [pool_invariant].
    - [Foreign]: what is taken from the crates (UUID and IPv6 text, dates,
      base 32, HMAC, curve keys), each a class with its documented laws and a
      concrete instance.

    The shared library.
    - [Naming] ([error.rs], [memory/{env,tag,stat}.rs], [zmq/topic.rs]),
      [Wireguard] ([memory/connection/wireguard.rs], [proto/wireguard.rs]),
      [Connection] ([memory/connection/], [zmq/message.rs]), [ConnStore]
      ([memory/storage/connection.rs]), [Subscription]
      ([memory/subscription.rs] and its table), [Key] ([memory/key.rs]),
      [Inbound] ([config/]), [Node] ([memory/node.rs] and its table), [Link]
      ([config/inbound.rs], [config/clash.rs]), [Metrics] ([metrics/]).

    The API server.
    - [Db]: the tables of [dev/dev.sql] and each statement of
      [bin/api/postgres/] as a function on them.
    - [Trials]: the record of trials in memory and in its file
      ([bin/api/email.rs]).
    - [World]: what the server's tasks share -- cache, database, bus, record
      of trials -- and its effects, decided by an [Oracle].
    - [Pool]: the client that the repositories share ([bin/api/postgres/pg.rs]),
      which implements the database actions of [World].
    - [Stream]: the metrics worker, the collector and the websockets on one
      store ([bin/api/metrics.rs], [bin/api/http/handlers/metrics.rs]).
    - [Sync]: the synchronised operations ([bin/api/sync/tasks.rs]) and the
      reload ([bin/api/tasks.rs]); [Background]: the periodic tasks.
    - [Http], [ApiConn], [ApiSub], [ApiKey], [ApiTrial], [ApiNode]: requests,
      replies and handlers ([bin/api/http/]); [Api]: what is done with a request
      that was read, and the whole server; [Restart]: its start
      ([bin/api/main.rs]); [Mail]: the mail of a trial ([bin/api/email.rs]).
    - [Warp]: filters and their combination, an interface with the laws that
      warp documents and an implementation of it; [Routing]: the routes of
      [bin/api/http/routes.rs] written with it; [HttpSpec]: what they do.
    - [Config]: files of settings and serde's readers ([config/settings.rs]);
      [Settings]: the configuration files of the three services
      ([bin/*/config.rs]).
    - [Consistency], [SyncSafe], [Reload], [SyncSpec]: the server's invariant,
      and what each operation does.  [Conduct] is the interface of a property
      that every effect keeps, [Conducts] carries such a property from the
      effects to all the server's tasks and to every reachable state.

    Behind the bus.
    - [Service] (snapshots and the subscribers' loop), [Auth] (the
      authentication service) with [AuthHttp], its routes over [Warp], [Xray] (the node's devices: the interface
      [XrayService] with its laws, and a table that meets them), [Agent] (the
      node's agent, with [Creating], the interface of what creations keep, and
      its rule for a message), [Batch] (batches of creations, a second instance
      of it), [Collect] (the samples taken: [bin/node/metrics.rs],
      [metrics/impls.rs]).
    - [Client]: the requests both services make, carried to the server's own
      routes over a network that loses requests, answers and bodies;
      [Startup]: how they start, and what of the bus they hear; [NodeInit]:
      what a node is made of, from its settings and files.
    - [Listen]: the subscribers' loop on the bytes of its socket
      ([zmq/{subscriber,publisher}.rs] and [run_subscriber]); [Process]: the
      tasks a service leaves running and how its process ends
      ([wait_all_tasks_or_ctrlc]).
    - [Tables]: what enters a service's table and its snapshots, operation by
      operation.
    - [Contract], [Deliver] and [Truth], where the server meets the agents, and
      [Mirror], where it meets an authentication service.
    - [Deployed] and [Lifetime]: the server from its arguments and its file to
      its end, and over its lives; [System]: the server and a service behind its
      bus, both from their arguments on and over their lives, as one program.
    - [CodeErrors]: what the checksum of a code finds, from the bits of base 32.
    - [UnitTests]: the repository's own tests of [memory/env.rs] and
      [memory/key.rs], run on the model.

    ** How the code is rendered

    Functions that do not wait are functions; fallible ones answer [result].
    An asynchronous function is a [Task.Prog]: a section that holds a lock, or
    one call of the database, the bus or a device, is one action, and other
    tasks may run between any two actions.  Where the code holds a lock over
    several effects the section is [atomic], or, where noted, the model allows
    more interleavings than the lock does, so what is proved of all of them
    holds of those the code has.  A panic ends its task; the release profile
    aborts the process, which only cuts a run short.

    What the outside decides -- clock, fresh identifiers, random bytes, which
    call fails and whether a lost database call had taken effect, whose turn it
    is among joined futures -- is an [Oracle] indexed by a counter in the
    state.  No theorem assumes more of it than it says ([healthy] where nothing
    may fail).

    Integers are [Z] with the wrap-around of their width written out.  Instants
    are nanoseconds.  A periodic task loops for ever; [loop n] is its first [n]
    rounds, and every [n] is a member of the server's tasks, so no bound is
    chosen.  There is no other fuel but the length of a text cut in groups
    ([Key.Code.chunks]), which is the length of the text.

    ** What is shown

    - Of the server over its lives, each from a file that it could read, with
      requests as they come over HTTP, in every interleaving: the cache never
      runs ahead of the database, nothing is lost from it, and what is
      published keeps the bus's contract ([Lifetime.lifetime_invariant]; for one
      life [Deployed.deployed_invariant]).  Two requests for an address can get
      the same ([Api.wg_address_race]).
    - Of the whole, the server and a service behind its bus, in every
      interleaving and over the lives of both: what the server announces is true
      of its database ([Truth.bus_truthful]), so an authentication service lets
      in only what the server has ([System.auth_always_true]), and the table of
      a node and its snapshots hold nothing else ([System.node_always_true]).
      An agent that hears any of it, in any order, with losses and repetitions,
      keeps an account in Xray behind every connection of its table
      ([Contract.agent_follows_api]).
    - Of its HTTP interface: the chain of routes is a table
      ([HttpSpec.routes_dispatch]), whatever the order of the routes; a request
      that fits an entry is answered as the handlers' model says
      ([HttpSpec.http_serves]); all that comes in over HTTP is therefore what
      [Api] makes of it ([HttpSpec.http_refines]); without the token only the
      open routes do anything ([HttpSpec.http_unauthorised]); and the answer for
      a missing route is never given ([HttpSpec.not_found_unreachable]).
    - Of what it stands on: the client of the database, which reconnects,
      implements the database actions under their faults
      ([Pool.repository_refines], [Pool.repository_heals]); settings that load
      are of their types ([Settings.api_settings_typed]), which does not keep
      the server from aborting on one of them ([Settings.zero_interval_aborts]).
    - Between the server and a node: a connection that is created comes up on
      the nodes of its environment and on no other ([Deliver.created_on_nodes]);
      a batch of creations that succeeds has done all of it, but for the peers of
      WireGuard connections without a public key, whatever the order
      ([Batch.agent_batch_spec], [Batch.batch_as_sequence]), and one that fails
      at its first message has done nothing of the rest
      ([Batch.agent_batch_abandoned]).
    - Between the server and an authentication service: one that starts with
      an empty table and is answered holds the tokens the server would vouch
      for and no other ([Mirror.fresh_auth_mirrors]); a deletion and a
      creation whose announcements arrive keep that so
      ([Mirror.delete_keeps_mirror], [Mirror.create_keeps_mirror]); asking
      again never withdraws a token ([Auth.resync_never_revokes]).
    - Of the loop that hears the bus: it takes in all that is published, in
      order, and ends on none of it ([Listen.subscriber_hears]); it ends for
      good at the first topic that is no text, which one stray part can bring
      about ([Listen.subscriber_ends]); and the process lives on without it
      ([Process.deaf_process]).
    - Each operation alone, on every branch, failures included: [SyncSpec],
      [Reload], the rounds of [Background], the handlers of [ApiConn],
      [ApiSub], [ApiKey], [ApiTrial] and [ApiNode], the batches of [Auth], the
      samples of [Collect].
    - Who may do what: [Http.auth_spec], [ApiTrial.trial_once] and its persistence
      over a restart ([Restart.trial_survives_restart]),
      [Auth.auth_handler_spec], and over HTTP, with every status,
      [AuthHttp.auth_over_http].  The mail of a trial is sent at most three
      times, and an address that is none aborts the server ([Mail.mail_spec],
      [Mail.trial_bad_address]).
    - What a client of the metrics is sent was reported by the node for the
      series asked for, or, as long as the 64-bit keys of series do not collide,
      of the metric asked for, in every interleaving
      ([Stream.stream_provenance]); and the collector can forget a series that
      was just measured ([Stream.collector_forgets]).
    - A node that starts is well formed ([NodeInit.node_init_wf]).
    - Round trips: topics, masks, activation codes (with the detection of
      single errors), rows of connections and nodes, snapshots.
    - A code with one wrong character is refused, also when the character lies
      across two bytes ([CodeErrors.code_single_character]).
    - The model passes the repository's unit tests, save one that fails on some of
      the bytes it draws ([UnitTests.KeyTests.checksum_test_iff]) and two of
      codes, which are run on given bytes.
    - The tables, the free address, the masks' arithmetic, the metrics store's
      invariant and garbage collection, the names of Xray's counters, what a
      link needs.

    Several of them say where the code stops half way or does what it does not
    mean to: a deletion whose announcement fails, a key activated twice, an
    MTProto secret the database forgets, an explicit deletion that the
    restoration undoes, a token that survives a restart, a batch lost to one
    connection that was there already.

    ** What is not modelled

    The sockets, gRPC and PostgreSQL connections (which of their calls fail is
    the oracle's choice), the texts that are read as JSON and TOML documents
    and the JSON that is printed, structs of a configuration file written as
    arrays, the text of the websockets' frames and of the Clash configuration,
    signals and loggers; the time that tokio's files take to reach the disk, and
    the panic of warp's builder on a configured origin that is none.
    [proto/conn.rs], [bin/auth/filters.rs] and [bin/auth/helpers.rs] are not
    part of the program: no module declares them. *)
From stdpp Require Export base gmap strings list fin_maps pretty.
From Stdlib Require Export ZArith Lia Ascii.

#[export] Set Default Goal Selector "!".

(** ** Results: Rust's [Result] with the [?] operator *)

Inductive result (A E : Type) : Type :=
| Ok (a : A)
| Err (e : E).
Arguments Ok {A E} a.
Arguments Err {A E} e.

#[export] Instance result_eq_dec {A E} `{EqDecision A, EqDecision E} :
  EqDecision (result A E).
Proof. solve_decision. Defined.

Declare Scope pony_scope.
Delimit Scope pony_scope with pony.

(** [let? x := e in k] is Rust's [let x = e?; k]. *)
Notation "'let?' x := e 'in' k" :=
  (match e with Ok x => k | Err err => Err err end)
  (at level 10, x pattern, e at level 100, k at level 200) : pony_scope.

Definition ok_or {A E} (o : option A) (e : E) : result A E :=
  match o with Some a => Ok a | None => Err e end.

Definition result_ok {A E} (r : result A E) : option A :=
  match r with Ok a => Some a | Err _ => None end.

Definition is_some {A} (o : option A) : bool :=
  match o with Some _ => true | None => false end.

Definition is_none {A} (o : option A) : bool := negb (is_some o).

(** ** Machine integers *)

Definition I64_MAX : Z := 2 ^ 63 - 1.
Definition I64_MIN : Z := - 2 ^ 63.
Definition U64_MAX : Z := 2 ^ 64 - 1.
Definition U32_MAX : Z := 2 ^ 32 - 1.
Definition U128_MAX : Z := 2 ^ 128 - 1.

(** Truncating casts: [as uN] keeps the low bits, [as iN] reads them signed. *)
Definition as_unsigned (w : Z) (z : Z) : Z := z mod 2 ^ w.
Definition as_signed (w : Z) (z : Z) : Z :=
  (z + 2 ^ (w - 1)) mod 2 ^ w - 2 ^ (w - 1).

Definition i64_ok (z : Z) : Prop := (I64_MIN <= z <= I64_MAX)%Z.
Definition u32_ok (z : Z) : Prop := (0 <= z <= U32_MAX)%Z.

Section casts.
Local Open Scope Z_scope.
Lemma as_signed_id w z :
  0 < w → - 2 ^ (w - 1) <= z < 2 ^ (w - 1) → as_signed w z = z.
Proof.
  intros Hw Hz. unfold as_signed.
  assert (2 ^ w = 2 * 2 ^ (w - 1)) as Hp.
  { rewrite <- Z.pow_succ_r by lia. f_equal. lia. }
  rewrite Z.mod_small by lia. lia.
Qed.

Lemma as_unsigned_id w z : 0 <= z < 2 ^ w → as_unsigned w z = z.
Proof. intros. unfold as_unsigned. apply Z.mod_small. lia. Qed.

Lemma as_signed_unsigned w z :
  0 < w → - 2 ^ (w - 1) <= z < 2 ^ (w - 1) →
  as_signed w (as_unsigned w z) = z.
Proof.
  intros Hw Hz. unfold as_signed, as_unsigned.
  rewrite Zplus_mod_idemp_l. fold (as_signed w z). by apply as_signed_id.
Qed.
End casts.

(** ** ASCII strings

    Rust strings are UTF-8; case folding is modelled on their ASCII bytes and
    leaves every other byte as it is. *)
#[global] Arguments String.append : simpl nomatch.

Module Str.
Definition lower_ascii (c : ascii) : ascii :=
  let n := nat_of_ascii c in
  if decide (65 ≤ n ∧ n ≤ 90) then ascii_of_nat (n + 32) else c.
Definition upper_ascii (c : ascii) : ascii :=
  let n := nat_of_ascii c in
  if decide (97 ≤ n ∧ n ≤ 122) then ascii_of_nat (n - 32) else c.

Fixpoint map (f : ascii → ascii) (s : string) : string :=
  match s with
  | EmptyString => EmptyString
  | String c s => String (f c) (map f s)
  end.

(** [str::to_lowercase], [str::to_uppercase] *)
Definition to_lowercase := map lower_ascii.
Definition to_uppercase := map upper_ascii.

(** [str::strip_prefix] *)
Fixpoint strip_prefix (p s : string) : option string :=
  match p with
  | EmptyString => Some s
  | String c p =>
    match s with
    | EmptyString => None
    | String d s => if decide (c = d) then strip_prefix p s else None
    end
  end.
Definition starts_with (p s : string) : bool := is_some (strip_prefix p s).

(** [str::split_once] on a one-byte separator *)
Fixpoint split_once (sep : ascii) (s : string) : option (string * string) :=
  match s with
  | EmptyString => None
  | String c s =>
    if decide (c = sep) then Some (EmptyString, s)
    else match split_once sep s with
         | Some (l, r) => Some (String c l, r)
         | None => None
         end
  end.

(** [str::split] on a one-byte separator: never empty *)
Fixpoint split (sep : ascii) (s : string) : list string :=
  match s with
  | EmptyString => [EmptyString]
  | String c s =>
    if decide (c = sep) then EmptyString :: split sep s
    else match split sep s with
         | [] => [String c EmptyString]
         | w :: ws => String c w :: ws
         end
  end.

(** [s.replace("-", "")] *)
Fixpoint remove (sep : ascii) (s : string) : string :=
  match s with
  | EmptyString => EmptyString
  | String c s => if decide (c = sep) then remove sep s else String c (remove sep s)
  end.

(** [[T]::join] on strings *)
Fixpoint join (sep : string) (l : list string) : string :=
  match l with
  | [] => ""
  | [w] => w
  | w :: ws => w +:+ sep +:+ join sep ws
  end.

(** [&s[n..]] *)
Fixpoint drop (n : nat) (s : string) : string :=
  match n, s with
  | O, _ => s
  | S _, EmptyString => EmptyString
  | S n, String _ s => drop n s
  end.

(** [str::trim] on ASCII white space *)
Definition is_space (c : ascii) : bool :=
  let n := nat_of_ascii c in bool_decide (n = 32 ∨ (9 ≤ n ∧ n ≤ 13)).
Fixpoint trim_start (s : string) : string :=
  match s with
  | EmptyString => EmptyString
  | String c s' => if is_space c then trim_start s' else s
  end.
Fixpoint trim_end (s : string) : string :=
  match s with
  | EmptyString => EmptyString
  | String c s =>
    match trim_end s with
    | EmptyString => if is_space c then EmptyString else String c EmptyString
    | t => String c t
    end
  end.
Definition trim (s : string) : string := trim_end (trim_start s).

Definition all (P : ascii → Prop) (s : string) : Prop :=
  Forall P (String.list_ascii_of_string s).
End Str.

Module StrFacts.
Import Str.

Lemma map_app f s t : map f (s +:+ t) = map f s +:+ map f t.
Proof. induction s as [|c s IH]; cbn; [done|]. by rewrite IH. Qed.

Lemma app_nil_r s : s +:+ "" = s.
Proof. induction s as [|c s IH]; cbn; [done|]. by rewrite IH. Qed.

Lemma app_assoc s t u : (s +:+ t) +:+ u = s +:+ t +:+ u.
Proof. induction s as [|c s IH]; cbn; [done|]. by rewrite IH. Qed.

Lemma app_inj_l s t u : s +:+ t = s +:+ u → t = u.
Proof. induction s as [|c s IH]; cbn; [done|]. intros [= H]. auto. Qed.

Lemma list_app s t : String.list_ascii_of_string (s +:+ t) =
  String.list_ascii_of_string s ++ String.list_ascii_of_string t.
Proof. induction s as [|c s IH]; cbn; [done|]. by rewrite IH. Qed.

Lemma app_inj_r s t u : s +:+ u = t +:+ u → s = t.
Proof.
  intros H. apply (f_equal String.list_ascii_of_string) in H. rewrite !list_app in H.
  apply app_inv_tail, (f_equal String.string_of_list_ascii) in H.
  by rewrite !String.string_of_list_ascii_of_string in H.
Qed.

Lemma strip_prefix_app p s : strip_prefix p (p +:+ s) = Some s.
Proof. induction p as [|c p IH]; cbn; [done|]. by rewrite decide_True. Qed.

Lemma strip_prefix_Some p s t : strip_prefix p s = Some t ↔ s = p +:+ t.
Proof.
  split; [|intros ->; apply strip_prefix_app].
  revert s; induction p as [|c p IH]; cbn; intros s H; [congruence|].
  destruct s as [|d s]; [done|]. case_decide; [|done]. subst.
  by rewrite (IH _ H).
Qed.

Lemma starts_with_app p s : starts_with p (p +:+ s) = true.
Proof. unfold starts_with. by rewrite strip_prefix_app. Qed.

Lemma all_app P s t : all P (s +:+ t) ↔ all P s ∧ all P t.
Proof.
  unfold all. induction s as [|c s IH]; cbn.
  - intuition constructor.
  - rewrite !Forall_cons, IH. tauto.
Qed.

Lemma all_impl (P Q : ascii → Prop) s : (∀ c, P c → Q c) → all P s → all Q s.
Proof. intros HPQ Hs. eapply Forall_impl; eauto. Qed.

Lemma split_once_app sep s t :
  all (λ c, c ≠ sep) s → split_once sep (s +:+ String sep t) = Some (s, t).
Proof.
  unfold all. induction s as [|c s IH]; cbn; intros H.
  - by rewrite decide_True.
  - inversion_clear H as [|? ? Hc Hs]. rewrite decide_False by done.
    by rewrite IH.
Qed.

Lemma split_once_none sep s : all (λ c, c ≠ sep) s → split_once sep s = None.
Proof.
  unfold all. induction s as [|c s IH]; cbn; [done|]. intros H.
  inversion_clear H as [|? ? Hc Hs]. rewrite decide_False by done. by rewrite IH.
Qed.

Lemma split_no_sep sep s : all (λ c, c ≠ sep) s → split sep s = [s].
Proof.
  unfold all. induction s as [|c s IH]; cbn; intros H; [done|].
  inversion_clear H as [|? ? Hc Hs]. rewrite decide_False by done. by rewrite IH.
Qed.

Lemma split_app sep s t :
  all (λ c, c ≠ sep) s → split sep (s +:+ String sep t) = s :: split sep t.
Proof.
  unfold all. induction s as [|c s IH]; cbn; intros H.
  - by rewrite decide_True.
  - inversion_clear H as [|? ? Hc Hs]. rewrite decide_False by done.
    by rewrite IH.
Qed.

Lemma split_join sep ws :
  ws ≠ [] → Forall (all (λ c, c ≠ sep)) ws →
  split sep (join (String sep "") ws) = ws.
Proof.
  intros Hne H. induction ws as [|w [|v ws] IH]; [done| |].
  - cbn. inversion_clear H. by apply split_no_sep.
  - inversion_clear H as [|? ? Hw Hws].
    transitivity (split sep (w +:+ String sep (join (String sep "") (v :: ws))));
      [done|].
    rewrite split_app by done. f_equal. by apply IH.
Qed.

Lemma remove_all sep s : all (λ c, c ≠ sep) s → remove sep s = s.
Proof.
  unfold all. induction s as [|c s IH]; cbn; intros H; [done|].
  inversion_clear H as [|? ? Hc Hs]. rewrite decide_False by done. by rewrite IH.
Qed.

Lemma remove_app sep s t : remove sep (s +:+ t) = remove sep s +:+ remove sep t.
Proof. induction s as [|c s IH]; cbn; [done|]. case_decide; cbn; by rewrite IH. Qed.

(** Folding an already folded ASCII character changes nothing. *)
Definition is_lower (c : ascii) : Prop := lower_ascii c = c.
Definition is_upper (c : ascii) : Prop := upper_ascii c = c.

#[export] Instance is_lower_dec c : Decision (is_lower c).
Proof. unfold is_lower. apply _. Defined.
#[export] Instance is_upper_dec c : Decision (is_upper c).
Proof. unfold is_upper. apply _. Defined.

Lemma map_fix f s : all (λ c, f c = c) s → map f s = s.
Proof.
  unfold all. induction s as [|c s IH]; cbn; intros H; [done|].
  inversion_clear H as [|? ? Hc Hs]. by rewrite Hc, IH.
Qed.

Lemma lower_fix s : all is_lower s → to_lowercase s = s.
Proof. apply map_fix. Qed.
Lemma upper_fix s : all is_upper s → to_uppercase s = s.
Proof. apply map_fix. Qed.

Lemma lower_ascii_idem c : lower_ascii (lower_ascii c) = lower_ascii c.
Proof. by destruct c as [[] [] [] [] [] [] [] []]. Qed.

Lemma to_lowercase_idem s : to_lowercase (to_lowercase s) = to_lowercase s.
Proof.
  unfold to_lowercase. induction s as [|c s IH]; cbn; [done|].
  by rewrite lower_ascii_idem, IH.
Qed.

Lemma to_lowercase_lower s : all is_lower (to_lowercase s).
Proof.
  unfold all, to_lowercase. induction s as [|c s IH]; cbn; constructor; [|done].
  apply lower_ascii_idem.
Qed.

Lemma length_app s t : String.length (s +:+ t) = String.length s + String.length t.
Proof. induction s as [|c s IH]; cbn; [done|]. by rewrite IH. Qed.

Lemma length_map f s : String.length (map f s) = String.length s.
Proof. induction s as [|c s IH]; cbn; [done|]. by rewrite IH. Qed.

Lemma length_list s : length (String.list_ascii_of_string s) = String.length s.
Proof. induction s as [|c s IH]; cbn; [done|]. by rewrite IH. Qed.
End StrFacts.

(** ** Iteration over hash maps

    The order in which [std::collections::HashMap] yields its entries is
    unspecified, so it is a parameter: some enumeration of the map's entries.
    Every theorem quantifies over it. *)
Class IterOrder := {
  hiter : ∀ {K : Type} `{Countable K} {V : Type}, gmap K V → list (K * V);
  hiter_perm : ∀ {K : Type} `{Countable K} {V : Type} (m : gmap K V),
    hiter m ≡ₚ map_to_list m;
}.

(** One order: the map's own enumeration. *)
#[export, program] Instance map_order : IterOrder | 100 :=
  {| hiter K _ _ V m := map_to_list m |}.
Next Obligation. done. Qed.
(** Another: the reverse of it. *)
#[program] Definition rev_order : IterOrder :=
  {| hiter K _ _ V m := rev (map_to_list m) |}.
Next Obligation. intros. rewrite <- Permutation_rev. done. Qed.

Section hiter.
Context `{!IterOrder}.
Context {K : Type} `{Countable K} {V : Type}.
Implicit Type m : gmap K V.

Lemma elem_of_hiter m k v : (k, v) ∈ hiter m ↔ m !! k = Some v.
Proof. rewrite hiter_perm. apply elem_of_map_to_list. Qed.

Lemma NoDup_hiter_fst m : NoDup (hiter m).*1.
Proof. rewrite hiter_perm. apply NoDup_fst_map_to_list. Qed.

Lemma NoDup_hiter m : NoDup (hiter m).
Proof. rewrite hiter_perm. apply NoDup_map_to_list. Qed.

Lemma length_hiter m : length (hiter m) = size m.
Proof. rewrite hiter_perm. apply length_map_to_list. Qed.

Definition hvalues m : list V := (hiter m).*2.

Lemma elem_of_hvalues m v : v ∈ hvalues m ↔ ∃ k, m !! k = Some v.
Proof.
  unfold hvalues. rewrite list_elem_of_fmap. split.
  - intros [[k v'] [-> Hin]]. exists k. by apply elem_of_hiter.
  - intros [k Hk]. exists (k, v). by rewrite elem_of_hiter.
Qed.

Lemma hiter_empty : hiter (∅ : gmap K V) = [].
Proof.
  apply Permutation_nil_r. rewrite hiter_perm. by rewrite map_to_list_empty.
Qed.
End hiter.

(** ** Rust iterator methods on lists *)
Section iterators.
Context {A : Type}.

(** [Iterator::find] *)
Fixpoint find (f : A → bool) (l : list A) : option A :=
  match l with [] => None | x :: l => if f x then Some x else find f l end.

(** [Iterator::any] *)
Definition any (f : A → bool) (l : list A) : bool := existsb f l.

(** [Iterator::max_by_key]: the last of the greatest elements. *)
Fixpoint max_by_key_from (key : A → Z) (best : A) (l : list A) : A :=
  match l with
  | [] => best
  | x :: l =>
    max_by_key_from key (if (key best <=? key x)%Z then x else best) l
  end.
Definition max_by_key (key : A → Z) (l : list A) : option A :=
  match l with [] => None | x :: l => Some (max_by_key_from key x l) end.

(** the elements of a list that a test keeps, in order *)
Fixpoint keep (f : A → bool) (l : list A) : list A :=
  match l with [] => [] | x :: l => if f x then x :: keep f l else keep f l end.

Lemma find_Some f l x : find f l = Some x → x ∈ l ∧ f x = true.
Proof.
  induction l as [|y l IH]; cbn; [done|]. destruct (f y) eqn:Hy.
  - intros [= ->]. split; [constructor|done].
  - intros H. destruct (IH H). split; [by constructor|done].
Qed.

Lemma find_None f l : find f l = None ↔ ∀ x, x ∈ l → f x = false.
Proof.
  induction l as [|y l IH]; cbn; [split; [by intros _ x ?%not_elem_of_nil|done]|].
  destruct (f y) eqn:Hy.
  - split; [done|]. intros Hall. rewrite (Hall y) in Hy by constructor. done.
  - rewrite IH. split.
    + intros H x [->|?]%elem_of_cons; auto.
    + intros H x ?. apply H. by constructor.
Qed.

Lemma elem_of_keep f l x : x ∈ keep f l ↔ x ∈ l ∧ f x = true.
Proof.
  induction l as [|y l IH]; cbn.
  - split; [by intros ?%not_elem_of_nil|by intros [?%not_elem_of_nil _]].
  - destruct (f y) eqn:Hy; rewrite ?elem_of_cons, IH; naive_solver congruence.
Qed.

Lemma keep_nil f l : keep f l = [] ↔ ∀ x, x ∈ l → f x = false.
Proof.
  split.
  - intros Hk x Hx. destruct (f x) eqn:Hf; [|done].
    assert (x ∈ keep f l) as Hin by by apply elem_of_keep.
    rewrite Hk in Hin. by apply not_elem_of_nil in Hin.
  - intros H. destruct (keep f l) as [|x k] eqn:Hk; [done|].
    assert (x ∈ keep f l) as [Hin Hf]%elem_of_keep by (rewrite Hk; constructor).
    rewrite H in Hf by done. done.
Qed.

Lemma any_true f l : any f l = true ↔ ∃ x, x ∈ l ∧ f x = true.
Proof.
  unfold any. rewrite existsb_exists. by setoid_rewrite list_elem_of_In.
Qed.

Lemma any_false f l : any f l = false ↔ ∀ x, x ∈ l → f x = false.
Proof.
  destruct (any f l) eqn:Ha.
  - apply any_true in Ha as (x & Hx & Hf). split; [done|]. intros H.
    rewrite H in Hf; done.
  - split; [|done]. intros _ x Hx. destruct (f x) eqn:Hf; [|done].
    exfalso. assert (any f l = true) by (apply any_true; eauto). congruence.
Qed.

Lemma max_by_key_from_spec key best l :
  max_by_key_from key best l ∈ best :: l ∧
  ∀ x, x ∈ best :: l → (key x <= key (max_by_key_from key best l))%Z.
Proof.
  revert best; induction l as [|y l IH]; intros best; cbn.
  - split; [constructor|]. intros x [->|?%not_elem_of_nil]%elem_of_cons; [lia|done].
  - destruct (IH (if (key best <=? key y)%Z then y else best)) as [Hin Hmax].
    split.
    + destruct (Z.leb_spec (key best) (key y)); revert Hin; set_solver.
    + assert (∀ x, x ∈ l → (key x <= key (max_by_key_from key
        (if (key best <=? key y)%Z then y else best) l))%Z) as Hl by
        (intros; apply Hmax; by constructor).
      assert ((key (if (key best <=? key y)%Z then y else best) <=
        key (max_by_key_from key (if (key best <=? key y)%Z then y else best) l))%Z)
        as Hb by (apply Hmax; constructor).
      intros x [->|[->|?]%elem_of_cons]%elem_of_cons; [| |by apply Hl];
        destruct (Z.leb_spec (key best) (key y)); lia.
Qed.

Lemma max_by_key_Some key l x :
  max_by_key key l = Some x →
  x ∈ l ∧ ∀ y, y ∈ l → (key y <= key x)%Z.
Proof.
  destruct l as [|y l]; [done|]. intros [= <-]. apply max_by_key_from_spec.
Qed.

Lemma max_by_key_None key l : max_by_key key l = None ↔ l = [].
Proof. by destruct l. Qed.
End iterators.

(** ** Automation *)
Create HintDb pony discriminated.
Create Rewrite HintDb pony_rw.
#[export] Hint Resolve elem_of_hiter elem_of_hvalues NoDup_hiter_fst : pony.
#[export] Hint Rewrite @StrFacts.strip_prefix_app @StrFacts.starts_with_app
  @StrFacts.app_nil_r : pony_rw.

(** Case analysis on the innermost scrutinee of a [match] in the goal. *)
Ltac case_goal :=
  match goal with
  | |- context [match ?x with _ => _ end] =>
    lazymatch x with
    | context [match _ with _ => _ end] => fail
    | _ => destruct x eqn:?
    end
  end.
(** The same in a hypothesis. *)
Ltac case_hyp H :=
  match type of H with
  | context [match ?x with _ => _ end] =>
    lazymatch x with
    | context [match _ with _ => _ end] => fail
    | _ => destruct x eqn:?
    end
  end.
