(* ===== verification/Task.v ===== *)
(** * Asynchronous tasks

    The services are tokio programs: a handler runs between [.await] points
    and other tasks may run at each of them.  A task is a resumption: it is
    finished, it has panicked (the release profile aborts), or it performs one
    action on the shared world and goes on from the action's answer.  [run]
    executes one task alone; [pool_step] interleaves any number of them, and
    [okp] is the rely/guarantee condition under which every step of every
    interleaving preserves an invariant. *)
From S2P Require Import Prelude.

Inductive Prog (W A : Type) : Type :=
| Ret (a : A)
| Panic
| Act (X : Type) (f : W → W * X) (k : X → Prog W A).
Arguments Ret {W A} a.
Arguments Panic {W A}.
Arguments Act {W A X} f k.

Section prog.
Context {W : Type}.

Fixpoint bind {A B} (p : Prog W A) (h : A → Prog W B) : Prog W B :=
  match p with
  | Ret a => h a
  | Panic => Panic
  | Act f k => Act f (λ x, bind (k x) h)
  end.

(** One task on its own: [None] is a panic. *)
Fixpoint run {A} (p : Prog W A) (w : W) : W * option A :=
  match p with
  | Ret a => (w, Some a)
  | Panic => (w, None)
  | Act f k => let '(w', x) := f w in run (k x) w'
  end.

Lemma run_bind {A B} (p : Prog W A) (h : A → Prog W B) w :
  run (bind p h) w =
  match run p w with
  | (w', Some a) => run (h a) w'
  | (w', None) => (w', None)
  end.
Proof.
  revert w; induction p as [a| |X f k IH]; intros w; cbn; [done|done|].
  destruct (f w) as [w' x]. apply IH.
Qed.

(** A section that holds the lock on what it touches: one action. *)
Definition atomic {A} (p : Prog W A) : Prog W A :=
  Act (run p) (λ r, match r with Some a => Ret a | None => Panic end).

Lemma run_atomic {A} (p : Prog W A) w : run (atomic p) w = run p w.
Proof. cbn. destruct (run p w) as [w' [a|]]; done. Qed.

Definition reads {A} (f : W → A) : Prog W A := Act (λ w, (w, f w)) Ret.
Definition modifies (f : W → W) : Prog W unit := Act (λ w, (f w, tt)) Ret.

(** A task that panics on no answer. *)
Fixpoint total {A} (p : Prog W A) : Prop :=
  match p with
  | Ret _ => True
  | Panic => False
  | Act f k => ∀ x, total (k x)
  end.

Lemma total_bind {A B} (p : Prog W A) (h : A → Prog W B) :
  total p → (∀ a, total (h a)) → total (bind p h).
Proof. induction p as [a| |X f k IH]; cbn; auto. Qed.

Lemma run_total {A} (p : Prog W A) w : total p → is_Some (run p w).2.
Proof.
  revert w; induction p as [a| |X f k IH]; cbn; intros w Hp; [by eexists|done|].
  destruct (f w) as [w' x]. by apply IH.
Qed.

(** [for x in l { body }] with a body that may return early: [Some r] leaves
    the enclosing function with [r]. *)
Fixpoint for_each {A} (l : list A) (body : A → Prog W unit) : Prog W unit :=
  match l with
  | [] => Ret tt
  | x :: l => bind (body x) (λ _, for_each l body)
  end.

(** [join_all] on tasks polled in order, each to its end. *)
Fixpoint collect {A B} (l : list A) (body : A → Prog W B) : Prog W (list B) :=
  match l with
  | [] => Ret []
  | x :: l => bind (body x) (λ y, bind (collect l body) (λ ys, Ret (y :: ys)))
  end.

(** A loop whose body may leave it, or the function around it, early. *)
Fixpoint for_until {A R} (l : list A) (body : A → Prog W (option R)) :
    Prog W (option R) :=
  match l with
  | [] => Ret None
  | x :: l =>
    bind (body x) (λ r, match r with Some r => Ret (Some r) | None => for_until l body end)
  end.
End prog.

Declare Scope prog_scope.
Delimit Scope prog_scope with prog.
Notation "x <- p ;; q" := (bind p (λ x, q))
  (at level 100, p at next level, right associativity) : prog_scope.
Notation "' pat <- p ;; q" := (bind p (λ x, match x with pat => q end))
  (at level 100, pat pattern, p at next level, right associativity) : prog_scope.
Notation "p ;; q" := (bind p (λ _, q))
  (at level 100, right associativity) : prog_scope.
(** [.await?] *)
Notation "x <-? p ;; q" :=
  (bind p (λ r, match r with Ok x => q | Err e => Ret (Err e) end))
  (at level 100, p at next level, right associativity) : prog_scope.

(** ** Interleaving *)
Section pool.
Context {W : Type}.

(** The running tasks and the world they share.  A new task may start at any
    time, provided it is one of the [service]'s. *)
Inductive pool_step (service : Prog W unit → Prop) :
    list (Prog W unit) * W → list (Prog W unit) * W → Prop :=
| step_spawn p ps w :
    service p → pool_step service (ps, w) (p :: ps, w)
| step_act (X : Type) (f : W → W * X) k ps qs w w' x :
    f w = (w', x) →
    pool_step service (ps ++ Act f k :: qs, w) (ps ++ k x :: qs, w').

Definition reachable service (w0 w : W) : Prop :=
  ∃ ps, rtc (pool_step service) ([], w0) (ps, w).

(** One action of the [n]th task, and a schedule of them. *)
Definition step_at (n : nat) (s : list (Prog W unit) * W) : list (Prog W unit) * W :=
  match s.1 !! n with
  | Some (Act f k) => (<[n := k (f s.2).2]> s.1, (f s.2).1)
  | _ => s
  end.
Definition schedule (ns : list nat) (s : list (Prog W unit) * W) : list (Prog W unit) * W :=
  foldl (λ s n, step_at n s) s ns.

Lemma schedule_steps service ns s : rtc (pool_step service) s (schedule ns s).
Proof.
  revert s; induction ns as [|n ns IH]; intros s; cbn; [reflexivity|].
  etransitivity; [|apply IH]. unfold step_at. destruct s as [ps w]. cbn [fst snd].
  destruct (ps !! n) as [[a| |X f k]|] eqn:Hn; [reflexivity..| |reflexivity].
  apply rtc_once. rewrite <- (take_drop_middle ps n _ Hn) at 1.
  rewrite insert_take_drop by (by eapply lookup_lt_Some).
  apply step_act. by destruct (f w).
Qed.

Lemma schedule_reachable service ns ps w :
  Forall service ps → reachable service w (schedule ns (ps, w)).2.
Proof.
  intros Hps. exists (schedule ns (ps, w)).1. rewrite <- surjective_pairing.
  etransitivity; [|apply schedule_steps].
  induction Hps as [|p ps Hp _ IH]; [reflexivity|].
  etransitivity; [exact IH|]. by apply rtc_once, step_spawn.
Qed.

(** From [w] on, whatever the other tasks do. *)
Definition onward (I : W → Prop) (G : W → W → Prop) (P : W → Prop) (w : W) : Prop :=
  ∀ w', G w w' → I w' → P w'.

(** [rg I G p Q w]: started when the world was [w], and resumed whenever the
    other tasks have moved the world along [G] to a state with [I], every
    action of [p] preserves [I] and moves along [G], and [p]'s answer satisfies
    [Q] from then on. *)
Fixpoint rg {A} (I : W → Prop) (G : W → W → Prop) (p : Prog W A)
    (Q : A → W → Prop) (w : W) : Prop :=
  match p with
  | Ret a => onward I G (Q a) w
  | Panic => True
  | Act f k => ∀ w', G w w' → I w' →
      I (f w').1 ∧ G w' (f w').1 ∧ rg I G (k (f w').2) Q (f w').1
  end.
(** Without an answer to speak of. *)
Definition okp {A} (I : W → Prop) (G : W → W → Prop) (p : Prog W A) (w : W) : Prop :=
  rg I G p (λ _ _, True) w.

Context (I : W → Prop) (G : W → W → Prop) `{!PreOrder G}.

Lemma onward_mono P w w' : G w w' → onward I G P w → onward I G P w'.
Proof using PreOrder0. intros Hg HP w'' Hg' HI. apply HP; [by etransitivity|done]. Qed.

Lemma rg_mono {A} (p : Prog W A) Q w w' : G w w' → rg I G p Q w → rg I G p Q w'.
Proof using PreOrder0.
  destruct p as [a| |X f k]; cbn; [apply onward_mono|done|].
  intros Hg Hok w'' Hg' HI. apply Hok; [by etransitivity|done].
Qed.

Lemma rg_delay {A} (p : Prog W A) Q w :
  (∀ w', G w w' → I w' → rg I G p Q w') → rg I G p Q w.
Proof using PreOrder0.
  destruct p as [a| |X f k]; cbn; [|done|]; intros Hok w' Hg HI;
    (apply (Hok w'); [done|done|reflexivity|done]).
Qed.

Lemma rg_post {A} (p : Prog W A) (Q R : A → W → Prop) w :
  (∀ a w', G w w' → onward I G (Q a) w' → onward I G (R a) w') →
  rg I G p Q w → rg I G p R w.
Proof using PreOrder0.
  revert w; induction p as [a| |X f k IH]; intros w HQR; cbn; [|done|].
  - by apply HQR.
  - intros Hok w' Hg HI. destruct (Hok w' Hg HI) as (HI' & Hg' & Hk).
    split_and!; [done|done|]. apply IH; [|done].
    intros a w'' Hg''. apply HQR. by do 2 (etransitivity; [done|]).
Qed.

Lemma rg_bind {A B} (p : Prog W A) (h : A → Prog W B) Q R w :
  rg I G p Q w →
  (∀ a w', G w w' → I w' → onward I G (Q a) w' → rg I G (h a) R w') →
  rg I G (bind p h) R w.
Proof using PreOrder0.
  revert w; induction p as [a| |X f k IH]; intros w Hp Hh; cbn in *.
  - apply rg_delay. intros w' Hg HI. apply Hh; [done|done|]. by eapply onward_mono.
  - done.
  - intros w' Hg HI. destruct (Hp w' Hg HI) as (HI' & Hg' & Hk).
    split_and!; [done|done|]. apply IH; [done|].
    intros a w'' Hg''. apply Hh. by do 2 (etransitivity; [done|]).
Qed.

(** What a task knows and nobody can take away. *)
Lemma rg_frame {A} (p : Prog W A) Q (P : W → Prop) w :
  onward I G P w → rg I G p Q w → rg I G p (λ a w, P w ∧ Q a w) w.
Proof using PreOrder0.
  intros HP. apply rg_post. intros a w' Hg HQ w'' Hg' HI. split; [|by apply HQ].
  apply HP; [by etransitivity|done].
Qed.

(** One task alone, whatever its scheduler answers. *)
Lemma rg_run {A} (p : Prog W A) Q w :
  rg I G p Q w → I w →
  I (run p w).1 ∧ G w (run p w).1 ∧
  match (run p w).2 with Some a => onward I G (Q a) (run p w).1 | None => True end.
Proof using PreOrder0.
  revert w; induction p as [a| |X f k IH]; intros w Hp HI; cbn in *; [done|done|].
  destruct (Hp w ltac:(reflexivity) HI) as (HI' & Hg & Hk).
  destruct (f w) as [w' x]; cbn in *. destruct (IH x w' Hk HI') as (H1 & H2 & H3).
  split_and!; [done|by etransitivity|done].
Qed.

Lemma okp_ret {A} (a : A) w : okp I G (Ret a) w.
Proof. done. Qed.

Lemma okp_bind {A B} (p : Prog W A) (h : A → Prog W B) w :
  okp I G p w → (∀ a w', okp I G (h a) w') → okp I G (bind p h) w.
Proof using PreOrder0. intros Hp Hh. eapply rg_bind; [exact Hp|]. intros; apply Hh. Qed.

Lemma okp_act {X A} (f : W → W * X) (k : X → Prog W A) w :
  (∀ w', I w' → I (f w').1 ∧ G w' (f w').1) → (∀ x w', okp I G (k x) w') →
  okp I G (Act f k) w.
Proof. intros Hf Hk w' _ HI. destruct (Hf w' HI). split_and!; [done|done|apply Hk]. Qed.

(** A program whose [run] alone preserves [I] along [G] is a good atomic
    action. *)
Lemma okp_atomic {A} (p : Prog W A) w :
  (∀ w', I w' → I (run p w').1 ∧ G w' (run p w').1) → okp I G (atomic p) w.
Proof. intros Hp. apply okp_act; [done|]. by intros [a|]. Qed.

Lemma okp_for_each {A} (l : list A) (body : A → Prog W unit) w :
  (∀ x w', okp I G (body x) w') → okp I G (for_each l body) w.
Proof.
  intros Hb. revert w; induction l as [|x l IH]; intros w; [done|].
  apply okp_bind; auto.
Qed.

Lemma okp_for_until {A R} (l : list A) (body : A → Prog W (option R)) w :
  (∀ x w', okp I G (body x) w') → okp I G (for_until l body) w.
Proof.
  intros Hb. revert w; induction l as [|x l IH]; intros w; [done|].
  apply okp_bind; [done|]. intros [r|] ?; [done|apply IH].
Qed.

(** In every interleaving, every reachable state satisfies the invariant. *)
Lemma pool_invariant service w0 w :
  (∀ p w, service p → okp I G p w) →
  I w0 → reachable service w0 w → I w ∧ G w0 w.
Proof.
  intros Hserv HI0 [ps Hrtc].
  set (good := λ s : list (Prog W unit) * W,
    (I s.2 ∧ G w0 s.2) ∧ Forall (λ p, okp I G p s.2) s.1).
  enough (good (ps, w)) as [? _] by done.
  revert Hrtc. generalize (ps, w). clear ps w. intros s Hrtc.
  assert (good ([], w0)) as Hgood by (split; [by split|constructor]). revert Hgood.
  induction Hrtc as [s|s1 s2 s3 Hstep _ IH]; [done|].
  intros [[HI HG] Hps]. apply IH. destruct Hstep as [p ps w Hp|X f k ps qs w w' x Hf].
  - split; [done|]. constructor; [by apply Hserv|done].
  - apply Forall_app in Hps as [Hps Hqs]. inversion_clear Hqs as [|? ? Hact Hqs'].
    destruct (Hact w) as (HI' & Hg & Hk); [reflexivity|done|].
    rewrite Hf in HI', Hg, Hk. cbn in *. split; [split; [done|by etransitivity]|].
    apply Forall_app; split; [|constructor; [done|]];
      eapply Forall_impl; eauto; intros; by eapply rg_mono.
Qed.
End pool.

(** ** Futures polled together

    [join_all] and [try_join_all] run their futures in one task, switching
    between them at every action; [pick] is whose turn it is. *)
Section join.
Context {W : Type} (pick : W → W * bool).

Fixpoint join2 {A B} (p : Prog W A) : Prog W B → Prog W (A * B) :=
  match p with
  | Ret a => λ q, bind q (λ b, Ret (a, b))
  | Panic => λ _, Panic
  | Act f k => fix right q :=
    match q with
    | Ret b => bind (Act f k) (λ a, Ret (a, b))
    | Panic => Panic
    | Act g h => Act pick (λ left : bool,
        if left then Act f (λ x, join2 (k x) q) else Act g (λ y, right (h y)))
    end
  end.

Fixpoint join_all {A} (ps : list (Prog W A)) : Prog W (list A) :=
  match ps with
  | [] => Ret []
  | p :: ps => bind (join2 p (join_all ps)) (λ '(a, l), Ret (a :: l))
  end.

(** The first error cancels the futures that are still running. *)
Fixpoint try_join2 {A B E} (p : Prog W (result A E)) :
    Prog W (result B E) → Prog W (result (A * B) E) :=
  match p with
  | Ret (Err e) => λ _, Ret (Err e)
  | Ret (Ok a) => λ q,
    bind q (λ b, match b with Ok b => Ret (Ok (a, b)) | Err e => Ret (Err e) end)
  | Panic => λ _, Panic
  | Act f k => fix right q :=
    match q with
    | Ret (Err e) => Ret (Err e)
    | Ret (Ok b) =>
      bind (Act f k) (λ a, match a with Ok a => Ret (Ok (a, b)) | Err e => Ret (Err e) end)
    | Panic => Panic
    | Act g h => Act pick (λ left : bool,
        if left then Act f (λ x, try_join2 (k x) q) else Act g (λ y, right (h y)))
    end
  end.

Fixpoint try_join_all {A E} (ps : list (Prog W (result A E))) :
    Prog W (result (list A) E) :=
  match ps with
  | [] => Ret (Ok [])
  | p :: ps =>
    bind (try_join2 p (try_join_all ps))
      (λ r, match r with Ok (a, l) => Ret (Ok (a :: l)) | Err e => Ret (Err e) end)
  end.

(** One future alone runs as itself. *)
Lemma run_try_join_one {A E} (p : Prog W (result A E)) w :
  run (try_join_all [p]) w =
  match run p w with
  | (w', Some (Ok a)) => (w', Some (Ok [a]))
  | (w', Some (Err e)) => (w', Some (Err e))
  | (w', None) => (w', None)
  end.
Proof using.
  cbn. rewrite run_bind. destruct p as [[a|e]| |X f k]; [done..|].
  change (try_join2 (Act f k) (Ret (Ok []))) with
    (bind (Act f k) (λ a : result A E, match a with
      | Ok a => Ret (Ok (a, [])) | Err e => Ret (Err e) end) : Prog W (result (A * list A) E)).
  rewrite run_bind. by destruct (run (Act f k) w) as [w' [[a|e]|]].
Qed.

Lemma total_join2 {A B} (p : Prog W A) (q : Prog W B) :
  total p → total q → total (join2 p q).
Proof using.
  revert q; induction p as [a| |X f k IH]; intros q Hp Hq; cbn [join2]; [|done|].
  - by apply total_bind.
  - revert Hp Hq. induction q as [b| |Y g h IHq]; intros Hp Hq; [|done|].
    + by apply (total_bind (Act f k)).
    + intros [] x; [by apply IH|by apply IHq].
Qed.

Lemma total_join_all {A X} (l : list X) (body : X → Prog W A) :
  (∀ x, total (body x)) → total (join_all (body <$> l)).
Proof using.
  intros Hb. induction l as [|x l IH]; cbn; [done|].
  apply total_bind; [by apply total_join2|]. by intros [].
Qed.

Lemma total_try_join2 {A B E} (p : Prog W (result A E)) (q : Prog W (result B E)) :
  total p → total q → total (try_join2 p q).
Proof using.
  revert q; induction p as [[a|e]| |X f k IH]; intros q Hp Hq; cbn [try_join2]; [|done|done|].
  - apply total_bind; [done|]. by intros [].
  - revert Hp Hq. induction q as [[b|e]| |Y g h IHq]; intros Hp Hq; [|done|done|].
    + apply (total_bind (Act f k)); [done|]. by intros [].
    + intros [] x; [by apply IH|by apply IHq].
Qed.

Context (I : W → Prop) (G : W → W → Prop) `{!PreOrder G}.
Context (Hpick : ∀ w, I w → I (pick w).1 ∧ G w (pick w).1).

Lemma rg_join2 {A B} (p : Prog W A) (q : Prog W B) Q R w :
  rg I G p Q w → rg I G q R w →
  rg I G (join2 p q) (λ ab w, Q ab.1 w ∧ R ab.2 w) w.
Proof using Hpick PreOrder0.
  revert q w; induction p as [a| |X f k IH]; intros q w Hp Hq; cbn [join2]; [|done|].
  - eapply (rg_bind I G); [exact (rg_frame I G _ _ _ _ Hp Hq)|]. intros b w' _ _ Hqr. exact Hqr.
  - revert w Hp Hq. induction q as [b| |Y g h IHq]; intros w Hp Hq; [|done|].
    + eapply (rg_bind I G); [exact (rg_frame I G (Act f k) _ _ _ Hq Hp)|].
      intros a w' _ _ Hqr w'' Hg HI. apply and_comm. by apply Hqr.
    + intros w1 Hg1 HI1. destruct (Hpick w1 HI1) as [HI2 Hg2].
      split_and!; [done|done|]. destruct (pick w1).2.
      * intros w3 Hg3 HI3. destruct (Hp w3) as (HI4 & Hg4 & Hk); [|done|].
        { by do 2 (etransitivity; [done|]). }
        split_and!; [done|done|]. apply IH; [done|].
        eapply (rg_mono I G); [|exact Hq]. by do 3 (etransitivity; [done|]).
      * intros w3 Hg3 HI3. destruct (Hq w3) as (HI4 & Hg4 & Hk); [|done|].
        { by do 2 (etransitivity; [done|]). }
        split_and!; [done|done|]. apply IHq; [|done].
        eapply (rg_mono I G (Act f k)); [|exact Hp]. by do 3 (etransitivity; [done|]).
Qed.

Lemma rg_join_all {A X} (l : list X) (body : X → Prog W A) (Q : X → A → W → Prop) w :
  (∀ x, x ∈ l → rg I G (body x) (Q x) w) →
  rg I G (join_all (body <$> l)) (λ ys w, Forall2 (λ x y, Q x y w) l ys) w.
Proof using Hpick PreOrder0.
  induction l as [|x l IH]; intros Hb; cbn.
  - intros w' _ _. constructor.
  - eapply (rg_bind I G); [apply rg_join2; [apply Hb; left|apply IH; intros; apply Hb; by right]|].
    intros [y ys] w' _ _ HQ. cbn. intros w'' Hg HI. destruct (HQ w'' Hg HI). by constructor.
Qed.

(** What is known of an answer, and of an error. *)
Definition on_res {A E} (Q : A → W → Prop) (P : E → W → Prop) (r : result A E) (w : W) :
    Prop :=
  match r with Ok a => Q a w | Err e => P e w end.
Definition on_ok {A E} (Q : A → W → Prop) : result A E → W → Prop := on_res Q (λ _ _, True).

Lemma rg_try_join2 {A B E} (p : Prog W (result A E)) (q : Prog W (result B E)) Q R P w :
  rg I G p (on_res Q P) w → rg I G q (on_res R P) w →
  rg I G (try_join2 p q) (on_res (λ ab w, Q ab.1 w ∧ R ab.2 w) P) w.
Proof using Hpick PreOrder0.
  revert q w; induction p as [[a|e]| |X f k IH]; intros q w Hp Hq; cbn [try_join2];
    [|done|done|].
  - eapply (rg_bind I G); [exact (rg_frame I G _ _ _ _ Hp Hq)|].
    intros [b|e] w' _ _ Hqr; [exact Hqr|]. intros w'' Hg HI. by apply Hqr.
  - revert w Hp Hq. induction q as [[b|e]| |Y g h IHq]; intros w Hp Hq; [|done|done|].
    + eapply (rg_bind I G); [exact (rg_frame I G (Act f k) _ _ _ Hq Hp)|].
      intros [a|e] w' _ _ Hqr w'' Hg HI; [apply and_comm|]; by apply Hqr.
    + intros w1 Hg1 HI1. destruct (Hpick w1 HI1) as [HI2 Hg2].
      split_and!; [done|done|]. destruct (pick w1).2.
      * intros w3 Hg3 HI3. destruct (Hp w3) as (HI4 & Hg4 & Hk); [|done|].
        { by do 2 (etransitivity; [done|]). }
        split_and!; [done|done|]. apply IH; [done|].
        eapply (rg_mono I G); [|exact Hq]. by do 3 (etransitivity; [done|]).
      * intros w3 Hg3 HI3. destruct (Hq w3) as (HI4 & Hg4 & Hk); [|done|].
        { by do 2 (etransitivity; [done|]). }
        split_and!; [done|done|]. apply IHq; [|done].
        eapply (rg_mono I G (Act f k)); [|exact Hp]. by do 3 (etransitivity; [done|]).
Qed.

Lemma okp_on_ok {A E} (p : Prog W (result A E)) w :
  okp I G p w ↔ rg I G p (on_ok (λ _ _, True)) w.
Proof using PreOrder0.
  split; apply (rg_post I G); [|done]. by intros [a|e] w' _ _ w'' _ _.
Qed.

Lemma okp_try_join2 {A B E} (p : Prog W (result A E)) (q : Prog W (result B E)) w :
  okp I G p w → okp I G q w → okp I G (try_join2 p q) w.
Proof using Hpick PreOrder0.
  rewrite !okp_on_ok. intros Hp Hq. eapply (rg_post I G), (rg_try_join2 _ _ _ _ _ _ Hp Hq).
  by intros [] w' _ _ w'' _ _.
Qed.

Lemma rg_try_join_all {A E X} (l : list X) (body : X → Prog W (result A E))
    (Q : X → A → W → Prop) (P : E → W → Prop) w :
  (∀ x, x ∈ l → rg I G (body x) (on_res (Q x) P) w) →
  rg I G (try_join_all (body <$> l)) (on_res (λ ys w, Forall2 (λ x y, Q x y w) l ys) P) w.
Proof using Hpick PreOrder0.
  induction l as [|x l IH]; intros Hb; cbn.
  - intros w' _ _. constructor.
  - eapply (rg_bind I G); [apply (rg_try_join2 _ _ (Q x)
      (λ ys w, Forall2 (λ x y, Q x y w) l ys) P); [apply Hb; left|apply IH; intros; apply Hb; by right]|].
    intros [[y ys]|e] w' _ _ HQ w'' Hg HI; specialize (HQ w'' Hg HI); [|done].
    destruct HQ. by constructor.
Qed.

Lemma okp_try_join_all {A E} (ps : list (Prog W (result A E))) w :
  (∀ p, p ∈ ps → okp I G p w) → okp I G (try_join_all ps) w.
Proof using Hpick PreOrder0.
  induction ps as [|p ps IH]; intros Hps; cbn; [done|].
  apply (okp_bind I G); [|by intros [[]|]].
  apply okp_try_join2; [apply Hps; left|apply IH; intros; apply Hps; by right].
Qed.
End join.

(** ** What the actions say

    When a task is known to preserve [I] along [G] ([okp]), what else its
    actions do ([S], a relation between the world before and after one of them)
    is proved with that in hand. *)
Section attest.
Context {W : Type} (I : W → Prop) (G S : W → W → Prop) `{!PreOrder G}.

Fixpoint attests {A} (p : Prog W A) (Q : A → W → Prop) (w : W) : Prop :=
  match p with
  | Ret a => onward I G (Q a) w
  | Panic => True
  | Act f k => ∀ w', G w w' → I w' → I (f w').1 → G w' (f w').1 →
      S w' (f w').1 ∧ attests (k (f w').2) Q (f w').1
  end.

Lemma attests_mono {A} (p : Prog W A) Q w w' : G w w' → attests p Q w → attests p Q w'.
Proof using PreOrder0.
  destruct p as [a| |X f k]; cbn; [by apply onward_mono|done|].
  intros Hg Hok w'' Hg' HI. apply Hok; [by etransitivity|done].
Qed.

Lemma attests_delay {A} (p : Prog W A) Q w :
  (∀ w', G w w' → I w' → attests p Q w') → attests p Q w.
Proof using PreOrder0.
  destruct p as [a| |X f k]; cbn; [|done|]; intros Hok w' Hg HI;
    (apply (Hok w'); [done|done|reflexivity|done]).
Qed.

Lemma attests_bind {A B} (p : Prog W A) (h : A → Prog W B) Q R w :
  attests p Q w →
  (∀ a w', G w w' → I w' → onward I G (Q a) w' → attests (h a) R w') →
  attests (bind p h) R w.
Proof using PreOrder0.
  revert w; induction p as [a| |X f k IH]; intros w Hp Hh; cbn in *.
  - apply attests_delay. intros w' Hg HI. apply Hh; [done|done|]. by eapply onward_mono.
  - done.
  - intros w' Hg HI HI' Hg'. destruct (Hp w' Hg HI HI' Hg') as [HS Hk].
    split; [done|]. apply IH; [done|].
    intros a w'' Hg''. apply Hh. by do 2 (etransitivity; [done|]).
Qed.

Lemma attests_post {A} (p : Prog W A) (Q R : A → W → Prop) w :
  (∀ a w', Q a w' → R a w') → attests p Q w → attests p R w.
Proof using.
  intros HQR. revert w; induction p as [a| |X f k IH]; intros w; cbn; [|done|].
  - intros HQ w' Hg HI. by apply HQR, HQ.
  - intros Hok w' Hg HI HI' Hg'. destruct (Hok w' Hg HI HI' Hg'). auto.
Qed.

Lemma attests_for_each {A} (l : list A) (body : A → Prog W unit) w :
  (∀ x w', x ∈ l → G w w' → attests (body x) (λ _ _, True) w') →
  attests (for_each l body) (λ _ _, True) w.
Proof using PreOrder0.
  revert w; induction l as [|x l IH]; intros w Hb; [by intros w' _ _|]. cbn [for_each].
  eapply attests_bind; [apply Hb; [left|reflexivity]|]. intros [] w1 Hg _ _. apply IH.
  intros y w' Hy Hg'. apply Hb; [by right|by etransitivity].
Qed.

(** Attesting what is already safe adds to the invariant. *)
Lemma okp_attests {A} (J : W → Prop) (p : Prog W A) w :
  (∀ w w', J w → G w w' → S w w' → J w') →
  okp I G p w → attests p (λ _ _, True) w → okp (λ w, I w ∧ J w) G p w.
Proof using.
  intros HJ. revert w; induction p as [a| |X f k IH]; intros w Hok Hat; [by intros w' _ _|done|].
  intros w' Hg [HI HJ']. destruct (Hok w' Hg HI) as (HI' & Hg' & Hk).
  destruct (Hat w' Hg HI HI' Hg') as [HS Hk']. refine (conj (conj HI' _) (conj Hg' _));
    [by eapply HJ|by apply IH].
Qed.

Context (pick : W → W * bool) (Hpick : ∀ w, S w (pick w).1).

Lemma attests_join2 {A B} (p : Prog W A) (q : Prog W B) w :
  attests p (λ _ _, True) w → attests q (λ _ _, True) w →
  attests (join2 pick p q) (λ _ _, True) w.
Proof using Hpick PreOrder0.
  revert q w; induction p as [a| |X f k IH]; intros q w Hp Hq; cbn [join2]; [|done|].
  - eapply attests_bind; [exact Hq|]. by intros b w' _ _ _ w'' _ _.
  - revert w Hp Hq. induction q as [b| |Y g h IHq]; intros w Hp Hq; [|done|].
    + eapply attests_bind; [exact Hp|]. by intros a w' _ _ _ w'' _ _.
    + intros w1 Hg1 HI1 HI2 Hg2. split; [by apply Hpick|].
      destruct (pick w1).2; intros w3 Hg3 HI3 HI4 Hg4.
      * destruct (Hp w3) as [HS Hk]; [by do 2 (etransitivity; [done|])|done..|].
        split; [done|]. apply IH; [done|]. eapply attests_mono; [|exact Hq].
        by do 3 (etransitivity; [done|]).
      * destruct (Hq w3) as [HS Hk]; [by do 2 (etransitivity; [done|])|done..|].
        split; [done|]. apply IHq; [|done]. eapply (attests_mono (Act f k)); [|exact Hp].
        by do 3 (etransitivity; [done|]).
Qed.

Lemma attests_join_all {A X} (l : list X) (body : X → Prog W A) w :
  (∀ x, x ∈ l → attests (body x) (λ _ _, True) w) →
  attests (join_all pick (body <$> l)) (λ _ _, True) w.
Proof using Hpick PreOrder0.
  induction l as [|x l IH]; intros Hb; cbn; [by intros w' _ _|].
  eapply attests_bind;
    [apply attests_join2; [apply Hb; left|apply IH; intros; apply Hb; by right]|].
  by intros [y ys] w' _ _ _ w'' _ _.
Qed.
End attest.

(** ** What a task leaves alone

    A task no action of which changes what [view] shows of the world. *)
Section spares.
Context {W V : Type} (view : W → V).

Fixpoint spares {A} (p : Prog W A) : Prop :=
  match p with
  | Ret _ | Panic => True
  | Act f k => (∀ w, view (f w).1 = view w) ∧ ∀ x, spares (k x)
  end.

Lemma spares_bind {A B} (p : Prog W A) (h : A → Prog W B) :
  spares p → (∀ a, spares (h a)) → spares (bind p h).
Proof using. induction p as [a| |X f k IH]; cbn; [auto..|]. intros [Hf Hk] Hh. auto. Qed.

Lemma spares_run {A} (p : Prog W A) w : spares p → view (run p w).1 = view w.
Proof using.
  revert w; induction p as [a| |X f k IH]; intros w; [done..|]. cbn. intros [Hf Hk].
  specialize (Hf w). destruct (f w) as [w' x]. cbn in Hf. rewrite <- Hf. by apply IH.
Qed.

Lemma spares_atomic {A} (p : Prog W A) : spares p → spares (atomic p).
Proof using. intros Hp. split; [intros; by apply spares_run|]. by intros []. Qed.

Lemma spares_reads {A} (f : W → A) : spares (reads f).
Proof using. done. Qed.

Lemma spares_for_each {A} (l : list A) (body : A → Prog W unit) :
  (∀ x, spares (body x)) → spares (for_each l body).
Proof using. intros Hb. induction l as [|x l IH]; cbn; [done|]. by apply spares_bind. Qed.

Lemma spares_for_until {A R} (l : list A) (body : A → Prog W (option R)) :
  (∀ x, spares (body x)) → spares (for_until l body).
Proof using.
  intros Hb. induction l as [|x l IH]; cbn; [done|]. apply spares_bind; [done|]. by intros [].
Qed.

Context (pick : W → W * bool) (Hpick : ∀ w, view (pick w).1 = view w).

Lemma spares_join2 {A B} (p : Prog W A) (q : Prog W B) :
  spares p → spares q → spares (join2 pick p q).
Proof using Hpick.
  revert q; induction p as [a| |X f k IH]; intros q Hp Hq; cbn [join2]; [|done|].
  - by apply spares_bind.
  - revert Hp Hq. induction q as [b| |Y g h IHq]; intros Hp Hq; [|done|].
    + by apply (spares_bind (Act f k)).
    + split; [done|]. destruct Hp as [Hf Hk], Hq as [Hg Hh].
      intros []; (split; [done|]); intros x; [by apply IH|by apply IHq].
Qed.

Lemma spares_try_join2 {A B E} (p : Prog W (result A E)) (q : Prog W (result B E)) :
  spares p → spares q → spares (try_join2 pick p q).
Proof using Hpick.
  revert q; induction p as [[a|e]| |X f k IH]; intros q Hp Hq; cbn [try_join2]; [|done|done|].
  - apply spares_bind; [done|]. by intros [].
  - revert Hp Hq. induction q as [[b|e]| |Y g h IHq]; intros Hp Hq; [|done|done|].
    + apply (spares_bind (Act f k)); [done|]. by intros [].
    + split; [done|]. destruct Hp as [Hf Hk], Hq as [Hg Hh].
      intros []; (split; [done|]); intros x; [by apply IH|by apply IHq].
Qed.
End spares.

Create HintDb spares.
#[export] Hint Resolve spares_reads : spares.
Ltac spare_step :=
  match goal with
  | |- spares _ (atomic _) => apply spares_atomic
  | |- spares _ (bind _ _) => apply spares_bind; [|intros ?]
  | |- spares _ (for_each _ _) => apply spares_for_each; intros
  | |- spares _ (for_until _ _) => apply spares_for_until; intros
  | |- spares _ (match ?x with _ => _ end) => destruct x
  | |- spares _ (Ret _) => exact Logic.I
  | |- spares _ Panic => exact Logic.I
  | |- spares _ _ => solve [auto 2 with spares]
  end.
Ltac spare := cbv beta zeta; repeat (spare_step; cbv beta iota zeta).

(** ** The same actions

    Two tasks that perform the same actions one by one, whatever they answer:
    where one can run the other can, and the world cannot tell them apart. *)
Section same.
Context {W : Type}.

Fixpoint same {A B} (p : Prog W A) (q : Prog W B) : Prop :=
  match p with
  | Ret _ => ∃ b, q = Ret b
  | Panic => q = Panic
  | Act f k => ∃ k', q = Act f k' ∧ ∀ x, same (k x) (k' x)
  end.

Lemma same_refl {A} (p : Prog W A) : same p p.
Proof. induction p as [a| |X f k IH]; cbn; eauto. Qed.
Lemma same_sym {A B} (p : Prog W A) (q : Prog W B) : same p q → same q p.
Proof.
  revert q. induction p as [a| |X f k IH]; intros q; cbn.
  - intros [b ->]. by exists a.
  - by intros ->.
  - intros (k' & -> & Hk). exists k. eauto.
Qed.
Lemma same_trans {A B C} (p : Prog W A) (q : Prog W B) (r : Prog W C) :
  same p q → same q r → same p r.
Proof.
  revert q r. induction p as [a| |X f k IH]; intros q r; cbn.
  - intros [b ->]. done.
  - by intros ->.
  - intros (k' & -> & Hk) (k'' & -> & Hk'). eauto.
Qed.
Lemma same_ret {A B} (a : A) (b : B) : same (Ret a) (Ret b).
Proof. by exists b. Qed.

(** What is made of the answer does not matter. *)
Lemma same_bind {A B} (p : Prog W A) (h : A → Prog W B) :
  (∀ a, ∃ b, h a = Ret b) → same (bind p h) p.
Proof.
  intros Hh. induction p as [a| |X f k IH]; cbn; [|done|eauto].
  destruct (Hh a) as [b ->]. apply same_ret.
Qed.
Lemma same_binds {A A' B B'} (p : Prog W A) (q : Prog W A') (h : A → Prog W B)
    (g : A' → Prog W B') :
  same p q → (∀ a, ∃ b, h a = Ret b) → (∀ a, ∃ b, g a = Ret b) → same (bind p h) (bind q g).
Proof.
  intros Hs Hh Hg. eapply same_trans; [by apply same_bind|].
  eapply same_trans; [exact Hs|]. by apply same_sym, same_bind.
Qed.

(** What the actions keep does not depend on the answer either. *)
Lemma okp_same {A B} (I : W → Prop) (G : W → W → Prop) (p : Prog W A) (q : Prog W B) w :
  same p q → okp I G q w → okp I G p w.
Proof.
  revert q w. induction p as [a| |X f k IH]; intros q w; cbn.
  - intros [b ->]. done.
  - done.
  - intros (k' & -> & Hk) Hq w' Hg HI. destruct (Hq w' Hg HI) as (HI' & Hg' & Hr).
    split; [done|]. split; [done|]. by eapply IH.
Qed.

(** A service whose tasks all do the same as tasks of another reaches no other
    world than it. *)
Lemma reachable_same (service service' : Prog W unit → Prop) w0 w :
  (∀ p, service p → ∃ q, service' q ∧ same p q) →
  reachable service w0 w → reachable service' w0 w.
Proof.
  intros Hserv [ps Hrtc].
  assert (∀ s s', rtc (pool_step service) s s' → ∀ qs, Forall2 same s.1 qs →
    ∃ qs', rtc (pool_step service') (qs, s.2) (qs', s'.2) ∧ Forall2 same s'.1 qs') as Hsim.
  { clear ps Hrtc. intros s s' Hrtc. induction Hrtc as [s|s1 s2 s3 Hstep _ IH]; intros qs Hqs.
    { exists qs. by split. }
    destruct Hstep as [p ps w1 Hp|X f k ps qs1 w1 w2 x Hf]; cbn in *.
    - destruct (Hserv p Hp) as (q & Hq & Hs).
      destruct (IH (q :: qs) ltac:(by constructor)) as (qs' & Hr & Hqs').
      exists qs'. split; [|done]. eapply rtc_l; [by apply step_spawn|done].
    - apply Forall2_app_inv_l in Hqs as (l1 & l2 & H1 & H2 & ->).
      inversion H2 as [|? q ? l2' Hs H2']; subst. destruct Hs as (k' & -> & Hk).
      destruct (IH (l1 ++ k' x :: l2')) as (qs' & Hr & Hqs').
      { apply Forall2_app; [done|]. by constructor. }
      exists qs'. split; [|done]. eapply rtc_l; [by apply step_act|done]. }
  destruct (Hsim _ _ Hrtc [] ltac:(constructor)) as (qs' & Hr & _). by exists qs'.
Qed.
End same.
