(* ===== verification/Foreign.v ===== *)
(** * What the program takes from its crates

    Each class is an interface to third-party code, with the documented facts
    the program relies on as laws; each has a concrete instance, which the
    concrete runs of the development use. *)
From S2P Require Import Prelude.
Local Open Scope Z_scope.

(** ** uuid: 128-bit identifiers and their hyphenated text *)
Definition Uuid : Set := N.
Definition uuid_ok (u : Uuid) : Prop := (u < 2 ^ 128)%N.

Class UuidText := {
  uuid_str : Uuid → string;
  uuid_parse : string → option Uuid;
  uuid_parse_str : ∀ u, uuid_ok u → uuid_parse (uuid_str u) = Some u;
  uuid_str_lower : ∀ u, Str.all StrFacts.is_lower (uuid_str u);
  uuid_str_length : ∀ u, String.length (uuid_str u) = 36%nat;
  uuid_str_line : ∀ u, Str.all (λ c, c ≠ ascii_of_nat 10) (uuid_str u);
}.

Module UuidHex.
Definition digit (n : N) : ascii :=
  if (n <? 10)%N then ascii_of_N (48 + n) else ascii_of_N (87 + n).
Definition undigit (c : ascii) : option N :=
  let n := N_of_ascii c in
  if ((48 <=? n) && (n <=? 57))%N then Some (n - 48)%N
  else if ((97 <=? n) && (n <=? 102))%N then Some (n - 87)%N
  else None.

(** the low [k] hex digits of [u], least significant first *)
Fixpoint digits (k : nat) (u : N) : list ascii :=
  match k with O => [] | S k => digit (u mod 16) :: digits k (u / 16) end.
Fixpoint undigits (l : list ascii) : option N :=
  match l with
  | [] => Some 0%N
  | c :: l =>
    match undigit c, undigits l with
    | Some d, Some n => Some (d + 16 * n)%N
    | _, _ => None
    end
  end.

Definition dash : ascii := "-"%char.
Definition hyphenate (l : list ascii) : list ascii :=
  take 8 l ++ dash :: take 4 (drop 8 l) ++ dash :: take 4 (drop 12 l) ++
  dash :: take 4 (drop 16 l) ++ dash :: drop 20 l.
Definition unhyphenate (l : list ascii) : list ascii :=
  base.filter (λ c, c ≠ dash) l.

Definition str (u : Uuid) : string :=
  String.string_of_list_ascii (hyphenate (rev (digits 32 u))).
Definition parse (s : string) : option Uuid :=
  let l := unhyphenate (String.list_ascii_of_string s) in
  if decide (length l = 32%nat) then undigits (rev l) else None.

Lemma small16 (P : N → Prop) :
  P 0%N → P 1%N → P 2%N → P 3%N → P 4%N → P 5%N → P 6%N → P 7%N →
  P 8%N → P 9%N → P 10%N → P 11%N → P 12%N → P 13%N → P 14%N → P 15%N →
  ∀ n, (n < 16)%N → P n.
Proof.
  intros. assert (n = 0 ∨ n = 1 ∨ n = 2 ∨ n = 3 ∨ n = 4 ∨ n = 5 ∨ n = 6 ∨ n = 7 ∨
    n = 8 ∨ n = 9 ∨ n = 10 ∨ n = 11 ∨ n = 12 ∨ n = 13 ∨ n = 14 ∨ n = 15)%N as Hn by lia.
  by repeat destruct Hn as [->|Hn]; subst.
Qed.

Lemma undigit_digit n : (n < 16)%N → undigit (digit n) = Some n.
Proof. revert n. by apply small16. Qed.
Lemma digit_dash n : (n < 16)%N → digit n ≠ dash.
Proof. revert n. by apply small16. Qed.
Lemma digit_lower n : (n < 16)%N → StrFacts.is_lower (digit n).
Proof. revert n. by apply small16. Qed.
Lemma digit_line n : (n < 16)%N → digit n ≠ ascii_of_nat 10.
Proof. revert n. by apply small16. Qed.

Lemma length_digits k u : length (digits k u) = k.
Proof. revert u; induction k as [|k IH]; intros u; cbn; [done|]. by rewrite IH. Qed.

Lemma undigits_digits k u :
  (u < 16 ^ N.of_nat k)%N → undigits (digits k u) = Some u.
Proof.
  revert u; induction k as [|k IH]; intros u Hu; cbn [digits undigits].
  - f_equal. cbn in Hu. lia.
  - rewrite undigit_digit by (apply N.mod_lt; lia).
    rewrite IH.
    + f_equal. pose proof (N.div_mod u 16). lia.
    + rewrite Nat2N.inj_succ, N.pow_succ_r' in Hu. apply N.Div0.div_lt_upper_bound; lia.
Qed.

Lemma Forall_digits (P : ascii → Prop) k u :
  (∀ n, (n < 16)%N → P (digit n)) → Forall P (digits k u).
Proof.
  intros HP. revert u; induction k as [|k IH]; intros u; constructor; [|done].
  apply HP, N.mod_lt. lia.
Qed.

Lemma filter_id l : Forall (λ c, c ≠ dash) l → base.filter (λ c, c ≠ dash) l = l.
Proof.
  induction 1 as [|c l Hc Hl IH]; [done|]. rewrite filter_cons_True by done.
  by rewrite IH.
Qed.

Lemma unhyphenate_hyphenate l :
  Forall (λ c, c ≠ dash) l → unhyphenate (hyphenate l) = l.
Proof.
  intros Hl. unfold unhyphenate, hyphenate.
  assert (∀ n m, Forall (λ c, c ≠ dash) (take n (drop m l))) as Htd
    by (intros; apply Forall_take, Forall_drop, Hl).
  rewrite !filter_app, !filter_cons_False, !filter_app, !filter_cons_False,
    !filter_app, !filter_cons_False, !filter_app, !filter_cons_False by tauto.
  rewrite !filter_id by (auto using Forall_take, Forall_drop).
  assert (∀ n m k, (m + n)%nat = k → take n (drop m l) ++ drop k l = drop m l) as Hs.
  { intros n m k <-. rewrite <- drop_drop. apply take_drop. }
  rewrite !Hs by done. apply take_drop.
Qed.

Lemma parse_str u : uuid_ok u → parse (str u) = Some u.
Proof.
  unfold uuid_ok. intros Hu. unfold parse, str. rewrite String.list_ascii_of_string_of_list_ascii.
  rewrite unhyphenate_hyphenate by (apply Forall_rev, Forall_digits, digit_dash).
  rewrite rev_involutive, length_rev, length_digits, decide_True by done.
  apply undigits_digits. exact Hu.
Qed.

Lemma str_all (P : ascii → Prop) u :
  P dash → (∀ n, (n < 16)%N → P (digit n)) → Str.all P (str u).
Proof.
  intros Hdash Hd. unfold Str.all, str. rewrite String.list_ascii_of_string_of_list_ascii.
  unfold hyphenate. set (l := rev (digits 32 u)).
  assert (Forall P l) by (by apply Forall_rev, Forall_digits).
  clearbody l.
  repeat first [apply Forall_app_2|apply Forall_cons_2];
    auto using Forall_take, Forall_drop.
Qed.

Lemma str_length u : String.length (str u) = 36%nat.
Proof.
  rewrite <- StrFacts.length_list. unfold str.
  rewrite String.list_ascii_of_string_of_list_ascii. unfold hyphenate.
  assert (length (rev (digits 32 u)) = 32%nat) as Hl
    by (rewrite length_rev; apply length_digits).
  revert Hl. generalize (rev (digits 32 u)). intros l Hl.
  repeat (rewrite ?length_app, ?length_take, ?length_drop; cbn [length]).
  by rewrite Hl.
Qed.
End UuidHex.

#[export] Instance uuid_hex : UuidText := {|
  uuid_str := UuidHex.str;
  uuid_parse := UuidHex.parse;
  uuid_parse_str := UuidHex.parse_str;
  uuid_str_lower u := UuidHex.str_all _ u eq_refl UuidHex.digit_lower;
  uuid_str_length := UuidHex.str_length;
  uuid_str_line u := UuidHex.str_all (λ c, c ≠ ascii_of_nat 10) u ltac:(done) UuidHex.digit_line;
|}.


(** ** Bytes *)
Definition byte_ok (b : Z) : Prop := 0 <= b < 256.
Notation bytes_ok := (Forall byte_ok).

(** Digits in a radix, least and most significant first. *)
Module Radix.
Section radix.
Context (r : Z) (Hr : 1 < r).

Fixpoint to_le (k : nat) (z : Z) : list Z :=
  match k with O => [] | S k => z mod r :: to_le k (z / r) end.
Fixpoint of_le (l : list Z) : Z :=
  match l with [] => 0 | b :: l => b + r * of_le l end.
Definition to_be (k : nat) (z : Z) : list Z := rev (to_le k z).
Definition of_be (l : list Z) : Z := of_le (rev l).

Lemma length_to_le k z : length (to_le k z) = k.
Proof. revert z; induction k as [|k IH]; intros; cbn; [done|]. by rewrite IH. Qed.
Lemma length_to_be k z : length (to_be k z) = k.
Proof. unfold to_be. by rewrite length_rev, length_to_le. Qed.

Lemma of_to_le k z : 0 <= z < r ^ Z.of_nat k → of_le (to_le k z) = z.
Proof using Hr.
  revert z; induction k as [|k IH]; intros z Hz; cbn [to_le of_le].
  { change (r ^ Z.of_nat 0) with 1 in Hz. lia. }
  rewrite Nat2Z.inj_succ, Z.pow_succ_r in Hz by lia.
  rewrite IH; [pose proof (Z.div_mod z r); lia|].
  split; [apply Z.div_pos; lia|apply Z.div_lt_upper_bound; lia].
Qed.
Lemma of_to_be k z : 0 <= z < r ^ Z.of_nat k → of_be (to_be k z) = z.
Proof using Hr.
  intros. unfold of_be, to_be. rewrite rev_involutive. by apply of_to_le.
Qed.

Lemma to_le_ok k z : Forall (λ b, 0 <= b < r) (to_le k z).
Proof using Hr.
  revert z; induction k as [|k IH]; intros z; constructor; [|done].
  apply Z.mod_pos_bound. lia.
Qed.
Lemma to_be_ok k z : Forall (λ b, 0 <= b < r) (to_be k z).
Proof using Hr. apply Forall_rev, to_le_ok. Qed.

Lemma of_le_bound l :
  Forall (λ b, 0 <= b < r) l → 0 <= of_le l < r ^ Z.of_nat (length l).
Proof using Hr.
  induction 1 as [|b l Hb Hl IH]; cbn [of_le length].
  { change (r ^ Z.of_nat 0) with 1. lia. }
  rewrite Nat2Z.inj_succ, Z.pow_succ_r by lia. nia.
Qed.
Lemma of_be_bound l :
  Forall (λ b, 0 <= b < r) l → 0 <= of_be l < r ^ Z.of_nat (length l).
Proof using Hr. intros. unfold of_be. rewrite <- length_rev. by apply of_le_bound, Forall_rev. Qed.

Lemma to_of_le l : Forall (λ b, 0 <= b < r) l → to_le (length l) (of_le l) = l.
Proof using Hr.
  induction 1 as [|b l Hb Hl IH]; cbn [of_le to_le length]; [done|].
  rewrite (Z.mul_comm r), Z.mod_add, Z.mod_small, Z.div_add, Z.div_small by lia.
  by rewrite Z.add_0_l, IH.
Qed.
Lemma to_of_be l : Forall (λ b, 0 <= b < r) l → to_be (length l) (of_be l) = l.
Proof using Hr.
  intros Hl. unfold to_be, of_be. rewrite <- (length_rev l), to_of_le by by apply Forall_rev.
  apply rev_involutive.
Qed.
End radix.
End Radix.

(** A fixed-size big-endian integer ([to_be_bytes], [from_be_bytes]). *)
Notation to_be_bytes := (Radix.to_be 256).
Notation from_be_bytes := (Radix.of_be 256).

(** The bytes of a string and back ([str::as_bytes], [str::from_utf8] on ASCII). *)
Definition str_bytes (s : string) : list Z :=
  (λ c, Z.of_N (N_of_ascii c)) <$> String.list_ascii_of_string s.
Definition bytes_str (l : list Z) : string :=
  String.string_of_list_ascii ((λ b, ascii_of_N (Z.to_N b)) <$> l).

Lemma bytes_str_bytes s : bytes_str (str_bytes s) = s.
Proof.
  unfold bytes_str, str_bytes. rewrite <- list_fmap_compose.
  rewrite (list_fmap_ext _ id), list_fmap_id.
  - apply String.string_of_list_ascii_of_string.
  - intros ? c _. cbn. by rewrite N2Z.id, ascii_N_embedding.
Qed.

Lemma str_bytes_str l : bytes_ok l → str_bytes (bytes_str l) = l.
Proof.
  intros Hl. unfold bytes_str, str_bytes.
  rewrite String.list_ascii_of_string_of_list_ascii, <- list_fmap_compose.
  rewrite <- (list_fmap_id l) at 2. apply list_fmap_ext. intros i b Hb.
  pose proof (Forall_lookup_1 _ _ _ _ Hl Hb) as Hok. unfold byte_ok in Hok. cbn.
  rewrite N_ascii_embedding by lia. rewrite Z2N.id; lia.
Qed.

Lemma length_str_bytes s : length (str_bytes s) = String.length s.
Proof. unfold str_bytes. by rewrite length_fmap, StrFacts.length_list. Qed.

(** ** chrono

    An instant is its distance from the epoch in nanoseconds; a leap second is
    the second it repeats. *)
Definition DateTime : Set := Z.
Definition NANOS : Z := 10 ^ 9.
Definition DAY : Z := 86400 * NANOS.

Class Chrono := {
  (** the range of [DateTime<Utc>] and of [Duration::days]'s argument *)
  dt_min : Z;
  dt_max : Z;
  days_max : Z;
  (** [DateTime::from_timestamp] *)
  from_timestamp : Z → Z → option DateTime;
  (** [TimeDelta::num_days] *)
  num_days : Z → Z;
  dt_epoch : dt_min <= 0 <= dt_max;
  days_max_nonneg : 0 <= days_max;
  dt_i64 : I64_MIN * NANOS <= dt_min /\ dt_max < (I64_MAX + 1) * NANOS;
  from_timestamp_spec : ∀ s n, 0 <= n < NANOS →
    from_timestamp s n =
      if decide (dt_min <= s * NANOS + n <= dt_max) then Some (s * NANOS + n) else None;
  num_days_spec : ∀ d, num_days d = Z.quot d DAY;
}.

Section chrono.
Context `{!Chrono}.

Definition dt_ok (t : DateTime) : Prop := dt_min <= t <= dt_max.

(** [dt.timestamp()], [dt.timestamp_subsec_nanos()] *)
Definition timestamp (t : DateTime) : Z := t / NANOS.
Definition timestamp_subsec_nanos (t : DateTime) : Z := t mod NANOS.

(** [t + Duration::days(d)]: [None] is the panic on overflow. *)
Definition dt_add_days (t : DateTime) (d : Z) : option DateTime :=
  if decide (- days_max <= d <= days_max ∧ dt_min <= t + d * DAY <= dt_max)
  then Some (t + d * DAY) else None.
Definition dt_sub_days (t : DateTime) (d : Z) : option DateTime :=
  if decide (- days_max <= d <= days_max ∧ dt_min <= t - d * DAY <= dt_max)
  then Some (t - d * DAY) else None.

Lemma timestamp_split t :
  t = timestamp t * NANOS + timestamp_subsec_nanos t ∧
  0 <= timestamp_subsec_nanos t < NANOS.
Proof.
  unfold timestamp, timestamp_subsec_nanos. split.
  - pose proof (Z.div_mod t NANOS ltac:(done)). lia.
  - by apply Z.mod_pos_bound.
Qed.

Lemma from_timestamp_id t :
  dt_ok t → from_timestamp (timestamp t) (timestamp_subsec_nanos t) = Some t.
Proof.
  intros Ht. destruct (timestamp_split t) as [Heq Hn].
  rewrite from_timestamp_spec by done. rewrite <- Heq. by rewrite decide_True.
Qed.

Lemma dt_add_days_Some t d t' :
  dt_add_days t d = Some t' → t' = t + d * DAY ∧ dt_ok t'.
Proof. unfold dt_add_days. case_decide as Hd; [|done]. intros [= <-]. split; [done|apply Hd]. Qed.
End chrono.

(** chrono 0.4's own bounds *)
#[export, program] Instance chrono_bounds : Chrono := {|
  dt_min := -8334601228800 * NANOS;
  dt_max := 8210266876799 * NANOS + 999999999;
  days_max := 106751991167;
  from_timestamp s n :=
    if decide (0 <= n < NANOS ∧
      -8334601228800 * NANOS <= s * NANOS + n <= 8210266876799 * NANOS + 999999999)
    then Some (s * NANOS + n) else None;
  num_days d := Z.quot d DAY;
|}.
Next Obligation. done. Qed.
Next Obligation. done. Qed.
Next Obligation. done. Qed.
Next Obligation. intros s n Hn. by repeat case_decide; try lia; naive_solver. Qed.
Next Obligation. done. Qed.

(** ** RFC 3339 text

    [DateTime::to_rfc3339] and the reader of [DateTime<Utc>]: for the years
    1970 to 9999 the text has all the nanoseconds and reads back. *)
Class Rfc3339 := {
  to_rfc3339 : DateTime → string;
  parse_rfc3339 : string → option DateTime;
  parse_to_rfc3339 : ∀ t, 0 <= t < 253402300800 * NANOS → parse_rfc3339 (to_rfc3339 t) = Some t;
  to_rfc3339_chars : ∀ t, Str.all (λ c, c ≠ ","%char ∧ c ≠ ascii_of_nat 10) (to_rfc3339 t);
}.

(** An instant by the digits of its nanoseconds. *)
Module InstantHex.
Definition str (t : DateTime) : string :=
  String.string_of_list_ascii (UuidHex.digits 32 (Z.to_N t)).
Definition parse (s : string) : option DateTime :=
  Z.of_N <$> UuidHex.undigits (String.list_ascii_of_string s).
Lemma parse_instant t : 0 <= t < 253402300800 * NANOS → parse (str t) = Some t.
Proof.
  unfold NANOS. intros Ht. unfold parse, str.
  rewrite String.list_ascii_of_string_of_list_ascii, UuidHex.undigits_digits.
  - cbn. f_equal. lia.
  - change (16 ^ N.of_nat 32)%N with (2 ^ 128)%N. lia.
Qed.
Lemma digit_plain n : (n < 16)%N → UuidHex.digit n ≠ ","%char ∧ UuidHex.digit n ≠ ascii_of_nat 10.
Proof. revert n. by apply UuidHex.small16. Qed.
Lemma str_chars t : Str.all (λ c, c ≠ ","%char ∧ c ≠ ascii_of_nat 10) (str t).
Proof.
  unfold Str.all, str. rewrite String.list_ascii_of_string_of_list_ascii.
  apply UuidHex.Forall_digits, digit_plain.
Qed.
End InstantHex.

#[export] Instance rfc3339_hex : Rfc3339 := {|
  to_rfc3339 := InstantHex.str;
  parse_rfc3339 := InstantHex.parse;
  parse_to_rfc3339 := InstantHex.parse_instant;
  to_rfc3339_chars := InstantHex.str_chars;
|}.

(** ** Floating-point numbers

    Of [f64] and [f32] the program only uses conversions, the literals of one
    decimal, and the arithmetic that rounds a percentage. *)
Class F64 := {
  f64 : Set;
  f32 : Set;
  f64_of_int : Z → f64;
  f64_tenths : Z → f64;
  f64_mul : f64 → f64 → f64;
  f64_div : f64 → f64 → f64;
  f64_round : f64 → f64;
  f32_of_int : Z → f32;
  f32_mul : f32 → f32 → f32;
  f32_div : f32 → f32 → f32;
  f32_round : f32 → f32;
  f64_of_f32 : f32 → f64;
}.

(** Numbers by their hundredths. *)
#[export] Instance hundredths : F64 := {|
  f64 := Z;
  f32 := Z;
  f64_of_int n := 100 * n;
  f64_tenths n := 10 * n;
  f64_mul a b := a * b / 100;
  f64_div a b := a * 100 / b;
  f64_round a := (a + 50) / 100 * 100;
  f32_of_int n := 100 * n;
  f32_mul a b := a * b / 100;
  f32_div a b := a * 100 / b;
  f32_round a := (a + 50) / 100 * 100;
  f64_of_f32 a := a;
|}.

(** ** tonic: the two kinds of status the program makes, and their text *)
Inductive GrpcStatus : Set := Internal (msg : string) | Unavailable (msg : string).
Class Tonic := { status_fmt : GrpcStatus → string }.
#[export] Instance tonic_text : Tonic :=
  {| status_fmt s := match s with
                     | Internal msg => "internal: " +:+ msg
                     | Unavailable msg => "unavailable: " +:+ msg
                     end |}.

(** ** IPv6 text

    [std]'s reader and printer of 128-bit addresses, with their zero-run
    compression, are taken as given; IPv4 text is modelled. *)
Class Ipv6Text := {
  ipv6_str : Z → string;
  ipv6_parse : string → option Z;
  ipv6_parse_str : ∀ a, 0 <= a < 2 ^ 128 → ipv6_parse (ipv6_str a) = Some a;
  ipv6_parse_ok : ∀ s a, ipv6_parse s = Some a → 0 <= a < 2 ^ 128;
  ipv6_no_slash : ∀ a, Str.all (λ c, c ≠ "/"%char) (ipv6_str a);
  ipv6_colon : ∀ a, ¬ Str.all (λ c, c ≠ ":"%char) (ipv6_str a);
}.

(** The uncompressed spelling of one group of digits, led by a colon. *)
Module Ipv6Flat.
Definition str (a : Z) : string :=
  String ":" (String.string_of_list_ascii (UuidHex.digits 32 (Z.to_N a))).
Definition parse (s : string) : option Z :=
  match s with
  | String ":" s =>
    match UuidHex.undigits (String.list_ascii_of_string s) with
    | Some n => if decide (n < 2 ^ 128)%N then Some (Z.of_N n) else None
    | None => None
    end
  | _ => None
  end.

Lemma flat_parse_str a : 0 <= a < 2 ^ 128 → parse (str a) = Some a.
Proof.
  intros Ha. unfold parse, str.
  rewrite String.list_ascii_of_string_of_list_ascii.
  assert (Z.to_N a < 2 ^ 128)%N by lia.
  rewrite UuidHex.undigits_digits by done. rewrite decide_True by done.
  f_equal. lia.
Qed.
Lemma parse_ok s a : parse s = Some a → 0 <= a < 2 ^ 128.
Proof. unfold parse. repeat case_match; try done. intros [= <-]. lia. Qed.
Lemma digit_slash n : (n < 16)%N → UuidHex.digit n ≠ "/"%char.
Proof. revert n. by apply UuidHex.small16. Qed.
Lemma no_slash a : Str.all (λ c, c ≠ "/"%char) (str a).
Proof.
  unfold Str.all, str. cbn [String.list_ascii_of_string].
  rewrite String.list_ascii_of_string_of_list_ascii.
  constructor; [done|]. by apply UuidHex.Forall_digits, digit_slash.
Qed.
Lemma colon a : ¬ Str.all (λ c, c ≠ ":"%char) (str a).
Proof. unfold Str.all, str. cbn [String.list_ascii_of_string]. by inversion_clear 1. Qed.
End Ipv6Flat.

#[export] Instance ipv6_flat : Ipv6Text := {|
  ipv6_str := Ipv6Flat.str;
  ipv6_parse := Ipv6Flat.parse;
  ipv6_parse_str := Ipv6Flat.flat_parse_str;
  ipv6_parse_ok := Ipv6Flat.parse_ok;
  ipv6_no_slash := Ipv6Flat.no_slash;
  ipv6_colon := Ipv6Flat.colon;
|}.

(** ** base32, base64, HMAC-SHA-256 and X25519 *)
Class Base32 := {
  b32_encode : list Z → string;
  b32_decode : string → option (list Z);
  b32_decode_encode : ∀ l, bytes_ok l → b32_decode (b32_encode l) = Some l;
  b32_decode_ok : ∀ s l, b32_decode s = Some l → bytes_ok l;
  b32_upper : ∀ l, Str.all StrFacts.is_upper (b32_encode l);
  b32_no_dash : ∀ l, Str.all (λ c, c ≠ "-"%char) (b32_encode l);
  b32_length : ∀ l, String.length (b32_encode l) = ((8 * length l + 4) / 5)%nat;
}.

Class Hmac := {
  hmac_sha256 : list Z → list Z → list Z;
  hmac_length : ∀ k m, length (hmac_sha256 k m) = 32%nat;
  hmac_ok : ∀ k m, bytes_ok (hmac_sha256 k m);
}.

Class WgCrypto := {
  b64_encode : list Z → string;
  b64_decode : string → result (list Z) string;
  x25519_public : list Z → list Z;
  b64_decode_encode : ∀ l, bytes_ok l → b64_decode (b64_encode l) = Ok l;
  x25519_length : ∀ k, length (x25519_public k) = 32%nat;
  x25519_ok : ∀ k, bytes_ok (x25519_public k);
}.

(** A power-of-two radix code over bytes: the digits of the bytes' integer,
    padded on the right to a whole number of digits. *)
Module PowCode.
Section code.
Context (w : nat) (Hw : (0 < w < 8)%nat).
Context (char : Z → ascii) (unchar : ascii → option Z).
Context (Hchar : ∀ d, 0 <= d < 2 ^ Z.of_nat w → unchar (char d) = Some d).

Definition ndigits (k : nat) : nat := ((8 * k + (w - 1)) / w)%nat.
Definition slack (k : nat) : Z := Z.of_nat (ndigits k * w - 8 * k).

Definition encode (l : list Z) : string :=
  String.string_of_list_ascii
    (char <$> Radix.to_be (2 ^ Z.of_nat w) (ndigits (length l))
      (from_be_bytes l * 2 ^ slack (length l))).
Definition decode (s : string) : option (list Z) :=
  match mapM unchar (String.list_ascii_of_string s) with
  | Some ds =>
    let k := (length ds * w / 8)%nat in
    Some (to_be_bytes k (Radix.of_be (2 ^ Z.of_nat w) ds / 2 ^ Z.of_nat (length ds * w - 8 * k)))
  | None => None
  end.

Lemma ndigits_bytes k : (ndigits k * w / 8)%nat = k ∧ (8 * k ≤ ndigits k * w)%nat.
Proof using Hw.
  unfold ndigits.
  assert (8 * k ≤ (8 * k + (w - 1)) / w * w < 8 * k + 8)%nat as Hb.
  { pose proof (Nat.div_mod_eq (8 * k + (w - 1)) w).
    pose proof (Nat.mod_upper_bound (8 * k + (w - 1)) w). nia. }
  split; [|lia]. symmetry. apply Nat.div_unique with ((8 * k + (w - 1)) / w * w - 8 * k)%nat; lia.
Qed.

Lemma mapM_char ds :
  Forall (λ d, 0 <= d < 2 ^ Z.of_nat w) ds → mapM unchar (char <$> ds) = Some ds.
Proof using Hchar.
  induction 1 as [|d ds Hd Hds IH]; [done|]. cbn [fmap list_fmap mapM].
  rewrite Hchar by done. cbn. by rewrite IH.
Qed.

Lemma decode_encode l : bytes_ok l → decode (encode l) = Some l.
Proof using Hw Hchar.
  intros Hl. unfold decode, encode.
  assert (1 < 2 ^ Z.of_nat w) as Hr by (apply Z.pow_gt_1; lia).
  rewrite String.list_ascii_of_string_of_list_ascii, mapM_char by by apply Radix.to_be_ok.
  rewrite Radix.length_to_be. destruct (ndigits_bytes (length l)) as [-> Hle]. f_equal.
  assert (0 < 2 ^ slack (length l)) as Hs by (apply Z.pow_pos_nonneg; unfold slack; lia).
  rewrite Radix.of_to_be; [|done|].
  - fold (slack (length l)). rewrite Z.div_mul by lia. by apply Radix.to_of_be.
  - pose proof (Radix.of_be_bound 256 ltac:(lia) l Hl) as [H0 H1].
    split; [nia|]. rewrite <- Z.pow_mul_r by lia.
    replace (Z.of_nat w * Z.of_nat (ndigits (length l)))
      with (8 * Z.of_nat (length l) + slack (length l)) by (unfold slack; lia).
    rewrite Z.pow_add_r, Z.pow_mul_r by (unfold slack; lia).
    apply Z.mul_lt_mono_pos_r; done.
Qed.

Lemma decode_ok s l : decode s = Some l → bytes_ok l.
Proof using.
  unfold decode. case_match; [|done]. intros [= <-]. by apply Radix.to_be_ok.
Qed.

Lemma encode_all (P : ascii → Prop) l :
  (∀ d, 0 <= d < 2 ^ Z.of_nat w → P (char d)) → Str.all P (encode l).
Proof using Hw.
  intros HP. unfold Str.all, encode. rewrite String.list_ascii_of_string_of_list_ascii.
  apply Forall_fmap, (Forall_impl (λ d, 0 <= d < 2 ^ Z.of_nat w)); [|done].
  apply Radix.to_be_ok, Z.pow_gt_1; lia.
Qed.

Lemma encode_length l : String.length (encode l) = ndigits (length l).
Proof using.
  unfold encode. rewrite <- StrFacts.length_list, String.list_ascii_of_string_of_list_ascii.
  by rewrite length_fmap, Radix.length_to_be.
Qed.
End code.
End PowCode.

(** An alphabet given as a string. *)
Module Alphabet.
Definition char (abc : string) (d : Z) : ascii :=
  default zero (String.get (Z.to_nat d) abc).
Fixpoint unchar_from (n : Z) (abc : string) (c : ascii) : option Z :=
  match abc with
  | EmptyString => None
  | String a abc => if decide (a = c) then Some n else unchar_from (n + 1) abc c
  end.
Definition unchar (abc : string) : ascii → option Z := unchar_from 0 abc.

Definition b32 : string := "ABCDEFGHIJKLMNOPQRSTUVWXYZ234567".
Definition b64 : string :=
  "ABCDEFGHIJKLMNOPQRSTUVWXYZabcdefghijklmnopqrstuvwxyz0123456789+/".

Lemma below (n : nat) (P : Z → Prop) :
  Forall P (Z.of_nat <$> seq 0 n) → ∀ d, 0 <= d < Z.of_nat n → P d.
Proof.
  rewrite Forall_fmap, Forall_seq. intros H d Hd. specialize (H (Z.to_nat d)).
  cbn in H. rewrite Z2Nat.id in H by lia. apply H. lia.
Qed.
Lemma b32_char d : 0 <= d < 32 → unchar b32 (char b32 d) = Some d.
Proof. revert d. apply (below 32). by repeat constructor. Qed.
Lemma b64_char d : 0 <= d < 64 → unchar b64 (char b64 d) = Some d.
Proof. revert d. apply (below 64). by repeat constructor. Qed.
Lemma b32_upper d : 0 <= d < 32 → StrFacts.is_upper (char b32 d).
Proof. revert d. apply (below 32). by repeat constructor. Qed.
Lemma b32_dash d : 0 <= d < 32 → char b32 d ≠ "-"%char.
Proof. revert d. apply (below 32). by repeat constructor. Qed.
End Alphabet.

#[export, program] Instance base32_rfc4648 : Base32 := {|
  b32_encode := PowCode.encode 5 (Alphabet.char Alphabet.b32);
  b32_decode := PowCode.decode 5 (Alphabet.unchar Alphabet.b32);
|}.
Next Obligation. apply PowCode.decode_encode; [lia|exact Alphabet.b32_char]. Qed.
Next Obligation. apply PowCode.decode_ok. Qed.
Next Obligation. intros. apply PowCode.encode_all; [lia|exact Alphabet.b32_upper]. Qed.
Next Obligation. intros. apply PowCode.encode_all; [lia|exact Alphabet.b32_dash]. Qed.
Next Obligation. intros. apply PowCode.encode_length. Qed.

(** A keyed sum standing for the MAC, and the identity for the curve: concrete
    functions with the right sizes, for runs. *)
Definition pad32 (l : list Z) : list Z :=
  take 32 (((λ b, b mod 256) <$> l) ++ replicate 32 0).
Lemma pad32_length l : length (pad32 l) = 32%nat.
Proof. unfold pad32. rewrite length_take, length_app, length_replicate. lia. Qed.
Lemma pad32_ok l : bytes_ok (pad32 l).
Proof.
  apply Forall_take, Forall_app; split; [|by apply Forall_replicate].
  apply Forall_fmap, Forall_true. intros b. apply Z.mod_pos_bound. lia.
Qed.

#[export, program] Instance hmac_sum : Hmac := {|
  hmac_sha256 k m := pad32 [from_be_bytes (k ++ m); from_be_bytes k; from_be_bytes m];
|}.
Next Obligation. intros. apply pad32_length. Qed.
Next Obligation. intros. apply pad32_ok. Qed.

#[export, program] Instance wg_crypto_id : WgCrypto := {|
  b64_encode := PowCode.encode 6 (Alphabet.char Alphabet.b64);
  b64_decode s := ok_or (PowCode.decode 6 (Alphabet.unchar Alphabet.b64) s) "Invalid symbol";
  x25519_public := pad32;
|}.
Next Obligation.
  intros l Hl. cbv beta.
  assert (PowCode.decode 6 (Alphabet.unchar Alphabet.b64)
    (PowCode.encode 6 (Alphabet.char Alphabet.b64) l) = Some l) as Hd
    by (apply PowCode.decode_encode; [lia|exact Alphabet.b64_char|done]).
  by rewrite Hd.
Qed.
Next Obligation. apply pad32_length. Qed.
Next Obligation. apply pad32_ok. Qed.
