(* ===== verification/Naming.v ===== *)
(** * Names: errors, environments, protocol tags, topics, statistics kinds

    The vocabulary every component speaks: [error.rs], [memory/env.rs],
    [memory/tag.rs], [zmq/topic.rs], [memory/stat.rs],
    [memory/storage/mod.rs].  A comment [[name] -- file:lines] above a
    definition names the code it translates, with the file under [src/src/].
    An enumeration lives in a module, so that its constructors keep the
    source's names. *)
From S2P Require Import Prelude Foreign.

(** ** Errors *)
Module Error.
(** [Error] -- error.rs:5-78

    The payloads that belong to other crates are kept as their text; the
    database's carry the SQL state the code inspects. *)
Inductive Error : Set :=
| Database (sqlstate : string)
| Conflict
| Io (e : string)
| UrlParse (e : string)
| Http (e : string)
| Json (e : string)
| Yaml (e : string)
| Join (e : string)
| XrayUri (e : string)
| XrayTransport (e : string)
| Grpc (e : string)
| SerdeUrlEnc (e : string)
| Zmq (e : string)
| Wireguard (e : string)
| IpParseError
| TomlDeError (e : string)
| Custom (e : string)
| SerializationError (e : string)
| RkyvSerialize (e : string)
| ConvertInfallibleError.

#[export] Instance Error_eq_dec : EqDecision Error.
Proof. solve_decision. Defined.
(** [#[error(..)]] -- error.rs:5-78

    A transparent variant shows its payload. *)
Definition fmt (e : Error) : string :=
  match e with
  | Conflict => "DB conflict"
  | Custom e => "Error: " +:+ e
  | SerializationError e => "SerializationError: " +:+ e
  | IpParseError => "invalid IP address"
  | ConvertInfallibleError => ""
  | Database e | Io e | UrlParse e | Http e | Json e | Yaml e | Join e | XrayUri e
  | XrayTransport e | Grpc e | SerdeUrlEnc e | Zmq e | Wireguard e | TomlDeError e
  | RkyvSerialize e => e
  end.
End Error.
Notation Error := Error.Error.

Module SyncError.
(** [SyncError] -- error.rs:80-112 *)
Inductive SyncError : Set :=
| Database (e : Error)
| Memory (e : string)
| Validation (e : string)
| Zmq (e : string)
| RkyvSerialize (e : string)
| InconsistentState (resource : string) (id : Uuid)
| ResourceNotFound (resource : string) (id : Uuid)
| ConcurrentModification (resource : string) (id : Uuid).

(** [#[error(..)]] -- error.rs:80-112 *)
Definition fmt `{!UuidText} (e : SyncError) : string :=
  match e with
  | Database e => "Database operation failed: " +:+ Error.fmt e
  | Memory e => "Memory operation failed: " +:+ e
  | Validation e => "Validation failed: " +:+ e
  | Zmq e | RkyvSerialize e => e
  | InconsistentState resource id =>
    "Inconsistent state between database and memory for " +:+ resource +:+ " " +:+ uuid_str id
  | ResourceNotFound resource id => "Resource not found: " +:+ resource +:+ " " +:+ uuid_str id
  | ConcurrentModification resource id =>
    "Concurrent modification detected for " +:+ resource +:+ " " +:+ uuid_str id
  end.
End SyncError.
Notation SyncError := SyncError.SyncError.

(** ** The answers of the in-memory stores *)
Module Status.
(** [Status] -- memory/storage/mod.rs:7-17 *)
Inductive Status : Set :=
| AlreadyExist (id : Uuid)
| NotModified (id : Uuid)
| Updated (id : Uuid)
| UpdatedStat (id : Uuid)
| NotFound (id : Uuid)
| BadRequest (id : Uuid) (msg : string)
| Ok (id : Uuid)
| DeletedPreviously (id : Uuid).

#[export] Instance Status_eq_dec : EqDecision Status.
Proof. solve_decision. Defined.

(** [#[derive(Debug)]] -- memory/storage/mod.rs:7-17 *)
Definition debug `{!UuidText} (s : Status) : string :=
  match s with
  | AlreadyExist id => "AlreadyExist(" +:+ uuid_str id +:+ ")"
  | NotModified id => "NotModified(" +:+ uuid_str id +:+ ")"
  | Updated id => "Updated(" +:+ uuid_str id +:+ ")"
  | UpdatedStat id => "UpdatedStat(" +:+ uuid_str id +:+ ")"
  | NotFound id => "NotFound(" +:+ uuid_str id +:+ ")"
  | BadRequest id msg => "BadRequest(" +:+ uuid_str id +:+ ", " +:+ msg +:+ ")"
  | Ok id => "Ok(" +:+ uuid_str id +:+ ")"
  | DeletedPreviously id => "DeletedPreviously(" +:+ uuid_str id +:+ ")"
  end.

(** [Status::fmt] -- memory/storage/mod.rs:19-32 *)
Definition fmt `{!UuidText} (s : Status) : string :=
  match s with
  | AlreadyExist id => "AlreadyExist: " +:+ uuid_str id
  | NotModified id => "NotModified: " +:+ uuid_str id
  | Updated id => "Updated: " +:+ uuid_str id
  | Ok id => "Ok: " +:+ uuid_str id
  | NotFound id => "NotFound: " +:+ uuid_str id
  | UpdatedStat id => "UpdatedStat: " +:+ uuid_str id
  | BadRequest id msg => "BadRequest: " +:+ uuid_str id +:+ " " +:+ msg
  | DeletedPreviously id => "DeletedPreviously: " +:+ uuid_str id
  end.
End Status.
Notation Status := Status.Status.

(** ** Environments *)
Module Env.
(** [Env] -- memory/env.rs:7-18 *)
Inductive Env : Set :=
| Production
| Experimental
| Dev
| Ru
| Wl
| Custom (name : string).

#[export] Instance Env_eq_dec : EqDecision Env.
Proof. solve_decision. Defined.

#[export] Instance Env_countable : Countable Env.
Proof.
  refine (inj_countable'
    (λ e, match e with
      | Production => inl 0 | Experimental => inl 1 | Dev => inl 2
      | Ru => inl 3 | Wl => inl 4 | Custom n => inr n
      end)
    (λ c, match c with
      | inl 0 => Production | inl 1 => Experimental | inl 2 => Dev
      | inl 3 => Ru | inl _ => Wl | inr n => Custom n
      end) _).
  by intros [].
Defined.

(** [#[default]] -- memory/env.rs:11-12 *)
Definition default : Env := Experimental.

(** [Env::as_str] -- memory/env.rs:32-41 *)
Definition as_str (e : Env) : string :=
  match e with
  | Dev => "dev"
  | Ru => "ru"
  | Wl => "wl"
  | Experimental => "experimental"
  | Production => "production"
  | Custom name => "custom" +:+ name
  end.

(** [Env::fmt] -- memory/env.rs:44-55 *)
Definition fmt (e : Env) : string :=
  match e with
  | Dev => "dev"
  | Ru => "ru"
  | Wl => "wl"
  | Experimental => "experimental"
  | Production => "production"
  | Custom name => "custom" +:+ name
  end.

(** [Env::as_bytes] -- memory/env.rs:20-30 *)
Definition as_bytes (e : Env) : list Z :=
  match e with
  | Experimental => str_bytes "experimental"
  | Dev => str_bytes "dev"
  | Ru => str_bytes "ru"
  | Wl => str_bytes "wl"
  | Production => str_bytes "production"
  | Custom id => str_bytes ("custom" +:+ id)
  end.

(** [Env::from_str] -- memory/env.rs:62-75 *)
Definition from_str (s : string) : result Env Error :=
  let s := Str.to_lowercase s in
  if decide (s = "experimental" ∨ s = "exp") then Ok Experimental
  else if decide (s = "development" ∨ s = "dev") then Ok Dev
  else if decide (s = "production" ∨ s = "prod") then Ok Production
  else if decide (s = "ru") then Ok Ru
  else if decide (s = "wl") then Ok Wl
  else if Str.starts_with "custom" s
  then Ok (Custom (from_option id s (Str.strip_prefix "custom" s)))
  else Err (Error.Custom "Wrong Env string").

(** [Env::from] -- memory/env.rs:77-87 *)
Definition from (s : string) : Env :=
  match from_str s with Ok e => e | Err _ => Experimental end.

(** [#[derive(Serialize)]] -- memory/env.rs:7-18

    serde: the variant's lower-case name, and the payload alone for the
    untagged variant. *)
Definition serialize (e : Env) : string :=
  match e with
  | Production => "production"
  | Experimental => "experimental"
  | Dev => "dev"
  | Ru => "ru"
  | Wl => "wl"
  | Custom name => name
  end.

(** [#[derive(Deserialize)]] -- memory/env.rs:7-18 *)
Definition deserialize (s : string) : Env :=
  if decide (s = "production") then Production
  else if decide (s = "experimental") then Experimental
  else if decide (s = "dev") then Dev
  else if decide (s = "ru") then Ru
  else if decide (s = "wl") then Wl
  else Custom s.

(** What a trip through text leaves of an environment. *)
Definition norm (e : Env) : Env :=
  match e with Custom name => Custom (Str.to_lowercase name) | e => e end.

Definition canonical (e : Env) : Prop := norm e = e.

Lemma as_str_fmt e : as_str e = fmt e.
Proof. by destruct e. Qed.
Lemma as_bytes_as_str e : as_bytes e = str_bytes (as_str e).
Proof. by destruct e. Qed.

Lemma from_str_custom name :
  from_str ("custom" +:+ name) = Ok (Custom (Str.to_lowercase name)).
Proof.
  unfold from_str, Str.to_lowercase. rewrite StrFacts.map_app.
  change (Str.map Str.lower_ascii "custom") with "custom".
  repeat (rewrite decide_False by (intros [?|?]; done) || rewrite decide_False by done).
  by rewrite StrFacts.starts_with_app, StrFacts.strip_prefix_app.
Qed.

Lemma from_str_fmt e : from_str (fmt e) = Ok (norm e).
Proof. by destruct e. Qed.

Lemma from_str_lower s : from_str (Str.to_lowercase s) = from_str s.
Proof. unfold from_str. by rewrite StrFacts.to_lowercase_idem. Qed.

Lemma norm_idem e : norm (norm e) = norm e.
Proof. destruct e; [reflexivity..|]. cbn. by rewrite StrFacts.to_lowercase_idem. Qed.

Lemma fmt_norm e : fmt (norm e) = Str.to_lowercase (fmt e).
Proof.
  destruct e; [reflexivity..|]. cbn [norm fmt]. unfold Str.to_lowercase.
  by rewrite StrFacts.map_app.
Qed.
End Env.
Notation Env := Env.Env.
#[export] Existing Instances Env.Env_eq_dec Env.Env_countable.

(** ** Protocol tags *)
Module ProtoTag.
(** [ProtoTag] -- memory/tag.rs:8-43 *)
Inductive ProtoTag : Set :=
| VlessTcpReality
| VlessGrpcReality
| VlessXhttpReality
| Vmess
| Shadowsocks
| Wireguard
| Hysteria2
| Mtproto.

#[export] Instance ProtoTag_eq_dec : EqDecision ProtoTag.
Proof. solve_decision. Defined.
#[export] Instance ProtoTag_countable : Countable ProtoTag.
Proof.
  refine (inj_countable'
    (λ t, match t with
      | VlessTcpReality => 0 | VlessGrpcReality => 1 | VlessXhttpReality => 2
      | Vmess => 3 | Shadowsocks => 4 | Wireguard => 5 | Hysteria2 => 6 | Mtproto => 7
      end)
    (λ n, match n with
      | 0 => VlessTcpReality | 1 => VlessGrpcReality | 2 => VlessXhttpReality
      | 3 => Vmess | 4 => Shadowsocks | 5 => Wireguard | 6 => Hysteria2 | _ => Mtproto
      end) _).
  by intros [].
Defined.

(** [ProtoTag::fmt] -- memory/tag.rs:45-58 *)
Definition fmt (t : ProtoTag) : string :=
  match t with
  | VlessTcpReality => "VlessTcpReality"
  | VlessGrpcReality => "VlessGrpcReality"
  | VlessXhttpReality => "VlessXhttpReality"
  | Vmess => "Vmess"
  | Shadowsocks => "Shadowsocks"
  | Wireguard => "Wireguard"
  | Hysteria2 => "Hysteria2"
  | Mtproto => "Mtproto"
  end.

(** [ProtoTag::from_str] -- memory/tag.rs:76-92 *)
Definition from_str (s : string) : option ProtoTag :=
  if decide (s = "VlessTcpReality") then Some VlessTcpReality
  else if decide (s = "VlessGrpcReality") then Some VlessGrpcReality
  else if decide (s = "VlessXhttpReality") then Some VlessXhttpReality
  else if decide (s = "Vmess") then Some Vmess
  else if decide (s = "Shadowsocks") then Some Shadowsocks
  else if decide (s = "Wireguard") then Some Wireguard
  else if decide (s = "Hysteria2") then Some Hysteria2
  else if decide (s = "Mtproto") then Some Mtproto
  else None.

(** [ProtoTag::is_wireguard] -- memory/tag.rs:60-73 *)
Definition is_wireguard (t : ProtoTag) : bool := bool_decide (t = Wireguard).
Definition is_shadowsocks (t : ProtoTag) : bool := bool_decide (t = Shadowsocks).
Definition is_hysteria2 (t : ProtoTag) : bool := bool_decide (t = Hysteria2).
Definition is_mtproto (t : ProtoTag) : bool := bool_decide (t = Mtproto).

Lemma tag_from_str_fmt t : from_str (fmt t) = Some t.
Proof. by destruct t. Qed.
End ProtoTag.
Notation ProtoTag := ProtoTag.ProtoTag.
#[export] Existing Instances ProtoTag.ProtoTag_eq_dec ProtoTag.ProtoTag_countable.

(** ** Publication topics *)
Module Topic.
(** [Topic] -- zmq/topic.rs:8-14 *)
Inductive Topic : Set :=
| Auth
| Metrics
| Updates (env : Env)
| Init (id : Uuid).

#[export] Instance Topic_eq_dec : EqDecision Topic.
Proof. solve_decision. Defined.

Section topic.
Context `{!UuidText}.

(** [Topic::fmt] -- zmq/topic.rs:16-25 *)
Definition fmt (t : Topic) : string :=
  match t with
  | Auth => "auth"
  | Metrics => "metrics"
  | Updates env => "updates-" +:+ Env.fmt env
  | Init id => "init-" +:+ uuid_str id
  end.

(** [Topic::from_str] -- zmq/topic.rs:29-55 *)
Definition from_str (s : string) : result Topic Error :=
  let s := Str.to_lowercase s in
  if decide (s = "auth") then Ok Auth
  else if decide (s = "metrics") then Ok Metrics
  else match Str.strip_prefix "updates-" s with
  | Some env_str =>
    match Env.from_str env_str with Ok env => Ok (Updates env) | Err e => Err e end
  | None =>
    match Str.strip_prefix "init-" s with
    | Some id_str =>
      match uuid_parse id_str with
      | Some id => Ok (Init id)
      | None => Err (Error.Custom "Invalid UUID in topic")
      end
    | None => Err (Error.Custom ("Unknown topic string: " +:+ s))
    end
  end.

(** [Topic::as_string] -- zmq/topic.rs:83-92 *)
Definition as_string (t : Topic) : string :=
  match t with
  | Auth => "auth"
  | Metrics => "metrics"
  | Updates env => "updates-" +:+ Env.fmt env
  | Init id => "init-" +:+ uuid_str id
  end.

(** [Topic::as_str] -- zmq/topic.rs:93-100 *)
Definition as_str (t : Topic) : string :=
  match t with
  | Auth => "auth"
  | Metrics => "metrics"
  | Updates env => "updates-" +:+ Env.fmt env
  | Init id => "init-" +:+ uuid_str id
  end.

(** [Topic::as_bytes] -- zmq/topic.rs:101-108 *)
Definition as_bytes (t : Topic) : list Z :=
  match t with
  | Auth => str_bytes "auth"
  | Metrics => str_bytes "metrics"
  | _ => str_bytes (as_str t)
  end.

(** [Topic::from] -- zmq/topic.rs:72-82 *)
Definition of_uuid (u : Uuid) : Topic := Init u.
Definition of_env (e : Env) : Topic := Updates e.

(** What a trip through text leaves of a topic. *)
Definition norm (t : Topic) : Topic :=
  match t with Updates env => Updates (Env.norm env) | t => t end.

Definition topic_ok (t : Topic) : Prop :=
  match t with Init id => uuid_ok id | _ => True end.

Lemma from_str_norm t : topic_ok t → from_str (fmt t) = Ok (norm t).
Proof.
  destruct t as [| |env|id]; intros Hok; [done|done| |].
  - unfold from_str, fmt, Str.to_lowercase. rewrite StrFacts.map_app.
    change (Str.map Str.lower_ascii "updates-") with "updates-".
    rewrite !decide_False by done. rewrite StrFacts.strip_prefix_app.
    fold (Str.to_lowercase (Env.fmt env)).
    by rewrite Env.from_str_lower, Env.from_str_fmt.
  - unfold from_str, fmt, Str.to_lowercase. rewrite StrFacts.map_app.
    change (Str.map Str.lower_ascii "init-") with "init-".
    fold (Str.to_lowercase (uuid_str id)).
    rewrite (StrFacts.lower_fix _ (uuid_str_lower id)).
    rewrite !decide_False by done.
    change (Str.strip_prefix "updates-" ("init-" +:+ uuid_str id)) with (@None string).
    by rewrite StrFacts.strip_prefix_app, uuid_parse_str.
Qed.
End topic.
End Topic.
Notation Topic := Topic.Topic.
#[export] Existing Instance Topic.Topic_eq_dec.

(** ** Statistics *)
Module Kind.
(** [Kind] -- memory/stat.rs:32-38 *)
Inductive Kind : Set := Uplink | Downlink | Online | Unknown.

(** [Kind::fmt] -- memory/stat.rs:55-64 *)
Definition fmt (k : Kind) : string :=
  match k with
  | Uplink => "uplink" | Downlink => "downlink" | Online => "online" | Unknown => "unknown"
  end.

(** [Kind::from_path] -- memory/stat.rs:40-53 *)
Definition from_path (path : string) : Kind :=
  match last (Str.split "." path) with
  | Some w =>
    if decide (w = "uplink") then Uplink
    else if decide (w = "downlink") then Downlink
    else if decide (w = "online") then Online
    else Unknown
  | None => Unknown
  end.
End Kind.
Notation Kind := Kind.Kind.

Module StatPath.
(** [Stat] -- memory/stat.rs:3-8 *)
Inductive Stat : Set := Conn (k : Kind) | Inbound (k : Kind) | Outbound (k : Kind).

(** [Stat::fmt] -- memory/stat.rs:10-30 *)
Definition fmt (s : Stat) : string :=
  match s with
  | Conn Kind.Uplink => "uplink"
  | Conn Kind.Downlink => "downlink"
  | Conn Kind.Online => "online"
  | Inbound Kind.Uplink => "uplink"
  | Inbound Kind.Downlink => "downlink"
  | Inbound Kind.Online => "Not implemented"
  | Outbound Kind.Uplink => "uplink"
  | Outbound Kind.Downlink => "downlink"
  | Outbound Kind.Online => "Not implemented"
  | Conn Kind.Unknown | Inbound Kind.Unknown | Outbound Kind.Unknown => "unknown"
  end.
End StatPath.

(** [Stat] -- memory/connection/stat.rs:7-21 *)
Record ConnStat := { downlink : Z; uplink : Z; online : Z }.
Definition stat_default : ConnStat := {| downlink := 0; uplink := 0; online := 0 |}.

(** ** Theorems *)

(** Printing a topic and parsing the text back yields the topic, with the
    name of a custom environment folded to lower case; a topic of a canonical
    environment survives unchanged.  Publisher and subscriber therefore agree
    on every topic up to case. *)
Theorem topic_roundtrip `{!UuidText} (t : Topic) (Hok : Topic.topic_ok t) :
  Topic.from_str (Topic.fmt t) = Ok (Topic.norm t) ∧
  Topic.as_bytes t = str_bytes (Topic.fmt t) ∧
  ((∀ env, t = Topic.Updates env → Env.canonical env) →
    Topic.from_str (Topic.fmt t) = Ok t).
Proof.
  split_and!; [by apply Topic.from_str_norm|by destruct t|].
  intros Hcan. rewrite Topic.from_str_norm by done.
  destruct t as [| |env|]; cbn; try done. by rewrite (Hcan env).
Qed.

Lemma topic_roundtrip_witness :
  Topic.topic_ok (Topic.Updates (Env.Custom "EU")) ∧
  Topic.from_str (Topic.fmt (Topic.Updates (Env.Custom "EU")))
    = Ok (Topic.Updates (Env.Custom "eu")).
Proof.
  split; [exact I|].
  exact (proj1 (topic_roundtrip (Topic.Updates (Env.Custom "EU")) I)).
Defined.
