(* ===== verification/Wireguard.v ===== *)
(** * WireGuard keys, address masks and the peer table

    [memory/connection/wireguard.rs]: private keys, [IpAddrMask] with its
    mask arithmetic and text forms, and [proto/wireguard.rs]: the node's view
    of the kernel interface, with the search for a free address.

    Integer arithmetic is the release profile's: it wraps, and a shift takes
    its amount modulo the width.  [IpAddrMask] keeps [cidr] as a [u8]. *)
From S2P Require Import Prelude Foreign Naming.
Local Open Scope Z_scope.
Local Open Scope pony_scope.

(** ** Machine arithmetic *)
Definition u8_sub (a b : Z) : Z := as_unsigned 8 (a - b).
Definition u32_shl (x n : Z) : Z := as_unsigned 32 (Z.shiftl x (Z.land n 31)).
Definition u32_shr (x n : Z) : Z := Z.shiftr x (Z.land n 31).
Definition u32_not (x : Z) : Z := U32_MAX - x.
Definition u128_shl (x n : Z) : Z := as_unsigned 128 (Z.shiftl x (Z.land n 127)).
Definition u128_shr (x n : Z) : Z := Z.shiftr x (Z.land n 127).

(** ** Addresses ([std::net]) *)
Definition Ipv4Addr : Set := Z.
Definition Ipv6Addr : Set := Z.
Inductive IpAddr : Set := V4 (ip : Ipv4Addr) | V6 (ip : Ipv6Addr).
#[export] Instance IpAddr_eq_dec : EqDecision IpAddr.
Proof. solve_decision. Defined.

Definition is_ipv4 (a : IpAddr) : bool := match a with V4 _ => true | V6 _ => false end.
Definition addr_ok (a : IpAddr) : Prop :=
  match a with V4 ip => 0 <= ip <= U32_MAX | V6 ip => 0 <= ip <= U128_MAX end.

(** Decimal text: [u8::from_str] takes a sign and leading zeros, an octet of a
    dotted quad neither. *)
Definition digit_val (c : ascii) : option Z :=
  let n := Z.of_N (N_of_ascii c) in
  if decide (48 <= n <= 57) then Some (n - 48) else None.
Fixpoint parse_digits (acc : Z) (s : string) : option Z :=
  match s with
  | EmptyString => Some acc
  | String c s =>
    match digit_val c with Some d => parse_digits (10 * acc + d) s | None => None end
  end.
Definition parse_u8 (s : string) : option Z :=
  let s := match s with String "+" s => s | s => s end in
  if decide (s = EmptyString) then None else
  match parse_digits 0 s with
  | Some n => if decide (n <= 255) then Some n else None
  | None => None
  end.
Definition parse_octet (s : string) : option Z :=
  if decide (s = EmptyString ∨ (1 < String.length s)%nat ∧ String.get 0 s = Some "0"%char
    ∨ (3 < String.length s)%nat) then None
  else match parse_digits 0 s with
  | Some n => if decide (n <= 255) then Some n else None
  | None => None
  end.

Definition dec (n : Z) : string := pretty (Z.to_N n).

Definition ipv4_parse (s : string) : option Ipv4Addr :=
  match mapM parse_octet (Str.split "." s) with
  | Some [a; b; c; d] => Some (from_be_bytes [a; b; c; d])
  | _ => None
  end.
Definition ipv4_str (ip : Ipv4Addr) : string := Str.join "." (dec <$> to_be_bytes 4 ip).

(** ** Text lemmas *)
Lemma dec_octet b : byte_ok b →
  parse_octet (dec b) = Some b ∧ parse_u8 (dec b) = Some b ∧
  Str.all (λ c, c ≠ "."%char) (dec b) ∧ Str.all (λ c, c ≠ "/"%char) (dec b) ∧
  Str.all (λ c, c ≠ ":"%char) (dec b).
Proof.
  unfold byte_ok. revert b.
  pose (test b := bool_decide (parse_octet (dec b) = Some b) &&
    bool_decide (parse_u8 (dec b) = Some b) &&
    forallb (λ c, bool_decide (c ≠ "."%char) && bool_decide (c ≠ "/"%char) &&
      bool_decide (c ≠ ":"%char)) (String.list_ascii_of_string (dec b))).
  assert (∀ b, 0 <= b < 256 → test b = true) as Ht.
  { apply (Alphabet.below 256).
    assert (forallb test (Z.of_nat <$> seq 0 256) = true) as Hall by (vm_compute; reflexivity).
    apply Forall_forall. intros b Hb. rewrite forallb_forall in Hall.
    apply Hall. by apply list_elem_of_In. }
  intros b Hb. specialize (Ht b Hb). unfold test in Ht.
  apply andb_prop in Ht as [[H1 H2]%andb_prop H3].
  apply bool_decide_eq_true_1 in H1, H2. rewrite forallb_forall in H3.
  unfold Str.all. split_and!; [done|done|..]; apply Forall_forall; intros c Hc;
    apply list_elem_of_In in Hc; specialize (H3 c Hc);
    apply andb_prop in H3 as [[Ha Hb']%andb_prop Hc'];
    apply bool_decide_eq_true_1 in Ha, Hb', Hc'; assumption.
Qed.

Lemma ipv4_parse_str ip : 0 <= ip <= U32_MAX → ipv4_parse (ipv4_str ip) = Some ip.
Proof.
  intros Hip. unfold ipv4_parse, ipv4_str.
  pose proof (Radix.to_be_ok 256 ltac:(lia) 4 ip) as Hok.
  pose proof (Radix.length_to_be 256 4 ip) as Hlen.
  assert (from_be_bytes (to_be_bytes 4 ip) = ip) as Hrt
    by (apply Radix.of_to_be; unfold U32_MAX in Hip; lia).
  destruct (to_be_bytes 4 ip) as [|a [|b [|c [|d [|]]]]]; try done.
  rewrite !Forall_cons in Hok. destruct Hok as (Ha & Hb & Hc & Hd & _).
  destruct (dec_octet a Ha) as (Pa & _ & Sa & _), (dec_octet b Hb) as (Pb & _ & Sb & _),
    (dec_octet c Hc) as (Pc & _ & Sc & _), (dec_octet d Hd) as (Pd & _ & Sd & _).
  rewrite StrFacts.split_join by (done || by repeat constructor).
  cbn [mapM fmap list_fmap]. rewrite Pa, Pb, Pc, Pd. exact (f_equal Some Hrt).
Qed.

Lemma ipv4_str_all (P : ascii → Prop) ip :
  P "."%char → (∀ b, byte_ok b → Str.all P (dec b)) → Str.all P (ipv4_str ip).
Proof.
  intros Hdot HP. unfold ipv4_str.
  pose proof (Radix.to_be_ok 256 ltac:(lia) 4 ip) as Hok. revert Hok.
  generalize (to_be_bytes 4 ip). intros l Hok.
  induction Hok as [|b l Hb Hl IH]; [constructor|].
  destruct l as [|c l]; [by apply HP|].
  change (Str.all P (dec b +:+ String "." (Str.join "." (dec <$> c :: l)))).
  apply StrFacts.all_app; split; [by apply HP|]. constructor; [done|]. exact IH.
Qed.

(** ** Keys *)
Section keys.
Context `{!WgCrypto}.

(** [Keys] -- memory/connection/wireguard.rs:15-21 *)
Record Keys : Set := { privkey : string }.

(** [Keys::default] -- memory/connection/wireguard.rs:23-32

    [secret] is what the operating system's generator yields. *)
Definition Keys_default (secret : list Z) : Keys := {| privkey := b64_encode secret |}.

(** [Keys::derive_pubkey] -- memory/connection/wireguard.rs:39-52 *)
Definition derive_pubkey (private_key_b64 : string) : result string Error :=
  match b64_decode private_key_b64 with
  | Err e => Err (Error.Custom ("invalid base64 private key: " +:+ e))
  | Ok private_vec =>
    if decide (length private_vec = 32%nat)
    then Ok (b64_encode (x25519_public private_vec))
    else Err (Error.Custom "Private key must be exactly 32 bytes")
  end.

(** [Keys::pubkey] -- memory/connection/wireguard.rs:34-37 *)
Definition pubkey (k : Keys) : result string Error := derive_pubkey (privkey k).

(** [KEY_LEN] -- proto/wireguard.rs:23-23 *)
Definition KEY_LEN : nat := 32.

(** [WgApi::decode_pubkey] -- proto/wireguard.rs:52-65 *)
Definition decode_pubkey (pubkey : string) : result (list Z) Error :=
  match b64_decode pubkey with
  | Err e => Err (Error.Custom ("Failed to decode pubkey: " +:+ e))
  | Ok bytes =>
    if decide (length bytes = KEY_LEN) then Ok bytes
    else Err (Error.Custom ("Invalid WireGuard public key length: " +:+
      pretty (N.of_nat (length bytes))))
  end.

Lemma decode_derived secret :
  bytes_ok secret → length secret = 32%nat →
  ∃ p, pubkey (Keys_default secret) = Ok p ∧
    decode_pubkey p = Ok (x25519_public secret).
Proof.
  intros Hok Hlen. unfold pubkey, derive_pubkey, Keys_default. cbn.
  rewrite b64_decode_encode, decide_True by done. eexists; split; [done|].
  unfold decode_pubkey. rewrite b64_decode_encode by apply x25519_ok.
  by rewrite x25519_length, decide_True.
Qed.

(** A public key that was derived decodes. *)
Lemma pubkey_decodes k p : pubkey k = Ok p → ∃ key, decode_pubkey p = Ok key.
Proof.
  unfold pubkey, derive_pubkey. intros Hp. repeat (case_match; try discriminate).
  injection Hp as <-. unfold decode_pubkey. rewrite b64_decode_encode by apply x25519_ok.
  rewrite x25519_length, decide_True by done. by eexists.
Qed.
End keys.
#[export] Instance Keys_eq_dec : EqDecision Keys.
Proof. solve_decision. Defined.

(** ** Address masks *)
Inductive IpVersion : Set := IPv4 | IPv6.

(** [IpAddrMask] -- memory/connection/wireguard.rs:61-68 *)
Record IpAddrMask : Set := { address : IpAddr; cidr : Z }.
#[export] Instance IpAddrMask_eq_dec : EqDecision IpAddrMask.
Proof. solve_decision. Defined.

(** [IpAddrMask::new] -- memory/connection/wireguard.rs:71-73 *)
Definition IpAddrMask_new (address : IpAddr) (cidr : Z) : IpAddrMask :=
  {| address := address; cidr := cidr |}.

(** [IpAddrMask::host] -- memory/connection/wireguard.rs:75-81 *)
Definition host (a : IpAddr) : IpAddrMask :=
  {| address := a; cidr := match a with V4 _ => 32 | V6 _ => 128 end |}.

(** [IpAddrMask::as_ipv4] -- memory/connection/wireguard.rs:83-88 *)
Definition as_ipv4 (m : IpAddrMask) : option Ipv4Addr :=
  match address m with V4 ip => Some ip | _ => None end.

(** [IpAddrMask::increment_ipv4] -- memory/connection/wireguard.rs:106-109 *)
Definition increment_ipv4 (ip : Ipv4Addr) : option Ipv4Addr :=
  if decide (ip + 1 <= U32_MAX) then Some (ip + 1) else None.

(** [IpAddrMask::first_ipv4] -- memory/connection/wireguard.rs:101-104 *)
Definition first_ipv4 (m : IpAddrMask) : option Ipv4Addr :=
  match as_ipv4 m with Some base => increment_ipv4 base | None => None end.

(** [IpAddrMask::last_ipv4] -- memory/connection/wireguard.rs:111-113 *)
Definition last_ipv4 (m : IpAddrMask) : option Ipv4Addr := as_ipv4 m.

(** [IpAddrMask::contains_ipv4] -- memory/connection/wireguard.rs:115-128 *)
Definition contains_ipv4 (m : IpAddrMask) (ip : Ipv4Addr) : bool :=
  match address m with
  | V4 base =>
    let mask := if decide (cidr m = 0) then 0 else u32_shl U32_MAX (u8_sub 32 (cidr m)) in
    bool_decide (Z.land base mask = Z.land ip mask)
  | _ => false
  end.

(** [IpAddrMask::first_peer_ip] -- memory/connection/wireguard.rs:90-99 *)
Definition first_peer_ip (m : IpAddrMask) : option Ipv4Addr :=
  match first_ipv4 m with
  | Some base =>
    match increment_ipv4 base with
    | Some ip => if contains_ipv4 m ip then Some ip else None
    | None => None
    end
  | None => None
  end.

(** [IpAddrMask::broadcast] -- memory/connection/wireguard.rs:130-153 *)
Definition broadcast (m : IpAddrMask) : IpAddr :=
  match address m with
  | V4 addr =>
    let bits := if decide (32 <= cidr m) then 0 else u32_shr U32_MAX (cidr m) in
    V4 (Z.lor addr bits)
  | V6 addr =>
    let bits := if decide (128 <= cidr m) then 0 else u128_shr U128_MAX (cidr m) in
    V6 (Z.lor addr bits)
  end.

(** [IpAddrMask::mask] -- memory/connection/wireguard.rs:155-174 *)
Definition mask (m : IpAddrMask) : IpAddr :=
  match address m with
  | V4 _ => V4 (if decide (cidr m = 0) then 0 else u32_shl U32_MAX (u8_sub 32 (cidr m)))
  | V6 _ => V6 (if decide (cidr m = 0) then 0 else u128_shl U128_MAX (u8_sub 128 (cidr m)))
  end.

(** [IpAddrMask::is_host] -- memory/connection/wireguard.rs:176-183 *)
Definition is_host (m : IpAddrMask) : bool :=
  if is_ipv4 (address m) then bool_decide (cidr m = 32) else bool_decide (cidr m = 128).

(** [IpAddrMask::ip_version] -- memory/connection/wireguard.rs:185-192 *)
Definition ip_version (m : IpAddrMask) : IpVersion :=
  if is_ipv4 (address m) then IPv4 else IPv6.

(** The masks that the constructors and the text form produce. *)
Definition mask_ok (m : IpAddrMask) : Prop :=
  addr_ok (address m) ∧
  0 <= cidr m <= match address m with V4 _ => 32 | V6 _ => 128 end.

Section text.
Context `{!Ipv6Text}.

Definition ip_parse (s : string) : option IpAddr :=
  match ipv4_parse s with
  | Some ip => Some (V4 ip)
  | None => match ipv6_parse s with Some ip => Some (V6 ip) | None => None end
  end.
Definition ip_str (a : IpAddr) : string :=
  match a with V4 ip => ipv4_str ip | V6 ip => ipv6_str ip end.

(** [IpAddrMask::fmt] -- memory/connection/wireguard.rs:195-199 *)
Definition mask_fmt (m : IpAddrMask) : string := ip_str (address m) +:+ "/" +:+ dec (cidr m).

(** [IpAddrMask::from_str] -- memory/connection/wireguard.rs:212-235 *)
Definition mask_from_str (ip_str : string) : option IpAddrMask :=
  match Str.split_once "/" ip_str with
  | Some (lhs, rhs) =>
    match ip_parse lhs with
    | None => None
    | Some ip =>
      match parse_u8 rhs with
      | None => None
      | Some cidr =>
        let max_cidr := match ip with V4 _ => 32 | V6 _ => 128 end in
        if decide (max_cidr < cidr) then None
        else Some {| address := ip; cidr := cidr |}
      end
    end
  | None =>
    match ip_parse ip_str with
    | None => None
    | Some ip => Some {| address := ip; cidr := if is_ipv4 ip then 32 else 128 |}
    end
  end.

(** [IpAddrMask::default] -- memory/connection/wireguard.rs:311-315 *)
Definition IpAddrMask_default : option IpAddrMask := mask_from_str "10.0.0.0/8".

(** The self-describing formats' values, as the visitor sees them. *)
Inductive Value : Set := VStr (s : string) | VNum (n : Z) | VOther.

(** [IpAddrMaskVisitor::visit_map] -- memory/connection/wireguard.rs:279-304

    [None] is the deserializer's error. *)
Fixpoint visit_entries (map : list (string * Value)) (address : option IpAddr)
    (cidr : option Z) : option (option IpAddr * option Z) :=
  match map with
  | [] => Some (address, cidr)
  | (key, v) :: map =>
    if decide (key = "address") then
      match v with
      | VStr s =>
        match ip_parse s with Some ip => visit_entries map (Some ip) cidr | None => None end
      | _ => None
      end
    else if decide (key = "cidr") then
      match v with
      | VNum n => if decide (0 <= n <= 255) then visit_entries map address (Some n) else None
      | _ => None
      end
    else visit_entries map address cidr
  end.
Definition visit_map (map : list (string * Value)) : option IpAddrMask :=
  match visit_entries map None None with
  | Some (Some address, Some cidr) => Some {| address := address; cidr := cidr |}
  | _ => None
  end.

(** [IpAddrMask::deserialize] -- memory/connection/wireguard.rs:255-309 *)
Definition mask_deserialize (v : string + list (string * Value)) : option IpAddrMask :=
  match v with inl s => mask_from_str s | inr map => visit_map map end.
End text.

(** [Param] -- memory/connection/wireguard.rs:237-244 *)
Record Param : Set := { keys : Keys; param_address : IpAddrMask }.
#[export] Instance Param_eq_dec : EqDecision Param.
Proof. solve_decision. Defined.

(** [Param::new] -- memory/connection/wireguard.rs:246-253 *)
Definition Param_new `{!WgCrypto} (secret : list Z) (ip : IpAddrMask) : Param :=
  {| keys := Keys_default secret; param_address := ip |}.


(** ** The block of addresses a mask denotes *)
Definition v4_mask (c : Z) : Z := if decide (c = 0) then 0 else u32_shl U32_MAX (u8_sub 32 c).

Lemma ones_32 : U32_MAX = Z.ones 32.
Proof. reflexivity. Qed.

Lemma land_v4_mask c x :
  0 <= c <= 32 → 0 <= x <= U32_MAX →
  Z.land x (v4_mask c) = Z.shiftl (Z.shiftr x (32 - c)) (32 - c).
Proof.
  intros Hc Hx. unfold v4_mask. case_decide as H0.
  - subst. rewrite Z.land_0_r, Z.sub_0_r, Z.shiftr_div_pow2 by lia.
    rewrite Z.div_small by (unfold U32_MAX in Hx; lia). by rewrite Z.shiftl_0_l.
  - unfold u8_sub. rewrite as_unsigned_id by lia.
    unfold u32_shl, as_unsigned. rewrite <- Z.land_ones by lia.
    assert (Z.land (32 - c) 31 = 32 - c) as ->.
    { change 31 with (Z.ones 5). rewrite Z.land_ones, Z.mod_small by lia. lia. }
    rewrite ones_32. apply Z.bits_inj'. intros n Hn.
    rewrite !Z.land_spec, !Z.shiftl_spec by lia.
    rewrite (Z.testbit_ones_nonneg 32 n) by lia.
    destruct (Z.ltb_spec n (32 - c)).
    + rewrite !(Z.testbit_neg_r _ (n - (32 - c))) by lia. by rewrite andb_false_r.
    + rewrite Z.shiftr_spec, Z.testbit_ones_nonneg by lia.
      replace (n - (32 - c) + (32 - c)) with n by lia.
      assert (32 <= n → Z.testbit x n = false) as Hhigh.
      { intros H32. apply Z.testbit_false; [lia|]. rewrite Z.div_small; [done|].
        split; [lia|]. apply Z.lt_le_trans with (2 ^ 32); [unfold U32_MAX in Hx; lia|].
        apply Z.pow_le_mono_r; lia. }
      destruct (Z.ltb_spec n 32), (Z.ltb_spec (n - (32 - c)) 32); try lia;
        rewrite ?andb_true_r, ?andb_false_r; try done; by rewrite Hhigh.
Qed.

Lemma lor_ones x k : 0 <= k → 0 <= x → Z.lor x (Z.ones k) = x / 2 ^ k * 2 ^ k + Z.ones k.
Proof.
  intros Hk Hx. rewrite <- Z.shiftr_div_pow2, <- Z.shiftl_mul_pow2 by lia.
  rewrite Z.add_nocarry_lxor.
  - apply Z.bits_inj'. intros n Hn.
    rewrite Z.lor_spec, Z.lxor_spec, Z.shiftl_spec, Z.testbit_ones_nonneg by lia.
    destruct (Z.ltb_spec n k).
    + rewrite (Z.testbit_neg_r _ (n - k)) by lia. by rewrite orb_true_r.
    + rewrite Z.shiftr_spec, orb_false_r, xorb_false_r by lia. f_equal. lia.
  - apply Z.bits_inj'. intros n Hn.
    rewrite Z.land_spec, Z.shiftl_spec, Z.testbit_ones_nonneg, Z.bits_0 by lia.
    destruct (Z.ltb_spec n k); [|by rewrite andb_false_r].
    by rewrite (Z.testbit_neg_r _ (n - k)) by lia.
Qed.

Definition block_lo (base c : Z) : Z := base / 2 ^ (32 - c) * 2 ^ (32 - c).
Definition block_hi (base c : Z) : Z := block_lo base c + 2 ^ (32 - c) - 1.

Lemma land_block c x :
  0 <= c <= 32 → 0 <= x <= U32_MAX → Z.land x (v4_mask c) = block_lo x c.
Proof.
  intros. rewrite land_v4_mask by done.
  by rewrite Z.shiftl_mul_pow2, Z.shiftr_div_pow2 by lia.
Qed.

Lemma block_lo_eq base ip c :
  0 <= c <= 32 →
  block_lo base c = block_lo ip c ↔ block_lo base c <= ip <= block_hi base c.
Proof.
  intros Hc. unfold block_hi, block_lo. set (p := 2 ^ (32 - c)).
  assert (0 < p) by (apply Z.pow_pos_nonneg; lia).
  pose proof (Z.div_mod ip p ltac:(lia)). pose proof (Z.mod_pos_bound ip p ltac:(lia)).
  split; [nia|]. intros Hb. f_equal. apply Z.div_unique with (ip - base / p * p); lia.
Qed.

Lemma broadcast_block base c :
  0 <= c <= 32 → 0 <= base <= U32_MAX →
  broadcast {| address := V4 base; cidr := c |} = V4 (block_hi base c).
Proof.
  intros Hc Hb. unfold broadcast, block_hi, block_lo. cbn [address cidr]. f_equal.
  case_decide as H32.
  - assert (c = 32) as -> by lia. rewrite Z.lor_0_r, Z.sub_diag, Z.pow_0_r, Z.div_1_r. lia.
  - unfold u32_shr. assert (Z.land c 31 = c) as ->.
    { change 31 with (Z.ones 5). rewrite Z.land_ones, Z.mod_small by lia. done. }
    rewrite ones_32, Z.ones_equiv, Z.shiftr_div_pow2 by lia.
    assert (Z.pred (2 ^ 32) / 2 ^ c = Z.ones (32 - c)) as ->.
    { rewrite Z.ones_equiv. symmetry.
      assert (2 ^ 32 = 2 ^ (32 - c) * 2 ^ c) as Hs
        by (rewrite <- Z.pow_add_r by lia; f_equal; lia).
      assert (0 < 2 ^ c) by (apply Z.pow_pos_nonneg; lia).
      apply Z.div_unique with (2 ^ c - 1); lia. }
    rewrite lor_ones, Z.ones_equiv by lia. lia.
Qed.

Lemma contains_block base c ip :
  0 <= c <= 32 → 0 <= base <= U32_MAX → 0 <= ip <= U32_MAX →
  contains_ipv4 {| address := V4 base; cidr := c |} ip = true ↔
  block_lo base c <= ip <= block_hi base c.
Proof.
  intros. unfold contains_ipv4. cbn [address cidr]. fold (v4_mask c).
  rewrite bool_decide_eq_true, !land_block by done. by apply block_lo_eq.
Qed.

Lemma block_lo_nonneg base c : 0 <= c <= 32 → 0 <= base → 0 <= block_lo base c.
Proof.
  intros. unfold block_lo. assert (0 < 2 ^ (32 - c)) by (apply Z.pow_pos_nonneg; lia).
  pose proof (Z.div_pos base (2 ^ (32 - c)) ltac:(lia) ltac:(lia)). nia.
Qed.
Lemma block_hi_max base c : 0 <= c <= 32 → 0 <= base <= U32_MAX → block_hi base c <= U32_MAX.
Proof.
  intros Hc Hb. unfold block_hi, block_lo, U32_MAX in *.
  assert (2 ^ 32 = 2 ^ c * 2 ^ (32 - c)) as Hs
    by (rewrite <- Z.pow_add_r by lia; f_equal; lia).
  assert (0 < 2 ^ (32 - c)) by (apply Z.pow_pos_nonneg; lia).
  assert (base / 2 ^ (32 - c) < 2 ^ c) by (apply Z.div_lt_upper_bound; lia). nia.
Qed.

Section text_facts.
Context `{!Ipv6Text}.

Lemma mapM_octets_digits l r :
  mapM parse_octet l = Some r → Forall (Str.all (λ c, c ≠ ":"%char)) l.
Proof.
  revert r; induction l as [|w l IH]; intros r Hm; [constructor|]. cbn in Hm.
  destruct (parse_octet w) as [d|] eqn:Hw; [|done]. cbn in Hm.
  destruct (mapM parse_octet l) as [ds|] eqn:Hl; [|done]. constructor; [|by eapply IH].
  unfold parse_octet in Hw. case_decide; [done|].
  destruct (parse_digits 0 w) as [n|] eqn:Hd; [|done]. clear -Hd. revert Hd. generalize 0.
  unfold Str.all. induction w as [|c w IH]; intros acc Hd; [constructor|]. cbn in Hd.
  destruct (digit_val c) as [v|] eqn:Hv; [|done]. constructor; [|by eapply IH].
  intros ->. by vm_compute in Hv.
Qed.

Lemma split_colon sep s :
  sep ≠ ":"%char → Forall (Str.all (λ c, c ≠ ":"%char)) (Str.split sep s) →
  Str.all (λ c, c ≠ ":"%char) s.
Proof.
  intros Hsep. unfold Str.all. induction s as [|c s IH]; cbn; [constructor|].
  case_decide as Hc.
  - subst. inversion_clear 1. constructor; auto.
  - destruct (Str.split sep s) as [|w ws] eqn:Hs.
    + inversion_clear 1 as [|? ? Hw _]. inversion_clear Hw. constructor; auto.
    + inversion_clear 1 as [|? ? Hw Hws]. inversion_clear Hw. constructor; auto.
Qed.

Lemma ipv4_parse_v6 a : ipv4_parse (ipv6_str a) = None.
Proof.
  unfold ipv4_parse. destruct (mapM _ _) as [r|] eqn:Hm; [|done].
  apply mapM_octets_digits, split_colon in Hm; [|done]. by apply ipv6_colon in Hm.
Qed.

Lemma ip_parse_str a : addr_ok a → ip_parse (ip_str a) = Some a.
Proof.
  destruct a as [ip|ip]; cbn [addr_ok ip_str]; intros Hok; unfold ip_parse.
  - by rewrite ipv4_parse_str.
  - rewrite ipv4_parse_v6, ipv6_parse_str; [done|]. unfold U128_MAX in Hok. lia.
Qed.

Lemma ip_str_no_slash a : Str.all (λ c, c ≠ "/"%char) (ip_str a).
Proof.
  destruct a as [ip|ip]; [|apply ipv6_no_slash].
  apply ipv4_str_all; [done|]. intros b Hb. by apply dec_octet.
Qed.

Lemma mapM_octets_ok l r : mapM parse_octet l = Some r → Forall (λ b, b <= 255) r.
Proof.
  revert r; induction l as [|w l IH]; intros r Hm; cbn in Hm; [by injection Hm as <-|].
  destruct (parse_octet w) as [d|] eqn:Hw; [|done]. cbn in Hm.
  destruct (mapM parse_octet l) as [ds|] eqn:Hl; [|done]. cbn in Hm. injection Hm as <-.
  constructor; [|by eapply IH]. unfold parse_octet in Hw.
  repeat case_match; simplify_eq; done.
Qed.
End text_facts.

(** ** The node's interface

    The kernel module behind [defguard_wireguard_rs]: reading the interface
    may fail, and so may writing a peer.  [KernelIface] is that crate's
    [WireguardInterfaceApi]; a peer is known by its 32-byte key. *)
Record Peer : Set := { allowed_ips : list IpAddrMask; rx_bytes : Z; tx_bytes : Z }.

Class KernelIface (D : Type) := {
  read_interface_data : D → result (gmap (list Z) Peer) string;
  configure_peer : D → list Z → list IpAddrMask → D * result unit string;
  remove_peer : D → list Z → D * result unit string;
  configure_peer_ok : ∀ d key ips d' peers,
    configure_peer d key ips = (d', Ok tt) → read_interface_data d = Ok peers →
    ∃ p, read_interface_data d' = Ok (<[key := p]> peers) ∧ allowed_ips p = ips;
  remove_peer_ok : ∀ d key d' peers,
    remove_peer d key = (d', Ok tt) → read_interface_data d = Ok peers →
    read_interface_data d' = Ok (delete key peers);
  configure_peer_keeps : ∀ d key ips d' r peers,
    configure_peer d key ips = (d', r) → read_interface_data d = Ok peers →
    ∃ peers', read_interface_data d' = Ok peers' ∧ ∀ k, is_Some (peers !! k) → is_Some (peers' !! k);
}.

(** A table in memory that never fails. *)
#[export, program] Instance table_iface : KernelIface (gmap (list Z) Peer) := {|
  read_interface_data d := Ok d;
  configure_peer d key ips :=
    (<[key := {| allowed_ips := ips; rx_bytes := 0; tx_bytes := 0 |}]> d, Ok tt);
  remove_peer d key := (delete key d, Ok tt);
|}.
Next Obligation.
  intros d key ips d' peers Hc Hr. injection Hc as <-. injection Hr as ->.
  by eexists {| allowed_ips := ips |}.
Qed.
Next Obligation. intros d key d' peers Hc Hr. injection Hc as <-. by injection Hr as ->. Qed.
Next Obligation.
  intros d key ips d' r peers Hc Hr. injection Hc as <- <-. injection Hr as ->. eexists.
  split; [done|]. intros k Hk. apply lookup_insert_is_Some'. by right.
Qed.

Section wgapi.
Context {D : Type} `{!KernelIface D, !WgCrypto, !IterOrder}.
Implicit Type client : D.

(** [WgApi::validate] -- proto/wireguard.rs:45-50 *)
Definition WgApi_validate (client : D) : result unit Error :=
  match read_interface_data client with
  | Ok _ => Ok tt
  | Err e => Err (Error.Custom ("WireGuard error: " +:+ e))
  end.

(** [WgApi::create] -- proto/wireguard.rs:67-77 *)
Definition WgApi_create (client : D) (pubkey : string) (ip : IpAddrMask) :
    D * result unit Error :=
  match decode_pubkey pubkey with
  | Err e => (client, Err e)
  | Ok key =>
    match configure_peer client key [ip] with
    | (client, Ok _) => (client, Ok tt)
    | (client, Err e) => (client, Err (Error.Wireguard e))
    end
  end.

(** the addresses of single hosts among a table's allowed addresses *)
Definition host_ips (peers : gmap (list Z) Peer) : list Ipv4Addr :=
  omap (λ m, match address m with V4 a => if decide (cidr m = 32) then Some a else None
                                | V6 _ => None end)
    (mjoin (allowed_ips <$> hvalues peers)).

(** [WgApi::last_ip] -- proto/wireguard.rs:79-103

    [ips.sort()] and [last]: the greatest. *)
Definition WgApi_last_ip (client : D) : result Ipv4Addr Error :=
  match read_interface_data client with
  | Err e => Err (Error.Wireguard e)
  | Ok peers =>
    ok_or (max_by_key id (host_ips peers)) (Error.Custom "No /32 IPs found in peers")
  end.

(** [for ip_u32 in lo..hi { if !used.contains(&ip_u32) { return .. } }] *)
Fixpoint first_free (used : gset Z) (n : nat) (lo : Z) : option Z :=
  match n with
  | O => None
  | S n => if decide (lo ∈ used) then first_free used n (lo + 1) else Some lo
  end.

(** [WgApi::next_available_ip_mask] -- proto/wireguard.rs:105-151

    Nothing in the repository calls it: the server chooses the addresses. *)
Definition next_available_ip_mask (client : D) (network : IpAddrMask) (addr : Ipv4Addr) :
    result IpAddrMask Error :=
  match address network with
  | V6 _ => Err (Error.Custom "Only IPv4 networks are supported")
  | V4 base_ip =>
    let interface_ip := addr in
    let netmask := u32_not (as_unsigned 32 (u32_shl 1 (u8_sub 32 (cidr network)) - 1)) in
    let network_addr := Z.land base_ip netmask in
    let broadcast_addr := Z.lor network_addr (u32_not netmask) in
    match read_interface_data client with
    | Err e => Err (Error.Wireguard e)
    | Ok peers =>
      let used : gset Z := {[ interface_ip ]} ∪ list_to_set (host_ips peers) in
      let lo := as_unsigned 32 (network_addr + 1) in
      let hi := as_unsigned 32 (broadcast_addr - 1) in
      match first_free used (Z.to_nat (hi - lo)) lo with
      | Some ip_u32 => Ok {| address := V4 ip_u32; cidr := 32 |}
      | None => Err (Error.Custom "No available IPs in the subnet")
      end
    end
  end.

(** [WgApi::peer_stats] -- proto/wireguard.rs:153-161

    The counters are [u64]; [as i64] reads them signed. *)
Definition WgApi_peer_stats (client : D) (pubkey : string) : result (Z * Z) Error :=
  match read_interface_data client with
  | Err e => Err (Error.Wireguard e)
  | Ok peers =>
    let? key := decode_pubkey pubkey in
    match peers !! key with
    | None => Err (Error.Custom ("Peer with pubkey " +:+ pubkey +:+ " not found"))
    | Some peer => Ok (as_signed 64 (rx_bytes peer), as_signed 64 (tx_bytes peer))
    end
  end.

(** [WgApi::is_exist] -- proto/wireguard.rs:163-173 *)
Definition WgApi_is_exist (client : D) (pubkey : string) : bool :=
  match decode_pubkey pubkey with
  | Ok key =>
    match read_interface_data client with
    | Ok peers => is_some (peers !! key)
    | Err _ => false
    end
  | Err _ => false
  end.

(** [WgApi::delete] -- proto/wireguard.rs:175-179 *)
Definition WgApi_delete (client : D) (pubkey : string) : D * result unit Error :=
  match decode_pubkey pubkey with
  | Err e => (client, Err e)
  | Ok key =>
    match remove_peer client key with
    | (client, Ok _) => (client, Ok tt)
    | (client, Err e) => (client, Err (Error.Wireguard e))
    end
  end.

Lemma first_free_Some used n lo x :
  first_free used n lo = Some x →
  lo <= x < lo + Z.of_nat n ∧ x ∉ used ∧ ∀ y, lo <= y < x → y ∈ used.
Proof.
  revert lo; induction n as [|n IH]; intros lo; cbn [first_free]; [done|].
  case_decide as Hu.
  - intros [Hx [Hn Hy]]%IH. split_and!; [lia|lia|done|]. intros y Hyr.
    destruct (decide (y = lo)) as [->|]; [done|]. apply Hy. lia.
  - intros [= <-]. split_and!; [lia|lia|done|lia].
Qed.

Lemma first_free_None used n lo :
  first_free used n lo = None → ∀ y, lo <= y < lo + Z.of_nat n → y ∈ used.
Proof.
  revert lo; induction n as [|n IH]; intros lo; cbn [first_free]; [lia|].
  case_decide as Hu; [|done]. intros Hf y Hy.
  destruct (decide (y = lo)) as [->|]; [done|]. apply (IH (lo + 1)); [done|lia].
Qed.

Lemma elem_of_host_ips peers a :
  a ∈ host_ips peers ↔
  ∃ key p, peers !! key = Some p ∧ {| address := V4 a; cidr := 32 |} ∈ allowed_ips p.
Proof.
  unfold host_ips. rewrite list_elem_of_omap. split.
  - intros ([addr c] & Hin & Hm). cbn in Hm. destruct addr as [a'|]; [|done].
    case_decide; [|done]. simplify_eq.
    apply list_elem_of_join in Hin as (ips & Hin & Hips).
    apply list_elem_of_fmap in Hips as (p & -> & Hp).
    apply elem_of_hvalues in Hp as [key Hkey]. eauto.
  - intros (key & p & Hkey & Hin). eexists; split.
    + apply list_elem_of_join. eexists; split; [exact Hin|].
      apply list_elem_of_fmap. eexists; split; [done|]. apply elem_of_hvalues. eauto.
    + done.
Qed.
End wgapi.

Lemma parse_digits_nonneg acc s n : 0 <= acc → parse_digits acc s = Some n → 0 <= n.
Proof.
  revert acc; induction s as [|c s IH]; intros acc Hacc; cbn; [by intros [= <-]|].
  unfold digit_val. case_decide; [|done]. apply IH. lia.
Qed.

Lemma parse_u8_ok s n : parse_u8 s = Some n → 0 <= n <= 255.
Proof.
  unfold parse_u8. cbv zeta. case_decide; [done|].
  destruct (parse_digits 0 _) as [n'|] eqn:Hd; [|done].
  case_decide; [|done]. intros [= <-]. by apply parse_digits_nonneg in Hd.
Qed.

Lemma parse_octet_ok s n : parse_octet s = Some n → byte_ok n.
Proof.
  unfold parse_octet, byte_ok. case_decide; [done|].
  destruct (parse_digits 0 _) as [n'|] eqn:Hd; [|done].
  case_decide; [|done]. intros [= <-]. apply parse_digits_nonneg in Hd; lia.
Qed.

Lemma ipv4_parse_ok s ip : ipv4_parse s = Some ip → 0 <= ip <= U32_MAX.
Proof.
  unfold ipv4_parse. destruct (mapM _ _) as [r|] eqn:Hm; [|done].
  assert (bytes_ok r) as Hr.
  { apply mapM_Some in Hm. clear -Hm. induction Hm; constructor; [|done].
    by eapply parse_octet_ok. }
  destruct r as [|a [|b [|c [|d [|]]]]]; try done. intros [= <-].
  pose proof (Radix.of_be_bound 256 ltac:(lia) _ Hr) as Hb.
  change (256 ^ Z.of_nat (length [a; b; c; d])) with (U32_MAX + 1) in Hb. lia.
Qed.

Lemma ip_parse_ok `{!Ipv6Text} s a : ip_parse s = Some a → addr_ok a.
Proof.
  unfold ip_parse. destruct (ipv4_parse s) as [ip|] eqn:H4.
  - intros [= <-]. by apply ipv4_parse_ok in H4.
  - destruct (ipv6_parse s) as [ip|] eqn:H6; [|done]. intros [= <-].
    apply ipv6_parse_ok in H6. cbn. unfold U128_MAX. lia.
Qed.

Lemma mask_from_str_ok `{!Ipv6Text} s m : mask_from_str s = Some m → mask_ok m.
Proof.
  unfold mask_from_str. destruct (Str.split_once "/" s) as [[l r]|].
  - destruct (ip_parse l) as [ip|] eqn:Hip; [|done].
    destruct (parse_u8 r) as [n|] eqn:Hr; [|done]. case_decide; [done|]. intros [= <-].
    apply ip_parse_ok in Hip. apply parse_u8_ok in Hr. split; [done|cbn; lia].
  - destruct (ip_parse s) as [ip|] eqn:Hip; [|done]. intros [= <-].
    apply ip_parse_ok in Hip. split; [done|]. destruct ip; cbn; lia.
Qed.

Lemma mask_from_str_fmt `{!Ipv6Text} m : mask_ok m → mask_from_str (mask_fmt m) = Some m.
Proof.
  intros [Ha Hc]. unfold mask_from_str, mask_fmt.
  change ("/" +:+ dec (cidr m)) with (String "/" (dec (cidr m))).
  rewrite StrFacts.split_once_app, ip_parse_str by (done || apply ip_str_no_slash).
  destruct (dec_octet (cidr m)) as (_ & -> & _).
  { unfold byte_ok. destruct (address m); lia. }
  rewrite decide_False by lia. by destruct m.
Qed.

(** A release build's netmask is the mask of [mask()] for a prefix in 1..=32. *)
Lemma netmask_block base c :
  1 <= c <= 32 → 0 <= base <= U32_MAX →
  let netmask := u32_not (as_unsigned 32 (u32_shl 1 (u8_sub 32 c) - 1)) in
  Z.land base netmask = block_lo base c ∧
  Z.lor (Z.land base netmask) (u32_not netmask) = block_hi base c.
Proof.
  intros Hc Hb netmask.
  assert (0 < 2 ^ (32 - c) <= 2 ^ 31) as Hp.
  { split; [apply Z.pow_pos_nonneg; lia|apply Z.pow_le_mono_r; lia]. }
  assert (as_unsigned 32 (u32_shl 1 (u8_sub 32 c) - 1) = 2 ^ (32 - c) - 1) as Hs.
  { unfold u8_sub. rewrite (as_unsigned_id 8) by lia. unfold u32_shl.
    assert (Z.land (32 - c) 31 = 32 - c) as ->.
    { change 31 with (Z.ones 5). rewrite Z.land_ones, Z.mod_small by lia. lia. }
    rewrite Z.shiftl_1_l, (as_unsigned_id 32 (2 ^ (32 - c))) by lia.
    apply as_unsigned_id. lia. }
  assert (netmask = v4_mask c) as Hm.
  { unfold netmask. rewrite Hs. unfold u32_not.
    pose proof (land_block c U32_MAX ltac:(lia) ltac:(done)) as Hl.
    assert (0 <= v4_mask c <= U32_MAX) as Hv.
    { unfold v4_mask, u32_shl, as_unsigned, U32_MAX. case_decide; [lia|].
      pose proof (Z.mod_pos_bound (Z.shiftl (2 ^ 32 - 1) (Z.land (u8_sub 32 c) 31)) (2 ^ 32)).
      lia. }
    rewrite ones_32, Z.land_comm, Z.land_ones, Z.mod_small in Hl
      by (unfold U32_MAX in Hv; lia).
    rewrite Hl. unfold block_lo. rewrite <- ones_32. unfold U32_MAX.
    assert (2 ^ 32 = 2 ^ c * 2 ^ (32 - c)) as Hsplit
      by (rewrite <- Z.pow_add_r by lia; f_equal; lia).
    assert ((2 ^ 32 - 1) / 2 ^ (32 - c) = 2 ^ c - 1) as ->; [|lia].
    symmetry. apply Z.div_unique with (2 ^ (32 - c) - 1); lia. }
  assert (u32_not netmask = Z.ones (32 - c)) as Hn.
  { unfold netmask. rewrite Hs. unfold u32_not. rewrite Z.ones_equiv. lia. }
  rewrite Hn, Hm, land_block by lia. split; [done|].
  rewrite lor_ones by (try apply block_lo_nonneg; lia).
  unfold block_hi, block_lo. rewrite Z.div_mul by lia. rewrite Z.ones_equiv. lia.
Qed.

(** ** Theorems *)

(** The text of a well-formed mask parses back to it, and whatever text
    [IpAddrMask::from_str] accepts denotes a well-formed mask: an address of its
    family with a prefix of at most 32 or 128. *)
Theorem mask_text_roundtrip `{!Ipv6Text} (m : IpAddrMask) :
  (mask_ok m → mask_from_str (mask_fmt m) = Some m) ∧
  (∀ s, mask_from_str s = Some m → mask_ok m).
Proof.
  split.
  - apply mask_from_str_fmt.
  - intros s. apply mask_from_str_ok.
Qed.

Lemma mask_text_roundtrip_witness :
  mask_ok {| address := V4 167772161; cidr := 24 |} ∧
  mask_fmt {| address := V4 167772161; cidr := 24 |} = "10.0.0.1/24" ∧
  mask_from_str "10.0.0.1/24" = Some {| address := V4 167772161; cidr := 24 |}.
Proof.
  assert (mask_ok {| address := V4 167772161; cidr := 24 |}) as Hok
    by (split; cbn; unfold U32_MAX; lia).
  split_and!; [exact Hok|reflexivity|].
  exact (proj1 (mask_text_roundtrip {| address := V4 167772161; cidr := 24 |}) Hok).
Defined.

(** For a well-formed IPv4 mask, [contains_ipv4] accepts exactly the
    addresses from the base masked with [mask()] up to [broadcast()], and
    [first_peer_ip] is the base plus two when that is still inside. *)
Theorem mask_denotes_block (base c : Z) (m := {| address := V4 base; cidr := c |})
    (Hok : mask_ok m) :
  ∃ mk hi, mask m = V4 mk ∧ broadcast m = V4 hi ∧
    (∀ ip, 0 <= ip <= U32_MAX → contains_ipv4 m ip = true ↔ Z.land base mk <= ip <= hi) ∧
    (∀ ip, first_peer_ip m = Some ip ↔ ip = base + 2 ∧ base + 2 <= hi).
Proof.
  destruct Hok as [Hb Hc]. cbn in Hb, Hc. exists (v4_mask c), (block_hi base c).
  pose proof (proj1 (block_lo_eq base base c Hc) eq_refl) as Hself.
  pose proof (block_hi_max base c Hc Hb).
  split_and!; [done|by apply broadcast_block| |].
  - intros ip Hip. rewrite land_block by done. by apply contains_block.
  - intros ip. unfold first_peer_ip, first_ipv4, increment_ipv4. cbn [as_ipv4 address m].
    case_decide; [|split; [done|lia]].
    case_decide; [|split; [done|lia]].
    destruct (contains_ipv4 m (base + 1 + 1)) eqn:Hin.
    + apply contains_block in Hin; [|lia..]. split; [intros [= <-]; lia|].
      intros [-> _]. f_equal. lia.
    + split; [done|]. intros [_ Hle]. exfalso. apply not_true_iff_false in Hin. apply Hin.
      apply contains_block; lia.
Qed.

Lemma mask_denotes_block_witness :
  mask_ok {| address := V4 167772160; cidr := 30 |} ∧
  ∃ mk hi, mask {| address := V4 167772160; cidr := 30 |} = V4 mk ∧
    broadcast {| address := V4 167772160; cidr := 30 |} = V4 hi.
Proof.
  assert (mask_ok {| address := V4 167772160; cidr := 30 |}) as Hok
    by (split; cbn; unfold U32_MAX; lia).
  split; [exact Hok|].
  destruct (mask_denotes_block 167772160 30 Hok) as (mk & hi & H1 & H2 & _).
  exists mk, hi. split; assumption.
Defined.

(** C39: [next_available_ip_mask] on a network of prefix 1 to 30 hands out a /32
    inside the network, strictly between the network and the broadcast
    address, which is neither the interface's own address nor any peer's host
    address, and it is the least such; when it finds none, every address from
    the first host up to the last but two of the network is taken.  It fails
    in no other way than a failed read. *)
Theorem next_available_sound `{!KernelIface D, !WgCrypto, !IterOrder}
    (client : D) (peers : gmap (list Z) Peer) (base c addr : Z)
    (network := {| address := V4 base; cidr := c |})
    (Hread : read_interface_data client = Ok peers)
    (Hc : 1 <= c <= 30) (Hb : 0 <= base <= U32_MAX) :
  let free x := x ≠ addr ∧ x ∉ host_ips peers in
  match next_available_ip_mask client network addr with
  | Ok m => ∃ x, m = host (V4 x) ∧ contains_ipv4 network x = true ∧
      block_lo base c < x < block_hi base c ∧ free x ∧
      ∀ y, block_lo base c < y < x → ¬ free y
  | Err e => e = Error.Custom "No available IPs in the subnet" ∧
      ∀ y, block_lo base c < y < block_hi base c - 1 → ¬ free y
  end.
Proof.
  intros free. unfold next_available_ip_mask. cbn [address network cidr].
  destruct (netmask_block base c ltac:(lia) Hb) as [-> ->]. rewrite Hread.
  pose proof (block_lo_nonneg base c ltac:(lia) ltac:(lia)).
  pose proof (block_hi_max base c ltac:(lia) Hb) as Hmax.
  assert (4 <= block_hi base c - block_lo base c + 1).
  { unfold block_hi. assert (2 ^ 2 <= 2 ^ (32 - c)) by (apply Z.pow_le_mono_r; lia). lia. }
  unfold U32_MAX in Hmax. rewrite !as_unsigned_id by lia.
  set (used := {[addr]} ∪ list_to_set (host_ips peers) : gset Z).
  assert (∀ y, y ∈ used → ¬ free y) as Hused.
  { intros y Hy [Hf1 Hf2]. subst used. set_solver. }
  destruct (first_free _ _ _) as [x|] eqn:Hf.
  - apply first_free_Some in Hf as (Hx & Hnu & Hleast). exists x.
    assert (block_lo base c < x < block_hi base c) by lia.
    split_and!; [done| |lia|lia| |].
    + apply (contains_block base c); unfold U32_MAX in *; lia.
    + unfold free. subst used. set_solver.
    + intros y Hy. apply Hused, Hleast. lia.
  - split; [done|]. intros y Hy. apply Hused, (first_free_None _ _ _ Hf). lia.
Qed.

Definition example_peers : gmap (list Z) Peer :=
  {[ [1] := {| allowed_ips := [host (V4 167772162)]; rx_bytes := 0; tx_bytes := 0 |} ]}.

Lemma next_available_sound_witness :
  next_available_ip_mask example_peers {| address := V4 167772160; cidr := 24 |} 167772161
    = Ok (host (V4 167772163)) ∧
  block_lo 167772160 24 < 167772163 < block_hi 167772160 24.
Proof.
  pose proof (next_available_sound example_peers example_peers 167772160 24 167772161
    eq_refl ltac:(lia) ltac:(unfold U32_MAX; lia)) as Hs.
  assert (next_available_ip_mask example_peers {| address := V4 167772160; cidr := 24 |}
    167772161 = Ok (host (V4 167772163))) as Hr by (vm_compute; reflexivity).
  split; [exact Hr|]. cbv zeta in Hs. rewrite Hr in Hs.
  destruct Hs as (x & Hx & _ & Hb & _). unfold host in Hx. injection Hx as <-. exact Hb.
Defined.

(** The object form of a mask is not checked as its text form is: a prefix
    from 33 to 63 is accepted, and [contains_ipv4] then tests the much wider
    block of the prefix less 32 (the release profile's shift wraps). *)
Theorem visit_map_unchecked `{!Ipv6Text} (base c : Z) (Hb : 0 <= base <= U32_MAX)
    (Hc : 33 <= c <= 63) :
  visit_map [("address", VStr (ipv4_str base)); ("cidr", VNum c)]
    = Some {| address := V4 base; cidr := c |} ∧
  (∀ ip, contains_ipv4 {| address := V4 base; cidr := c |} ip
       = contains_ipv4 {| address := V4 base; cidr := c - 32 |} ip) ∧
  (∀ s, mask_from_str s ≠ Some {| address := V4 base; cidr := c |}).
Proof.
  split_and!.
  - unfold visit_map. cbn [visit_entries]. rewrite decide_True by done.
    unfold ip_parse. rewrite ipv4_parse_str by done.
    rewrite decide_False, decide_True by done. by rewrite decide_True by lia.
  - intros ip. unfold contains_ipv4. cbn [address cidr].
    rewrite !decide_False by lia. unfold u8_sub, u32_shl.
    assert (Z.land (as_unsigned 8 (32 - c)) 31 = Z.land (as_unsigned 8 (32 - (c - 32))) 31) as ->;
      [|done].
    change 31 with (Z.ones 5). rewrite !Z.land_ones by lia. unfold as_unsigned.
    replace (32 - (c - 32)) with (32 - c + 1 * 32) by lia.
    rewrite !Z.mod_mod_divide by (by exists 8). by rewrite Z.mod_add.
  - intros s Hs. apply mask_from_str_ok in Hs. destruct Hs as [_ Hs]. cbn in Hs. lia.
Qed.
