(* ===== verification/Connection.v ===== *)
(** * Connections and the messages that announce them

    [memory/connection/{proto,base,conn,operation}.rs] and [zmq/message.rs].
    The two traits [operation::base::Operations] and
    [operation::api::Operations] are the classes [BaseOps] and [ApiOps]; a
    node keeps [Base] connections, the API server [Conn] ones. *)
From S2P Require Import Prelude Foreign Naming Wireguard.
Local Open Scope Z_scope.

(** ** Protocols *)
Module Proto.
(** [Proto] -- memory/connection/proto.rs:9-18 *)
Inductive Proto : Set :=
| Wireguard (param : Param)
| Shadowsocks (password : string)
| Xray (tag : ProtoTag)
| Hysteria2 (token : Uuid)
| Mtproto (secret : string).

#[export] Instance Proto_eq_dec : EqDecision Proto.
Proof. solve_decision. Defined.

(** [Proto::proto] -- memory/connection/proto.rs:21-29 *)
Definition proto (p : Proto) : ProtoTag :=
  match p with
  | Wireguard _ => ProtoTag.Wireguard
  | Shadowsocks _ => ProtoTag.Shadowsocks
  | Hysteria2 _ => ProtoTag.Hysteria2
  | Xray tag => tag
  | Mtproto _ => ProtoTag.Mtproto
  end.

(** [Proto::token] -- memory/connection/proto.rs:31-36 *)
Definition token (p : Proto) : option Uuid :=
  match p with Hysteria2 token => Some token | _ => None end.

(** [Proto::new_wg] -- memory/connection/proto.rs:38-42 *)
Definition new_wg (param : Param) : Proto := Wireguard param.
(** [Proto::new_ss] -- memory/connection/proto.rs:44-48 *)
Definition new_ss (password : string) : Proto := Shadowsocks password.
(** [Proto::new_hysteria2] -- memory/connection/proto.rs:49-51 *)
Definition new_hysteria2 (token : Uuid) : Proto := Hysteria2 token.
(** [Proto::new_xray] -- memory/connection/proto.rs:53-55 *)
Definition new_xray (tag : ProtoTag) : Proto := Xray tag.

(** [Proto::is_xray] -- memory/connection/proto.rs:57-59 *)
Definition is_xray (p : Proto) : bool := match p with Xray _ => true | _ => false end.
(** [Proto::is_wireguard] -- memory/connection/proto.rs:61-63 *)
Definition is_wireguard (p : Proto) : bool :=
  match p with Wireguard _ => true | _ => false end.
(** [Proto::is_shadowsocks] -- memory/connection/proto.rs:65-67 *)
Definition is_shadowsocks (p : Proto) : bool :=
  match p with Shadowsocks _ => true | _ => false end.
(** [Proto::is_hysteria2] -- memory/connection/proto.rs:69-71 *)
Definition is_hysteria2 (p : Proto) : bool :=
  match p with Hysteria2 _ => true | _ => false end.
(** [Proto::is_mtproto] -- memory/connection/proto.rs:73-75 *)
Definition is_mtproto (p : Proto) : bool :=
  match p with Mtproto _ => true | _ => false end.

(** An [Xray] protocol carries a tag that needs no parameter to be rebuilt: one
    of the four Xray has, or [Mtproto] after a trip through the database. *)
Definition plain_tag (t : ProtoTag) : Prop :=
  t ≠ ProtoTag.Wireguard ∧ t ≠ ProtoTag.Shadowsocks ∧ t ≠ ProtoTag.Hysteria2.
Definition proto_ok (p : Proto) : Prop :=
  match p with Xray tag => plain_tag tag | _ => True end.
End Proto.
Notation Proto := Proto.Proto.
#[export] Existing Instance Proto.Proto_eq_dec.

(** ** Messages *)

(** [RkyvDateTime] -- zmq/message.rs:10-16 *)
Record RkyvDateTime : Set := { rk_timestamp : Z; rk_nanos : Z }.
#[export] Instance RkyvDateTime_eq_dec : EqDecision RkyvDateTime.
Proof. solve_decision. Defined.

Section rkyv_datetime.
Context `{!Chrono}.

(** [RkyvDateTime::from] -- zmq/message.rs:18-25 *)
Definition to_rkyv (dt : DateTime) : RkyvDateTime :=
  {| rk_timestamp := timestamp dt; rk_nanos := timestamp_subsec_nanos dt |}.

(** [DateTime::from(RkyvDateTime)] -- zmq/message.rs:27-31

    [None] is the panic of [expect]. *)
Definition of_rkyv (dt : RkyvDateTime) : option DateTime :=
  from_timestamp (rk_timestamp dt) (rk_nanos dt).

Lemma of_to_rkyv dt : dt_ok dt → of_rkyv (to_rkyv dt) = Some dt.
Proof. apply from_timestamp_id. Qed.
End rkyv_datetime.

Module Action.
(** [Action] -- zmq/message.rs:33-40 *)
Inductive Action : Set := Create | Update | Delete | ResetStat.
#[export] Instance Action_eq_dec : EqDecision Action.
Proof. solve_decision. Defined.

(** [Action::fmt] -- zmq/message.rs:42-51 *)
Definition fmt (a : Action) : string :=
  match a with
  | Create => "Create" | Delete => "Delete" | Update => "Update" | ResetStat => "ResetStat"
  end.
End Action.
Notation Action := Action.Action.
#[export] Existing Instance Action.Action_eq_dec.

Module Message.
(** [Message] -- zmq/message.rs:53-64 *)
Record Message : Set := {
  conn_id : Uuid;
  action : Action;
  tag : ProtoTag;
  wg : option Param;
  password : option string;
  token : option Uuid;
  expires_at : option RkyvDateTime;
  subscription_id : option Uuid;
}.
#[export] Instance Message_eq_dec : EqDecision Message.
Proof. solve_decision. Defined.

(** [Message::fmt] -- zmq/message.rs:66-92 *)
Definition fmt `{!UuidText, !Ipv6Text} (m : Message) : string :=
  Str.join " | "
    [uuid_str (conn_id m);
     Action.fmt (action m);
     ProtoTag.fmt (tag m);
     match wg m with
     | Some wg => mask_fmt (param_address wg) +:+ " | " +:+ privkey (keys wg)
     | None => "-"
     end;
     match password m with Some pw => pw | None => "-" end;
     match token m with Some t => uuid_str t | None => "-" end;
     match expires_at m with
     | Some e => "RkyvDateTime { timestamp: " +:+ pretty (rk_timestamp e) +:+
         ", nanos: " +:+ pretty (rk_nanos e) +:+ " }"
     | None => "-"
     end].
End Message.
Notation Message := Message.Message.
#[export] Existing Instance Message.Message_eq_dec.

(** ** Connection records *)
Module Conn.
(** [Conn] -- memory/connection/conn.rs:13-22 *)
Record Conn : Set := {
  env : Env;
  proto : Proto;
  subscription_id : option Uuid;
  created_at : DateTime;
  modified_at : DateTime;
  expires_at : option DateTime;
  is_deleted : bool;
}.
#[export] Instance Conn_eq_dec : EqDecision Conn.
Proof. solve_decision. Defined.

(** [Conn::new] -- memory/connection/conn.rs:54-71 *)
Definition new (now : DateTime) (env : Env) (subscription_id : option Uuid) (proto : Proto)
    (expires_at : option DateTime) : Conn := {|
  env := env;
  created_at := now;
  modified_at := now;
  expires_at := expires_at;
  proto := proto;
  subscription_id := subscription_id;
  is_deleted := false;
|}.
End Conn.
Notation Conn := Conn.Conn.
#[export] Existing Instance Conn.Conn_eq_dec.

Module ConnPatch.
(** [ConnPatch] -- memory/connection/conn.rs:74-83 *)
Record ConnPatch : Set := {
  env : option Env;
  proto : option Proto;
  subscription_id : option Uuid;
  created_at : option DateTime;
  modified_at : option DateTime;
  expires_at : option DateTime;
  is_deleted : option bool;
}.
End ConnPatch.
Notation ConnPatch := ConnPatch.ConnPatch.

Module Base.
(** [Base] -- memory/connection/base.rs:12-22 *)
Record Base : Set := {
  created_at : DateTime;
  modified_at : DateTime;
  expires_at : option DateTime;
  proto : Proto;
  subscription_id : option Uuid;
  is_deleted : bool;
}.
#[export] Instance Base_eq_dec : EqDecision Base.
Proof. solve_decision. Defined.

(** [Base::new] -- memory/connection/base.rs:24-41 *)
Definition new (now : DateTime) (proto : Proto) (expires_at : option DateTime)
    (sub_id : option Uuid) : Base := {|
  created_at := now;
  modified_at := now;
  expires_at := expires_at;
  subscription_id := sub_id;
  proto := proto;
  is_deleted := false;
|}.

(** [Base::from] -- memory/connection/base.rs:43-67 *)
Definition from (conn : Conn) : Base := {|
  created_at := Conn.created_at conn;
  modified_at := Conn.modified_at conn;
  expires_at := Conn.expires_at conn;
  proto := Conn.proto conn;
  subscription_id := Conn.subscription_id conn;
  is_deleted := Conn.is_deleted conn;
|}.
End Base.
Notation Base := Base.Base.
#[export] Existing Instance Base.Base_eq_dec.

(** ** Operations every connection has *)

(** [operation::base::Operations] -- memory/connection/operation/base.rs:10-27

    [set_modified_at] takes the clock's reading. *)
Class BaseOps (C : Type) := {
  get_modified_at : C → DateTime;
  set_modified_at : DateTime → C → C;
  get_expires_at : C → option DateTime;
  set_expires_at : option DateTime → C → C;
  set_proto : Proto → C → C;
  get_proto : C → Proto;
  set_deleted : bool → C → C;
  get_deleted : C → bool;
}.

Section derived.
Context {C : Type} `{!BaseOps C}.

(** [Operations::get_password] -- memory/connection/operation/base.rs:59-64 *)
Definition get_password (c : C) : option string :=
  match get_proto c with Proto.Shadowsocks password => Some password | _ => None end.

(** [Operations::get_token] -- memory/connection/operation/base.rs:66-71 *)
Definition get_token (c : C) : option Uuid :=
  match get_proto c with Proto.Hysteria2 token => Some token | _ => None end.

(** [Operations::get_wireguard] -- memory/connection/operation/base.rs:73-78 *)
Definition get_wireguard (c : C) : option Param :=
  match get_proto c with Proto.Wireguard param => Some param | _ => None end.

(** [Operations::set_password] -- memory/connection/operation/base.rs:80-90 *)
Definition set_password (password : option string) (c : C) : C * result unit Error :=
  match get_proto c, password with
  | Proto.Shadowsocks _, Some new_pw => (set_proto (Proto.Shadowsocks new_pw) c, Ok tt)
  | _, _ => (c, Err (Error.Custom "Password update failed: not a Shadowsocks connection"))
  end.
End derived.

(** [Operations for Base] -- memory/connection/operation/base.rs:29-91 *)
#[export] Instance BaseOps_Base : BaseOps Base := {|
  get_modified_at := Base.modified_at;
  set_modified_at now c := {|
    Base.created_at := Base.created_at c; Base.modified_at := now;
    Base.expires_at := Base.expires_at c; Base.proto := Base.proto c;
    Base.subscription_id := Base.subscription_id c; Base.is_deleted := Base.is_deleted c |};
  get_expires_at := Base.expires_at;
  set_expires_at dt c := {|
    Base.created_at := Base.created_at c; Base.modified_at := Base.modified_at c;
    Base.expires_at := dt; Base.proto := Base.proto c;
    Base.subscription_id := Base.subscription_id c; Base.is_deleted := Base.is_deleted c |};
  set_proto p c := {|
    Base.created_at := Base.created_at c; Base.modified_at := Base.modified_at c;
    Base.expires_at := Base.expires_at c; Base.proto := p;
    Base.subscription_id := Base.subscription_id c; Base.is_deleted := Base.is_deleted c |};
  get_proto := Base.proto;
  set_deleted v c := {|
    Base.created_at := Base.created_at c; Base.modified_at := Base.modified_at c;
    Base.expires_at := Base.expires_at c; Base.proto := Base.proto c;
    Base.subscription_id := Base.subscription_id c; Base.is_deleted := v |};
  get_deleted := Base.is_deleted;
|}.

(** [Operations for Conn] -- memory/connection/operation/base.rs:93-154 *)
#[export] Instance BaseOps_Conn : BaseOps Conn := {|
  get_modified_at := Conn.modified_at;
  set_modified_at now c := {|
    Conn.env := Conn.env c; Conn.created_at := Conn.created_at c;
    Conn.modified_at := now; Conn.expires_at := Conn.expires_at c;
    Conn.proto := Conn.proto c; Conn.subscription_id := Conn.subscription_id c;
    Conn.is_deleted := Conn.is_deleted c |};
  get_expires_at := Conn.expires_at;
  set_expires_at dt c := {|
    Conn.env := Conn.env c; Conn.created_at := Conn.created_at c;
    Conn.modified_at := Conn.modified_at c; Conn.expires_at := dt;
    Conn.proto := Conn.proto c; Conn.subscription_id := Conn.subscription_id c;
    Conn.is_deleted := Conn.is_deleted c |};
  set_proto p c := {|
    Conn.env := Conn.env c; Conn.created_at := Conn.created_at c;
    Conn.modified_at := Conn.modified_at c; Conn.expires_at := Conn.expires_at c;
    Conn.proto := p; Conn.subscription_id := Conn.subscription_id c;
    Conn.is_deleted := Conn.is_deleted c |};
  get_proto := Conn.proto;
  set_deleted v c := {|
    Conn.env := Conn.env c; Conn.created_at := Conn.created_at c;
    Conn.modified_at := Conn.modified_at c; Conn.expires_at := Conn.expires_at c;
    Conn.proto := Conn.proto c; Conn.subscription_id := Conn.subscription_id c;
    Conn.is_deleted := v |};
  get_deleted := Conn.is_deleted;
|}.

(** ** Operations of the API server's connections *)

(** [operation::api::Operations] -- memory/connection/operation/api.rs:7-17 *)
Class ApiOps (C : Type) `{!Chrono} := {
  get_subscription_id : C → option Uuid;
  set_subscription_id : Uuid → C → C;
  get_env : C → Env;
  set_env : Env → C → C;
  as_update_message : C → Uuid → Message;
  as_create_message : C → Uuid → Message;
  as_delete_message : C → Uuid → Message;
}.

Section api_ops.
Context `{!Chrono}.

(** [as_create_message] -- memory/connection/operation/api.rs:34-65 *)
Definition conn_create_message (self : Conn) (conn_id : Uuid) : Message :=
  let password :=
    match Conn.proto self with Proto.Shadowsocks password => Some password | _ => None end in
  let tag := Proto.proto (Conn.proto self) in
  let expires_at := Conn.expires_at self in
  let token :=
    match Conn.proto self with Proto.Hysteria2 token => Some token | _ => None end in
  let wg :=
    match Conn.proto self with Proto.Wireguard param => Some param | _ => None end in
  let sub_id := Conn.subscription_id self in
  {| Message.conn_id := conn_id;
     Message.subscription_id := sub_id;
     Message.action := Action.Create;
     Message.password := password;
     Message.token := token;
     Message.tag := tag;
     Message.wg := wg;
     Message.expires_at := to_rkyv <$> expires_at |}.

(** [as_update_message] -- memory/connection/operation/api.rs:67-98 *)
Definition conn_update_message (self : Conn) (conn_id : Uuid) : Message :=
  let password :=
    match Conn.proto self with Proto.Shadowsocks password => Some password | _ => None end in
  let tag := Proto.proto (Conn.proto self) in
  let expires_at := Conn.expires_at self in
  let wg :=
    match Conn.proto self with Proto.Wireguard param => Some param | _ => None end in
  let token :=
    match Conn.proto self with Proto.Hysteria2 token => Some token | _ => None end in
  let sub_id := Conn.subscription_id self in
  {| Message.conn_id := conn_id;
     Message.subscription_id := sub_id;
     Message.action := Action.Update;
     Message.password := password;
     Message.token := token;
     Message.tag := tag;
     Message.wg := wg;
     Message.expires_at := to_rkyv <$> expires_at |}.

(** [as_delete_message] -- memory/connection/operation/api.rs:100-131 *)
Definition conn_delete_message (self : Conn) (conn_id : Uuid) : Message :=
  let password :=
    match Conn.proto self with Proto.Shadowsocks password => Some password | _ => None end in
  let tag := Proto.proto (Conn.proto self) in
  let expires_at := Conn.expires_at self in
  let wg :=
    match Conn.proto self with Proto.Wireguard param => Some param | _ => None end in
  let token :=
    match Conn.proto self with Proto.Hysteria2 token => Some token | _ => None end in
  let sub_id := Conn.subscription_id self in
  {| Message.conn_id := conn_id;
     Message.subscription_id := sub_id;
     Message.action := Action.Delete;
     Message.password := password;
     Message.token := token;
     Message.tag := tag;
     Message.wg := wg;
     Message.expires_at := to_rkyv <$> expires_at |}.

(** [Operations for Conn] -- memory/connection/operation/api.rs:19-33 *)
#[export] Instance ApiOps_Conn : ApiOps Conn := {|
  get_subscription_id := Conn.subscription_id;
  set_subscription_id sub c := {|
    Conn.env := Conn.env c; Conn.created_at := Conn.created_at c;
    Conn.modified_at := Conn.modified_at c; Conn.expires_at := Conn.expires_at c;
    Conn.proto := Conn.proto c; Conn.subscription_id := Some sub;
    Conn.is_deleted := Conn.is_deleted c |};
  get_env := Conn.env;
  set_env env c := {|
    Conn.env := env; Conn.created_at := Conn.created_at c;
    Conn.modified_at := Conn.modified_at c; Conn.expires_at := Conn.expires_at c;
    Conn.proto := Conn.proto c; Conn.subscription_id := Conn.subscription_id c;
    Conn.is_deleted := Conn.is_deleted c |};
  as_update_message := conn_update_message;
  as_create_message := conn_create_message;
  as_delete_message := conn_delete_message;
|}.

(** [Conn::eq] -- memory/connection/conn.rs:43-51 *)
Definition conn_eq (self other : Conn) : bool :=
  bool_decide (get_subscription_id self = get_subscription_id other) &&
  bool_decide (get_proto self = get_proto other) &&
  bool_decide (get_deleted self = get_deleted other) &&
  bool_decide (get_env self = get_env other) &&
  bool_decide (get_deleted self = get_deleted other).
End api_ops.
