(* ===== verification/ConnStore.v ===== *)
(** * The in-memory table of connections

    [memory/connection/mod.rs] and [memory/storage/connection.rs]: a hash map
    from connection ids, generic in the kind of connection.  The traits
    [BaseOp] and [ApiOp] are the operations below, the latter for connections
    that also have [ApiOps]. *)
From S2P Require Import Prelude Foreign Naming Wireguard Connection.
Local Open Scope Z_scope.

Notation Connections C := (gmap Uuid C).

(** [Connections::default] -- memory/connection/mod.rs:14-22 *)
Definition Connections_default {C} : Connections C := ∅.

Section base_op.
Context {C : Type} `{!BaseOps C, !IterOrder}.
Implicit Type self : Connections C.

(** [BaseOp::len] -- memory/storage/connection.rs:41-43 *)
Definition len self : nat := size self.
(** [BaseOp::is_empty] -- memory/storage/connection.rs:45-47 *)
Definition is_empty self : bool := bool_decide (len self = 0%nat).

(** [BaseOp::validate_token] -- memory/storage/connection.rs:49-58 *)
Definition validate_token self (token : Uuid) : option Uuid :=
  fst <$> find
    (λ '(_, conn),
      match get_proto conn with
      | Proto.Hysteria2 t => bool_decide (t = token)
      | _ => false
      end) (hiter self).

(** [BaseOp::add] -- memory/storage/connection.rs:60-68 *)
Definition add self (conn_id : Uuid) (new_conn : C) : Connections C * result Status Error :=
  match self !! conn_id with
  | Some _ => (self, Ok (Status.AlreadyExist conn_id))
  | None => (<[conn_id := new_conn]> self, Ok (Status.Ok conn_id))
  end.

(** [BaseOp::remove] -- memory/storage/connection.rs:70-75 *)
Definition remove self (conn_id : Uuid) : Connections C * result unit Error :=
  (delete conn_id self,
   match self !! conn_id with
   | Some _ => Ok tt
   | None => Err (Error.Custom "Conn not found")
   end).

(** [BaseOp::get] -- memory/storage/connection.rs:77-79 *)
Definition get self (conn_id : Uuid) : option C := self !! conn_id.

Lemma validate_token_Some self token id :
  validate_token self token = Some id →
  ∃ c, self !! id = Some c ∧ get_proto c = Proto.Hysteria2 token.
Proof.
  unfold validate_token. destruct (find _ _) as [[id' c]|] eqn:Hf; [|done].
  intros [= <-]. apply find_Some in Hf as [Hin Ht]. apply elem_of_hiter in Hin.
  exists c. split; [done|]. destruct (get_proto c); try done.
  apply bool_decide_eq_true_1 in Ht. by subst.
Qed.

Lemma validate_token_None self token :
  validate_token self token = None ↔
  ∀ id c, self !! id = Some c → get_proto c ≠ Proto.Hysteria2 token.
Proof.
  unfold validate_token. destruct (find _ _) as [[id' c]|] eqn:Hf.
  - split; [done|]. intros Hno. exfalso. apply find_Some in Hf as [Hin Ht].
    apply elem_of_hiter in Hin. apply (Hno _ _ Hin). destruct (get_proto c); try done.
    apply bool_decide_eq_true_1 in Ht. by subst.
  - split; [|done]. intros _ id c Hc Hp. rewrite find_None in Hf.
    specialize (Hf (id, c) (proj2 (elem_of_hiter _ _ _) Hc)). cbn in Hf.
    rewrite Hp in Hf. by apply bool_decide_eq_false_1 in Hf.
Qed.
End base_op.

Section api_op.
Context `{!Chrono}.
Context {C : Type} `{!BaseOps C, !ApiOps C, !IterOrder}.
Implicit Type self : Connections C.

(** [ApiOp::add] -- memory/storage/connection.rs:86-94 *)
Definition api_add self (conn_id : Uuid) (new_conn : C) :
    Connections C * result Status Error :=
  match self !! conn_id with
  | Some _ => (self, Ok (Status.AlreadyExist conn_id))
  | None => (<[conn_id := new_conn]> self, Ok (Status.Ok conn_id))
  end.

(** [ApiOp::get_by_subscription_id] -- memory/storage/connection.rs:155-167 *)
Definition get_by_subscription_id self (subscription_id : Uuid) : option (list (Uuid * C)) :=
  let conns :=
    keep (λ '(_, conn), bool_decide (get_subscription_id conn = Some subscription_id))
      (hiter self) in
  match conns with [] => None | _ => Some conns end.

(** [ApiOp::get_by_proto] -- memory/storage/connection.rs:169-181 *)
Definition get_by_proto self (proto : ProtoTag) : option (list (Uuid * C)) :=
  let conns :=
    keep (λ '(_, conn), bool_decide (Proto.proto (get_proto conn) = proto)) (hiter self) in
  match conns with [] => None | _ => Some conns end.

(** the sort key of [get_last_wg_addr] *)
Definition wg_key (conn : C) : Z :=
  match get_wireguard conn with
  | Some wg => match address (param_address wg) with V4 ip => ip | V6 _ => 0 end
  | None => 0
  end.

(** [ApiOp::get_last_wg_addr] -- memory/storage/connection.rs:183-195 *)
Definition get_last_wg_addr self : option IpAddrMask :=
  match
    max_by_key (λ '(_, conn), wg_key conn)
      (keep (λ '(_, conn), bool_decide (Proto.proto (get_proto conn) = ProtoTag.Wireguard))
        (hiter self))
  with
  | Some (_, conn) => param_address <$> get_wireguard conn
  | None => None
  end.

Lemma elem_of_get_by_subscription_id self sub l :
  get_by_subscription_id self sub = Some l →
  ∀ id c, (id, c) ∈ l ↔ self !! id = Some c ∧ get_subscription_id c = Some sub.
Proof.
  unfold get_by_subscription_id. destruct (keep _ _) as [|x l'] eqn:Hk; [done|].
  intros [= <-] id c. rewrite <- Hk, elem_of_keep, elem_of_hiter.
  by rewrite bool_decide_eq_true.
Qed.

Lemma get_by_subscription_id_None self sub :
  get_by_subscription_id self sub = None ↔
  ∀ id c, self !! id = Some c → get_subscription_id c ≠ Some sub.
Proof.
  unfold get_by_subscription_id. destruct (keep _ _) as [|[id c] l'] eqn:Hk.
  - split; [|done]. intros _ id c Hc. rewrite keep_nil in Hk.
    specialize (Hk (id, c) (proj2 (elem_of_hiter _ _ _) Hc)). cbn in Hk.
    by apply bool_decide_eq_false_1 in Hk.
  - split; [done|]. intros Hno. exfalso.
    assert ((id, c) ∈ keep (λ '(_, conn),
      bool_decide (get_subscription_id conn = Some sub)) (hiter self)) as Hin
      by (rewrite Hk; constructor).
    apply elem_of_keep in Hin as [Hin Hs]. apply elem_of_hiter in Hin.
    apply bool_decide_eq_true_1 in Hs. by apply (Hno id c).
Qed.
End api_op.

Section apply_update.
Context `{!Chrono}.

(** [ApiOp::apply_update] -- memory/storage/connection.rs:96-153

    The connection as the call leaves it, and the answer. *)
Definition apply_update (now : DateTime) (conn : Conn) (patch : ConnPatch) :
    Conn * option Conn :=
  if is_none (ConnPatch.is_deleted patch) && get_deleted conn then (conn, None)
  else if match ConnPatch.proto patch with
          | Some proto => bool_decide (get_proto conn ≠ proto)
          | None => false
          end then (conn, None)
  else if match get_password conn with
          | Some _ => bool_decide (Proto.proto (get_proto conn) ≠ ProtoTag.Shadowsocks) &&
                      is_some (ConnPatch.proto patch)
          | None => false
          end then (conn, None)
  else
    let '(conn, changed) := (conn, false) in
    let '(conn, changed) :=
      match ConnPatch.is_deleted patch with
      | Some deleted =>
        if bool_decide (get_deleted conn ≠ deleted) then (set_deleted deleted conn, true)
        else (conn, changed)
      | None => (conn, changed)
      end in
    let '(conn, changed) :=
      match ConnPatch.env patch with
      | Some env =>
        if bool_decide (get_env conn ≠ env) then (set_env env conn, true)
        else (conn, changed)
      | None => (conn, changed)
      end in
    let '(conn, changed) :=
      match ConnPatch.expires_at patch with
      | Some exp =>
        if bool_decide (get_expires_at conn ≠ Some exp)
        then (set_expires_at (Some exp) conn, true)
        else (conn, changed)
      | None => (conn, changed)
      end in
    let '(conn, changed) :=
      match ConnPatch.subscription_id patch with
      | Some sub_id =>
        if bool_decide (get_subscription_id conn ≠ Some sub_id)
        then (set_subscription_id sub_id conn, true)
        else (conn, changed)
      | None => (conn, changed)
      end in
    if changed : bool then
      let conn := set_modified_at now conn in (conn, Some conn)
    else (conn, None).

(** What the patch asks for, field by field. *)
Definition patched (now : DateTime) (conn : Conn) (patch : ConnPatch) : Conn := {|
  Conn.env := default (Conn.env conn) (ConnPatch.env patch);
  Conn.proto := Conn.proto conn;
  Conn.subscription_id :=
    match ConnPatch.subscription_id patch with
    | Some s => Some s | None => Conn.subscription_id conn end;
  Conn.created_at := Conn.created_at conn;
  Conn.modified_at := now;
  Conn.expires_at :=
    match ConnPatch.expires_at patch with Some e => Some e | None => Conn.expires_at conn end;
  Conn.is_deleted := default (Conn.is_deleted conn) (ConnPatch.is_deleted patch);
|}.

(** A patch is refused on a deleted connection it does not restore or delete,
    and when it names another protocol. *)
Definition refused (conn : Conn) (patch : ConnPatch) : Prop :=
  (ConnPatch.is_deleted patch = None ∧ Conn.is_deleted conn = true) ∨
  (∃ p, ConnPatch.proto patch = Some p ∧ p ≠ Conn.proto conn).

Lemma apply_update_guards conn patch :
  refused conn patch ↔
  is_none (ConnPatch.is_deleted patch) && get_deleted conn = true ∨
  match ConnPatch.proto patch with
  | Some proto => bool_decide (get_proto conn ≠ proto)
  | None => false
  end = true.
Proof.
  unfold refused, is_none. cbn [get_deleted get_proto BaseOps_Conn].
  destruct (ConnPatch.is_deleted patch), (Conn.is_deleted conn),
    (ConnPatch.proto patch) as [p|]; cbn; rewrite ?bool_decide_eq_true;
    naive_solver congruence.
Qed.

(** The third guard never fires: a password means Shadowsocks. *)
Lemma password_guard conn patch :
  match get_password conn with
  | Some _ => bool_decide (Proto.proto (get_proto conn) ≠ ProtoTag.Shadowsocks) &&
              is_some (ConnPatch.proto patch)
  | None => false
  end = false.
Proof. unfold get_password. by destruct (get_proto conn). Qed.

(** [apply_update] either refuses or has nothing to change, and then leaves
    the connection as it was and answers [None]; or it applies exactly the
    patch's environment, expiry, subscription and deletion mark, stamps
    [modified_at], and answers the new connection.  The protocol and the
    creation time never change, whatever the patch says. *)
Theorem apply_update_spec (now : DateTime) (conn : Conn) (patch : ConnPatch) :
  (refused conn patch → apply_update now conn patch = (conn, None)) ∧
  (¬ refused conn patch →
    apply_update now conn patch =
      if decide (patched (Conn.modified_at conn) conn patch = conn)
      then (conn, None)
      else (patched now conn patch, Some (patched now conn patch))).
Proof.
  split; rewrite apply_update_guards; intros Hg.
  - unfold apply_update. rewrite password_guard.
    destruct Hg as [->| ->]; [done|]. by destruct (is_none _ && _).
  - unfold apply_update. rewrite password_guard.
    apply Decidable.not_or in Hg as [->%not_true_iff_false ->%not_true_iff_false].
    destruct conn as [env proto sub cr md ex del], patch as [penv pp psub pcr pmd pex pdel].
    unfold patched. cbn.
    destruct pdel as [d|], penv as [e|], pex as [x|], psub as [s|]; cbn;
      repeat (case_bool_decide; cbn); try case_decide; congruence.
Qed.
End apply_update.

Section last_wg.
Context {C : Type} `{!BaseOps C, !IterOrder}.

Lemma get_last_wg_addr_Some (self : Connections C) m :
  get_last_wg_addr self = Some m →
  ∃ id c p, self !! id = Some c ∧ get_proto c = Proto.Wireguard p ∧ param_address p = m ∧
    ∀ id' c', self !! id' = Some c' → Proto.proto (get_proto c') = ProtoTag.Wireguard →
      wg_key c' <= wg_key c.
Proof.
  unfold get_last_wg_addr. destruct (max_by_key _ _) as [[id c]|] eqn:Hm; [|done].
  apply max_by_key_Some in Hm as [Hin Hmax].
  apply elem_of_keep in Hin as [Hin _]. apply elem_of_hiter in Hin.
  unfold get_wireguard. destruct (get_proto c) as [p| | | |] eqn:Hp; try done.
  intros [= <-]. exists id, c, p. split_and!; [done..|].
  intros id' c' Hc' Htag. apply (Hmax (id', c')). apply elem_of_keep.
  rewrite elem_of_hiter. split; [done|]. by apply bool_decide_eq_true_2.
Qed.

Lemma get_last_wg_addr_None (self : Connections C) :
  (∀ id c, self !! id = Some c → Proto.proto_ok (get_proto c)) →
  get_last_wg_addr self = None → ∀ id c p, self !! id = Some c →
  get_proto c ≠ Proto.Wireguard p.
Proof.
  intros Hok. unfold get_last_wg_addr.
  destruct (max_by_key _ _) as [[id c]|] eqn:Hm.
  - apply max_by_key_Some in Hm as [Hin _]. apply elem_of_keep in Hin as [Hin Htag].
    apply elem_of_hiter in Hin. specialize (Hok _ _ Hin). unfold get_wireguard.
    apply bool_decide_eq_true_1 in Htag.
    destruct (get_proto c) as [p| |t| |]; try done. cbn in Htag, Hok. subst.
    by destruct Hok.
  - intros _ id c p Hc Hp. apply max_by_key_None in Hm. rewrite keep_nil in Hm.
    specialize (Hm (id, c) (proj2 (elem_of_hiter _ _ _) Hc)). cbn in Hm.
    rewrite Hp in Hm. by apply bool_decide_eq_false_1 in Hm.
Qed.
End last_wg.
