(* ===== verification/Subscription.v ===== *)
(** * Subscriptions

    [memory/subscription.rs] and [memory/storage/subscription.rs]: a
    subscription's expiry, referral codes and traffic limit, and the in-memory
    table of subscriptions.  Every operation that reads the clock takes its
    reading; [None] from [extend] is chrono's overflow panic. *)
From S2P Require Import Prelude Foreign Naming.
Local Open Scope Z_scope.

(** [get_uuid_last_octet_simple] -- utils.rs:77-79 *)
Definition get_uuid_last_octet_simple `{!UuidText} (id : Uuid) : string :=
  Str.drop 24 (uuid_str id).

(** [to_pg_bigint] -- utils.rs:38-44 *)
Definition to_pg_bigint (value : Z) : option Z :=
  if decide (value <= I64_MAX) then Some value else None.
(** [from_pg_bigint] -- utils.rs:46-48 *)
Definition from_pg_bigint (value : Z) : Z := as_unsigned 64 value.

Module Subscription.
(** [Subscription] -- memory/subscription.rs:12-24 *)
Record Subscription : Set := {
  id : Uuid;
  expires_at : option DateTime;
  referred_by : option string;
  refer_code : string;
  created_at : DateTime;
  updated_at : DateTime;
  is_deleted : bool;
  limit_bytes : option Z;
  downlink_bytes : option Z;
}.
#[export] Instance Subscription_eq_dec : EqDecision Subscription.
Proof. solve_decision. Defined.

(** [Subscription::new] -- memory/subscription.rs:26-48 *)
Definition new (now : DateTime) (id : Uuid) (ref_by : option string) (ref_code : string)
    (exp_at : option DateTime) (limit_bytes : option Z) : Subscription := {|
  id := id;
  expires_at := exp_at;
  referred_by := ref_by;
  refer_code := ref_code;
  created_at := now;
  updated_at := now;
  is_deleted := false;
  limit_bytes := limit_bytes;
  downlink_bytes := Some 0;
|}.

(** [Subscription::default] -- memory/subscription.rs:50-69 *)
Definition default `{!UuidText} (now : DateTime) (id : Uuid) : Subscription := {|
  id := id;
  expires_at := None;
  referred_by := None;
  refer_code := get_uuid_last_octet_simple id;
  created_at := now;
  updated_at := now;
  is_deleted := false;
  limit_bytes := None;
  downlink_bytes := Some 0;
|}.

(** One field replaced. *)
Definition with_expires (e : option DateTime) (s : Subscription) : Subscription := {|
  id := id s; expires_at := e; referred_by := referred_by s; refer_code := refer_code s;
  created_at := created_at s; updated_at := updated_at s; is_deleted := is_deleted s;
  limit_bytes := limit_bytes s; downlink_bytes := downlink_bytes s |}.
Definition with_updated (t : DateTime) (s : Subscription) : Subscription := {|
  id := id s; expires_at := expires_at s; referred_by := referred_by s;
  refer_code := refer_code s; created_at := created_at s; updated_at := t;
  is_deleted := is_deleted s; limit_bytes := limit_bytes s;
  downlink_bytes := downlink_bytes s |}.

(** [Operations::set_refer_code] -- memory/subscription.rs:192-194 *)
Definition set_refer_code (code : string) (s : Subscription) : Subscription := {|
  id := id s; expires_at := expires_at s; referred_by := referred_by s; refer_code := code;
  created_at := created_at s; updated_at := updated_at s; is_deleted := is_deleted s;
  limit_bytes := limit_bytes s; downlink_bytes := downlink_bytes s |}.
(** [Operations::set_referred_by] -- memory/subscription.rs:200-202 *)
Definition set_referred_by (code : string) (s : Subscription) : Subscription := {|
  id := id s; expires_at := expires_at s; referred_by := Some code;
  refer_code := refer_code s; created_at := created_at s; updated_at := updated_at s;
  is_deleted := is_deleted s; limit_bytes := limit_bytes s;
  downlink_bytes := downlink_bytes s |}.
(** [Operations::set_limit_bytes] -- memory/subscription.rs:228-234 *)
Definition set_limit_bytes (bytes : Z) (s : Subscription) : Subscription := {|
  id := id s; expires_at := expires_at s; referred_by := referred_by s;
  refer_code := refer_code s; created_at := created_at s; updated_at := updated_at s;
  is_deleted := is_deleted s; limit_bytes := Some bytes;
  downlink_bytes := downlink_bytes s |}.
(** [Operations::set_downlink_bytes] -- memory/subscription.rs:236-241 *)
Definition set_downlink_bytes (bytes : Z) (s : Subscription) : Subscription := {|
  id := id s; expires_at := expires_at s; referred_by := referred_by s;
  refer_code := refer_code s; created_at := created_at s; updated_at := updated_at s;
  is_deleted := is_deleted s; limit_bytes := limit_bytes s;
  downlink_bytes := Some bytes |}.
(** [Operations::mark_deleted] -- memory/subscription.rs:223-226 *)
Definition mark_deleted (now : DateTime) (s : Subscription) : Subscription := {|
  id := id s; expires_at := expires_at s; referred_by := referred_by s;
  refer_code := refer_code s; created_at := created_at s; updated_at := now;
  is_deleted := true; limit_bytes := limit_bytes s; downlink_bytes := downlink_bytes s |}.

(** [Operations::get_refer_code] -- memory/subscription.rs:189-191 *)
Definition get_refer_code (s : Subscription) : string := Str.trim (refer_code s).
(** [Operations::get_referred_by] -- memory/subscription.rs:196-198 *)
Definition get_referred_by (s : Subscription) : option string := Str.trim <$> referred_by s.

(** [Operations::is_active] -- memory/subscription.rs:204-206

    [Option]'s order puts [None] below every [Some]. *)
Definition is_active (now : DateTime) (s : Subscription) : bool :=
  negb (is_deleted s) && match expires_at s with Some e => bool_decide (now < e) | None => false end.

(** [Operations::set_expires_at] -- memory/subscription.rs:214-221 *)
Definition set_expires_at (now : DateTime) (e : DateTime) (s : Subscription) :
    Subscription * result unit string :=
  if decide (e <= now) then (s, Err "Expiration date must be in the future")
  else (with_updated now (with_expires (Some e) s), Ok tt).

Section chrono.
Context `{!Chrono}.

(** [Operations::extend] -- memory/subscription.rs:173-179 *)
Definition extend (now : DateTime) (days : Z) (s : Subscription) : option Subscription :=
  match expires_at s with
  | Some e =>
    match dt_add_days e days with
    | Some new_exp => Some (with_updated now (with_expires (Some new_exp) s))
    | None => None
    end
  | None => Some (with_updated now s)
  end.

(** [Operations::days_remaining] -- memory/subscription.rs:208-212 *)
Definition days_remaining (now : DateTime) (s : Subscription) : option Z :=
  (λ e, num_days (e - now)) <$> expires_at s.

(** [SubscriptionStats] -- memory/subscription.rs:129-135 *)
Record SubscriptionStats : Set := {
  st_id : Uuid;
  st_expires_at : option DateTime;
  st_days_remaining : Z;
  st_is_active : bool;
}.

(** [Operations::stats] -- memory/subscription.rs:158-172 *)
Definition stats (now : DateTime) (s : Subscription) : SubscriptionStats :=
  let days_remaining :=
    match expires_at s with Some e => num_days (e - now) | None => 99999 end in
  {| st_id := id s;
     st_expires_at := expires_at s;
     st_days_remaining := days_remaining;
     st_is_active := bool_decide (0 < days_remaining) && negb (is_deleted s) |}.

Lemma num_days_pos d : 0 < num_days d ↔ DAY <= d.
Proof.
  rewrite num_days_spec. assert (0 < DAY) by done. destruct (Z.le_gt_cases 0 d).
  - rewrite Z.quot_div_nonneg by lia. split; intros Hd.
    + assert (1 * DAY <= d / DAY * DAY) by (apply Z.mul_le_mono_nonneg_r; lia).
      pose proof (Z.mul_div_le d DAY). lia.
    + apply Z.lt_le_trans with (DAY / DAY); [by rewrite Z.div_same|].
      by apply Z.div_le_mono.
  - assert (Z.quot d DAY <= 0); [|lia].
    rewrite <- (Z.opp_involutive d), Z.quot_opp_l by lia.
    pose proof (Z.quot_pos (- d) DAY ltac:(lia) ltac:(lia)). lia.
Qed.
End chrono.
End Subscription.
Notation Subscription := Subscription.Subscription.
#[export] Existing Instance Subscription.Subscription_eq_dec.

(** ** The table *)

(** What the table asks of a subscription. *)
Class SubscriptionOp (S : Type) := {
  op_id : S → Uuid;
  op_refer_code : S → string;
  op_referred_by : S → option string;
}.
#[export] Instance SubscriptionOp_Subscription : SubscriptionOp Subscription := {|
  op_id := Subscription.id;
  op_refer_code := Subscription.get_refer_code;
  op_referred_by := Subscription.get_referred_by;
|}.

Module Subscriptions.
Notation Subscriptions S := (gmap Uuid S).
(** [Subscriptions::default] -- memory/subscription.rs:97-104 *)
Definition Subscriptions_default {S : Type} : Subscriptions S := ∅.

Section ops.
Context {S : Type} `{!SubscriptionOp S, !EqDecision S, !IterOrder}.
Implicit Type self : Subscriptions S.

(** [Operations::count_invited_by] -- memory/storage/subscription.rs:24-28 *)
Definition count_invited_by self (refer_code : string) : nat :=
  length (keep (λ s, bool_decide (op_referred_by s = Some refer_code)) (hvalues self)).
(** [Operations::find_by_id] -- memory/storage/subscription.rs:30-35 *)
Definition find_by_id self (id : Uuid) : option S := self !! id.
(** [Operations::find_by_refer_code] -- memory/storage/subscription.rs:37-39 *)
Definition find_by_refer_code self (code : string) : option S :=
  find (λ s, bool_decide (op_refer_code s = code)) (hvalues self).
(** [Operations::exist_refer_code] -- memory/storage/subscription.rs:41-43 *)
Definition exist_refer_code self (code : string) : bool :=
  any (λ s, bool_decide (op_refer_code s = code)) (hvalues self).
(** [Operations::all] -- memory/storage/subscription.rs:45-47 *)
Definition all self : list S := hvalues self.
(** [Operations::add] -- memory/storage/subscription.rs:49-66 *)
Definition add self (new_subscription : S) : Subscriptions S * Status :=
  let id := op_id new_subscription in
  match self !! id with
  | Some existing =>
    if decide (existing = new_subscription) then (self, Status.AlreadyExist id)
    else (<[id := new_subscription]> self, Status.Updated id)
  | None => (<[id := new_subscription]> self, Status.Ok id)
  end.
(** [Operations::delete] -- memory/storage/subscription.rs:68-70 *)
Definition delete self (id : Uuid) : Subscriptions S := base.delete id self.
(** [Operations::update] -- memory/storage/subscription.rs:72-74 *)
Definition update self (subscription : S) : Subscriptions S :=
  <[op_id subscription := subscription]> self.

(** Every entry is stored under its own id. *)
Definition keyed self : Prop := ∀ id s, self !! id = Some s → op_id s = id.

Lemma keyed_empty : keyed ∅.
Proof. intros id s Hs. by rewrite lookup_empty in Hs. Qed.
Lemma keyed_insert self s : keyed self → keyed (<[op_id s := s]> self).
Proof. intros Hk id s' [[<- <-]|[_ Hs]]%lookup_insert_Some; [done|by apply Hk]. Qed.
Lemma keyed_add self s : keyed self → keyed (add self s).1.
Proof.
  intros Hk. unfold add. destruct (self !! op_id s); [case_decide|];
    cbn; auto using keyed_insert.
Qed.

Lemma add_lookup self s : (add self s).1 = <[op_id s := s]> self.
Proof.
  unfold add. destruct (self !! op_id s) eqn:Hs; [|done]. case_decide; [|done].
  subst. cbn. by rewrite insert_id.
Qed.

Lemma find_by_refer_code_Some self code s :
  find_by_refer_code self code = Some s →
  op_refer_code s = code ∧ ∃ id, self !! id = Some s.
Proof.
  intros [Hin Hc]%find_Some. apply bool_decide_eq_true_1 in Hc.
  apply elem_of_hvalues in Hin. done.
Qed.

Lemma exist_refer_code_find self code :
  exist_refer_code self code = is_some (find_by_refer_code self code).
Proof.
  unfold exist_refer_code, find_by_refer_code.
  destruct (find _ _) as [s|] eqn:Hf; cbn.
  - apply any_true. exists s. exact (find_Some _ _ _ Hf).
  - apply any_false, find_None, Hf.
Qed.
End ops.
End Subscriptions.
Notation Subscriptions S := (gmap Uuid S).

(** ** Theorems *)

(** Extending a subscription moves a set expiry by exactly that many days
    (backwards for a negative number), or panics when the date leaves chrono's
    range; an unlimited subscription stays unlimited.  Nothing else but
    [updated_at] changes, so extending by [m] then by [n] days is extending by
    [m + n]. *)
Theorem extend_spec `{!Chrono} (now1 now2 : DateTime) (m n : Z) (s s1 s2 : Subscription)
    (H1 : Subscription.extend now1 m s = Some s1)
    (H2 : Subscription.extend now2 n s1 = Some s2) :
  Subscription.expires_at s1 = (λ e, e + m * DAY) <$> Subscription.expires_at s ∧
  Subscription.updated_at s1 = now1 ∧
  s2 = Subscription.with_updated now2
    (Subscription.with_expires ((λ e, e + (m + n) * DAY) <$> Subscription.expires_at s) s) ∧
  (∀ s', Subscription.extend now2 (m + n) s = Some s' → s' = s2).
Proof.
  unfold Subscription.extend in *. destruct s as [i e rb rc c u d l dl]. cbn in *.
  destruct e as [e|]; cbn in *.
  - destruct (dt_add_days e m) as [e1|] eqn:He1; [|done]. injection H1 as <-. cbn in *.
    destruct (dt_add_days e1 n) as [e2|] eqn:He2; [|done]. injection H2 as <-.
    apply dt_add_days_Some in He1 as [-> _], He2 as [-> _].
    rewrite Z.mul_add_distr_r, Z.add_assoc. split_and!; [done..|].
    intros s'. destruct (dt_add_days e (m + n)) as [e'|] eqn:He'; [|done].
    apply dt_add_days_Some in He' as [-> _]. intros [= <-].
    by rewrite Z.mul_add_distr_r, Z.add_assoc.
  - injection H1 as <-. injection H2 as <-. split_and!; try done. by intros s' [= <-].
Qed.

Definition example_sub : Subscription :=
  Subscription.new 0 1%N None "abc" (Some (5 * DAY)) None.

Lemma extend_spec_witness :
  ∃ s1 s2, Subscription.extend 1 10 example_sub = Some s1 ∧
    Subscription.extend 2 (-3) s1 = Some s2 ∧
    Subscription.expires_at s1 = Some (15 * DAY) ∧ Subscription.updated_at s1 = 1.
Proof.
  eexists _, _. assert (∃ s1, Subscription.extend 1 10 example_sub = Some s1) as [s1 H1]
    by (eexists; vm_compute; reflexivity).
  split; [reflexivity|]. split; [reflexivity|].
  edestruct (extend_spec 1 2 10 (-3) example_sub) as (Ha & Hb & _);
    [reflexivity|reflexivity|]. split; [exact Ha|exact Hb].
Defined.

(** The two activity tests disagree exactly on a subscription that is not
    deleted and either never expires, which [stats] calls active and
    [is_active] inactive, or expires within a day, which [is_active] calls
    active and [stats] inactive. *)
Theorem activity_tests_differ `{!Chrono} (now : DateTime) (s : Subscription) :
  Subscription.st_is_active (Subscription.stats now s) ≠ Subscription.is_active now s ↔
  Subscription.is_deleted s = false ∧
  match Subscription.expires_at s with
  | None => True
  | Some e => 0 < e - now < DAY
  end.
Proof.
  unfold Subscription.stats, Subscription.is_active. cbn.
  destruct (Subscription.is_deleted s); cbn; [rewrite andb_false_r; naive_solver|].
  rewrite andb_true_r. destruct (Subscription.expires_at s) as [e|]; [|naive_solver].
  pose proof (Subscription.num_days_pos (e - now)) as Hd.
  assert (0 < DAY) by done.
  repeat case_bool_decide; split; intros; try done; try (split; [done|]); lia.
Qed.

(** [add] stores the subscription under its own id whatever was there, so a
    table whose entries are keyed by their ids stays so, and its answer tells
    a new entry from an identical and from a replaced one. *)
Theorem sub_add_spec (self : Subscriptions Subscription) (s : Subscription) :
  let '(self', st) := Subscriptions.add self s in
  self' = <[Subscription.id s := s]> self ∧
  (Subscriptions.keyed self → Subscriptions.keyed self') ∧
  match st with
  | Status.Ok i => i = Subscription.id s ∧ self !! i = None
  | Status.AlreadyExist i => i = Subscription.id s ∧ self !! i = Some s
  | Status.Updated i => i = Subscription.id s ∧ ∃ s', self !! i = Some s' ∧ s' ≠ s
  | _ => False
  end.
Proof.
  pose proof (Subscriptions.add_lookup self s) as Hl.
  pose proof (Subscriptions.keyed_add self s) as Hk.
  destruct (Subscriptions.add self s) as [self' st] eqn:Ha. cbn in *.
  split_and!; [done|done|]. unfold Subscriptions.add in Ha. cbn in Ha.
  destruct (self !! Subscription.id s) as [s'|] eqn:Hs; [case_decide|]; simplify_eq; eauto.
Qed.
