(* ===== verification/Key.v ===== *)
(** * Activation keys

    [memory/key.rs]: a key's code carries 6 random bytes, the number of days
    and the distributor, the first 3 bytes of an HMAC over them, and a
    checksum byte, written in base 32 in groups of five. *)
From S2P Require Import Prelude Foreign Naming.
Local Open Scope Z_scope.

(** ** Distributors *)
Definition is_upper_or_digit (b : Z) : bool :=
  bool_decide (65 <= b <= 90) || bool_decide (48 <= b <= 57).

Module Distributor.
(** [Distributor] -- memory/key.rs:195-196 *)
Record Distributor : Set := { bytes : list Z }.
#[export] Instance Distributor_eq_dec : EqDecision Distributor.
Proof. solve_decision. Defined.

(** [Distributor::new] -- memory/key.rs:198-218 *)
Definition new (s : string) : result Distributor Error :=
  let bs := str_bytes s in
  if decide (length bs ≠ 4%nat)
  then Err (Error.Custom "Distributor must be exactly 4 characters")
  else if negb (forallb is_upper_or_digit bs)
  then Err (Error.Custom "Distributor must be uppercase ASCII letters or digits")
  else Ok {| bytes := bs |}.

(** [Distributor::as_str] -- memory/key.rs:220-222 *)
Definition as_str (d : Distributor) : string := bytes_str (bytes d).
(** [Distributor::as_bytes] -- memory/key.rs:224-226 *)
Definition as_bytes (d : Distributor) : list Z := bytes d.

Definition wf (d : Distributor) : Prop :=
  length (bytes d) = 4%nat ∧ Forall (λ b, is_upper_or_digit b = true) (bytes d).

Lemma wf_bytes_ok d : wf d → bytes_ok (bytes d).
Proof.
  intros [_ Hd]. eapply Forall_impl; [exact Hd|]. intros b Hb. unfold byte_ok.
  unfold is_upper_or_digit in Hb. apply orb_true_iff in Hb as [Hb|Hb];
    apply bool_decide_eq_true_1 in Hb; lia.
Qed.

Lemma new_wf s d : new s = Ok d → wf d ∧ as_str d = s.
Proof.
  unfold new. cbv zeta. case_decide as Hl; [done|].
  destruct (forallb _ _) eqn:Hf; [|done]. intros [= <-]. split.
  - split; [cbn; by destruct (decide (length (str_bytes s) = 4%nat))|].
    apply Forall_forall. intros b Hb. rewrite forallb_forall in Hf.
    apply Hf. by apply list_elem_of_In.
  - apply bytes_str_bytes.
Qed.

Lemma new_as_str d : wf d → new (as_str d) = Ok d.
Proof.
  intros Hwf. pose proof (wf_bytes_ok d Hwf) as Hok. destruct Hwf as [Hl Hd].
  unfold new, as_str. cbv zeta. rewrite str_bytes_str by done.
  rewrite decide_False by (intros Hn; by apply Hn).
  assert (forallb is_upper_or_digit (bytes d) = true) as ->.
  { apply forallb_forall. intros b Hb%list_elem_of_In. rewrite Forall_forall in Hd. auto. }
  by destruct d.
Qed.
End Distributor.
Notation Distributor := Distributor.Distributor.

(** ** Codes *)
Module Code.
(** [CodeError] -- memory/key.rs:74-78 *)
Inductive CodeError : Set := InvalidFormat | InvalidChecksum.

(** [Code] -- memory/key.rs:71-72 *)
Record Code : Set := { text : string }.

(** [Code::checksum] -- memory/key.rs:166-168 *)
Definition checksum (data : list Z) : Z :=
  fold_left (λ acc b, as_unsigned 8 (acc + b)) data 0.

Fixpoint chunks (n : nat) (fuel : nat) (s : string) : list string :=
  match fuel, s with
  | O, _ | _, EmptyString => []
  | S fuel, _ => String.substring 0 n s :: chunks n fuel (Str.drop n s)
  end.

(** [Code::format] -- memory/key.rs:170-177

    Five characters at a time: the length is enough fuel. *)
Definition format (s : string) : string := Str.join "-" (chunks 5 (String.length s) s).

(** [Code::as_str] -- memory/key.rs:179-181 *)
Definition as_str (c : Code) : string := text c.

Section code.
Context `{!Base32, !Hmac}.

(** [Code::sign] -- memory/key.rs:160-164 *)
Definition sign (data secret : list Z) : list Z := hmac_sha256 secret data.

(** the 16 bytes of a code *)
Definition payload (random : list Z) (days : Z) (distributor secret : list Z) : list Z :=
  let payload := random ++ to_be_bytes 2 (as_unsigned 16 days) ++ distributor in
  let sig := sign payload secret in
  let payload := payload ++ take 3 sig in
  let check := checksum payload in
  payload ++ [check].

(** [Code::new] -- memory/key.rs:107-127

    [random] is what the generator yields. *)
Definition new (random : list Z) (days : Z) (distributor secret : list Z) : Code :=
  {| text := format (Str.to_uppercase (b32_encode (payload random days distributor secret))) |}.

(** [Code::parse] -- memory/key.rs:129-158 *)
Definition parse (s : string) (secret : list Z) : option (Z * list Z) :=
  let raw := Str.remove "-" s in
  match b32_decode (Str.to_uppercase raw) with
  | None => None
  | Some bytes =>
    if decide (length bytes ≠ 16%nat) then None else
    let '(data_with_sig, check_byte) := (take 15 bytes, drop 15 bytes) in
    if decide (Some (checksum data_with_sig) ≠ head check_byte) then None else
    let '(data, sig) := (take 12 data_with_sig, drop 12 data_with_sig) in
    if decide (take 3 (sign data secret) ≠ take 3 sig) then None else
    let days := as_signed 16 (from_be_bytes (take 2 (drop 6 data))) in
    let distributor := take 4 (drop 8 data) in
    Some (days, distributor)
  end.

(** [Code::from_str] -- memory/key.rs:80-98 *)
Definition from_str (s : string) : result Code CodeError :=
  let raw := Str.remove "-" s in
  match b32_decode (Str.to_uppercase raw) with
  | None => Err InvalidFormat
  | Some bytes =>
    if decide (length bytes ≠ 16%nat) then Err InvalidFormat
    else Ok {| text := Str.to_uppercase s |}
  end.

(** [Code::validate] -- memory/key.rs:183-188 *)
Definition validate (c : Code) (secret : list Z) : result (Z * list Z) CodeError :=
  ok_or (parse (text c) secret) InvalidChecksum.

(** [Code::is_valid] -- memory/key.rs:190-192 *)
Definition is_valid (c : Code) (secret : list Z) : bool := is_some (parse (text c) secret).
End code.

(** *** Lemmas *)
Lemma drop_length n s : String.length (Str.drop n s) = (String.length s - n)%nat.
Proof. revert s; induction n as [|n IH]; intros [|c s]; cbn; auto. Qed.

Lemma substring_drop n s : String.substring 0 n s +:+ Str.drop n s = s.
Proof. revert s; induction n as [|n IH]; intros [|c s]; cbn; [done..|]. by rewrite IH. Qed.

Lemma remove_join s :
  Str.all (λ c, c ≠ "-"%char) s → ∀ fuel, (String.length s ≤ fuel)%nat →
  Str.remove "-" (Str.join "-" (chunks 5 fuel s)) = s.
Proof.
  intros Hs fuel. revert s Hs. induction fuel as [|fuel IH]; intros s Hs Hle.
  { by destruct s; cbn in Hle; [|lia]. }
  destruct s as [|c s]; [done|]. set (t := String c s) in *.
  change (chunks 5 (S fuel) t) with (String.substring 0 5 t :: chunks 5 fuel (Str.drop 5 t)).
  pose proof (substring_drop 5 t) as Hsplit.
  assert (Str.all (λ c, c ≠ "-"%char) (String.substring 0 5 t) ∧
    Str.all (λ c, c ≠ "-"%char) (Str.drop 5 t)) as [Hh Ht]
    by (apply StrFacts.all_app; by rewrite Hsplit).
  assert (String.length (Str.drop 5 t) ≤ fuel)%nat as Hf
    by (rewrite drop_length; subst t; cbn in *; lia).
  specialize (IH _ Ht Hf).
  destruct (chunks 5 fuel (Str.drop 5 t)) as [|w ws] eqn:Hc.
  - cbn [Str.join]. rewrite StrFacts.remove_all by done.
    change (EmptyString = Str.drop 5 t) in IH.
    rewrite <- IH, StrFacts.app_nil_r in Hsplit. exact Hsplit.
  - change (Str.join "-" (String.substring 0 5 t :: w :: ws))
      with (String.substring 0 5 t +:+ String "-" (Str.join "-" (w :: ws))).
    rewrite StrFacts.remove_app, StrFacts.remove_all by done.
    cbn [Str.remove]. rewrite decide_True by done. by rewrite IH.
Qed.

Lemma remove_format s : Str.all (λ c, c ≠ "-"%char) s → Str.remove "-" (format s) = s.
Proof. intros. by apply remove_join. Qed.

Lemma checksum_mod l acc :
  fold_left (λ acc b, as_unsigned 8 (acc + b)) l (acc mod 256) = (acc + foldr Z.add 0 l) mod 256.
Proof.
  revert acc; induction l as [|b l IH]; intros acc; cbn; [by rewrite Z.add_0_r|].
  unfold as_unsigned. change (2 ^ 8) with 256. rewrite IH.
  rewrite <- Zplus_mod_idemp_l, Z.add_assoc, (Z.add_mod_idemp_l acc b) by done.
  by rewrite Zplus_mod_idemp_l.
Qed.
Lemma checksum_sum l : checksum l = foldr Z.add 0 l mod 256.
Proof. unfold checksum. rewrite <- (Z.mod_0_l 256) by done. by rewrite checksum_mod. Qed.
Lemma checksum_ok l : byte_ok (checksum l).
Proof. rewrite checksum_sum. apply Z.mod_pos_bound. lia. Qed.

Lemma sum_insert (l : list Z) i b b' :
  l !! i = Some b → foldr Z.add 0 (<[i := b']> l) = foldr Z.add 0 l - b + b'.
Proof.
  revert i; induction l as [|a l IH]; intros [|i] Hi; [done..| |].
  - injection Hi as ->. cbn. lia.
  - change (<[S i := b']> (a :: l)) with (a :: <[i := b']> l). cbn [foldr].
    rewrite (IH i Hi). lia.
Qed.

Section facts.
Context `{!Base32, !Hmac}.

Lemma decode_format l :
  bytes_ok l →
  b32_decode (Str.to_uppercase (Str.remove "-" (format (b32_encode l)))) = Some l.
Proof.
  intros Hl. rewrite remove_format by apply b32_no_dash.
  rewrite (StrFacts.upper_fix _ (b32_upper l)). by apply b32_decode_encode.
Qed.

Lemma payload_length random days distributor secret :
  length random = 6%nat → length distributor = 4%nat →
  length (payload random days distributor secret) = 16%nat.
Proof.
  intros Hr Hd. unfold payload, sign. cbv zeta.
  rewrite !length_app, length_take, hmac_length, Radix.length_to_be, Hr, Hd. done.
Qed.

Lemma payload_ok random days distributor secret :
  bytes_ok random → bytes_ok distributor → bytes_ok (payload random days distributor secret).
Proof.
  intros Hr Hd. unfold payload. cbv zeta.
  assert (bytes_ok (to_be_bytes 2 (as_unsigned 16 days))) as Hb by by apply Radix.to_be_ok.
  revert Hb. generalize (to_be_bytes 2 (as_unsigned 16 days)). intros db Hb.
  apply Forall_app; split; [|constructor; [apply checksum_ok|done]].
  apply Forall_app; split; [|apply Forall_take, hmac_ok].
  by repeat (apply Forall_app; split).
Qed.

Lemma parse_format random days distributor secret :
  length random = 6%nat → bytes_ok random → - 2 ^ 15 <= days < 2 ^ 15 →
  length distributor = 4%nat → bytes_ok distributor →
  parse (format (b32_encode (payload random days distributor secret))) secret
    = Some (days, distributor).
Proof.
  intros Hr Hrok Hdays Hd Hdok. unfold parse. rewrite decode_format by by apply payload_ok.
  rewrite decide_False by (intros Hn; by apply Hn, payload_length).
  unfold payload. cbv zeta.
  pose proof (Radix.length_to_be 256 2 (as_unsigned 16 days)) as Hl2.
  assert (0 <= as_unsigned 16 days < 256 ^ Z.of_nat 2) as Hu
    by (unfold as_unsigned; apply Z.mod_pos_bound; lia).
  pose proof (Radix.of_to_be 256 ltac:(lia) 2 _ Hu) as Hrt.
  set (db2 := to_be_bytes 2 (as_unsigned 16 days)) in *.
  set (data := random ++ db2 ++ distributor) in *.
  assert (length data = 12%nat) as Hdata by (subst data; by rewrite !length_app, Hr, Hl2, Hd).
  set (sig := take 3 (sign data secret)) in *.
  assert (length sig = 3%nat) as Hsig by (subst sig; unfold sign; by rewrite length_take, hmac_length).
  rewrite take_app_length', drop_app_length' by (by rewrite length_app, Hdata, Hsig).
  rewrite decide_False by (intros Hn; by apply Hn).
  rewrite take_app_length', drop_app_length' by done.
  rewrite decide_False by (intros Hn; apply Hn; subst sig; by rewrite take_take).
  do 2 f_equal.
  - subst data. rewrite drop_app_length', take_app_length' by done.
    rewrite Hrt. by apply as_signed_unsigned.
  - subst data. rewrite (assoc app), drop_app_length' by (by rewrite length_app, Hr, Hl2).
    apply take_ge. by rewrite Hd.
Qed.
End facts.
End Code.
Notation Code := Code.Code.

(** ** Keys *)
Module Key.
(** [Key] -- memory/key.rs:11-21 *)
Record Key : Set := {
  id : Uuid;
  code : string;
  days : Z;
  activated : bool;
  subscription_id : option Uuid;
  created_at : DateTime;
  modified_at : DateTime;
  distributor : Distributor;
}.

(** [Key::new] -- memory/key.rs:24-39 *)
Definition new `{!Base32, !Hmac} (id : Uuid) (now : DateTime) (random : list Z) (days : Z)
    (distributor : Distributor) (secret : list Z) : Key :=
  let code := Code.text (Code.new random days (Distributor.as_bytes distributor) secret) in
  {| id := id;
     code := code;
     days := days;
     activated := false;
     subscription_id := None;
     created_at := now;
     modified_at := now;
     distributor := distributor |}.

(** [Key::activate] -- memory/key.rs:41-47 *)
Definition activate (now : DateTime) (sub_id : Uuid) (k : Key) : Key * Uuid :=
  ({| id := id k; code := code k; days := days k; activated := true;
      subscription_id := Some sub_id; created_at := created_at k; modified_at := now;
      distributor := distributor k |}, id k).
End Key.
Notation Key := Key.Key.

(** ** Theorems *)

(** C37: a freshly minted code is well formed and parses, with the same secret,
    to the days and the distributor it was minted for, with its hyphens or
    without them. *)
Theorem code_roundtrip `{!Base32, !Hmac} (random : list Z) (days : Z) (d : Distributor)
    (secret : list Z)
    (Hr : length random = 6%nat) (Hrok : bytes_ok random)
    (Hdays : - 2 ^ 15 <= days < 2 ^ 15) (Hd : Distributor.wf d) :
  let c := Code.new random days (Distributor.as_bytes d) secret in
  Code.parse (Code.text c) secret = Some (days, Distributor.as_bytes d) ∧
  Code.parse (Str.remove "-" (Code.text c)) secret = Some (days, Distributor.as_bytes d) ∧
  Code.is_valid c secret = true.
Proof.
  pose proof (Distributor.wf_bytes_ok d Hd) as Hdok. destruct Hd as [Hdl _]. intros c.
  set (p := Code.payload random days (Distributor.as_bytes d) secret).
  assert (Code.text c = Code.format (b32_encode p)) as Hc.
  { subst c. unfold Code.new. cbn. by rewrite (StrFacts.upper_fix _ (b32_upper _)). }
  assert (Code.parse (Code.text c) secret = Some (days, Distributor.as_bytes d)) as Hparse
    by (rewrite Hc; by apply Code.parse_format).
  split_and!; [done| |unfold Code.is_valid; by rewrite Hparse].
  rewrite <- Hparse. unfold Code.parse. rewrite Hc, Code.remove_format by apply b32_no_dash.
  by rewrite (StrFacts.remove_all _ _ (b32_no_dash p)).
Qed.

Definition zero_random : list Z := replicate 6 0.
Definition test_distributor : Distributor := {| Distributor.bytes := [84; 69; 83; 84] |}.

Lemma code_roundtrip_witness :
  length zero_random = 6%nat ∧ Distributor.wf test_distributor ∧
  Code.parse (Code.text (Code.new zero_random 30
    (Distributor.as_bytes test_distributor) [1; 2; 3])) [1; 2; 3]
    = Some (30, Distributor.as_bytes test_distributor).
Proof.
  assert (Distributor.wf test_distributor) as Hd by (split; [reflexivity|by repeat constructor]).
  split; [reflexivity|]. split; [exact Hd|].
  exact (proj1 (code_roundtrip zero_random 30 test_distributor [1; 2; 3]
    eq_refl ltac:(by repeat constructor) ltac:(lia) Hd)).
Defined.

Lemma parse_Some `{!Base32, !Hmac} l secret r :
  bytes_ok l → Code.parse (Code.format (b32_encode l)) secret = Some r →
  length l = 16%nat ∧ Some (Code.checksum (take 15 l)) = head (drop 15 l).
Proof.
  intros Hl. unfold Code.parse. rewrite Code.decode_format by done.
  case_decide as Hlen; [done|]. cbv zeta. case_decide as Hck; [done|]. intros _. split.
  - by destruct (decide (length l = 16%nat)).
  - by destruct (decide (Some (Code.checksum (take 15 l)) = head (drop 15 l))).
Qed.

Lemma sum_insert_take (l : list Z) i b b' :
  l !! i = Some b → (i < 15)%nat →
  foldr Z.add 0 (<[i := b']> (take 15 l)) = foldr Z.add 0 (take 15 l) - b + b'.
Proof. intros Hi Hlt. apply Code.sum_insert. by rewrite lookup_take_lt. Qed.

(** The checksum catches every single-byte error: when the 16 bytes of an
    accepted code are altered in exactly one place, no secret accepts the
    result. *)
Theorem code_single_error `{!Base32, !Hmac} (l : list Z) (i : nat) (b b' : Z)
    (secret secret' : list Z) (r : Z * list Z)
    (Hl : bytes_ok l) (Hi : l !! i = Some b) (Hb' : byte_ok b') (Hne : b ≠ b')
    (Hacc : Code.parse (Code.format (b32_encode l)) secret = Some r) :
  Code.parse (Code.format (b32_encode (<[i := b']> l))) secret' = None.
Proof.
  destruct (Code.parse _ secret') as [r'|] eqn:Hp; [exfalso|done].
  assert (bytes_ok (<[i := b']> l)) as Hl' by by apply Forall_insert.
  apply parse_Some in Hacc as [Hlen Hck]; [|done]. apply parse_Some in Hp as [_ Hck']; [|done].
  assert (byte_ok b) as Hb by exact (Forall_lookup_1 _ _ _ _ Hl Hi).
  rewrite Code.checksum_sum in Hck, Hck'. unfold byte_ok in *.
  assert (i < 16)%nat as Hi16 by (rewrite <- Hlen; by eapply lookup_lt_Some).
  rewrite head_lookup, lookup_drop in Hck, Hck'. cbn [Nat.add] in Hck, Hck'.
  destruct (decide (i = 15%nat)) as [->|Hi15].
  - rewrite list_lookup_insert_eq in Hck' by lia. rewrite take_insert_ge in Hck' by lia.
    congruence.
  - rewrite list_lookup_insert_ne in Hck' by done. rewrite take_insert_lt in Hck' by lia.
    rewrite (sum_insert_take l i b) in Hck' by (done || lia).
    rewrite <- Hck in Hck'. injection Hck' as Hmod.
    pose proof (Z.div_mod (foldr Z.add 0 (take 15 l)) 256 ltac:(lia)).
    pose proof (Z.div_mod (foldr Z.add 0 (take 15 l) - b + b') 256 ltac:(lia)). lia.
Qed.

Lemma code_single_error_witness :
  Code.parse (Code.format (b32_encode (<[3%nat := 1]>
    (Code.payload zero_random 30 (Distributor.as_bytes test_distributor) [1])))) [1] = None.
Proof.
  assert (bytes_ok (Code.payload zero_random 30 (Distributor.as_bytes test_distributor) [1])) as Hok.
  { assert (forallb (λ b, bool_decide (byte_ok b))
      (Code.payload zero_random 30 (Distributor.as_bytes test_distributor) [1]) = true) as Hb
      by (vm_compute; reflexivity).
    apply Forall_forall. intros b Hin. rewrite forallb_forall in Hb.
    apply (bool_decide_eq_true_1 _ (Hb b (proj1 (list_elem_of_In _ _) Hin))). }
  assert (Code.parse (Code.format (b32_encode
    (Code.payload zero_random 30 (Distributor.as_bytes test_distributor) [1]))) [1]
    = Some (30, [84; 69; 83; 84])) as Hp by (vm_compute; reflexivity).
  exact (code_single_error _ 3 0 1 [1] [1] _ Hok eq_refl ltac:(unfold byte_ok; lia)
    ltac:(lia) Hp).
Defined.
