(* ===== verification/Inbound.v ===== *)
(** * A node's inbounds and its configuration files

    [config/inbound.rs] (the data), [config/h2.rs], [config/mtproto.rs],
    [config/wireguard.rs].  Reading a file and the JSON, YAML and TOML parsers
    are not modelled: a function that reads a file takes what the reading
    yields.  Hash maps of headers are association lists keyed by name, of
    which the code only looks names up. *)
From S2P Require Import Prelude Foreign Naming Wireguard.
Local Open Scope Z_scope.
Local Open Scope pony_scope.

(** ** Xray stream settings *)
Module Network.
(** [Network] -- config/inbound.rs:17-24 *)
Inductive Network : Set := Xhttp | Grpc | Tcp | Ws.
#[export] Instance Network_eq_dec : EqDecision Network.
Proof. solve_decision. Defined.
End Network.
Notation Network := Network.Network.
#[export] Existing Instance Network.Network_eq_dec.

(** [GrpcSettings] -- config/inbound.rs:39-43 *)
Record GrpcSettings : Set := { service_name : string }.
#[export] Instance GrpcSettings_eq_dec : EqDecision GrpcSettings.
Proof. solve_decision. Defined.

(** [RealitySettings] -- config/inbound.rs:45-56 *)
Record RealitySettings : Set := {
  server_names : list string;
  private_key : string;
  public_key : string;
  short_ids : list string;
  target : string;
}.
#[export] Instance RealitySettings_eq_dec : EqDecision RealitySettings.
Proof. solve_decision. Defined.

(** [XhttpSettings] -- config/inbound.rs:58-61 *)
Record XhttpSettings : Set := { xhttp_path : string }.
#[export] Instance XhttpSettings_eq_dec : EqDecision XhttpSettings.
Proof. solve_decision. Defined.

(** [TcpRequest] -- config/inbound.rs:74-79 *)
Record TcpRequest : Set := {
  method : string;
  req_path : list string;
  headers : option (list (string * list string));
}.
#[export] Instance TcpRequest_eq_dec : EqDecision TcpRequest.
Proof. solve_decision. Defined.

(** [TcpHeader] -- config/inbound.rs:68-72 *)
Record TcpHeader : Set := { header_type : string; request : option TcpRequest }.
#[export] Instance TcpHeader_eq_dec : EqDecision TcpHeader.
Proof. solve_decision. Defined.

(** [TcpSettings] -- config/inbound.rs:63-66 *)
Record TcpSettings : Set := { header : option TcpHeader }.
#[export] Instance TcpSettings_eq_dec : EqDecision TcpSettings.
Proof. solve_decision. Defined.

(** [StreamSettings] -- config/inbound.rs:26-37 *)
Record StreamSettings : Set := {
  network : Network;
  tcp_settings : option TcpSettings;
  reality_settings : option RealitySettings;
  grpc_settings : option GrpcSettings;
  xhttp_settings : option XhttpSettings;
}.
#[export] Instance StreamSettings_eq_dec : EqDecision StreamSettings.
Proof. solve_decision. Defined.

(** [headers.get(name)] *)
Definition header_get (name : string) (l : list (string * list string)) : option (list string) :=
  snd <$> find (λ '(k, _), bool_decide (k = name)) l.

(** ** Hysteria2 *)
(** [H2AuthInfo] -- config/h2.rs:27-32 *)
Record H2AuthInfo : Set := { auth_type : string; has_password : bool; has_url : bool }.
#[export] Instance H2AuthInfo_eq_dec : EqDecision H2AuthInfo.
Proof. solve_decision. Defined.

(** [H2Obfs] -- config/h2.rs:74-78 *)
Record H2Obfs : Set := { obfs_type : string; obfs_password : string }.
#[export] Instance H2Obfs_eq_dec : EqDecision H2Obfs.
Proof. solve_decision. Defined.

(** [H2Settings] -- config/h2.rs:62-73 *)
Record H2Settings : Set := {
  h2_host : string;
  h2_port : Z;
  sni : option string;
  insecure : bool;
  h2_obfs : option H2Obfs;
  alpn : option (list string);
  up_mbps : option Z;
  down_mbps : option Z;
  auth_info : option H2AuthInfo;
}.
#[export] Instance H2Settings_eq_dec : EqDecision H2Settings.
Proof. solve_decision. Defined.

(** [AcmeConfig] -- config/h2.rs:34-42 *)
Record AcmeConfig : Set := {
  domains : option (list string);
  email : option string;
  acme_type : option string;
  dir : option string;
}.
(** [AuthConfig] -- config/h2.rs:44-49 *)
Record AuthConfig : Set := {
  cfg_auth_type : option string;
  cfg_auth_password : option string;
  cfg_auth_url : option string;
}.
(** [HysteriaObfs] -- config/h2.rs:51-55 *)
Record HysteriaObfs : Set := {
  cfg_obfs_type : option string;
  cfg_obfs_password : option string;
}.
(** [Masquerade] -- config/h2.rs:57-60 *)
Record Masquerade : Set := { masquerade_type : string }.
(** [Hysteria2Settings] -- config/h2.rs:7-14 *)
Record Hysteria2Settings : Set := {
  listen : option string;
  acme : option AcmeConfig;
  auth : option AuthConfig;
  cfg_obfs : option HysteriaObfs;
  masquerade : option Masquerade;
}.

(** [Hysteria2Settings::validate] -- config/h2.rs:80-93 *)
Definition h2_validate (s : Hysteria2Settings) : result unit Error :=
  if is_none (listen s) then Err (Error.Custom "Hysteria2: listen is required")
  else match auth s with
  | None => Err (Error.Custom "Hysteria2: auth section is required")
  | Some _ => Ok tt
  end.

(** [u16::from_str] *)
Definition parse_u16 (s : string) : option Z :=
  let s := match s with String "+" s => s | s => s end in
  if decide (s = EmptyString) then None else
  match parse_digits 0 s with
  | Some n => if decide (n <= 65535) then Some n else None
  | None => None
  end.

(** [H2Settings::try_from] -- config/h2.rs:95-141 *)
Definition h2_try_from (server : Hysteria2Settings) : result H2Settings Error :=
  let? listen := ok_or (listen server) (Error.Custom "Hysteria2: listen missing") in
  let? port :=
    ok_or (parse_u16 (default "443" (last (Str.split ":" listen))))
      (Error.Custom "Hysteria2: invalid port") in
  let? host :=
    ok_or
      (match acme server with
       | Some a => match domains a with Some d => head d | None => None end
       | None => None
       end) (Error.Custom "Hysteria2: acme.domains missing") in
  let auth_info :=
    (λ a, {| auth_type := default "unknown" (cfg_auth_type a);
             has_password := is_some (cfg_auth_password a);
             has_url := is_some (cfg_auth_url a) |}) <$> auth server in
  let obfs :=
    (λ o, {| obfs_type := default "" (cfg_obfs_type o);
             obfs_password := default "" (cfg_obfs_password o) |}) <$> cfg_obfs server in
  Ok {| h2_host := host;
        h2_port := port;
        sni := Some host;
        insecure := false;
        alpn := Some ["h2"; "http/1.1"];
        h2_obfs := obfs;
        up_mbps := None;
        down_mbps := None;
        auth_info := auth_info |}.

(** ** MTProto *)
(** [SecretEntry] -- config/mtproto.rs:5-9 *)
Record SecretEntry : Set := { secret_key : string; secret_label : string }.
(** [MtprotoSettings] -- config/mtproto.rs:11-15 *)
Record MtprotoSettings : Set := { mt_port : Z; secret : list SecretEntry }.
(** [MtprotoSettings::validate] -- config/mtproto.rs:17-21 *)
Definition mt_validate (_ : MtprotoSettings) : result unit Error := Ok tt.

(** ** WireGuard *)
(** [WireguardServerConfig] -- config/wireguard.rs:7-14 *)
Record WireguardServerConfig : Set := {
  cfg_interface : string;
  cfg_address : string;
  cfg_port : Z;
  cfg_private_key : string;
  cfg_dns : option (list string);
}.

(** [WireguardSettings] -- config/wireguard.rs:75-82 *)
Record WireguardSettings : Set := {
  interface : string;
  wg_address : IpAddrMask;
  wg_port : Z;
  wg_keys : Keys;
  dns : list Ipv4Addr;
}.
#[export] Instance WireguardSettings_eq_dec : EqDecision WireguardSettings.
Proof. solve_decision. Defined.

(** [str::lines]: a carriage return before the line feed goes with the trim
    every line gets. *)
Definition lines (s : string) : list string := Str.split (ascii_of_nat 10) s.

(** the values gathered line by line *)
Record ConfState : Set := {
  st_private_key : option string;
  st_address : option string;
  st_dns : list string;
  st_port : option Z;
}.

(** [for line in contents.lines()] -- config/wireguard.rs:32-63 *)
Fixpoint read_lines (ls : list string) (st : ConfState) : result ConfState Error :=
  match ls with
  | [] => Ok st
  | line :: ls =>
    let line := Str.trim line in
    let? pk :=
      (if Str.starts_with "PrivateKey" line then
        match Str.split_once "=" line with
        | Some (_, value) => Ok (Some (Str.trim value))
        | None => Err (Error.Custom "Invalid PrivateKey line")
        end
      else Ok (st_private_key st)) in
    let address :=
      if Str.starts_with "Address" line
      then Str.trim <$> (Str.split "=" line !! 1%nat) else st_address st in
    let port :=
      if Str.starts_with "ListenPort" line
      then match Str.split "=" line !! 1%nat with
           | Some v => parse_u16 (Str.trim v) | None => None end
      else st_port st in
    let dns :=
      if Str.starts_with "DNS" line
      then Str.trim <$> Str.split "," (default "" (Str.split "=" line !! 1%nat))
      else st_dns st in
    read_lines ls
      {| st_private_key := pk; st_address := address; st_dns := dns; st_port := port |}
  end.

(** [WireguardServerConfig::from_file] -- config/wireguard.rs:16-73

    [contents] is what [read_to_string] yields. *)
Definition wg_from_file (path : string) (contents : result string string) :
    result WireguardServerConfig Error :=
  match contents with
  | Err e => Err (Error.Io e)
  | Ok contents =>
    let? interface :=
      ok_or (match last (Str.split "/" path) with
             | Some f => head (Str.split "." f) | None => None end)
        (Error.Custom "no interface name") in
    let? st := read_lines (lines contents)
      {| st_private_key := None; st_address := None; st_dns := []; st_port := None |} in
    let? port := ok_or (st_port st) (Error.Custom "no ListenPort") in
    let? private_key := ok_or (st_private_key st) (Error.Custom "no PrivateKey") in
    let? address := ok_or (st_address st) (Error.Custom "no Address") in
    Ok {| cfg_interface := interface; cfg_port := port; cfg_private_key := private_key;
          cfg_address := address; cfg_dns := Some (st_dns st) |}
  end.

Section wg_settings.
Context `{!Ipv6Text}.

(** [WireguardSettings::fmt] -- config/wireguard.rs:84-100 *)
Definition wg_settings_fmt (s : WireguardSettings) : string :=
  interface s +:+ "|" +:+ mask_fmt (wg_address s) +:+ "|" +:+ privkey (wg_keys s) +:+ "|" +:+
  dec (wg_port s) +:+ "|" +:+ Str.join "," (ipv4_str <$> dns s).

(** [WireguardSettings::try_from] -- config/wireguard.rs:102-131 *)
Definition wg_try_from (cfg : WireguardServerConfig) : result WireguardSettings Error :=
  let keys := {| privkey := cfg_private_key cfg |} in
  let? address := ok_or (mask_from_str (cfg_address cfg)) (Error.Custom "Invalid WG address") in
  let? dns := ok_or (mapM ipv4_parse (default [] (cfg_dns cfg))) (Error.Custom "Invalid DNS") in
  Ok {| interface := cfg_interface cfg; wg_keys := keys; wg_address := address;
        wg_port := cfg_port cfg; dns := dns |}.
End wg_settings.

(** ** Inbounds *)
(** [Stat] -- memory/node.rs:307-311 *)
Record InboundStat : Set := { ib_downlink : Z; ib_uplink : Z; ib_conn_count : Z }.

Module Inbound.
(** [Inbound] -- config/inbound.rs:81-93 *)
Record Inbound : Set := {
  tag : ProtoTag;
  port : Z;
  stream_settings : option StreamSettings;
  uplink : option Z;
  downlink : option Z;
  conn_count : option Z;
  wg : option WireguardSettings;
  h2 : option H2Settings;
  mtproto_secret : option string;
}.
#[export] Instance Inbound_eq_dec : EqDecision Inbound.
Proof. solve_decision. Defined.

(** [InboundResponse] -- config/inbound.rs:127-135 *)
Record InboundResponse : Set := {
  r_tag : ProtoTag;
  r_port : Z;
  r_stream_settings : option StreamSettings;
  r_wg : option WireguardSettings;
  r_h2 : option H2Settings;
  r_mtproto_secret : option string;
}.

(** [Inbound::as_inbound_response] -- config/inbound.rs:96-105 *)
Definition as_inbound_response (i : Inbound) : InboundResponse := {|
  r_port := port i;
  r_stream_settings := stream_settings i;
  r_tag := tag i;
  r_wg := wg i;
  r_h2 := h2 i;
  r_mtproto_secret := mtproto_secret i;
|}.

(** [Inbound::as_inbound_stat] -- config/inbound.rs:107-113 *)
Definition as_inbound_stat (i : Inbound) : InboundStat := {|
  ib_uplink := default 0 (uplink i);
  ib_downlink := default 0 (downlink i);
  ib_conn_count := default 0 (conn_count i);
|}.

Definition with_counts (u d c : option Z) (i : Inbound) : Inbound := {|
  tag := tag i; port := port i; stream_settings := stream_settings i;
  uplink := u; downlink := d; conn_count := c;
  wg := wg i; h2 := h2 i; mtproto_secret := mtproto_secret i |}.

(** [Inbound::update_uplink] -- config/inbound.rs:115-117 *)
Definition update_uplink (new_uplink : Z) (i : Inbound) : Inbound :=
  with_counts (Some new_uplink) (downlink i) (conn_count i) i.
(** [Inbound::update_downlink] -- config/inbound.rs:119-121 *)
Definition update_downlink (new_downlink : Z) (i : Inbound) : Inbound :=
  with_counts (uplink i) (Some new_downlink) (conn_count i) i.
(** [Inbound::update_conn_count] -- config/inbound.rs:122-124 *)
Definition update_conn_count (new_conn_count : Z) (i : Inbound) : Inbound :=
  with_counts (uplink i) (downlink i) (Some new_conn_count) i.
End Inbound.
Notation Inbound := Inbound.Inbound.
#[export] Existing Instance Inbound.Inbound_eq_dec.

(** [Settings] -- config/inbound.rs:142-146 *)
Record XraySettings : Set := { xray_inbounds : list Inbound; api_listen : string }.

(** [Settings::validate] -- config/inbound.rs:149-151 *)
Definition xray_validate (_ : XraySettings) : result unit Error := Ok tt.

Definition no_settings (t : ProtoTag) (p : Z) : Inbound := {|
  Inbound.tag := t; Inbound.port := p; Inbound.stream_settings := None;
  Inbound.uplink := None; Inbound.downlink := None; Inbound.conn_count := None;
  Inbound.wg := None; Inbound.h2 := None; Inbound.mtproto_secret := None |}.

(** A file read and one that is refused. *)
Example wg_conf_example :
  let nl := String (ascii_of_nat 10) "" in
  let key := "AAECAwQFBgcICQoLDA0ODxAREhMUFRYXGBkaGxwdHh8=" in
  let conf := "[Interface]" +:+ nl +:+ "PrivateKey = " +:+ key +:+ nl +:+
    "  Address = 10.7.0.1/24  " +:+ nl +:+ "ListenPort = 51820" +:+ nl +:+
    "DNS = 1.1.1.1, 8.8.8.8" +:+ nl in
  wg_from_file "/etc/wireguard/wg0.conf" (Ok conf) =
    Ok {| cfg_interface := "wg0"; cfg_port := 51820; cfg_private_key := key;
          cfg_address := "10.7.0.1/24"; cfg_dns := Some ["1.1.1.1"; "8.8.8.8"] |} ∧
  wg_from_file "/etc/wireguard/wg0.conf" (Ok ("PrivateKey" +:+ nl)) =
    Err (Error.Custom "Invalid PrivateKey line").
Proof. vm_compute. done. Qed.
