(* ===== verification/Node.v ===== *)
(** * Nodes and the in-memory table of nodes

    [memory/node.rs], [memory/storage/node.rs], [config/settings.rs] and the
    node request of the HTTP interface ([bin/api/http/request.rs]).  The table
    maps an environment to the list of its nodes. *)
From S2P Require Import Prelude Foreign Naming Wireguard Inbound.
Local Open Scope Z_scope.

(** ** Nodes *)
Module NodeStatus.
(** [Status] -- memory/node.rs:26-31 *)
Inductive NodeStatus : Set := Online | Offline.
#[export] Instance NodeStatus_eq_dec : EqDecision NodeStatus.
Proof. solve_decision. Defined.

(** [Status::eq] -- memory/node.rs:33-40 *)
Definition eq (self other : NodeStatus) : bool :=
  match self, other with
  | Online, Online | Offline, Offline => true
  | _, _ => false
  end.
(** [Status::fmt] -- memory/node.rs:42-49 *)
Definition fmt (s : NodeStatus) : string :=
  match s with Online => "Online" | Offline => "Offline" end.
(** [Status::from_str] -- memory/node.rs:51-61 *)
Definition from_str (s : string) : NodeStatus :=
  if decide (s = "Online") then Online else Offline.
End NodeStatus.
Notation NodeStatus := NodeStatus.NodeStatus.
#[export] Existing Instance NodeStatus.NodeStatus_eq_dec.

Module NodeType.
(** [Type] -- memory/node.rs:63-71 *)
Inductive NodeType : Set := Common | Premium | Service | Agent.
#[export] Instance NodeType_eq_dec : EqDecision NodeType.
Proof. solve_decision. Defined.

(** [Type::fmt] -- memory/node.rs:73-82 *)
Definition fmt (t : NodeType) : string :=
  match t with
  | Common => "Common" | Premium => "Premium" | Service => "Service" | Agent => "Agent"
  end.
(** [Type::from_str] -- memory/node.rs:84-96 *)
Definition from_str (s : string) : NodeType :=
  if decide (s = "Common") then Common
  else if decide (s = "Premium") then Premium
  else if decide (s = "Service") then Service
  else if decide (s = "Agent") then Agent
  else Common.
End NodeType.
Notation NodeType := NodeType.NodeType.
#[export] Existing Instance NodeType.NodeType_eq_dec.

(** [NodeConfig] -- config/settings.rs:22-34 *)
Record NodeConfig : Set := {
  cfg_env : Env;
  cfg_hostname : string;
  cfg_default_interface : string;
  cfg_node_address : Ipv4Addr;
  cfg_uuid : Uuid;
  cfg_label : string;
  cfg_max_bandwidth_bps : Z;
  cfg_cores : Z;
  cfg_country : string;
  cfg_type : NodeType;
}.

(** [NodeConfigRaw] -- config/settings.rs:36-47 *)
Record NodeConfigRaw : Set := {
  raw_env : Env;
  raw_hostname : option string;
  raw_default_interface : string;
  raw_address : Ipv4Addr;
  raw_uuid : Uuid;
  raw_label : string;
  raw_max_bandwidth_bps : Z;
  raw_country : string;
  raw_type : string;
}.

(** [NodeConfig::from_raw] -- config/settings.rs:49-76

    [num_cpus] and [host_var] are what the system answers. *)
Definition from_raw (num_cpus : result Z string) (host_var : option string)
    (raw : NodeConfigRaw) : result NodeConfig Error :=
  match num_cpus with
  | Err e => Err (Error.Io e)
  | Ok num_cpus =>
    let hostname :=
      match raw_hostname raw with
      | None => match host_var with
                | Some h => Ok h
                | None => Err (Error.Custom "Validation error: missing hostname (set $HOSTNAME env or specify in config)")
                end
      | Some h => Ok h
      end in
    match hostname with
    | Err e => Err e
    | Ok hostname =>
      Ok {| cfg_env := raw_env raw; cfg_hostname := hostname;
            cfg_default_interface := raw_default_interface raw;
            cfg_node_address := raw_address raw; cfg_uuid := raw_uuid raw;
            cfg_label := raw_label raw; cfg_max_bandwidth_bps := raw_max_bandwidth_bps raw;
            cfg_cores := num_cpus; cfg_country := raw_country raw;
            cfg_type := NodeType.from_str (raw_type raw) |}
    end
  end.

Module Node.
(** [Node] -- memory/node.rs:122-138 *)
Record Node : Set := {
  uuid : Uuid;
  env : Env;
  hostname : string;
  address : Ipv4Addr;
  status : NodeStatus;
  label : string;
  interface : string;
  created_at : DateTime;
  modified_at : DateTime;
  inbounds : gmap ProtoTag Inbound;
  cores : Z;
  max_bandwidth_bps : Z;
  country : string;
  type : NodeType;
}.
#[export] Instance Node_eq_dec : EqDecision Node.
Proof. solve_decision. Defined.

(** [NodeResponse] -- memory/node.rs:98-113

    Without the list of metrics, which a node's own conversion leaves empty. *)
Record NodeResponse : Set := {
  r_uuid : Uuid;
  r_env : string;
  r_hostname : string;
  r_interface : string;
  r_address : Ipv4Addr;
  r_inbounds : list ProtoTag;
  r_status : NodeStatus;
  r_label : string;
  r_cores : Z;
  r_max_bandwidth_bps : Z;
  r_country : string;
  r_type : NodeType;
}.

(** [Node::new] -- memory/node.rs:140-231

    [None] is the panic of [config.secret[0]] on an empty list. *)
Definition new (now : DateTime) (settings : NodeConfig) (xray_config : option XraySettings)
    (wg_config : option WireguardSettings) (h2_config : option H2Settings)
    (mtproto_config : option MtprotoSettings) : option Node :=
  let inbounds : gmap ProtoTag Inbound := ∅ in
  let inbounds :=
    match xray_config with
    | Some config =>
      foldl (λ m i, <[Inbound.tag i := i]> m) ∅ (xray_inbounds config) ∪ inbounds
    | None => inbounds
    end in
  let inbounds :=
    match wg_config with
    | Some config =>
      <[ProtoTag.Wireguard :=
        {| Inbound.port := wg_port config; Inbound.tag := ProtoTag.Wireguard;
           Inbound.stream_settings := None; Inbound.uplink := None;
           Inbound.downlink := None; Inbound.conn_count := None;
           Inbound.wg := wg_config; Inbound.h2 := None; Inbound.mtproto_secret := None |}]>
        inbounds
    | None => inbounds
    end in
  match
    match mtproto_config with
    | Some config =>
      match head (secret config) with
      | Some entry => Some
        (<[ProtoTag.Mtproto :=
          {| Inbound.port := mt_port config; Inbound.tag := ProtoTag.Mtproto;
             Inbound.stream_settings := None; Inbound.uplink := None;
             Inbound.downlink := None; Inbound.conn_count := None;
             Inbound.wg := None; Inbound.h2 := None;
             Inbound.mtproto_secret := Some (secret_key entry) |}]> inbounds)
      | None => None
      end
    | None => Some inbounds
    end
  with
  | None => None
  | Some inbounds =>
    let inbounds :=
      match h2_config with
      | Some config =>
        <[ProtoTag.Hysteria2 :=
          {| Inbound.port := h2_port config; Inbound.tag := ProtoTag.Hysteria2;
             Inbound.stream_settings := None; Inbound.uplink := None;
             Inbound.downlink := None; Inbound.conn_count := None;
             Inbound.wg := None; Inbound.h2 := h2_config;
             Inbound.mtproto_secret := None |}]> inbounds
      | None => inbounds
      end in
    Some
    {| uuid := cfg_uuid settings;
       env := cfg_env settings;
       hostname := cfg_hostname settings;
       status := NodeStatus.Online;
       address := cfg_node_address settings;
       created_at := now;
       label := cfg_label settings;
       interface := cfg_default_interface settings;
       modified_at := now;
       inbounds := inbounds;
       cores := cfg_cores settings;
       max_bandwidth_bps := cfg_max_bandwidth_bps settings;
       country := cfg_country settings;
       type := cfg_type settings |}
  end.

(** [Node::get_base_tags] -- memory/node.rs:233-248 *)
Definition get_base_tags (n : Node) : gmap string string :=
  let tags : gmap string string := ∅ in
  let tags := <["env" := Env.fmt (env n)]> tags in
  let tags := <["hostname" := hostname n]> tags in
  let tags := <["label" := label n]> tags in
  let tags := <["address" := ipv4_str (address n)]> tags in
  let tags := <["label" := label n]> tags in
  let tags := <["cores" := dec (cores n)]> tags in
  let tags := <["max_bandwidth_bps" := pretty (max_bandwidth_bps n)]> tags in
  let tags := <["country" := country n]> tags in
  <["type" := NodeType.fmt (type n)]> tags.

(** [Node::as_node_response] -- memory/node.rs:250-268 *)
Definition as_node_response `{!IterOrder} (n : Node) : NodeResponse := {|
  r_env := Env.fmt (env n);
  r_hostname := hostname n;
  r_interface := interface n;
  r_address := address n;
  r_uuid := uuid n;
  r_inbounds := (hiter (inbounds n)).*1;
  r_status := status n;
  r_label := label n;
  r_cores := cores n;
  r_max_bandwidth_bps := max_bandwidth_bps n;
  r_country := country n;
  r_type := type n;
|}.

Definition with_status_inbounds (s : NodeStatus) (ib : gmap ProtoTag Inbound) (n : Node) :
  Node := {|
  uuid := uuid n; env := env n; hostname := hostname n; address := address n; status := s;
  label := label n; interface := interface n; created_at := created_at n;
  modified_at := modified_at n; inbounds := ib; cores := cores n;
  max_bandwidth_bps := max_bandwidth_bps n; country := country n; type := type n |}.

(** [Node::update_status] -- memory/node.rs:270-273 *)
Definition update_status (new_status : NodeStatus) (n : Node) : Node * result unit string :=
  (with_status_inbounds new_status (inbounds n) n, Ok tt).

Definition update_inbound (tag : ProtoTag) (f : Inbound → Inbound) (n : Node) :
    Node * result unit string :=
  match inbounds n !! tag with
  | Some inbound =>
    (with_status_inbounds (status n) (<[tag := f inbound]> (inbounds n)) n, Ok tt)
  | None => (n, Err ("Inbound " +:+ ProtoTag.fmt tag +:+ "  not found"))
  end.

(** [Node::update_uplink] -- memory/node.rs:275-282 *)
Definition update_uplink (tag : ProtoTag) (new_uplink : Z) (n : Node) :
    Node * result unit string := update_inbound tag (Inbound.update_uplink new_uplink) n.
(** [Node::update_downlink] -- memory/node.rs:284-291 *)
Definition update_downlink (tag : ProtoTag) (new_downlink : Z) (n : Node) :
    Node * result unit string := update_inbound tag (Inbound.update_downlink new_downlink) n.
(** [Node::update_conn_count] -- memory/node.rs:293-300 *)
Definition update_conn_count (tag : ProtoTag) (conn_count : Z) (n : Node) :
    Node * result unit string := update_inbound tag (Inbound.update_conn_count conn_count) n.

(** [Node::inbound] -- memory/node.rs:302-304 *)
Definition inbound `{!IterOrder} (n : Node) (tag : ProtoTag) : option Inbound :=
  find (λ i, bool_decide (Inbound.tag i = tag)) (hvalues (inbounds n)).
End Node.
Notation Node := Node.Node.
#[export] Existing Instance Node.Node_eq_dec.

(** [NodeRequest] -- bin/api/http/request.rs:62-75 *)
Record NodeRequest : Set := {
  req_env : Env;
  req_hostname : string;
  req_address : Ipv4Addr;
  req_inbounds : gmap ProtoTag Inbound;
  req_uuid : Uuid;
  req_label : string;
  req_interface : string;
  req_cores : Z;
  req_max_bandwidth_bps : Z;
  req_country : string;
  req_type : option NodeType;
}.

(** [NodeRequest::as_node] -- bin/api/http/request.rs:77-103 *)
Definition as_node (now : DateTime) (r : NodeRequest) : Node :=
  let t := match req_type r with Some t => t | None => NodeType.Common end in
  {| Node.uuid := req_uuid r;
     Node.env := req_env r;
     Node.hostname := req_hostname r;
     Node.address := req_address r;
     Node.inbounds := req_inbounds r;
     Node.status := NodeStatus.Online;
     Node.created_at := now;
     Node.modified_at := now;
     Node.label := req_label r;
     Node.interface := req_interface r;
     Node.cores := req_cores r;
     Node.max_bandwidth_bps := req_max_bandwidth_bps r;
     Node.country := req_country r;
     Node.type := t |}.

(** ** The table *)
Notation Nodes := (gmap Env (list Node)).

Module NodeStore.
Section ops.
Context `{!IterOrder}.
Implicit Type self : Nodes.

(** [Operations::clear] -- memory/storage/node.rs:45-48 *)
Definition clear self : Nodes * result unit Error := (∅, Ok tt).

(** [Operations::iter_nodes] -- memory/storage/node.rs:49-57 *)
Definition iter_nodes self : list (Uuid * Node) :=
  (λ node, (Node.uuid node, node)) <$> mjoin (hvalues self).

(** the loop of [add] over an environment's nodes: [None] when no node has
    the id *)
Fixpoint replace_node (new_node : Node) (nodes : list Node) : option (list Node * Status) :=
  match nodes with
  | [] => None
  | node :: nodes =>
    if decide (Node.uuid node = Node.uuid new_node) then
      if decide (node = new_node)
      then Some (node :: nodes, Status.AlreadyExist (Node.uuid new_node))
      else Some (new_node :: nodes, Status.Updated (Node.uuid new_node))
    else
      match replace_node new_node nodes with
      | Some (nodes, st) => Some (node :: nodes, st)
      | None => None
      end
  end.

(** [Operations::add] -- memory/storage/node.rs:58-82 *)
Definition add self (new_node : Node) : Nodes * result Status Error :=
  let env := Node.env new_node in
  let uuid := Node.uuid new_node in
  match self !! env with
  | Some nodes =>
    match replace_node new_node nodes with
    | Some (nodes, st) => (<[env := nodes]> self, Ok st)
    | None => (<[env := nodes ++ [new_node]]> self, Ok (Status.Ok uuid))
    end
  | None => (<[env := [new_node]]> self, Ok (Status.Ok uuid))
  end.

(** [Operations::get] -- memory/storage/node.rs:83-88 *)
Definition get self (env : Env) (uuid : Uuid) : option Node :=
  match self !! env with
  | Some nodes => find (λ n, bool_decide (Node.uuid n = uuid)) nodes
  | None => None
  end.

(** [Operations::get_by_env] -- memory/storage/node.rs:89-94 *)
Definition get_by_env self (env : Env) : option (list Node) := self !! env.

(** [Operations::get_by_id] -- memory/storage/node.rs:95-100 *)
Definition get_by_id self (node_id : Uuid) : option Node :=
  find (λ node, bool_decide (Node.uuid node = node_id)) (mjoin (hvalues self)).

(** [Operations::all] -- memory/storage/node.rs:101-109 *)
Definition all self : option (list Node) :=
  match mjoin (hvalues self) with [] => None | nodes => Some nodes end.

(** the first node with the id, updated in place *)
Fixpoint update_first (node_id : Uuid) (f : Node → Node * result unit string)
    (nodes : list Node) : option (list Node * result unit string) :=
  match nodes with
  | [] => None
  | node :: nodes =>
    if decide (Node.uuid node = node_id) then
      let '(node, r) := f node in Some (node :: nodes, r)
    else
      match update_first node_id f nodes with
      | Some (nodes, r) => Some (node :: nodes, r)
      | None => None
      end
  end.

(** [Operations::get_mut] -- memory/storage/node.rs:86-88

    With the update of the node it lends, and that update's answer. *)
Definition get_mut self (env : Env) (uuid : Uuid) (f : Node → Node * result unit string) :
    Nodes * option (result unit string) :=
  match self !! env with
  | Some nodes =>
    match update_first uuid f nodes with
    | Some (nodes, r) => (<[env := nodes]> self, Some r)
    | None => (self, None)
    end
  | None => (self, None)
  end.

Definition to_error (r : result unit string) : result unit Error :=
  match r with Ok _ => Ok tt | Err e => Err (Error.Custom e) end.

(** [Operations::update_node_uplink] -- memory/storage/node.rs:110-127 *)
Definition update_node_uplink `{!UuidText} self (tag : ProtoTag) (new_uplink : Z) (env : Env)
    (node_id : Uuid) : Nodes * result unit Error :=
  let not_found := Err (Error.Custom ("Node not found in env " +:+ Env.fmt env +:+
    " with id " +:+ uuid_str node_id)) in
  match self !! env with
  | Some nodes =>
    match update_first node_id (Node.update_uplink tag new_uplink) nodes with
    | Some (nodes, r) => (<[env := nodes]> self, to_error r)
    | None => (self, not_found)
    end
  | None => (self, not_found)
  end.

(** [Operations::update_node_downlink] -- memory/storage/node.rs:128-145 *)
Definition update_node_downlink `{!UuidText} self (tag : ProtoTag) (new_downlink : Z)
    (env : Env) (node_id : Uuid) : Nodes * result unit Error :=
  let not_found := Err (Error.Custom ("Node not found in env " +:+ Env.fmt env +:+
    " with id " +:+ uuid_str node_id)) in
  match self !! env with
  | Some nodes =>
    match update_first node_id (Node.update_downlink tag new_downlink) nodes with
    | Some (nodes, r) => (<[env := nodes]> self, to_error r)
    | None => (self, not_found)
    end
  | None => (self, not_found)
  end.

(** [Operations::update_node_conn_count] -- memory/storage/node.rs:146-162 *)
Definition update_node_conn_count `{!UuidText} self (tag : ProtoTag) (conn_count : Z)
    (env : Env) (node_id : Uuid) : Nodes * result unit Error :=
  match self !! env with
  | Some nodes =>
    match update_first node_id (Node.update_conn_count tag conn_count) nodes with
    | Some (nodes, r) => (<[env := nodes]> self, to_error r)
    | None => (self, Err (Error.Custom ("Node with ID " +:+ uuid_str node_id +:+ " not found")))
    end
  | None => (self, Err (Error.Custom ("Environment '" +:+ Env.fmt env +:+ "' not found")))
  end.

(** *** The table's invariant

    Every node sits under its own environment, and an environment lists an id
    at most once. *)
Definition wf self : Prop :=
  ∀ env nodes, self !! env = Some nodes →
    nodes ≠ [] ∧ NoDup (Node.uuid <$> nodes) ∧ Forall (λ n, Node.env n = env) nodes.

Lemma replace_node_None new nodes :
  replace_node new nodes = None ↔ Node.uuid new ∉ Node.uuid <$> nodes.
Proof.
  induction nodes as [|n nodes IH]; cbn; [split; [set_solver|done]|].
  case_decide as Hu; [case_decide|].
  - split; [done|]. intros []. rewrite <- Hu. constructor.
  - split; [done|]. intros []. rewrite <- Hu. constructor.
  - destruct (replace_node new nodes) as [[ns st]|]; set_solver.
Qed.

Lemma replace_node_Some new nodes ns st :
  replace_node new nodes = Some (ns, st) →
  NoDup (Node.uuid <$> nodes) → Forall (λ n, Node.env n = Node.env new) nodes →
  Node.uuid <$> ns = Node.uuid <$> nodes ∧
  Forall (λ n, Node.env n = Node.env new) ns ∧
  (∀ n, n ∈ ns ↔ n = new ∨ n ∈ nodes ∧ Node.uuid n ≠ Node.uuid new).
Proof.
  revert ns; induction nodes as [|n nodes IH]; intros ns Hr Hnd Henv; cbn in Hr; [done|].
  inversion_clear Hnd as [|? ? Hn Hnd']. inversion_clear Henv as [|? ? He Henv'].
  assert (∀ n', n' ∈ nodes → Node.uuid n' ≠ Node.uuid n) as Hfresh.
  { intros n' Hn' Heq. apply Hn. rewrite <- Heq. by apply list_elem_of_fmap_2. }
  case_decide as Hu; [case_decide as Hnn|].
  - simplify_eq. split_and!; [done|by constructor|]. intros n'.
    rewrite elem_of_cons. naive_solver.
  - simplify_eq. split_and!; [cbn; by rewrite Hu|by constructor|]. intros n'.
    rewrite !elem_of_cons. rewrite <- Hu. naive_solver.
  - destruct (replace_node new nodes) as [[ns' st']|]; [|done]. simplify_eq.
    destruct (IH ns' eq_refl Hnd' Henv') as (H1 & H2 & H3).
    split_and!; [cbn; by rewrite H1|by constructor|]. intros n'.
    rewrite !elem_of_cons, H3. naive_solver.
Qed.

Lemma wf_empty : wf ∅.
Proof. intros env nodes Hn. by rewrite lookup_empty in Hn. Qed.

Lemma wf_insert self env nodes :
  wf self → nodes ≠ [] → NoDup (Node.uuid <$> nodes) → Forall (λ n, Node.env n = env) nodes →
  wf (<[env := nodes]> self).
Proof. intros Hwf ??? env' nodes' [[<- <-]|[_ Hn]]%lookup_insert_Some; auto. Qed.

Lemma find_uuid nodes n :
  NoDup (Node.uuid <$> nodes) → n ∈ nodes →
  find (λ m, bool_decide (Node.uuid m = Node.uuid n)) nodes = Some n.
Proof.
  intros Hnd Hin. destruct (find _ _) as [m|] eqn:Hf.
  - apply find_Some in Hf as [Hm Heq]. apply bool_decide_eq_true_1 in Heq. f_equal.
    apply list_elem_of_lookup in Hin as [i Hi]. apply list_elem_of_lookup in Hm as [j Hj].
    assert (i = j) as ->; [|congruence].
    eapply NoDup_lookup; [exact Hnd| |]; rewrite list_lookup_fmap.
    + by rewrite Hi.
    + by rewrite Hj, <- Heq.
  - rewrite find_None in Hf. specialize (Hf n Hin). cbv beta in Hf.
    by apply bool_decide_eq_false_1 in Hf.
Qed.

Lemma get_Some self env uuid n :
  wf self →
  get self env uuid = Some n ↔
  ∃ nodes, self !! env = Some nodes ∧ n ∈ nodes ∧ Node.uuid n = uuid.
Proof.
  intros Hwf. unfold get. destruct (self !! env) as [nodes|] eqn:He; [|naive_solver].
  destruct (Hwf _ _ He) as (_ & Hnd & _). split.
  - intros [Hin Hu]%find_Some. apply bool_decide_eq_true_1 in Hu. eauto.
  - intros (nodes' & [= <-] & Hin & <-). by apply find_uuid.
Qed.

Lemma replace_node_status new nodes ns st :
  replace_node new nodes = Some (ns, st) →
  ∃ old, find (λ m, bool_decide (Node.uuid m = Node.uuid new)) nodes = Some old ∧
    st = if decide (old = new) then Status.AlreadyExist (Node.uuid new)
         else Status.Updated (Node.uuid new).
Proof.
  revert ns; induction nodes as [|n nodes IH]; intros ns; cbn [replace_node find]; [done|].
  case_decide as Hu.
  - rewrite bool_decide_eq_true_2 by done. intros Hr. exists n. split; [done|].
    case_decide; by simplify_eq.
  - rewrite bool_decide_eq_false_2 by done.
    destruct (replace_node new nodes) as [[ns' st']|]; [|done]. intros [= <- <-]. eauto.
Qed.

(** The nodes of [new]'s environment once it is registered. *)
Lemma add_nodes self new :
  wf self →
  ∃ ns, (add self new).1 = <[Node.env new := ns]> self ∧ ns ≠ [] ∧
    NoDup (Node.uuid <$> ns) ∧ Forall (λ n, Node.env n = Node.env new) ns ∧
    ∀ n, n ∈ ns ↔ n = new ∨
      (∃ nodes, self !! Node.env new = Some nodes ∧ n ∈ nodes) ∧ Node.uuid n ≠ Node.uuid new.
Proof.
  intros Hwf. unfold add. destruct (self !! Node.env new) as [nodes|] eqn:He.
  - destruct (Hwf _ _ He) as (Hne & Hnd & Henv).
    destruct (replace_node new nodes) as [[ns st]|] eqn:Hr.
    + destruct (replace_node_Some _ _ _ _ Hr Hnd Henv) as (H1 & H2 & H3). exists ns.
      split_and!; [done| |by rewrite H1|done|].
      * intros ->. by destruct nodes.
      * intros n. rewrite H3. naive_solver.
    + apply replace_node_None in Hr. exists (nodes ++ [new]). split_and!; [done|by destruct nodes| | |].
      * rewrite fmap_app. apply NoDup_app. split_and!; [done| |apply NoDup_singleton].
        intros u Hu. cbn. rewrite list_elem_of_singleton. intros ->. done.
      * apply Forall_app. split; [done|by constructor].
      * intros n. rewrite elem_of_app, list_elem_of_singleton. split.
        -- intros [Hn| ->]; [right|by left]. split; [by eauto|]. intros Heq. apply Hr.
           rewrite <- Heq. by apply list_elem_of_fmap_2.
        -- intros [->|[(nodes' & [= <-] & Hn) _]]; auto.
  - exists [new]. split_and!; [done|done|apply NoDup_singleton|by constructor|].
    intros n. rewrite list_elem_of_singleton. naive_solver.
Qed.

Lemma wf_add self new : wf self → wf (add self new).1.
Proof.
  intros Hwf. destruct (add_nodes self new Hwf) as (ns & -> & ? & ? & ? & _).
  by apply wf_insert.
Qed.

Lemma update_first_fixed id f nodes ns r :
  (∀ n, Node.uuid (f n).1 = Node.uuid n ∧ Node.env (f n).1 = Node.env n) →
  update_first id f nodes = Some (ns, r) →
  Node.uuid <$> ns = Node.uuid <$> nodes ∧ Node.env <$> ns = Node.env <$> nodes.
Proof.
  intros Hf. revert ns; induction nodes as [|n nodes IH]; intros ns; cbn; [done|].
  case_decide as Hn.
  - destruct (f n) as [n' r'] eqn:Hfn. intros [= <- <-]. cbn.
    destruct (Hf n) as [Hu He]. rewrite Hfn in Hu, He. cbn in *. by rewrite Hu, He.
  - destruct (update_first id f nodes) as [[ns' r']|]; [|done]. intros [= <- <-]. cbn.
    destruct (IH _ eq_refl) as [-> ->]. done.
Qed.

(** Updating a node in place neither adds, drops nor moves one. *)
Lemma get_mut_fixed self env uuid f :
  (∀ n, Node.uuid (f n).1 = Node.uuid n ∧ Node.env (f n).1 = Node.env n) →
  wf self →
  wf (get_mut self env uuid f).1 ∧
  ∀ e, (λ ns, Node.uuid <$> ns) <$> ((get_mut self env uuid f).1 !! e) =
       (λ ns, Node.uuid <$> ns) <$> (self !! e).
Proof.
  intros Hf Hwf. unfold get_mut. destruct (self !! env) as [nodes|] eqn:He; [|done].
  destruct (update_first uuid f nodes) as [[ns r]|] eqn:Hu; [|done]. cbn.
  destruct (update_first_fixed _ _ _ _ _ Hf Hu) as [Hus Hes].
  destruct (Hwf _ _ He) as (Hne & Hnd & Henv). split.
  - apply wf_insert; [done| |by rewrite Hus|].
    + intros ->. by destruct nodes.
    + rewrite Forall_forall in Henv |- *. intros n Hin.
      assert (Node.env n ∈ Node.env <$> nodes) as (n' & -> & Hn')%list_elem_of_fmap
        by (rewrite <- Hes; by apply list_elem_of_fmap_2).
      by apply Henv.
  - intros e. destruct (decide (e = env)) as [->|Hne'].
    + rewrite lookup_insert_eq, He. cbn. by rewrite Hus.
    + by rewrite lookup_insert_ne.
Qed.

(** Who is answered once a node is registered. *)
Lemma add_get self new :
  wf self →
  get (add self new).1 (Node.env new) (Node.uuid new) = Some new ∧
  (∀ env uuid, (env, uuid) ≠ (Node.env new, Node.uuid new) →
    get (add self new).1 env uuid = get self env uuid).
Proof.
  intros Hwf. pose proof (wf_add self new Hwf) as Hwf'.
  destruct (add_nodes self new Hwf) as (ns & Hadd & _ & _ & _ & Hin). rewrite Hadd in *.
  split.
  - apply get_Some; [done|]. exists ns. rewrite lookup_insert_eq. split_and!; [done| |done].
    apply Hin. by left.
  - intros env uuid Hne. apply option_eq. intros n. rewrite !get_Some by done.
    destruct (decide (env = Node.env new)) as [->|].
    + rewrite lookup_insert_eq. split.
      * intros (? & [= <-] & [->|[(nodes & ? & ?) _]]%Hin & <-); [done|eauto].
      * intros (nodes & ? & ? & <-). exists ns. split_and!; [done| |done]. apply Hin. right.
        split; [eauto|congruence].
    + by rewrite lookup_insert_ne by done.
Qed.

(** Registering a node keeps the table well formed, makes the node the one
    its environment answers for its id, leaves every other (environment, id)
    as it was, and the answer tells a new node from a known and a changed one. *)
Theorem node_add_spec self (new : Node) (Hwf : wf self) :
  let '(self', r) := add self new in
  wf self' ∧
  get self' (Node.env new) (Node.uuid new) = Some new ∧
  (∀ env uuid, (env, uuid) ≠ (Node.env new, Node.uuid new) →
    get self' env uuid = get self env uuid) ∧
  r = Ok match get self (Node.env new) (Node.uuid new) with
         | None => Status.Ok (Node.uuid new)
         | Some old =>
           if decide (old = new) then Status.AlreadyExist (Node.uuid new)
           else Status.Updated (Node.uuid new)
         end.
Proof.
  pose proof (wf_add self new Hwf) as Hwf'. destruct (add_get self new Hwf) as [Hown Hrest].
  destruct (add self new) as [self' r] eqn:Ha. split_and!; [done..|].
  unfold add in Ha. unfold get. destruct (self !! Node.env new) as [nodes|]; [|by simplify_eq].
  destruct (replace_node new nodes) as [[ns' st]|] eqn:Hr.
  - destruct (replace_node_status _ _ _ _ Hr) as (old & -> & ->). by simplify_eq.
  - apply replace_node_None in Hr. simplify_eq.
    destruct (find _ nodes) as [old|] eqn:Hf; [|done]. exfalso. apply Hr.
    apply find_Some in Hf as [Hold Heq]. apply bool_decide_eq_true_1 in Heq.
    rewrite <- Heq. by apply list_elem_of_fmap_2.
Qed.
End ops.

Definition example_node (e : Env) (u : Uuid) : Node := {|
  Node.uuid := u; Node.env := e; Node.hostname := "h"; Node.address := 1;
  Node.status := NodeStatus.Online; Node.label := "l"; Node.interface := "eth0";
  Node.created_at := 0; Node.modified_at := 0; Node.inbounds := ∅; Node.cores := 1;
  Node.max_bandwidth_bps := 1; Node.country := "DE"; Node.type := NodeType.Common |}.

Lemma node_add_spec_witness :
  wf ∅ ∧ get (add ∅ (example_node Env.Dev 1%N)).1 Env.Dev 1%N = Some (example_node Env.Dev 1%N).
Proof.
  split; [exact wf_empty|].
  exact (proj1 (proj2 (node_add_spec ∅ (example_node Env.Dev 1%N) wf_empty))).
Defined.

(** The table is keyed by environment first, so a node that registers again
    under another environment stays listed, unchanged, under the old one. *)
Theorem node_env_change_duplicates (self : Nodes) (old new : Node) (Hwf : wf self)
    (Hold : get self (Node.env old) (Node.uuid old) = Some old)
    (Hid : Node.uuid new = Node.uuid old) (Henv : Node.env new ≠ Node.env old) :
  let self' := (add self new).1 in
  get self' (Node.env old) (Node.uuid old) = Some old ∧
  get self' (Node.env new) (Node.uuid old) = Some new.
Proof.
  destruct (add_nodes self new Hwf) as (ns & Hadd & _ & _ & _ & Hin).
  pose proof (wf_add self new Hwf) as Hwf'. cbv zeta. rewrite Hadd in *. split.
  - unfold get in *. by rewrite lookup_insert_ne.
  - apply get_Some; [done|]. exists ns. rewrite lookup_insert_eq. split_and!; [done| |done].
    apply Hin. by left.
Qed.

Lemma node_env_change_duplicates_witness :
  get (add (add ∅ (example_node Env.Dev 1%N)).1 (example_node Env.Ru 1%N)).1 Env.Dev 1%N
    = Some (example_node Env.Dev 1%N).
Proof.
  refine (proj1 (node_env_change_duplicates (add ∅ (example_node Env.Dev 1%N)).1
    (example_node Env.Dev 1%N) (example_node Env.Ru 1%N) _ _ _ _)).
  - apply wf_add, wf_empty.
  - vm_compute. reflexivity.
  - reflexivity.
  - discriminate.
Defined.
End NodeStore.
