(* ===== verification/Link.v ===== *)
(** * Client links and Clash profiles

    [config/inbound.rs] ([InboundConnLink]) and [config/clash.rs]: what a
    subscriber's client is given for one connection on one inbound of a node.
    The URL crate, the JSON printer and the query encoder are [UrlLib]. *)
From S2P Require Import Prelude Foreign Naming Wireguard Connection Inbound Subscription.
Local Open Scope Z_scope.
Local Open Scope pony_scope.

(** [url::Url], whose path may be one that cannot be extended, and
    [serde_json::to_string] on an object of strings. *)
Class UrlLib := {
  Url : Type;
  url_parse : string → result Url string;
  append_pairs : Url → list (string * string) → Url;
  set_fragment : Url → string → Url;
  push_segments : Url → list string → option Url;
  url_str : Url → string;
  json_object : list (string * string) → option string;
}.

(** Plain concatenation, without escapes. *)
#[export] Instance url_concat : UrlLib := {|
  Url := string;
  url_parse s := if decide (s = "") then Err "relative URL without a base" else Ok s;
  append_pairs u l := u +:+ "?" +:+ Str.join "&" ((λ '(k, v), k +:+ "=" +:+ v) <$> l);
  set_fragment u f := u +:+ "#" +:+ f;
  push_segments u l := Some (u +:+ "/" +:+ Str.join "/" l);
  url_str u := u;
  json_object l := Some ("{" +:+ Str.join "," ((λ '(k, v), k +:+ ":" +:+ v) <$> l) +:+ "}");
|}.

Section link.
Context `{!UuidText, !Ipv6Text, !WgCrypto, !UrlLib, !Chrono}.

Definition nl : string := String (ascii_of_nat 10) "".
Definition to_url (s : string) : result Url Error :=
  match url_parse s with Ok u => Ok u | Err e => Err (Error.UrlParse e) end.

(** [InboundConnLink::wireguard] -- config/inbound.rs:235-284 *)
Definition link_wireguard (self : Inbound) (conn_id : Uuid) (conn : Conn) (address : Ipv4Addr)
    (label : string) : result string Error :=
  match get_wireguard conn with
  | Some wg_conn =>
    let private_key := privkey (keys wg_conn) in
    let client_ip := param_address wg_conn in
    match Inbound.wg self with
    | Some wg =>
      let? server_pubkey := pubkey (wg_keys wg) in
      let host := address in
      let port := wg_port wg in
      let dns := Str.join "," (ipv4_str <$> dns wg) in
      Ok (nl +:+
        "    [Interface]" +:+ nl +:+
        "    PrivateKey = " +:+ private_key +:+ nl +:+
        "    Address    = " +:+ mask_fmt client_ip +:+ nl +:+
        "    DNS        = " +:+ dns +:+ nl +:+ nl +:+
        "    [Peer]" +:+ nl +:+
        "    PublicKey           = " +:+ server_pubkey +:+ nl +:+
        "    Endpoint            = " +:+ ipv4_str host +:+ ":" +:+ dec port +:+ nl +:+
        "    AllowedIPs          = 0.0.0.0/0, ::/0" +:+ nl +:+
        "    PersistentKeepalive = 25" +:+ nl +:+ nl +:+
        "    # " +:+ label +:+ " — conn_id: " +:+ uuid_str conn_id +:+ nl +:+ "    ")
    | None => Err (Error.Custom "WG Inbound is not configured")
    end
  | None => Err (Error.Custom "WG Conn is not configured")
  end.

(** [InboundConnLink::vmess] -- config/inbound.rs:286-358 *)
Definition link_vmess (self : Inbound) (conn_id : Uuid) (address : Ipv4Addr) (label : string) :
    result string Error :=
  let port := Inbound.port self in
  let? stream_settings :=
    ok_or (Inbound.stream_settings self) (Error.Custom "VMESS: stream settings error") in
  let? tcp_settings :=
    ok_or (tcp_settings stream_settings) (Error.Custom "VMESS: stream tcp settings error") in
  let? header :=
    ok_or (header tcp_settings) (Error.Custom "VMESS: header tcp settings error") in
  let? req := ok_or (request header) (Error.Custom "VMESS: header req settings error") in
  let? headers := ok_or (headers req) (Error.Custom "VMESS: headers settings error") in
  let? hosts :=
    ok_or (header_get "Host" headers) (Error.Custom "VMESS: host settings error") in
  let? host := ok_or (head hosts) (Error.Custom "VMESS: Host stream settings error") in
  let? path := ok_or (head (req_path req)) (Error.Custom "VMESS: path settings error") in
  let conn :=
    [("v", "2"); ("ps", "Vmess " +:+ label); ("add", ipv4_str address); ("port", dec port);
     ("id", uuid_str conn_id); ("aid", "0"); ("scy", "auto"); ("net", "tcp"); ("type", "http");
     ("host", host); ("path", path); ("tls", "none")] in
  let? json_str := ok_or (json_object conn) (Error.Custom "VMESS serde json error") in
  let base64_str := b64_encode (str_bytes json_str) in
  Ok ("vmess://" +:+ base64_str +:+ "#" +:+ label).

Definition vless_url (self : Inbound) (conn_id : Uuid) (address : Ipv4Addr) :
    result Url Error :=
  to_url ("vless://" +:+ uuid_str conn_id +:+ "@" +:+ ipv4_str address +:+ ":" +:+
    dec (Inbound.port self)).

(** [InboundConnLink::vless_xtls] -- config/inbound.rs:360-402 *)
Definition link_vless_xtls (self : Inbound) (conn_id : Uuid) (address : Ipv4Addr)
    (label : string) : result string Error :=
  let? s := ok_or (Inbound.stream_settings self) (Error.Custom "Missing stream settings") in
  let? r := ok_or (reality_settings s) (Error.Custom "Missing reality settings") in
  let pbk := public_key r in
  let? sid := ok_or (head (short_ids r)) (Error.Custom "Missing SID") in
  let? sni := ok_or (head (server_names r)) (Error.Custom "Missing SNI") in
  let? url := vless_url self conn_id address in
  let url := append_pairs url
    [("security", "reality"); ("flow", "xtls-rprx-vision"); ("type", "tcp"); ("sni", sni);
     ("fp", "chrome"); ("pbk", pbk); ("sid", sid)] in
  let url := set_fragment url
    (label +:+ " | " +:+ get_uuid_last_octet_simple conn_id +:+ " XTLS") in
  Ok (url_str url).

(** [InboundConnLink::vless_grpc] -- config/inbound.rs:404-439 *)
Definition link_vless_grpc (self : Inbound) (conn_id : Uuid) (address : Ipv4Addr)
    (label : string) : result string Error :=
  let? s := ok_or (Inbound.stream_settings self) (Error.Custom "Missing stream settings") in
  let? r := ok_or (reality_settings s) (Error.Custom "Missing reality settings") in
  let? g := ok_or (grpc_settings s) (Error.Custom "Missing gRPC settings") in
  let? url := vless_url self conn_id address in
  let url := append_pairs url
    [("security", "reality"); ("type", "grpc"); ("serviceName", service_name g);
     ("sni", default "" (head (server_names r))); ("pbk", public_key r);
     ("sid", default "" (head (short_ids r)))] in
  let url := set_fragment url
    (label +:+ " | " +:+ get_uuid_last_octet_simple conn_id +:+ " GRPC") in
  Ok (url_str url).

(** [InboundConnLink::vless_xhttp] -- config/inbound.rs:441-474 *)
Definition link_vless_xhttp (self : Inbound) (conn_id : Uuid) (address : Ipv4Addr)
    (label : string) : result string Error :=
  let? s := ok_or (Inbound.stream_settings self) (Error.Custom "Missing stream settings") in
  let? r := ok_or (reality_settings s) (Error.Custom "Missing reality settings") in
  let? x := ok_or (xhttp_settings s) (Error.Custom "Missing xHTTP settings") in
  let? url := vless_url self conn_id address in
  let url := append_pairs url
    [("security", "reality"); ("type", "xhttp"); ("path", xhttp_path x);
     ("pbk", public_key r)] in
  let url := set_fragment url
    (label +:+ " | " +:+ get_uuid_last_octet_simple conn_id +:+ " XHTTP") in
  Ok (url_str url).

(** [InboundConnLink::h2] -- config/inbound.rs:476-497 *)
Definition link_h2 (self : Inbound) (label : string) (conn : Conn) : result string Error :=
  let? h2 := ok_or (Inbound.h2 self) (Error.Custom "Hysteria2 settings missing") in
  match get_token conn with
  | Some token =>
    let? url := to_url ("hysteria2://" +:+ uuid_str token +:+ "@" +:+ h2_host h2 +:+ ":" +:+
      dec (Inbound.port self)) in
    let url := append_pairs url
      [("insecure", if insecure h2 then "true" else "false");
       ("up-mbps", dec (default 0 (up_mbps h2)))] in
    let url := set_fragment url
      (label +:+ " | " +:+ get_uuid_last_octet_simple token +:+ " H2") in
    Ok (url_str url)
  | None => Err (Error.Custom "H2 Token is required")
  end.

(** [InboundConnLink::mtproto] -- config/inbound.rs:499-514 *)
Definition link_mtproto (self : Inbound) (address : Ipv4Addr) (label : string) :
    result string Error :=
  let port := Inbound.port self in
  let? secret := ok_or (Inbound.mtproto_secret self) (Error.Custom "Mtproto settings missing") in
  let? url := to_url ("https://t.me/proxy?server=" +:+ ipv4_str address +:+ "&port=" +:+
    dec port +:+ "&secret=" +:+ secret) in
  Ok (url_str (set_fragment url label)).

(** [InboundConnLink::create_link] -- config/inbound.rs:215-233 *)
Definition create_link (self : Inbound) (conn_id : Uuid) (conn : Conn) (hostname : string)
    (address : Ipv4Addr) (label : string) : result string Error :=
  match Inbound.tag self with
  | ProtoTag.VlessTcpReality => link_vless_xtls self conn_id address label
  | ProtoTag.VlessGrpcReality => link_vless_grpc self conn_id address label
  | ProtoTag.VlessXhttpReality => link_vless_xhttp self conn_id address label
  | ProtoTag.Hysteria2 => link_h2 self label conn
  | ProtoTag.Wireguard => link_wireguard self conn_id conn address label
  | ProtoTag.Mtproto => link_mtproto self address label
  | ProtoTag.Vmess => link_vmess self conn_id address label
  | _ => Err (Error.Custom "Unsupported protocol tag")
  end.

(** ** Clash *)

(** [HttpOpts] -- config/clash.rs:58-66 *)
Record HttpOpts : Set := {
  http_method : string;
  http_path : list string;
  http_connection : list string;
  http_ip_version : string;
  http_host : string;
}.
(** [XHttpOpts] -- config/clash.rs:68-71 *)
Record XHttpOpts : Set := { xh_path : list string }.
(** [RealityOpts] -- config/clash.rs:78-84 *)
Record RealityOpts : Set := { ro_public_key : string; ro_short_id : string }.
(** [GrpcOpts] -- config/clash.rs:86-92 *)
Record GrpcOpts : Set := { grpc_service_name : string; grpc_ip_version : string }.

(** [ClashProxy] -- config/clash.rs:20-56 *)
Inductive ClashProxy : Set :=
| ClashVmess (name server : string) (port : Z) (uuid cipher : string) (udp : bool)
    (alter_id : Z) (network : string) (http_opts : HttpOpts)
| ClashVless (name server : string) (port : Z) (uuid : string) (udp tls : bool)
    (network servername : string) (reality_opts : RealityOpts) (grpc_opts : option GrpcOpts)
    (http_opts : option XHttpOpts) (client_fingerprint : string) (flow : option string).

(** [ClashProxyGroup] -- config/clash.rs:94-102 *)
Record ClashProxyGroup : Set := {
  group_name : string;
  group_type : string;
  group_url : string;
  group_interval : Z;
  group_proxies : list string;
}.

(** [ClashConfig] -- config/clash.rs:10-18 *)
Record ClashConfig : Set := {
  clash_port : Z;
  clash_mode : string;
  clash_proxies : list ClashProxy;
  clash_proxy_groups : list ClashProxyGroup;
  clash_rules : list string;
}.

Definition proxy_name (p : ClashProxy) : string :=
  match p with
  | ClashVmess name _ _ _ _ _ _ _ _ => name
  | ClashVless name _ _ _ _ _ _ _ _ _ _ _ _ => name
  end.

(** [InboundClashConfig::clash] -- config/clash.rs:116-138 *)
Definition clash (proxies : list ClashProxy) : ClashConfig :=
  let proxy_names := proxy_name <$> proxies in
  {| clash_port := 7890;
     clash_mode := "global";
     clash_proxies := proxies;
     clash_proxy_groups :=
       [{| group_name := "♻️ Automatic";
           group_type := "url-test";
           group_url := "http://www.gstatic.com/generate_204";
           group_interval := 300;
           group_proxies := proxy_names |}];
     clash_rules := [] |}.

Definition vless_proxy (self : Inbound) (conn_id : Uuid) (address : Ipv4Addr) (label : string)
    (stream : StreamSettings) : option ClashProxy :=
  match reality_settings stream with
  | None => None
  | Some reality =>
    match
      match grpc_settings stream with
      | Some grpc =>
        Some ("grpc",
          Some {| grpc_service_name := service_name grpc; grpc_ip_version := "dual" |},
          None, None)
      | None =>
        match xhttp_settings stream with
        | Some xhttp => Some ("xhttp", None, None, Some {| xh_path := [xhttp_path xhttp] |})
        | None =>
          if decide (network stream = Network.Tcp)
          then Some ("tcp", None, Some "xtls-rprx-vision", None) else None
        end
      end
    with
    | None => None
    | Some (network, grpc_opts, flow, http_opts) =>
      let prefix := get_uuid_last_octet_simple conn_id in
      let name := label +:+ " [" +:+ ProtoTag.fmt (Inbound.tag self) +:+ "] " +:+ prefix in
      Some (ClashVless name (ipv4_str address) (Inbound.port self) (uuid_str conn_id) true true
        network (default "" (head (server_names reality)))
        {| ro_public_key := public_key reality;
           ro_short_id := default "" (head (short_ids reality)) |}
        grpc_opts http_opts "chrome" flow)
    end
  end.

Definition vmess_proxy (self : Inbound) (conn_id : Uuid) (address : Ipv4Addr) (label : string)
    (stream : StreamSettings) : option ClashProxy :=
  match tcp_settings stream with
  | None => None
  | Some tcp =>
    match header tcp with
    | None => None
    | Some header =>
      match request header with
      | None => None
      | Some req =>
        match
          match headers req with
          | Some hs => match header_get "Host" hs with Some l => head l | None => None end
          | None => None
          end
        with
        | None => None
        | Some host =>
          let path := default "/" (head (req_path req)) in
          let prefix := get_uuid_last_octet_simple conn_id in
          let name := label +:+ " [" +:+ ProtoTag.fmt (Inbound.tag self) +:+ "] " +:+ prefix in
          Some (ClashVmess name (ipv4_str address) (Inbound.port self) (uuid_str conn_id) "auto"
            true 0 "http"
            {| http_method := "GET"; http_path := [path]; http_connection := ["keep-alive"];
               http_ip_version := "dual"; http_host := host |})
        end
      end
    end
  end.

(** [InboundClashConfig::proxy] -- config/clash.rs:140-249 *)
Definition proxy (self : Inbound) (conn_id : Uuid) (address : Ipv4Addr) (label : string) :
    option ClashProxy :=
  match Inbound.stream_settings self with
  | None => None
  | Some stream =>
    match Inbound.tag self with
    | ProtoTag.Vmess => vmess_proxy self conn_id address label stream
    | ProtoTag.VlessGrpcReality | ProtoTag.VlessTcpReality | ProtoTag.VlessXhttpReality =>
      vless_proxy self conn_id address label stream
    | _ => None
    end
  end.

(** ** Theorems *)

(** A link is produced only when the inbound has what its protocol needs,
    and a WireGuard or Hysteria2 link moreover only for a connection that
    carries WireGuard parameters or a token; a Shadowsocks inbound never
    yields one. *)
Theorem link_requires (self : Inbound) (conn_id : Uuid) (conn : Conn) (hostname : string)
    (address : Ipv4Addr) (label l : string)
    (Hlink : create_link self conn_id conn hostname address label = Ok l) :
  match Inbound.tag self with
  | ProtoTag.VlessTcpReality => ∃ s r sid sni, Inbound.stream_settings self = Some s ∧
      reality_settings s = Some r ∧ head (short_ids r) = Some sid ∧
      head (server_names r) = Some sni
  | ProtoTag.VlessGrpcReality => ∃ s r g, Inbound.stream_settings self = Some s ∧
      reality_settings s = Some r ∧ grpc_settings s = Some g
  | ProtoTag.VlessXhttpReality => ∃ s r x, Inbound.stream_settings self = Some s ∧
      reality_settings s = Some r ∧ xhttp_settings s = Some x
  | ProtoTag.Vmess => ∃ s t h q host path, Inbound.stream_settings self = Some s ∧
      tcp_settings s = Some t ∧ header t = Some h ∧ request h = Some q ∧
      (hs ← headers q; ls ← header_get "Host" hs; head ls) = Some host ∧
      head (req_path q) = Some path
  | ProtoTag.Wireguard => ∃ p wg k, Conn.proto conn = Proto.Wireguard p ∧
      Inbound.wg self = Some wg ∧ pubkey (wg_keys wg) = Ok k
  | ProtoTag.Hysteria2 => ∃ h t, Inbound.h2 self = Some h ∧
      Conn.proto conn = Proto.Hysteria2 t
  | ProtoTag.Mtproto => is_Some (Inbound.mtproto_secret self)
  | ProtoTag.Shadowsocks => False
  end.
Proof.
  unfold create_link in Hlink. destruct (Inbound.tag self).
  - unfold link_vless_xtls, ok_or in Hlink. repeat case_hyp Hlink; simplify_eq; eauto 10.
  - unfold link_vless_grpc, ok_or in Hlink. repeat case_hyp Hlink; simplify_eq; eauto 10.
  - unfold link_vless_xhttp, ok_or in Hlink. repeat case_hyp Hlink; simplify_eq; eauto 10.
  - unfold link_vmess, ok_or in Hlink. repeat case_hyp Hlink; simplify_eq.
    do 6 eexists. split_and!; eauto. simplify_option_eq. done.
  - done.
  - unfold link_wireguard, get_wireguard in Hlink. cbn [get_proto BaseOps_Conn] in Hlink.
    repeat case_hyp Hlink; simplify_eq; eauto 10.
  - unfold link_h2, ok_or, get_token in Hlink. cbn [get_proto BaseOps_Conn] in Hlink.
    repeat case_hyp Hlink; simplify_eq; eauto 10.
  - unfold link_mtproto, ok_or in Hlink. repeat case_hyp Hlink; simplify_eq; eauto 10.
Qed.
End link.

Definition mtproto_inbound : Inbound := {|
  Inbound.tag := ProtoTag.Mtproto; Inbound.port := 443; Inbound.stream_settings := None;
  Inbound.uplink := None; Inbound.downlink := None; Inbound.conn_count := None;
  Inbound.wg := None; Inbound.h2 := None; Inbound.mtproto_secret := Some "dd00" |}.
Definition mtproto_conn : Conn := Conn.new 0 Env.Dev None (Proto.Mtproto "dd00") None.

Lemma link_requires_witness :
  create_link mtproto_inbound 7%N mtproto_conn "h" 16909060 "DE"
    = Ok "https://t.me/proxy?server=1.2.3.4&port=443&secret=dd00#DE" ∧
  is_Some (Inbound.mtproto_secret mtproto_inbound).
Proof.
  assert (create_link mtproto_inbound 7%N mtproto_conn "h" 16909060 "DE"
    = Ok "https://t.me/proxy?server=1.2.3.4&port=443&secret=dd00#DE") as Hl
    by (vm_compute; reflexivity).
  split; [exact Hl|].
  exact (link_requires mtproto_inbound 7%N mtproto_conn "h" 16909060 "DE" _ Hl).
Defined.
