(* ===== verification/Metrics.v ===== *)
(** * The metric store

    [metrics/mod.rs], [metrics/storage.rs], [bin/api/metrics.rs] and the
    queries of [bin/api/http/handlers/metrics.rs]: time series of the nodes,
    each bounded in length and age, with an index from tags to series.

    A series key is the standard hasher's digest of a name and its tags; the
    hasher is unspecified, so it is a parameter, and keys may collide.  Values
    are floating-point numbers the store never looks at.  The concurrent maps'
    operations are taken one at a time. *)
From S2P Require Import Prelude Foreign Naming.
Local Open Scope Z_scope.

Notation Tags := (gmap string string).

(** [std::hash::DefaultHasher]: [finish] returns a [u64] *)
Class SeriesHash := {
  series_digest : string → Tags → Z;
  series_digest_u64 name tags : 0 ≤ series_digest name tags < 2 ^ 64;
}.
#[export, program] Instance series_count : SeriesHash :=
  {| series_digest name tags :=
       (Z.of_nat (String.length name) + 1000 * Z.of_nat (size tags)) mod 2 ^ 64 |}.
Next Obligation. intros. by apply Z.mod_pos_bound. Qed.

(** Milliseconds since the epoch: [Utc::now().timestamp_millis()]. *)
Definition timestamp_millis (now : DateTime) : Z := now / 1000000.

Section metrics.
Context {V : Type}.

(** [MetricPoint] -- metrics/mod.rs:8-14 *)
Record MetricPoint : Type := { timestamp : Z; value : V }.

(** [MetricEnvelope] -- metrics/mod.rs:16-24 *)
Record MetricEnvelope : Type := {
  e_node_id : Uuid;
  e_name : string;
  e_value : V;
  e_timestamp : Z;
  e_tags : Tags;
}.

(** ** The node's buffer

    [MetricBuffer] -- metrics/storage.rs:36-39

    With the index of the next beat, which is the process's. *)
Record MetricBuffer : Type := { batch : list MetricEnvelope; beat_index : Z }.

(** [MetricBuffer::push] -- metrics/storage.rs:42-57 *)
Definition push (now : DateTime) (node_id : Uuid) (name : string) (value : V) (tags : Tags)
    (batch : list MetricEnvelope) : list MetricEnvelope :=
  batch ++ [{| e_node_id := node_id; e_name := name; e_value := value;
               e_timestamp := timestamp_millis now; e_tags := tags |}].

(** [MetricSink::write] -- metrics/storage.rs:17-34 *)
Definition write (now : DateTime) (node_id : Uuid) (metric : string) (value : V) (tags : Tags)
    (batch : list MetricEnvelope) : list MetricEnvelope :=
  batch ++ [{| e_node_id := node_id; e_name := metric; e_value := value;
               e_timestamp := timestamp_millis now; e_tags := tags |}].

(** [MetricBuffer::flush_to_zmq] -- metrics/storage.rs:59-77

    The batch that remains, and what is published on the metrics topic.  A
    failed publication is logged and its batch lost. *)
Definition flush_to_zmq (batch : list MetricEnvelope) :
    list MetricEnvelope * option (Topic * list MetricEnvelope) :=
  match batch with
  | [] => ([], None)
  | _ => ([], Some (Topic.Metrics, batch))
  end.

(** ** The server's store *)

(** [MetricStorage] -- metrics/storage.rs:80-87 *)
Record MetricStorage : Type := {
  inner : gmap Uuid (gmap Z (list MetricPoint));
  metadata : gmap Z (string * Tags);
  tag_index : gmap string (gmap string (gset Z));
  max_points : Z;
  retention_seconds : Z;
}.

(** [MetricStorage::new] -- metrics/storage.rs:90-98 *)
Definition new (max_points retention_seconds : Z) : MetricStorage := {|
  inner := ∅;
  metadata := ∅;
  tag_index := ∅;
  max_points := max_points;
  retention_seconds := retention_seconds;
|}.

(** [while entry.len() > self.max_points { entry.pop_front(); }] *)
Fixpoint pop_excess (max : Z) (l : list MetricPoint) : list MetricPoint :=
  match l with
  | [] => []
  | p :: l' => if decide (max < Z.of_nat (length l)) then pop_excess max l' else l
  end.

(** [while front.timestamp < min_ts { pop_front }] *)
Fixpoint pop_old (min_ts : Z) (l : list MetricPoint) : list MetricPoint :=
  match l with
  | [] => []
  | p :: l' => if decide (timestamp p < min_ts) then pop_old min_ts l' else l
  end.

(** [i64] arithmetic of the release profile *)
Definition min_ts_of (now retention_seconds : Z) : Z :=
  as_signed 64 (now - as_signed 64 (retention_seconds * 1000)).

(** the index with one series under one tag *)
Definition index_tag (key : Z) (k v : string) (idx : gmap string (gmap string (gset Z))) :
    gmap string (gmap string (gset Z)) :=
  let values := default ∅ (idx !! k) in
  let set := default ∅ (values !! v) in
  <[k := <[v := {[ key ]} ∪ set]> values]> idx.

Section ops.
Context `{!SeriesHash, !IterOrder}.

(** [MetricStorage::make_series_key] -- metrics/storage.rs:137-148 *)
Definition make_series_key (name : string) (tags : Tags) : Z := series_digest name tags.

(** [MetricStorage::insert_envelope] -- metrics/storage.rs:99-136 *)
Definition insert_envelope (e : MetricEnvelope) (self : MetricStorage) : MetricStorage :=
  let key := make_series_key (e_name e) (e_tags e) in
  let '(metadata, tag_index) :=
    match metadata self !! key with
    | Some _ => (metadata self, tag_index self)
    | None =>
      (<[key := (e_name e, e_tags e)]> (metadata self),
       foldr (λ '(k, v) idx, index_tag key k v idx) (tag_index self) (hiter (e_tags e)))
    end in
  let node_map := default ∅ (inner self !! e_node_id e) in
  let entry := default [] (node_map !! key) in
  let entry := entry ++ [{| timestamp := e_timestamp e; value := e_value e |}] in
  let entry := pop_excess (max_points self) entry in
  let min_ts := min_ts_of (e_timestamp e) (retention_seconds self) in
  let entry := pop_old min_ts entry in
  {| inner := <[e_node_id e := <[key := entry]> node_map]> (inner self);
     metadata := metadata;
     tag_index := tag_index;
     max_points := max_points self;
     retention_seconds := retention_seconds self |}.

(** [MetricWorker::start] -- bin/api/metrics.rs:39-49

    A received batch, in order; a batch that does not decode is skipped. *)
Definition insert_batch (metrics : option (list MetricEnvelope)) (self : MetricStorage) :
    MetricStorage :=
  match metrics with
  | Some metrics => foldl (λ st m, insert_envelope m st) self metrics
  | None => self
  end.

(** [MetricStorage::get_range] -- metrics/storage.rs:150-169 *)
Definition get_range (self : MetricStorage) (node_id : Uuid) (series_hash from to : Z) :
    list MetricPoint :=
  match inner self !! node_id with
  | Some node_data =>
    match node_data !! series_hash with
    | Some deque =>
      keep (λ p, bool_decide (from <= timestamp p) && bool_decide (timestamp p <= to)) deque
    | None => []
    end
  | None => []
  end.

(** [MetricStorage::find_series_by_tag] -- metrics/storage.rs:171-176 *)
Definition find_series_by_tag (self : MetricStorage) (tag_key tag_value : string) : gset Z :=
  match tag_index self !! tag_key with
  | Some tag_map => default ∅ (tag_map !! tag_value)
  | None => ∅
  end.

(** the order in which a hash set is walked *)
Definition siter (s : gset Z) : list Z := (hiter (gset_to_gmap () s)).*1.

(** [MetricStorage::get_aggregated_range] -- metrics/storage.rs:178-206 *)
Definition get_aggregated_range (self : MetricStorage) (tag_key tag_value metric_name : string)
    (from to : Z) : gmap Uuid (list MetricPoint) :=
  let hashes := siter (find_series_by_tag self tag_key tag_value) in
  foldl (λ result node_id,
    foldl (λ result hash,
      match metadata self !! hash with
      | Some meta =>
        if decide (meta.1 = metric_name) then
          match get_range self node_id hash from to with
          | [] => result
          | points => <[node_id := points]> result
          end
        else result
      | None => result
      end) result hashes) ∅ (hiter (inner self)).*1.

(** [perform_gc] on one node's series -- metrics/storage.rs:213-226 *)
Definition gc_node (min_ts : Z) (node_map : gmap Z (list MetricPoint)) :
    option (gmap Z (list MetricPoint)) :=
  let node_map :=
    omap (λ deque, match pop_old min_ts deque with [] => None | d => Some d end) node_map in
  if decide (node_map = ∅) then None else Some node_map.

(** the series some node still has *)
Definition alive (inner : gmap Uuid (gmap Z (list MetricPoint))) : gset Z :=
  ⋃ (dom <$> hvalues inner).

(** [tag_map.retain(..)] -- metrics/storage.rs:238-246 *)
Definition gc_tags (alive_series : gset Z) (tag_map : gmap string (gset Z)) :
    option (gmap string (gset Z)) :=
  let tag_map :=
    omap (λ set : gset Z,
      if decide (set ∩ alive_series = ∅) then None else Some (set ∩ alive_series)) tag_map in
  if decide (tag_map = ∅) then None else Some tag_map.

(** [MetricStorage::perform_gc] -- metrics/storage.rs:208-247 *)
Definition perform_gc (now : DateTime) (self : MetricStorage) : MetricStorage :=
  let min_ts := min_ts_of (timestamp_millis now) (retention_seconds self) in
  let inner := omap (gc_node min_ts) (inner self) in
  let alive_series := alive inner in
  {| inner := inner;
     metadata := filter (λ '(k, _), k ∈ alive_series) (metadata self);
     tag_index := omap (gc_tags alive_series) (tag_index self);
     max_points := max_points self;
     retention_seconds := retention_seconds self |}.

(** ** The invariant *)
Record inv (self : MetricStorage) : Prop := {
  inv_bounded : ∀ node series key points, inner self !! node = Some series →
    series !! key = Some points → Z.of_nat (length points) <= max_points self;
  inv_described : ∀ node series key, inner self !! node = Some series →
    is_Some (series !! key) → is_Some (metadata self !! key);
  inv_index : ∀ k v key, key ∈ find_series_by_tag self k v ↔
    ∃ name tags, metadata self !! key = Some (name, tags) ∧ tags !! k = Some v;
  inv_key : ∀ key name tags, metadata self !! key = Some (name, tags) →
    make_series_key name tags = key;
}.

Lemma pop_excess_length max l :
  0 <= max → Z.of_nat (length (pop_excess max l)) <= max.
Proof.
  intros Hmax. induction l as [|p l IH]; cbn [pop_excess]; [done|].
  case_decide; [done|lia].
Qed.

Lemma pop_excess_suffix max l : ∃ pre, l = pre ++ pop_excess max l.
Proof.
  induction l as [|p l [pre IH]]; cbn [pop_excess]; [by exists []|].
  case_decide; [|by exists []]. exists (p :: pre). cbn. by rewrite <- IH.
Qed.

Lemma pop_old_suffix min l :
  ∃ pre, l = pre ++ pop_old min l ∧ Forall (λ p, timestamp p < min) pre.
Proof.
  induction l as [|p l (pre & IH & Hpre)]; cbn [pop_old]; [by exists []|].
  case_decide; [|by exists []]. exists (p :: pre). split; [cbn; by rewrite <- IH|].
  by constructor.
Qed.

Lemma pop_old_length min l : (length (pop_old min l) ≤ length l)%nat.
Proof.
  destruct (pop_old_suffix min l) as (pre & Hl & _).
  apply (f_equal length) in Hl. rewrite length_app in Hl. lia.
Qed.

Lemma pop_old_head min l p : head (pop_old min l) = Some p → min <= timestamp p.
Proof.
  induction l as [|q l IH]; cbn [pop_old]; [done|].
  case_decide; [done|]. intros [= <-]. lia.
Qed.

Definition indexed (idx : gmap string (gmap string (gset Z))) (k v : string) : gset Z :=
  match idx !! k with Some tag_map => default ∅ (tag_map !! v) | None => ∅ end.

Lemma indexed_index_tag idx key k v k' v' :
  indexed (index_tag key k v idx) k' v' =
    if decide (k = k' ∧ v = v') then {[ key ]} ∪ indexed idx k' v' else indexed idx k' v'.
Proof.
  unfold indexed, index_tag. destruct (decide (k = k')) as [<-|Hk].
  - rewrite lookup_insert_eq. destruct (decide (v = v')) as [<-|Hv].
    + rewrite lookup_insert_eq, decide_True by done. cbn. by destruct (idx !! k).
    + rewrite lookup_insert_ne, decide_False by naive_solver.
      by destruct (idx !! k).
  - rewrite lookup_insert_ne, decide_False by naive_solver. done.
Qed.

Lemma elem_of_index_tags key (l : list (string * string)) idx k v key' :
  key' ∈ indexed (foldr (λ '(k, v) idx, index_tag key k v idx) idx l) k v ↔
  (key' = key ∧ (k, v) ∈ l) ∨ key' ∈ indexed idx k v.
Proof.
  induction l as [|[k0 v0] l IH]; cbn [foldr]; [set_solver|].
  rewrite indexed_index_tag. case_decide as Heq.
  - destruct Heq as [-> ->]. rewrite elem_of_union, IH, elem_of_cons. set_solver.
  - rewrite IH, elem_of_cons. naive_solver.
Qed.

Lemma inv_new max ret : inv (new max ret).
Proof.
  split; cbn.
  - intros node series key points Hn. by rewrite lookup_empty in Hn.
  - intros node series key Hn. by rewrite lookup_empty in Hn.
  - intros k v key. unfold find_series_by_tag. cbn. rewrite lookup_empty.
    split; [set_solver|]. intros (name & tags & Hm & _). by rewrite lookup_empty in Hm.
  - intros key name tags Hm. by rewrite lookup_empty in Hm.
Qed.

Lemma find_series_indexed self k v :
  find_series_by_tag self k v = indexed (tag_index self) k v.
Proof. done. Qed.

Lemma lookup_alive (inner : gmap Uuid (gmap Z (list MetricPoint))) key :
  key ∈ alive inner ↔ ∃ node series, inner !! node = Some series ∧ is_Some (series !! key).
Proof.
  unfold alive. rewrite elem_of_union_list. split.
  - intros (X & HX & Hk). apply list_elem_of_fmap in HX as (series & -> & Hs).
    apply elem_of_hvalues in Hs as [node Hn]. apply elem_of_dom in Hk. eauto.
  - intros (node & series & Hn & Hk). exists (dom series). split.
    + apply list_elem_of_fmap. exists series. split; [done|]. apply elem_of_hvalues. eauto.
    + by apply elem_of_dom.
Qed.

Lemma lookup_gc_inner min (inner : gmap Uuid (gmap Z (list MetricPoint))) node series key
    points :
  omap (gc_node min) inner !! node = Some series → series !! key = Some points →
  ∃ series0 points0, inner !! node = Some series0 ∧ series0 !! key = Some points0 ∧
    points = pop_old min points0 ∧ points ≠ [].
Proof.
  rewrite lookup_omap. destruct (inner !! node) as [series0|]; [|done]. cbn.
  unfold gc_node. case_decide; [done|]. intros [= <-]. rewrite lookup_omap.
  destruct (series0 !! key) as [points0|] eqn:H0'; [|done]. cbn.
  destruct (pop_old min points0) as [|p l] eqn:Hp; [done|]. intros [= <-].
  exists series0, points0. by rewrite Hp.
Qed.

Lemma indexed_gc (al : gset Z) (idx : gmap string (gmap string (gset Z))) k v :
  indexed (omap (gc_tags al) idx) k v = indexed idx k v ∩ al.
Proof.
  unfold indexed. rewrite lookup_omap. destruct (idx !! k) as [tag_map|]; cbn; [|set_solver].
  unfold gc_tags. case_decide as Hemp.
  - assert (omap (λ set : gset Z, if decide (set ∩ al = ∅) then None else Some (set ∩ al))
      tag_map !! v = None) as Hv by (rewrite Hemp; apply lookup_empty).
    rewrite lookup_omap in Hv. destruct (tag_map !! v) as [set|]; cbn in *; [|set_solver].
    by case_decide.
  - rewrite lookup_omap. destruct (tag_map !! v) as [set|]; cbn; [|set_solver].
    by case_decide.
Qed.

(** The series of a new measurement described and indexed. *)
Lemma described_insert self e (key := make_series_key (e_name e) (e_tags e)) (Hinv : inv self) :
  ∃ md ti,
    match metadata self !! key with
    | Some _ => (metadata self, tag_index self)
    | None =>
      (<[key := (e_name e, e_tags e)]> (metadata self),
       foldr (λ '(k, v) idx, index_tag key k v idx) (tag_index self) (hiter (e_tags e)))
    end = (md, ti) ∧ is_Some (md !! key) ∧
    (∀ k, is_Some (metadata self !! k) → is_Some (md !! k)) ∧
    (∀ k v key', key' ∈ indexed ti k v ↔
      ∃ name tags, md !! key' = Some (name, tags) ∧ tags !! k = Some v) ∧
    (∀ key' name tags, md !! key' = Some (name, tags) → make_series_key name tags = key').
Proof.
  destruct (metadata self !! key) as [[name tags]|] eqn:Hm.
  - exists (metadata self), (tag_index self). rewrite Hm. split_and!; [done|by eexists|done| |].
    + apply Hinv.
    + apply Hinv.
  - eexists _, _. split; [done|]. rewrite lookup_insert_eq. split_and!; [by eexists| | |].
    + intros k Hk. destruct (decide (k = key)) as [->|]; [by rewrite lookup_insert_eq|].
      by rewrite lookup_insert_ne.
    + intros k v key'. rewrite elem_of_index_tags, elem_of_hiter.
      rewrite <- find_series_indexed, (inv_index self Hinv).
      destruct (decide (key' = key)) as [->|Hne].
      * rewrite lookup_insert_eq, Hm. naive_solver.
      * rewrite lookup_insert_ne by done. naive_solver.
    + intros key' name tags. destruct (decide (key' = key)) as [->|Hne].
      * rewrite lookup_insert_eq. by intros [= <- <-].
      * rewrite lookup_insert_ne by done. apply Hinv.
Qed.

(** Storing a measurement keeps the store's invariant (every series at most
    [max_points] long and described, the tag index exact, keys the digest of
    what they describe), adds the point at the end of its own series from the
    front of which only surplus and overdue points are dropped, and touches no
    other series. *)
Theorem insert_envelope_spec (self : MetricStorage) (e : MetricEnvelope)
    (key := make_series_key (e_name e) (e_tags e))
    (Hinv : inv self) (Hmax : 0 <= max_points self) :
  let self' := insert_envelope e self in
  inv self' ∧
  (∃ old pre points,
    default [] (inner self !! e_node_id e ≫= (.!! key)) = old ∧
    inner self' !! e_node_id e ≫= (.!! key) = Some points ∧
    old ++ [{| timestamp := e_timestamp e; value := e_value e |}] = pre ++ points ∧
    (∀ p, head points = Some p →
      min_ts_of (e_timestamp e) (retention_seconds self) <= timestamp p)) ∧
  (∀ node key', (node, key') ≠ (e_node_id e, key) →
    inner self' !! node ≫= (.!! key') = inner self !! node ≫= (.!! key')).
Proof.
  intros self'. unfold self', insert_envelope. fold key.
  set (node_map := default ∅ (inner self !! e_node_id e)).
  set (pt := {| timestamp := e_timestamp e; value := e_value e |}).
  set (exc := pop_excess (max_points self) (default [] (node_map !! key) ++ [pt])).
  set (min := min_ts_of (e_timestamp e) (retention_seconds self)).
  destruct (described_insert self e Hinv) as (md & ti & Hidx & Hkey & Hmono & Hindex & Hdig).
  fold key in Hidx, Hkey.
  rewrite Hidx. clear Hidx. cbn [inner].
  destruct (pop_excess_suffix (max_points self) (default [] (node_map !! key) ++ [pt]))
    as [pre1 Hpre1]. fold exc in Hpre1.
  destruct (pop_old_suffix min exc) as (pre2 & Hpre2 & _).
  split_and!.
  - split; cbn [inner metadata tag_index max_points]; [| |exact Hindex|exact Hdig].
    + intros node series key' points Hn Hs.
      apply lookup_insert_Some in Hn as [[<- <-]|[_ Hn]]; [|by eapply Hinv].
      apply lookup_insert_Some in Hs as [[_ <-]|[_ Hs]].
      * pose proof (pop_old_length min exc).
        pose proof (pop_excess_length (max_points self)
          (default [] (node_map !! key) ++ [pt]) Hmax). fold exc in H2. lia.
      * unfold node_map in Hs. destruct (inner self !! e_node_id e) eqn:He; cbn in Hs; [|done].
        by eapply (inv_bounded self Hinv).
    + intros node series key' Hn Hs.
      apply lookup_insert_Some in Hn as [[<- <-]|[_ Hn]];
        [|apply Hmono; by eapply (inv_described self Hinv)].
      destruct (decide (key' = key)) as [->|Hne]; [done|].
      rewrite lookup_insert_ne in Hs by done. apply Hmono.
      unfold node_map in Hs. destruct (inner self !! e_node_id e) eqn:He; cbn in Hs.
      * by eapply (inv_described self Hinv).
      * by destruct Hs.
  - exists (default [] (node_map !! key)), (pre1 ++ pre2), (pop_old min exc). split_and!.
    + unfold node_map. by destruct (inner self !! e_node_id e).
    + rewrite lookup_insert_eq. cbn. by rewrite lookup_insert_eq.
    + by rewrite Hpre1, Hpre2 at 1; rewrite (assoc app).
    + intros p. apply pop_old_head.
  - intros node key' Hne. destruct (decide (node = e_node_id e)) as [->|Hn].
    + rewrite lookup_insert_eq. cbn. rewrite lookup_insert_ne by congruence.
      unfold node_map. by destruct (inner self !! e_node_id e).
    + by rewrite lookup_insert_ne.
Qed.

Lemma alive_described min self key (Hinv : inv self) :
  key ∈ alive (omap (gc_node min) (inner self)) → is_Some (metadata self !! key).
Proof.
  intros (node & series & Hn & [points Hs])%lookup_alive.
  destruct (lookup_gc_inner _ _ _ _ _ _ Hn Hs) as (s0 & p0 & Hn0 & Hs0 & _).
  eapply (inv_described self Hinv); eauto.
Qed.

(** Garbage collection keeps the invariant; afterwards no node is left
    without series and no series without points, the first point of every
    series is within the retention period, what is left of a series is its
    own tail, and exactly the series some node still has are described. *)
Theorem perform_gc_spec (now : DateTime) (self : MetricStorage) (Hinv : inv self) :
  let self' := perform_gc now self in
  inv self' ∧
  (∀ node series, inner self' !! node = Some series → series ≠ ∅) ∧
  (∀ node series key points, inner self' !! node = Some series → series !! key = Some points →
    (∃ p, head points = Some p ∧
      min_ts_of (timestamp_millis now) (retention_seconds self) <= timestamp p) ∧
    ∃ pre, inner self !! node ≫= (.!! key) = Some (pre ++ points)) ∧
  (∀ key, is_Some (metadata self' !! key) ↔ key ∈ alive (inner self')).
Proof.
  intros self'. unfold self', perform_gc.
  set (min := min_ts_of (timestamp_millis now) (retention_seconds self)).
  set (inn := omap (gc_node min) (inner self)).
  assert (∀ node series key points, inn !! node = Some series → series !! key = Some points →
    ∃ series0 points0, inner self !! node = Some series0 ∧ series0 !! key = Some points0 ∧
      points = pop_old min points0 ∧ points ≠ []) as Hin
    by (intros; by eapply lookup_gc_inner).
  pose proof (λ key, alive_described min self key Hinv) as Halive. fold inn in Halive.
  cbn [inner metadata]. split_and!.
  - split; cbn [inner metadata tag_index max_points].
    + intros node series key points Hn Hs.
      destruct (Hin _ _ _ _ Hn Hs) as (s0 & p0 & Hn0 & Hs0 & -> & _).
      pose proof (inv_bounded self Hinv _ _ _ _ Hn0 Hs0).
      pose proof (pop_old_length min p0). lia.
    + intros node series key Hn Hs.
      assert (key ∈ alive inn) as Ha by (apply lookup_alive; eauto).
      destruct (Halive _ Ha) as [m Hm]. exists m. by apply map_lookup_filter_Some.
    + intros k v key. rewrite find_series_indexed. cbn [tag_index].
      rewrite indexed_gc, elem_of_intersection, <- find_series_indexed, (inv_index self Hinv).
      split.
      * intros [(name & tags & Hm & Ht) Ha]. exists name, tags. split; [|done].
        by apply map_lookup_filter_Some.
      * intros (name & tags & [Hm Ha]%map_lookup_filter_Some & Ht). eauto.
    + intros key name tags [Hm _]%map_lookup_filter_Some. by apply Hinv.
  - intros node series Hn. subst inn. rewrite lookup_omap in Hn.
    destruct (inner self !! node); [|done]. cbn in Hn. unfold gc_node in Hn.
    case_decide; [done|]. by injection Hn as <-.
  - intros node series key points Hn Hs.
    destruct (Hin _ _ _ _ Hn Hs) as (s0 & p0 & Hn0 & Hs0 & -> & Hne). split.
    + destruct (pop_old min p0) as [|p l] eqn:Hp; [done|]. exists p. split; [done|].
      apply (pop_old_head min p0). by rewrite Hp.
    + destruct (pop_old_suffix min p0) as (pre & Hpre & _). exists pre.
      rewrite Hn0. cbn. by rewrite Hs0, <- Hpre.
  - intros key. split.
    + intros [m [_ Ha]%map_lookup_filter_Some]. done.
    + intros Ha. destruct (Halive _ Ha) as [m Hm]. exists m. by apply map_lookup_filter_Some.
Qed.

Lemma elem_of_siter s x : x ∈ siter s ↔ x ∈ s.
Proof.
  unfold siter. rewrite list_elem_of_fmap. split.
  - intros ([y []] & -> & Hy). apply elem_of_hiter in Hy.
    by apply lookup_gset_to_gmap_Some in Hy as [? _].
  - intros Hx. exists (x, ()). split; [done|]. apply elem_of_hiter.
    by apply lookup_gset_to_gmap_Some.
Qed.

Section aggregate.
Context (self : MetricStorage) (name : string) (from to : Z).

(** one series of one node, added to the result *)
Definition agg_step (node : Uuid) (result : gmap Uuid (list MetricPoint)) (hash : Z) :
    gmap Uuid (list MetricPoint) :=
  match metadata self !! hash with
  | Some meta =>
    if decide (meta.1 = name) then
      match get_range self node hash from to with
      | [] => result
      | points => <[node := points]> result
      end
    else result
  | None => result
  end.

Definition named (hash : Z) : Prop := ∃ tags, metadata self !! hash = Some (name, tags).

(** what the result says of a node once the series [done] have been visited *)
Definition agg_ok (done : Z → Prop) (node : Uuid) (o : option (list MetricPoint)) : Prop :=
  match o with
  | Some points => ∃ hash, done hash ∧ named hash ∧
      points = get_range self node hash from to ∧ points ≠ []
  | None => ∀ hash, done hash → named hash → get_range self node hash from to = []
  end.

Lemma agg_step_ok done node n result hash :
  agg_ok done n (result !! n) → (n = node → True) →
  agg_ok (λ h, done h ∨ n = node ∧ h = hash) n (agg_step node result hash !! n).
Proof.
  intros Hok _. unfold agg_step.
  assert (∀ o, agg_ok done n o →
    (n = node → named hash → get_range self node hash from to = [] ∨ is_Some o) →
    agg_ok (λ h, done h ∨ n = node ∧ h = hash) n o) as Hsame.
  { intros [points|] Ho Hh; cbn in *; [naive_solver|]. intros h [Hd|[-> ->]] Hn; [by apply Ho|].
    destruct (Hh eq_refl Hn) as [?|[? ?]]; done. }
  destruct (metadata self !! hash) as [[nm tags]|] eqn:Hm.
  - cbn. case_decide as Hnm.
    + destruct (get_range self node hash from to) as [|p l] eqn:Hg; [by apply Hsame; auto|].
      destruct (decide (n = node)) as [->|Hne].
      * rewrite lookup_insert_eq. exists hash. split_and!; [by right| |done|done].
        exists tags. by subst.
      * rewrite lookup_insert_ne by done. by apply Hsame.
    + apply Hsame; [done|]. intros _ [tags' Ht]. congruence.
  - apply Hsame; [done|]. intros _ [tags' Ht]. congruence.
Qed.

Lemma agg_ok_ext (P Q : Z → Prop) n o : (∀ h, P h ↔ Q h) → agg_ok P n o → agg_ok Q n o.
Proof. intros HPQ. destruct o; cbn; naive_solver. Qed.

Lemma agg_series done node n hashes result :
  agg_ok done n (result !! n) →
  agg_ok (λ h, done h ∨ n = node ∧ h ∈ hashes) n (foldl (agg_step node) result hashes !! n).
Proof.
  revert done result; induction hashes as [|h hashes IH]; intros done result Hok; cbn [foldl].
  - eapply agg_ok_ext; [|exact Hok]. set_solver.
  - eapply agg_ok_ext; [|apply IH, agg_step_ok; [exact Hok|done]]. set_solver.
Qed.

Lemma agg_nodes n hashes nodes done result :
  agg_ok done n (result !! n) →
  agg_ok (λ h, done h ∨ n ∈ nodes ∧ h ∈ hashes) n
    (foldl (λ r node, foldl (agg_step node) r hashes) result nodes !! n).
Proof.
  revert done result; induction nodes as [|m nodes IH]; intros done result Hok; cbn [foldl].
  - eapply agg_ok_ext; [|exact Hok]. set_solver.
  - eapply agg_ok_ext; [|apply IH, agg_series, Hok]. set_solver.
Qed.
End aggregate.

(** The aggregate of a metric over a tag answers for each node the points of
    one series with that tag and name, not of all of them: a node is missing
    exactly when none of its matching series has a point in the range, and
    when several have, all but one are dropped. *)
Theorem aggregated_one_series (self : MetricStorage) (tag_key tag_value name : string)
    (from to : Z) (node : Uuid) :
  let series h := h ∈ find_series_by_tag self tag_key tag_value ∧
    ∃ tags, metadata self !! h = Some (name, tags) in
  match get_aggregated_range self tag_key tag_value name from to !! node with
  | Some points => ∃ h, series h ∧ points = get_range self node h from to ∧ points ≠ []
  | None => ∀ h, series h → get_range self node h from to = []
  end.
Proof.
  intros series. set (hashes := siter (find_series_by_tag self tag_key tag_value)).
  assert (agg_ok self name from to
    (λ h, False ∨ node ∈ (hiter (inner self)).*1 ∧ h ∈ hashes) node
    (get_aggregated_range self tag_key tag_value name from to !! node)) as Hok.
  { apply agg_nodes. rewrite lookup_empty. intros h []. }
  destruct (get_aggregated_range _ _ _ _ _ _ !! node) as [points|]; cbn in Hok.
  - destruct Hok as (h & [[]|[_ Hh]] & Hn & Hp). apply elem_of_siter in Hh.
    by exists h.
  - intros h [Hh Hn]. destruct (decide (node ∈ (hiter (inner self)).*1)) as [Hin|Hin].
    + apply Hok; [|done]. right. split; [done|]. by apply elem_of_siter.
    + unfold get_range. destruct (inner self !! node) as [nd|] eqn:He; [|done].
      exfalso. apply Hin, list_elem_of_fmap. exists (node, nd). split; [done|].
      by apply elem_of_hiter.
Qed.
End ops.
End metrics.

(** ** Witnesses *)
Definition example_envelope (name : string) (ts : Z) : MetricEnvelope (V := Z) := {|
  e_node_id := 1%N; e_name := name; e_value := 5; e_timestamp := ts;
  e_tags := {[ "env" := "dev" ]} |}.

Lemma insert_envelope_spec_witness :
  inv (insert_envelope (example_envelope "cpu" 1000) (new 2 60)) ∧
  get_range (insert_envelope (example_envelope "cpu" 1000) (new 2 60)) 1%N 1003 0 2000
    = [{| timestamp := 1000; value := 5 |}].
Proof.
  split; [|vm_compute; reflexivity].
  exact (proj1 (insert_envelope_spec (new 2 60) (example_envelope "cpu" 1000) (inv_new 2 60)
    ltac:(cbn; lia))).
Defined.

Lemma perform_gc_spec_witness :
  inv (perform_gc (V := Z) 0 (new 2 60)).
Proof. exact (proj1 (perform_gc_spec 0 (new 2 60) (inv_new 2 60))). Defined.
