(* ===== verification/Db.v ===== *)
(** * The database

    [bin/api/postgres/*.rs] against the schema of [dev/dev.sql].  A table is a
    finite map from its primary key; a statement is a function on the tables
    that answers a result, with the constraints of the schema as errors: the
    SQL state of a unique (23505) or foreign-key (23503) violation, of a
    value too long for its column (22001), and [rows] for a [query_one] that
    does not find its row.  The connection manager's lock is held for the
    whole of a method, so a method is one step; a statement that fails has no
    effect.

    PostgreSQL keeps instants to the microsecond: [pg_time] is what is read
    back of an instant written.  JSON columns read back as written. *)
From S2P Require Import Prelude Foreign Naming Wireguard Connection Subscription Key Inbound Node.
Local Open Scope Z_scope.
Local Open Scope pony_scope.

Class Postgres := {
  pg_time : DateTime → DateTime;
  pg_time_idem : ∀ t, pg_time (pg_time t) = pg_time t;
}.
#[export, program] Instance pg_micros : Postgres := {| pg_time t := t / 1000 * 1000 |}.
Next Obligation. intros t. cbv beta. by rewrite Z.div_mul. Qed.

Definition UNIQUE_VIOLATION : string := "23505".
Definition FOREIGN_KEY_VIOLATION : string := "23503".
Definition TOO_LONG : string := "22001".
Definition ROW_COUNT : string := "rows".

(** The columns [VARCHAR(n)] and [CHAR(n)] hold [n] characters, of one or more
    bytes in UTF-8; what is longer is refused, unless all of the excess is blank,
    which is cut off.  [CHAR(n)] is padded with blanks. *)
Definition continues (c : ascii) : bool := (128 <=? N_of_ascii c)%N && (N_of_ascii c <? 192)%N.
Fixpoint column (n : nat) (s : string) : string * string :=
  match s with
  | EmptyString => (EmptyString, EmptyString)
  | String c s' =>
    if continues c then let '(kept, excess) := column n s' in (String c kept, excess)
    else match n with
         | O => (EmptyString, s)
         | S n => let '(kept, excess) := column n s' in (String c kept, excess)
         end
  end.
Fixpoint blank (s : string) : bool :=
  match s with EmptyString => true | String c s => bool_decide (c = " "%char) && blank s end.
Definition fits (n : nat) (s : string) : bool := blank (column n s).2.
Definition clip (n : nat) (s : string) : string := (column n s).1.
Fixpoint characters (s : string) : nat :=
  match s with
  | EmptyString => O
  | String c s => if continues c then characters s else S (characters s)
  end.
Definition pad_to (n : nat) (s : string) : string :=
  clip n s +:+ String.string_of_list_ascii (replicate (n - characters (clip n s)) " "%char).

Example columns : (clip 3 "ab  ", fits 3 "ab  ", pad_to 4 "ab", fits 3 "abcd") =
  ("ab ", true, "ab  ", false).
Proof. reflexivity. Qed.

(** ** Tables *)

(** [connections] -- dev/dev.sql:35-53 *)
Record ConnRecord : Set := {
  c_password : option string;
  c_token : option Uuid;
  c_env : string;
  c_created_at : DateTime;
  c_modified_at : DateTime;
  c_expires_at : option DateTime;
  c_subscription_id : option Uuid;
  c_proto : ProtoTag;
  c_wg_privkey : option string;
  c_wg_address : option string;
  c_is_deleted : bool;
}.

(** [inbounds] -- dev/dev.sql:74-93 *)
Record InboundRecord : Set := {
  i_tag : ProtoTag;
  i_port : Z;
  i_stream_settings : option StreamSettings;
  i_uplink : option Z;
  i_downlink : option Z;
  i_conn_count : option Z;
  i_wg_privkey : option string;
  i_wg_interface : option string;
  i_wg_address : option string;
  i_dns : option (list IpAddr);
  i_h2 : option H2Settings;
  i_mtproto_secret : option string;
}.

(** [nodes] -- dev/dev.sql:56-71

    With the node's rows of [inbounds], which are unique in (node, tag). *)
Record NodeRecord : Set := {
  n_uuid : Uuid;
  n_env : string;
  n_hostname : string;
  n_address : IpAddr;
  n_status : NodeStatus;
  n_created_at : DateTime;
  n_modified_at : DateTime;
  n_label : string;
  n_interface : string;
  n_cores : Z;
  n_max_bandwidth_bps : Z;
  n_country : string;
  n_type : NodeType;
  n_inbounds : gmap ProtoTag InboundRecord;
}.

Record Db : Set := {
  t_connections : gmap Uuid ConnRecord;
  t_subscriptions : gmap Uuid Subscription;
  t_nodes : gmap Uuid NodeRecord;
  t_keys : gmap Uuid Key;
}.
Definition db_empty : Db :=
  {| t_connections := ∅; t_subscriptions := ∅; t_nodes := ∅; t_keys := ∅ |}.

Definition with_connections (t : gmap Uuid ConnRecord) (d : Db) : Db := {|
  t_connections := t; t_subscriptions := t_subscriptions d; t_nodes := t_nodes d;
  t_keys := t_keys d |}.
Definition with_subscriptions (t : gmap Uuid Subscription) (d : Db) : Db := {|
  t_connections := t_connections d; t_subscriptions := t; t_nodes := t_nodes d;
  t_keys := t_keys d |}.
Definition with_nodes (t : gmap Uuid NodeRecord) (d : Db) : Db := {|
  t_connections := t_connections d; t_subscriptions := t_subscriptions d; t_nodes := t;
  t_keys := t_keys d |}.
Definition with_keys (t : gmap Uuid Key) (d : Db) : Db := {|
  t_connections := t_connections d; t_subscriptions := t_subscriptions d;
  t_nodes := t_nodes d; t_keys := t |}.

(** ** Connections *)
Module ConnRow.
(** [ConnRow] -- bin/api/postgres/connection.rs:14-27 *)
Record ConnRow : Set := {
  conn_id : Uuid;
  password : option string;
  env : string;
  created_at : DateTime;
  modified_at : DateTime;
  expires_at : option DateTime;
  subscription_id : option Uuid;
  wg : option Param;
  proto : ProtoTag;
  token : option Uuid;
  is_deleted : bool;
}.

(** [ConnRow::from] -- bin/api/postgres/connection.rs:29-45 *)
Definition from (conn_id : Uuid) (conn : Conn) : ConnRow := {|
  conn_id := conn_id;
  password := get_password conn;
  env := Env.fmt (Conn.env conn);
  created_at := Conn.created_at conn;
  modified_at := Conn.modified_at conn;
  expires_at := Conn.expires_at conn;
  subscription_id := Conn.subscription_id conn;
  wg := get_wireguard conn;
  proto := Proto.proto (get_proto conn);
  token := get_token conn;
  is_deleted := Conn.is_deleted conn;
|}.

(** [Connection::try_from] -- bin/api/postgres/connection.rs:47-88 *)
Definition try_into (row : ConnRow) : result Conn Error :=
  let proto :=
    match proto row with
    | ProtoTag.Wireguard =>
      let? wg := ok_or (wg row) (Error.Custom "Missing Wireguard param") in
      Ok (Proto.new_wg wg)
    | ProtoTag.Shadowsocks =>
      let? password := ok_or (password row) (Error.Custom "Missing Shadowsocks password") in
      Ok (Proto.new_ss password)
    | ProtoTag.Hysteria2 =>
      let? token := ok_or (token row) (Error.Custom "Missing Hysteria2 token") in
      Ok (Proto.new_hysteria2 token)
    | tag => Ok (Proto.new_xray tag)
    end in
  let? proto := proto in
  Ok {| Conn.env := Env.from (env row);
        Conn.proto := proto;
        Conn.subscription_id := subscription_id row;
        Conn.created_at := created_at row;
        Conn.modified_at := modified_at row;
        Conn.expires_at := expires_at row;
        Conn.is_deleted := is_deleted row |}.
End ConnRow.
Notation ConnRow := ConnRow.ConnRow.

Section db.
Context `{!Postgres, !Ipv6Text, !IterOrder}.


(** [PgConn::map_rows_to_conns] -- bin/api/postgres/connection.rs:125-166 *)
Definition row_to_conn (id : Uuid) (r : ConnRecord) : ConnRow :=
  let wg :=
    match c_wg_privkey r, c_wg_address r with
    | Some privkey, Some address =>
      (λ ip_mask, {| keys := {| privkey := privkey |}; param_address := ip_mask |})
        <$> mask_from_str address
    | _, _ => None
    end in
  {| ConnRow.conn_id := id;
     ConnRow.password := c_password r;
     ConnRow.token := c_token r;
     ConnRow.env := c_env r;
     ConnRow.created_at := c_created_at r;
     ConnRow.modified_at := c_modified_at r;
     ConnRow.expires_at := c_expires_at r;
     ConnRow.subscription_id := c_subscription_id r;
     ConnRow.proto := c_proto r;
     ConnRow.wg := wg;
     ConnRow.is_deleted := c_is_deleted r |}.

(** [PgConn::all] -- bin/api/postgres/connection.rs:99-123 *)
Definition pg_conn_all (d : Db) : list ConnRow :=
  (λ '(id, r), row_to_conn id r) <$> hiter (t_connections d).

Definition with_c_deleted (b : bool) (r : ConnRecord) : ConnRecord := {|
  c_password := c_password r; c_token := c_token r; c_env := c_env r;
  c_created_at := c_created_at r; c_modified_at := c_modified_at r;
  c_expires_at := c_expires_at r; c_subscription_id := c_subscription_id r;
  c_proto := c_proto r; c_wg_privkey := c_wg_privkey r; c_wg_address := c_wg_address r;
  c_is_deleted := b |}.

(** [PgConn::delete] -- bin/api/postgres/connection.rs:168-177 *)
Definition pg_conn_delete (conn_id : Uuid) (d : Db) : Db * result unit Error :=
  (with_connections (alter (with_c_deleted true) conn_id (t_connections d)) d, Ok tt).

(** [PgConn::restore] -- bin/api/postgres/connection.rs:179-188 *)
Definition pg_conn_restore (conn_id : Uuid) (d : Db) : Db * result unit Error :=
  (with_connections (alter (with_c_deleted false) conn_id (t_connections d)) d, Ok tt).

(** the row the INSERT writes *)
Definition conn_record (conn : ConnRow) : ConnRecord := {|
  c_password := ConnRow.password conn;
  c_token := ConnRow.token conn;
  c_env := ConnRow.env conn;
  c_created_at := pg_time (ConnRow.created_at conn);
  c_modified_at := pg_time (ConnRow.modified_at conn);
  c_expires_at := pg_time <$> ConnRow.expires_at conn;
  c_subscription_id := ConnRow.subscription_id conn;
  c_proto := ConnRow.proto conn;
  c_wg_privkey := (λ w, privkey (keys w)) <$> ConnRow.wg conn;
  c_wg_address := (λ w, mask_fmt (param_address w)) <$> ConnRow.wg conn;
  c_is_deleted := ConnRow.is_deleted conn;
|}.

(** [PgConn::insert] -- bin/api/postgres/connection.rs:190-250 *)
Definition pg_conn_insert `{!UuidText} (conn : ConnRow) (d : Db) : Db * result unit Error :=
  let id := ConnRow.conn_id conn in
  match t_connections d !! id with
  | Some _ =>
    (d, Err (Error.Custom ("Connection " +:+ uuid_str id +:+ " already exists")))
  | None =>
    if match ConnRow.subscription_id conn with
       | Some s => bool_decide (t_subscriptions d !! s = None)
       | None => false
       end
    then (d, Err (Error.Database FOREIGN_KEY_VIOLATION))
    else (with_connections (<[id := conn_record conn]> (t_connections d)) d, Ok tt)
  end.

(** ** Subscriptions *)

(** [PgSubscription::all] -- bin/api/postgres/subscription.rs:18-32

    Only rows that are not deleted; the order is by creation. *)
Definition pg_sub_all (d : Db) : list Subscription :=
  keep (λ s, negb (Subscription.is_deleted s)) (hvalues (t_subscriptions d)).

(** [PgSubscription::create] -- bin/api/postgres/subscription.rs:34-58

    The statement writes four columns; the others take their defaults. *)
Definition pg_sub_create (now : DateTime) (new_sub : Subscription) (d : Db) :
    Db * result Subscription Error :=
  let id := Subscription.id new_sub in
  let ref_code := Subscription.refer_code new_sub in
  match t_subscriptions d !! id with
  | Some _ => (d, Err (Error.Database UNIQUE_VIOLATION))
  | None =>
    if negb (fits 13 ref_code &&
      match Subscription.referred_by new_sub with Some r => fits 13 r | None => true end)
    then (d, Err (Error.Database TOO_LONG))
    else
      let row := {|
        Subscription.id := id;
        Subscription.expires_at := pg_time <$> Subscription.expires_at new_sub;
        Subscription.referred_by := clip 13 <$> Subscription.referred_by new_sub;
        Subscription.refer_code := pad_to 13 ref_code;
        Subscription.created_at := pg_time now;
        Subscription.updated_at := pg_time now;
        Subscription.is_deleted := false;
        Subscription.limit_bytes := None;
        Subscription.downlink_bytes := None |} in
      (with_subscriptions (<[id := row]> (t_subscriptions d)) d, Ok row)
  end.

(** [PgSubscription::update_subscription] -- bin/api/postgres/subscription.rs:60-87 *)
Definition pg_sub_update (now : DateTime) (id : Uuid) (expires_at : DateTime)
    (referred_by : option string) (ref_code : string) (d : Db) :
    Db * result Subscription Error :=
  match t_subscriptions d !! id with
  | None => (d, Err (Error.Database ROW_COUNT))
  | Some old =>
    if negb (fits 13 ref_code && match referred_by with Some r => fits 13 r | None => true end)
    then (d, Err (Error.Database TOO_LONG))
    else
      let row := {|
        Subscription.id := id;
        Subscription.expires_at := Some (pg_time expires_at);
        Subscription.referred_by := clip 13 <$> referred_by;
        Subscription.refer_code := pad_to 13 ref_code;
        Subscription.created_at := Subscription.created_at old;
        Subscription.updated_at := pg_time now;
        Subscription.is_deleted := Subscription.is_deleted old;
        Subscription.limit_bytes := Subscription.limit_bytes old;
        Subscription.downlink_bytes := Subscription.downlink_bytes old |} in
      (with_subscriptions (<[id := row]> (t_subscriptions d)) d, Ok row)
  end.

(** [PgSubscription::add_days] -- bin/api/postgres/subscription.rs:89-125

    The outer [None] is chrono's overflow panic, between the two statements. *)
Definition pg_sub_add_days `{!Chrono} (now : DateTime) (sub_id : Uuid) (days : Z) (d : Db) :
    option (Db * result Subscription Error) :=
  match t_subscriptions d !! sub_id with
  | None => Some (d, Err (Error.Database ROW_COUNT))
  | Some old =>
    let base :=
      match Subscription.expires_at old with
      | Some exp => if decide (now < exp) then exp else now
      | None => now
      end in
    match dt_add_days base days with
    | None => None
    | Some new_expires_at =>
      let row := Subscription.with_updated (pg_time now)
        (Subscription.with_expires (Some (pg_time new_expires_at)) old) in
      Some (with_subscriptions (<[sub_id := row]> (t_subscriptions d)) d, Ok row)
    end
  end.

(** ** Keys *)

(** [Key::from] -- memory/key.rs:50-67

    The row read back; [None] is the panic on a malformed distributor. *)
Definition key_from_row (k : Key) : option Key :=
  match Distributor.new (Distributor.as_str (Key.distributor k)) with
  | Ok dist => Some {|
      Key.id := Key.id k; Key.code := Key.code k; Key.days := Key.days k;
      Key.activated := Key.activated k; Key.subscription_id := Key.subscription_id k;
      Key.created_at := Key.created_at k; Key.modified_at := Key.modified_at k;
      Key.distributor := dist |}
  | Err _ => None
  end.

(** [PgKey::get] -- bin/api/postgres/keys.rs:19-32 *)
Definition pg_key_get (code : string) (d : Db) : option Key :=
  find (λ k, bool_decide (Key.code k = code)) (hvalues (t_keys d)).

(** [PgKey::insert] -- bin/api/postgres/keys.rs:34-60 *)
Definition pg_key_insert (key : Key) (d : Db) : Db * result unit Error :=
  if bool_decide (is_Some (t_keys d !! Key.id key)) || is_some (pg_key_get (Key.code key) d)
  then (d, Err (Error.Database UNIQUE_VIOLATION))
  else
    let row := {|
      Key.id := Key.id key; Key.code := Key.code key; Key.days := Key.days key;
      Key.activated := Key.activated key; Key.subscription_id := Key.subscription_id key;
      Key.created_at := pg_time (Key.created_at key);
      Key.modified_at := pg_time (Key.modified_at key);
      Key.distributor := Key.distributor key |} in
    (with_keys (<[Key.id key := row]> (t_keys d)) d, Ok tt).

(** [PgKey::activate] -- bin/api/postgres/keys.rs:62-83 *)
Definition pg_key_activate (now : DateTime) (key : Key) (d : Db) : Db * result unit Error :=
  let upd k := {|
    Key.id := Key.id k; Key.code := Key.code k; Key.days := Key.days k;
    Key.activated := true; Key.subscription_id := Key.subscription_id key;
    Key.created_at := Key.created_at k; Key.modified_at := pg_time now;
    Key.distributor := Key.distributor k |} in
  (with_keys (alter upd (Key.id key) (t_keys d)) d, Ok tt).

(** ** Nodes *)

(** the row of an inbound *)
Definition inbound_record (i : Inbound) : InboundRecord := {|
  i_tag := Inbound.tag i;
  i_port := Inbound.port i;
  i_stream_settings := Inbound.stream_settings i;
  i_uplink := Inbound.uplink i;
  i_downlink := Inbound.downlink i;
  i_conn_count := Inbound.conn_count i;
  i_wg_privkey := (λ wg, privkey (wg_keys wg)) <$> Inbound.wg i;
  i_wg_interface := interface <$> Inbound.wg i;
  i_wg_address := (λ wg, mask_fmt (wg_address wg)) <$> Inbound.wg i;
  i_dns := (λ wg, V4 <$> dns wg) <$> Inbound.wg i;
  i_h2 := Inbound.h2 i;
  i_mtproto_secret := Inbound.mtproto_secret i;
|}.

(** the row of a node: [node_type] is not among the columns written, so a new
    row has its default and an old one keeps what it had, as it keeps its
    creation time and the inbounds that are not written again *)
Definition node_record (node : Node) (old : option NodeRecord) : NodeRecord := {|
  n_uuid := Node.uuid node;
  n_env := Env.fmt (Node.env node);
  n_hostname := Node.hostname node;
  n_address := V4 (Node.address node);
  n_status := Node.status node;
  n_created_at :=
    match old with Some o => n_created_at o | None => pg_time (Node.created_at node) end;
  n_modified_at := pg_time (Node.modified_at node);
  n_label := Node.label node;
  n_interface := Node.interface node;
  n_cores := as_signed 32 (Node.cores node);
  n_max_bandwidth_bps := Node.max_bandwidth_bps node;
  n_country := Node.country node;
  n_type := match old with Some o => n_type o | None => NodeType.Common end;
  n_inbounds :=
    foldl (λ m i, <[Inbound.tag i := inbound_record i]> m)
      (match old with Some o => n_inbounds o | None => ∅ end)
      (hvalues (Node.inbounds node));
|}.

(** [PgNode::upsert] -- bin/api/postgres/node.rs:26-148

    One transaction.  Another row with the same (uuid, env) is a violation. *)
Definition pg_node_upsert (node_id : Uuid) (node : Node) (d : Db) : Db * result unit Error :=
  let row := node_record node (t_nodes d !! node_id) in
  if any (λ '(id, r), bool_decide (id ≠ node_id) && bool_decide (n_uuid r = n_uuid row) &&
      bool_decide (n_env r = n_env row)) (hiter (t_nodes d))
  then (d, Err (Error.Database UNIQUE_VIOLATION))
  else (with_nodes (<[node_id := row]> (t_nodes d)) d, Ok tt).

(** one row of [inbounds] read back -- the loop body of [all] *)
Definition inbound_of_record (r : InboundRecord) : Inbound :=
  let wg_addr := match i_wg_address r with Some s => mask_from_str s | None => None end in
  let dns :=
    match i_dns r with
    | Some ips => Some (omap (λ ip, match ip with V4 v4 => Some v4 | V6 _ => None end) ips)
    | None => None
    end in
  let wg :=
    match i_wg_privkey r, i_wg_interface r, wg_addr, dns with
    | Some pk, Some interface, Some address, Some dns =>
      Some {| wg_keys := {| privkey := pk |}; interface := interface;
              wg_address := address; wg_port := as_unsigned 16 (i_port r); dns := dns |}
    | _, _, _, _ => None
    end in
  {| Inbound.tag := i_tag r;
     Inbound.port := as_unsigned 16 (i_port r);
     Inbound.stream_settings := i_stream_settings r;
     Inbound.uplink := i_uplink r;
     Inbound.downlink := i_downlink r;
     Inbound.conn_count := i_conn_count r;
     Inbound.wg := wg;
     Inbound.h2 := i_h2 r;
     Inbound.mtproto_secret := i_mtproto_secret r |}.

(** a node read back: only IPv4 nodes are *)
Definition node_of_record (r : NodeRecord) : option Node :=
  match n_address r with
  | V4 ipv4 => Some {|
      Node.uuid := n_uuid r;
      Node.env := Env.from (n_env r);
      Node.hostname := n_hostname r;
      Node.address := ipv4;
      Node.interface := n_interface r;
      Node.status := n_status r;
      Node.created_at := n_created_at r;
      Node.modified_at := n_modified_at r;
      Node.label := n_label r;
      Node.inbounds := inbound_of_record <$> n_inbounds r;
      Node.cores := as_unsigned 64 (n_cores r);
      Node.max_bandwidth_bps := n_max_bandwidth_bps r;
      Node.country := n_country r;
      Node.type := n_type r |}
  | V6 _ => None
  end.

(** [PgNode::all] -- bin/api/postgres/node.rs:150-264 *)
Definition pg_node_all (d : Db) : list Node := omap node_of_record (hvalues (t_nodes d)).

(** [PgNode::update_status] -- bin/api/postgres/node.rs:266-301 *)
Definition pg_node_update_status (now : DateTime) (uuid : Uuid) (env : string)
    (new_status : NodeStatus) (d : Db) : Db * result unit Error :=
  let upd r :=
    if bool_decide (n_uuid r = uuid) && bool_decide (n_env r = env) then {|
      n_uuid := n_uuid r; n_env := n_env r; n_hostname := n_hostname r;
      n_address := n_address r; n_status := new_status; n_created_at := n_created_at r;
      n_modified_at := pg_time now; n_label := n_label r; n_interface := n_interface r;
      n_cores := n_cores r; n_max_bandwidth_bps := n_max_bandwidth_bps r;
      n_country := n_country r; n_type := n_type r; n_inbounds := n_inbounds r |}
    else r in
  (with_nodes (upd <$> t_nodes d) d, Ok tt).
End db.

(** ** What the database keeps of a connection *)
Section images.
Context `{!Postgres, !Ipv6Text, !IterOrder}.

(** A protocol with a well-formed address, as its constructors make it. *)
Definition conn_wf (c : Conn) : Prop :=
  Proto.proto_ok (Conn.proto c) ∧
  ∀ p, Conn.proto c = Proto.Wireguard p → mask_ok (param_address p).

Definition proto_image (p : Proto) : Proto :=
  match p with Proto.Mtproto _ => Proto.Xray ProtoTag.Mtproto | p => p end.

Definition conn_image (c : Conn) : Conn := {|
  Conn.env := Env.norm (Conn.env c);
  Conn.proto := proto_image (Conn.proto c);
  Conn.subscription_id := Conn.subscription_id c;
  Conn.created_at := pg_time (Conn.created_at c);
  Conn.modified_at := pg_time (Conn.modified_at c);
  Conn.expires_at := pg_time <$> Conn.expires_at c;
  Conn.is_deleted := Conn.is_deleted c;
|}.

Lemma env_from_fmt e : Env.from (Env.fmt e) = Env.norm e.
Proof. unfold Env.from. by rewrite Env.from_str_fmt. Qed.

Lemma try_into_record id c :
  conn_wf c →
  ConnRow.try_into (row_to_conn id (conn_record (ConnRow.from id c))) = Ok (conn_image c).
Proof.
  intros [Hok Hwg]. unfold ConnRow.try_into, row_to_conn, conn_record, ConnRow.from.
  destruct c as [env p sub cr md ex del]. cbn in *.
  unfold get_wireguard, get_password, get_token. cbn.
  destruct p as [p| |t| |]; cbn; rewrite ?env_from_fmt; try done.
  - rewrite (mask_from_str_fmt _ (Hwg p eq_refl)). cbn. by destruct p as [[]].
  - destruct Hok as (? & ? & ?). by destruct t.
Qed.

(** C36: a connection inserted into the database reads back with its instants cut
    to the database's resolution and a custom environment's name in lower
    case, and otherwise as it was -- except an MTProto connection, which reads
    back as an Xray connection with the MTProto tag, its secret gone. *)
Theorem conn_db_roundtrip `{!UuidText} (id : Uuid) (c : Conn) (d d' : Db) (Hwf : conn_wf c)
    (Hins : pg_conn_insert (ConnRow.from id c) d = (d', Ok tt)) :
  ∃ r, t_connections d' !! id = Some r ∧
    ConnRow.try_into (row_to_conn id r) = Ok (conn_image c) ∧
    (∀ s, Conn.proto c = Proto.Mtproto s →
      Conn.proto (conn_image c) = Proto.Xray ProtoTag.Mtproto) ∧
    ((∀ s, Conn.proto c ≠ Proto.Mtproto s) → Conn.proto (conn_image c) = Conn.proto c).
Proof.
  unfold pg_conn_insert in Hins. cbn in Hins.
  destruct (t_connections d !! id); [done|]. case_match; [done|]. injection Hins as <-.
  eexists. cbn. rewrite lookup_insert_eq. split_and!; [done|by apply try_into_record| |].
  - by intros s ->.
  - intros Hm. destruct (Conn.proto c); try done. by destruct (Hm secret).
Qed.
End images.

Definition example_conn (p : Proto) : Conn := {|
  Conn.env := Env.Dev; Conn.proto := p; Conn.subscription_id := None; Conn.created_at := 5000;
  Conn.modified_at := 5000; Conn.expires_at := None; Conn.is_deleted := false |}.

Lemma conn_db_roundtrip_witness :
  ∃ r, t_connections (pg_conn_insert (ConnRow.from 1%N (example_conn (Proto.Mtproto "s")))
      db_empty).1 !! 1%N = Some r ∧
    ConnRow.try_into (row_to_conn 1%N r) = Ok (example_conn (Proto.Xray ProtoTag.Mtproto)).
Proof.
  destruct (conn_db_roundtrip 1%N (example_conn (Proto.Mtproto "s")) db_empty _
    ltac:(by split) eq_refl) as (r & Hr & Hc & _).
  exists r. split; [exact Hr|exact Hc].
Defined.

Section node_images.
Context `{!Postgres, !Ipv6Text, !IterOrder}.

(** A node whose inbounds sit under their own tags, with ports of 16 bits and
    WireGuard settings on the inbound's own port. *)
Definition inbound_wf (t : ProtoTag) (i : Inbound) : Prop :=
  Inbound.tag i = t ∧ 0 <= Inbound.port i < 2 ^ 16 ∧
  ∀ wg, Inbound.wg i = Some wg → mask_ok (wg_address wg) ∧ wg_port wg = Inbound.port i.
Definition node_wf (n : Node) : Prop :=
  (∀ t i, Node.inbounds n !! t = Some i → inbound_wf t i) ∧ 0 <= Node.cores n < 2 ^ 31.

Lemma inbound_record_back t i : inbound_wf t i → inbound_of_record (inbound_record i) = i.
Proof.
  intros (_ & Hp & Hwg). unfold inbound_of_record, inbound_record. destruct i as [t' p ss u d c wg h2 mt].
  cbn in *. rewrite (as_unsigned_id 16) by done.
  destruct wg as [[ifc addr wp k dn]|]; [|done]. cbn.
  destruct (Hwg _ eq_refl) as [Hm Hport]. cbn in Hm, Hport. subst wp.
  rewrite (mask_from_str_fmt _ Hm). cbn.
  assert (omap (λ ip : IpAddr, match ip with V4 v4 => Some v4 | V6 _ => None end) (V4 <$> dn)
    = dn) as ->; [|by destruct k].
  clear Hwg. induction dn as [|a dn IH]; [done|]. cbn. by rewrite IH.
Qed.

Lemma lookup_foldl_inbounds (l : list Inbound) (m : gmap ProtoTag InboundRecord) t :
  NoDup (Inbound.tag <$> l) →
  foldl (λ m i, <[Inbound.tag i := inbound_record i]> m) m l !! t =
    match find (λ i, bool_decide (Inbound.tag i = t)) l with
    | Some i => Some (inbound_record i)
    | None => m !! t
    end.
Proof.
  revert m; induction l as [|i l IH]; intros m Hnd; cbn [foldl find]; [done|].
  inversion_clear Hnd as [|? ? Hi Hl]. rewrite IH by done.
  destruct (find _ l) as [j|] eqn:Hf; case_bool_decide as Ht; try done.
  - exfalso. apply find_Some in Hf as [Hj Hjt]. apply bool_decide_eq_true_1 in Hjt.
    apply Hi. rewrite Ht, <- Hjt. by apply list_elem_of_fmap_2.
  - by rewrite Ht, lookup_insert_eq.
  - by rewrite lookup_insert_ne.
Qed.

Lemma tags_of_inbounds (m : gmap ProtoTag Inbound) :
  (∀ t i, m !! t = Some i → Inbound.tag i = t) → Inbound.tag <$> hvalues m = (hiter m).*1.
Proof.
  intros Hm. unfold hvalues. rewrite <- list_fmap_compose. apply list_fmap_ext.
  intros k [t i] Hk. cbn. apply Hm. apply elem_of_hiter. by eapply list_elem_of_lookup_2.
Qed.

Lemma find_inbound (m : gmap ProtoTag Inbound) t :
  (∀ t i, m !! t = Some i → Inbound.tag i = t) →
  find (λ i, bool_decide (Inbound.tag i = t)) (hvalues m) = m !! t.
Proof.
  intros Hm. destruct (find _ _) as [i|] eqn:Hf.
  - apply find_Some in Hf as [Hi Ht]. apply bool_decide_eq_true_1 in Ht.
    apply elem_of_hvalues in Hi as [t' Ht']. by rewrite <- Ht, (Hm _ _ Ht').
  - destruct (m !! t) as [i|] eqn:Hi; [|done]. rewrite find_None in Hf.
    specialize (Hf i (proj2 (elem_of_hvalues _ _) (ex_intro _ t Hi))). cbv beta in Hf.
    apply bool_decide_eq_false_1 in Hf. exfalso. apply Hf. by apply (Hm t i).
Qed.

(** What the database keeps of a node registered anew over the row [old]. *)
Definition node_image (n : Node) (old : option NodeRecord) : Node := {|
  Node.uuid := Node.uuid n; Node.env := Env.norm (Node.env n);
  Node.hostname := Node.hostname n; Node.address := Node.address n;
  Node.status := Node.status n; Node.label := Node.label n;
  Node.interface := Node.interface n;
  Node.created_at :=
    match old with Some o => n_created_at o | None => pg_time (Node.created_at n) end;
  Node.modified_at := pg_time (Node.modified_at n);
  Node.inbounds :=
    Node.inbounds n ∪ (inbound_of_record <$> match old with Some o => n_inbounds o | None => ∅ end);
  Node.cores := Node.cores n; Node.max_bandwidth_bps := Node.max_bandwidth_bps n;
  Node.country := Node.country n;
  Node.type := match old with Some o => n_type o | None => NodeType.Common end |}.

(** A registered node reads back from the database with a custom
    environment's name in lower case and instants cut, but its type is not
    written: a new row reads back as [Common], whatever the node said; and the
    inbounds an earlier registration of the same node had and this one lacks
    read back with it, since none is ever deleted. *)
Theorem node_db_roundtrip (node_id : Uuid) (n : Node) (d d' : Db) (Hwf : node_wf n)
    (Hup : pg_node_upsert node_id n d = (d', Ok tt)) :
  ∃ r, t_nodes d' !! node_id = Some r ∧
    node_of_record r = Some (node_image n (t_nodes d !! node_id)).
Proof.
  destruct Hwf as [Hib Hcores]. unfold pg_node_upsert in Hup. cbv zeta in Hup.
  case_match; [done|]. injection Hup as <-. eexists. cbn. rewrite lookup_insert_eq.
  split; [done|]. set (old := t_nodes d !! node_id).
  unfold node_of_record, node_record, node_image. cbn.
  rewrite env_from_fmt, as_signed_id, as_unsigned_id by lia. do 2 f_equal.
  assert (∀ t i, Node.inbounds n !! t = Some i → Inbound.tag i = t) as Htag
    by (intros t i Hi; apply (Hib t i Hi)).
  apply map_eq. intros t. rewrite lookup_fmap, lookup_foldl_inbounds, find_inbound, lookup_union
    by (done || (rewrite tags_of_inbounds by done; apply NoDup_hiter_fst)).
  destruct (Node.inbounds n !! t) as [i|] eqn:Hi.
  - cbn. rewrite (inbound_record_back t) by auto.
    by destruct ((inbound_of_record <$> _) !! t).
  - rewrite lookup_fmap. destruct old as [o|]; cbn; [by destruct (n_inbounds o !! t)|].
    by rewrite lookup_empty.
Qed.
End node_images.

Definition agent_node : Node := {|
  Node.uuid := 1%N; Node.env := Env.Dev; Node.hostname := "h"; Node.address := 1;
  Node.status := NodeStatus.Online; Node.label := "l"; Node.interface := "eth0";
  Node.created_at := 0; Node.modified_at := 0; Node.inbounds := ∅; Node.cores := 1;
  Node.max_bandwidth_bps := 1; Node.country := "DE"; Node.type := NodeType.Agent |}.

Lemma node_db_roundtrip_witness :
  node_wf agent_node ∧
  ∃ r n, t_nodes (pg_node_upsert 1%N agent_node db_empty).1 !! 1%N = Some r ∧
    node_of_record r = Some n ∧ Node.type agent_node = NodeType.Agent ∧
    Node.type n = NodeType.Common.
Proof.
  assert (node_wf agent_node) as Hwf.
  { split; [|cbn; lia]. intros t i Hi. cbn in Hi. by rewrite lookup_empty in Hi. }
  split; [exact Hwf|].
  assert (pg_node_upsert 1%N agent_node db_empty
    = ((pg_node_upsert 1%N agent_node db_empty).1, Ok tt)) as Hup by reflexivity.
  pose proof (node_db_roundtrip 1%N agent_node db_empty _ Hwf Hup) as (r & Hr & Hn).
  exists r, (node_image agent_node (t_nodes db_empty !! 1%N)).
  split; [exact Hr|]. split; [exact Hn|]. split; reflexivity.
Defined.
