(* ===== verification/World.v ===== *)
(** * The API server's shared state and its effects

    [bin/api/service.rs], [bin/api/sync/mod.rs], [zmq/publisher.rs] and the
    random and clock functions the handlers call.  The state the API's tasks
    share is a [World]: the in-memory [Cache] behind its lock, the database,
    what was published on the bus, the trial e-mails, and a counter that tells
    one consultation of the outside from the next.  Everything the outside
    decides (the clock, fresh identifiers, random bytes, which statement or
    send fails and whether a failed statement had taken effect, whose turn it
    is among joined futures) is an [Oracle] indexed by that counter, and every
    theorem quantifies over it.

    A section of the code that holds the cache's lock is one action when it
    performs at most one effect beside the cache; sections are listed where
    they are modelled. *)
From S2P Require Import Prelude Task Foreign Naming Wireguard Connection ConnStore Subscription.
From S2P Require Import Key Node Db.
Local Open Scope Z_scope.
Local Open Scope prog_scope.

(** ** The state *)

(** [Cache] -- bin/api/service.rs:61-71 *)
Record Cache : Set := {
  connections : Connections Conn;
  subscriptions : Subscriptions Subscription;
  nodes : Nodes;
}.

(** [Cache::new] -- bin/api/service.rs:102-108 *)
Definition Cache_new : Cache :=
  {| nodes := ∅; connections := Connections_default;
     subscriptions := Subscriptions.Subscriptions_default |}.

Lemma cache_new_conns id : connections Cache_new !! id = None.
Proof. apply lookup_empty. Qed.
Lemma cache_new_subs id : subscriptions Cache_new !! id = None.
Proof. apply lookup_empty. Qed.

Definition cache_conns (f : Connections Conn → Connections Conn) (m : Cache) : Cache :=
  {| connections := f (connections m); subscriptions := subscriptions m; nodes := nodes m |}.
Definition cache_subs (f : Subscriptions Subscription → Subscriptions Subscription)
    (m : Cache) : Cache :=
  {| connections := connections m; subscriptions := f (subscriptions m); nodes := nodes m |}.
Definition cache_nodes (f : Nodes → Nodes) (m : Cache) : Cache :=
  {| connections := connections m; subscriptions := subscriptions m; nodes := f (nodes m) |}.

(** [MemSync] -- bin/api/sync/mod.rs:12-22

    With the e-mail store, its file of trials ([None] when there is none) and
    the counter. *)
Record World : Set := {
  memory : Cache;
  db : Db;
  bus : list (Topic * list Message);
  emails : gmap string DateTime;
  email_file : option string;
  tick : nat;
}.

Definition world_new : World :=
  {| memory := Cache_new; db := db_empty; bus := []; emails := ∅; email_file := None;
     tick := 0 |}.

Definition set_memory (m : Cache) (w : World) : World :=
  {| memory := m; db := db w; bus := bus w; emails := emails w; email_file := email_file w;
     tick := tick w |}.
Definition set_db (d : Db) (w : World) : World :=
  {| memory := memory w; db := d; bus := bus w; emails := emails w; email_file := email_file w;
     tick := tick w |}.
Definition set_emails (e : gmap string DateTime) (w : World) : World :=
  {| memory := memory w; db := db w; bus := bus w; emails := e; email_file := email_file w;
     tick := tick w |}.
Definition set_email_file (f : option string) (w : World) : World :=
  {| memory := memory w; db := db w; bus := bus w; emails := emails w; email_file := f;
     tick := tick w |}.
Definition post (m : Topic * list Message) (w : World) : World :=
  {| memory := memory w; db := db w; bus := bus w ++ [m]; emails := emails w;
     email_file := email_file w; tick := tick w |}.
Definition bump (w : World) : World :=
  {| memory := memory w; db := db w; bus := bus w; emails := emails w;
     email_file := email_file w; tick := S (tick w) |}.

(** ** The outside *)

(** A statement that fails may have taken effect: the connection can break
    before the answer arrives.  A write to a file that fails may have written a
    part ([file_partial] characters). *)
Inductive PgFault : Set :=
| NoFault
| Lost (took_effect : bool) (e : Error).

Class Oracle := {
  clock : nat → DateTime;
  fresh_uuid : nat → Uuid;
  random_bytes : nat → list Z;
  random_text : nat → string;
  pg_fault : nat → PgFault;
  zmq_fault : nat → option string;
  rkyv_fault : nat → option string;
  file_fault : nat → option string;
  file_partial : nat → nat;
  http_fault : nat → option string;
  ws_fault : nat → bool;
  whose_turn : nat → bool;
}.

(** A quiet outside: nothing fails, the clock stands still. *)
#[export] Instance quiet : Oracle | 100 := {|
  clock _ := 0;
  fresh_uuid n := N.of_nat n;
  random_bytes _ := replicate 6 0;
  random_text _ := "password";
  pg_fault _ := NoFault;
  zmq_fault _ := None;
  rkyv_fault _ := None;
  file_fault _ := None;
  file_partial _ := 0%nat;
  http_fault _ := None;
  ws_fault _ := false;
  whose_turn _ := true;
|}.

Notation IO := (Prog World).

Section effects.
Context `{!Oracle}.

(** One consultation of the outside. *)
Definition ask {A} (f : nat → A) : IO A := Act (λ w, (bump w, f (tick w))) Ret.

(** [Utc::now()], [Uuid::new_v4()] *)
Definition now : IO DateTime := ask clock.
Definition new_v4 : IO Uuid := ask fresh_uuid.

(** [generate_random_password] -- utils.rs:50-56

    The length and alphabet of the text are the generator's own. *)
Definition generate_random_password (length : nat) : IO string := ask random_text.

(** whose turn it is in [join_all] *)
Definition turn (w : World) : World * bool := (bump w, whose_turn (tick w)).

(** [self.memory.read().await], [self.memory.write().await] around a section
    with no other effect *)
Definition read_mem {A} (f : Cache → A) : IO A := reads (λ w, f (memory w)).
Definition write_mem (f : Cache → Cache) : IO unit :=
  modifies (λ w, set_memory (f (memory w)) w).
Definition update_mem {A} (f : Cache → Cache * A) : IO A :=
  Act (λ w, let '(m, a) := f (memory w) in (set_memory m w, a)) Ret.

(** One method of a repository: it reads the clock for its time stamps, holds
    the client for its whole duration, and answers its result; a failure may
    come before or after its effect. *)
Definition db_do {A} (f : DateTime → Db → Db * result A Error) : IO (result A Error) :=
  Act (λ w,
    let '(d, r) := f (clock (tick w)) (db w) in
    match pg_fault (tick w) with
    | NoFault => (bump (set_db d w), r)
    | Lost true e => (bump (set_db d w), Err e)
    | Lost false e => (bump w, Err e)
    end) Ret.
Definition db_get {A} (f : Db → A) : IO (result A Error) :=
  db_do (λ _ d, (d, Ok (f d))).

(** A method that may panic between its statements: [None].  A failure is then
    that of the statement before, and there is no panic. *)
Definition db_do_or_panic {A} (f : DateTime → Db → option (Db * result A Error)) :
    IO (result A Error) :=
  Act (λ w,
    match f (clock (tick w)) (db w) with
    | None =>
      (bump w, match pg_fault (tick w) with NoFault => None | Lost _ e => Some (Err e) end)
    | Some (d, r) =>
      match pg_fault (tick w) with
      | NoFault => (bump (set_db d w), Some r)
      | Lost true e => (bump (set_db d w), Some (Err e))
      | Lost false e => (bump w, Some (Err e))
      end
    end) (λ r, match r with Some r => Ret r | None => Panic end).

(** [rkyv::to_bytes]: the bytes stand for the messages they encode. *)
Definition to_bytes (messages : list Message) : IO (result (list Message) string) :=
  Act (λ w, (bump w, match rkyv_fault (tick w) with
                     | None => Ok messages | Some e => Err e end)) Ret.

(** [Publisher::send_binary] -- zmq/publisher.rs:68-76 *)
Definition send_binary (topic : Topic) (payload : list Message) : IO (result unit string) :=
  Act (λ w, match zmq_fault (tick w) with
            | None => (bump (post (topic, payload) w), Ok tt)
            | Some e => (bump w, Err e)
            end) Ret.

(** [Utc::now() + Duration::days(days)] *)
Definition add_days_or_panic `{!Chrono} (t : DateTime) (days : Z) : IO DateTime :=
  match dt_add_days t days with Some t => Ret t | None => Panic end.
End effects.
