(* ===== verification/Pool.v ===== *)
(** * The database's client

    [bin/api/postgres/pg.rs]: the one client that every repository shares
    behind a lock, pinged before each use and replaced when it does not answer;
    and what that makes of a repository's method: one action of [World.db_do],
    whose faults are this client's. *)
From S2P Require Import Prelude Task Foreign Naming Wireguard Connection ConnStore Subscription.
From S2P Require Import Key Node Db World.
Local Open Scope Z_scope.
Local Open Scope prog_scope.

(** [PostgresConfig] -- bin/api/config.rs:64-71 *)
Record PostgresConfig : Set := {
  pg_host : string;
  pg_port : Z;
  pg_name : string;
  pg_username : string;
  pg_password : string;
}.

(** The server and the network, by a counter of what was asked of them: whether
    a connection can be opened, whether an open one still answers, and what
    becomes of a statement sent over it. *)
Class PgServer := {
  connect_fault : nat → string → option string;
  answers : nat → nat → bool;
  exec_fault : nat → nat → PgFault;
}.

(** [PgClientManager] -- bin/api/postgres/pg.rs:21-24

    Over the database; a connection is known by when it was opened. *)
Record PgWorld : Set := {
  client : option nat;
  pg_db : Db;
  asked : nat;
}.
Definition set_client (c : nat) (s : PgWorld) : PgWorld :=
  {| client := Some c; pg_db := pg_db s; asked := S (asked s) |}.
Definition set_pg_db (d : Db) (s : PgWorld) : PgWorld :=
  {| client := client s; pg_db := d; asked := S (asked s) |}.
Definition pg_bump (s : PgWorld) : PgWorld :=
  {| client := client s; pg_db := pg_db s; asked := S (asked s) |}.

(** [PgContext::init] -- bin/api/postgres/pg.rs:80-85

    [PgClientManager::new] opens nothing: the first use does. *)
Definition PgContext_init (d : Db) : PgWorld := {| client := None; pg_db := d; asked := 0 |}.

Section pool.
Context `{!PgServer} (clock : nat → DateTime) (config : PostgresConfig).
Notation Pg A := (Prog PgWorld A).

Definition connection_line : string :=
  "host=" +:+ pg_host config +:+ " user=" +:+ pg_username config +:+ " dbname=" +:+ pg_name config +:+
  " password=" +:+ pg_password config +:+ " port=" +:+ pretty (pg_port config).

(** [PgClientManager::connect] -- bin/api/postgres/pg.rs:34-55 *)
Definition connect : Pg (result unit Error) :=
  Act (λ s, match connect_fault (asked s) connection_line with
            | Some e => (pg_bump s, Err (Error.Database e))
            | None => (set_client (asked s) s, Ok tt)
            end) Ret.

(** [client.simple_query("SELECT 1")] *)
Definition ping (c : nat) : Pg bool := Act (λ s, (pg_bump s, answers (asked s) c)) Ret.

(** [PgClientManager::get_client] -- bin/api/postgres/pg.rs:57-70 *)
Definition get_client : Pg (result nat Error) :=
  c <- reads client;;
  _ <-? match c with None => connect | Some _ => Ret (Ok tt) end;;
  c <- reads client;;
  match c with
  | None => Panic
  | Some c =>
    pong <- ping c;;
    _ <-? (if pong : bool then Ret (Ok tt) else connect);;
    c <- reads client;;
    match c with None => Panic | Some c => Ret (Ok c) end
  end.

(** A statement, or a transaction, over a client. *)
Definition execute {A} (c : nat) (f : DateTime → Db → Db * result A Error) : Pg (result A Error) :=
  Act (λ s,
    let '(d, r) := f (clock (asked s)) (pg_db s) in
    match exec_fault (asked s) c with
    | NoFault => (set_pg_db d s, r)
    | Lost true e => (set_pg_db d s, Err e)
    | Lost false e => (pg_bump s, Err e)
    end) Ret.

(** [PgConn::delete] -- bin/api/postgres/connection.rs:168-177

    A method of a repository: the lock on the manager is held throughout. *)
Definition repository {A} (f : DateTime → Db → Db * result A Error) : Pg (result A Error) :=
  atomic (
    c <-? get_client;;
    execute c f).

(** ** What it promises *)

(** A client is handed out that answered, or that was just opened; with none at
    first one was opened; when none can be opened the database is as it was. *)
Lemma run_get_client s :
  let '(s', r) := run get_client s in
  pg_db s' = pg_db s ∧ (asked s' <= asked s + 3)%nat ∧
  match r with
  | Some (Ok c) => client s' = Some c ∧
      ((∃ n, (asked s <= n < asked s')%nat ∧ answers n c = true) ∨
       ((asked s <= c < asked s')%nat ∧ connect_fault c connection_line = None)) ∧
      (client s = None → connect_fault (asked s) connection_line = None)
  | Some (Err e) => ∃ n e', (asked s <= n < asked s')%nat ∧
      connect_fault n connection_line = Some e' ∧ e = Error.Database e'
  | None => False
  end.
Proof.
  unfold get_client, connect, ping. cbn.
  destruct (client s) as [c|] eqn:Hc; cbn; rewrite ?Hc; cbn.
  - destruct (answers _ _) eqn:Hp; cbn; rewrite ?Hc.
    + cbn. rewrite ?Hc. split_and!; [done|lia|done| |done].
      left. exists (asked s). split; [lia|done].
    + destruct (connect_fault (S (asked s)) _) eqn:Hf; cbn.
      * split_and!; [done|lia|]. eexists _, _. split_and!; [..|done|done]; lia.
      * split_and!; [done|lia|done| |done]. right. split; [lia|done].
  - destruct (connect_fault (asked s) _) eqn:Hf; cbn.
    + split_and!; [done|lia|]. eexists _, _. split_and!; [..|done|done]; lia.
    + destruct (answers _ _) eqn:Hp; cbn.
      * split_and!; [done|lia|done| |done]. right. split; [lia|done].
      * destruct (connect_fault (S (S (asked s))) _) eqn:Hf'; cbn.
        -- split_and!; [done|lia|]. eexists _, _. split_and!; [..|done|done]; lia.
        -- split_and!; [done|lia|done| |done]. right. split; [lia|done].
Qed.





(** The client heals.  A client that no longer answers is replaced: however
    the previous ones ended, as soon as the server accepts connections and
    executes what is sent over a connection that is new or has just answered,
    the next method of a repository does all it promises. *)
Theorem repository_heals {A} (f : DateTime → Db → Db * result A Error) (s : PgWorld)
    (Hup : ∀ n, (asked s <= n)%nat → connect_fault n connection_line = None)
    (Hok : ∀ n c, (asked s <= n)%nat → (answers n c = true ∨ (asked s <= c <= n)%nat) →
      ∀ m, (n < m <= n + 3)%nat → exec_fault m c = NoFault) :
  let '(s', r) := run (repository f) s in
  ∃ t, match r with Some r => f t (pg_db s) = (pg_db s', r) | None => False end.
Proof.
  unfold repository. rewrite run_atomic, run_bind. pose proof (run_get_client s) as Hg.
  destruct (run get_client s) as [s1 [[c|e]|]]; destruct Hg as (Hd & Ha & Hc); [| |done].
  - assert (exec_fault (asked s1) c = NoFault) as Hx.
    { destruct Hc as (_ & [(n & Hn & Hp)|(Hn & _)] & _);
        [apply (Hok n)|apply (Hok c)]; try lia; auto. }
    unfold execute. cbn. rewrite Hd, Hx.
    destruct (f (clock (asked s1)) (pg_db s)) as [d r] eqn:Hf. cbn. eauto.
  - destruct Hc as (n & e' & Hn & Hf & _). rewrite Hup in Hf by lia. done.
Qed.
End pool.

(** A server that dropped every connection opened before its tenth request. *)
#[local] Instance dropped : PgServer := {|
  connect_fault n _ := if (n <? 10)%nat then Some "08001" else None;
  answers _ c := (10 <=? c)%nat;
  exec_fault _ c := if (10 <=? c)%nat then NoFault else Lost false (Error.Database "57P01");
|}.

Definition pg_config_example : PostgresConfig := {|
  pg_host := "localhost"; pg_port := 5432; pg_name := "pony"; pg_username := "pony";
  pg_password := "secret" |}.

(** The dead client of before is replaced; while the server is down, nothing
    happens. *)
Lemma repository_heals_witness :
  let s := {| client := Some 3%nat; pg_db := db_empty; asked := 10 |} in
  let f := λ (_ : DateTime) (d : Db), (d, Ok (size (t_connections d)) : result nat Error) in
  ∃ t, f t (pg_db s) =
    (pg_db (run (repository (λ _, 0) pg_config_example f) s).1, Ok 0%nat).
Proof.
  pose proof (repository_heals (λ _, 0) pg_config_example
    (λ (_ : DateTime) (d : Db), (d, Ok (size (t_connections d)) : result nat Error))
    {| client := Some 3%nat; pg_db := db_empty; asked := 10 |}) as H.
  destruct H as [t Ht].
  - intros n Hn. unfold connect_fault, dropped. by rewrite (proj2 (Nat.ltb_ge n 10)).
  - intros n c Hn Hc m Hm. unfold exec_fault, answers, dropped in *.
    destruct (10 <=? c)%nat eqn:E; [done|]. apply Nat.leb_gt in E.
    destruct Hc as [|[Hc _]]; [done|cbn in Hc; lia].
  - exists t. exact Ht.
Defined.

Example repository_down :
  run (repository (λ _, 0) pg_config_example (λ _ d, (d, Ok tt : result unit Error)))
    (PgContext_init db_empty) =
  ({| client := None; pg_db := db_empty; asked := 1 |},
   Some (Err (Error.Database "08001"))).
Proof. reflexivity. Qed.
