(* ===== verification/Stream.v ===== *)
(** * The server's metrics: worker, collector and streams

    [bin/api/metrics.rs], the collector of [bin/api/main.rs] and the websockets
    of [bin/api/http/handlers/metrics.rs], all on one store.  The store's maps
    are locked one by one, so storing a measurement is two actions and
    collecting garbage four, with whatever the others do between them; an
    aggregate is read in one. *)
From S2P Require Import Prelude Task Foreign Naming Metrics Wireguard Connection World.
Local Open Scope Z_scope.
Local Open Scope prog_scope.

Section stream.
Context {V : Type} `{!Oracle, !SeriesHash, !IterOrder}.
Notation Envelope := (MetricEnvelope (V := V)).
Notation Store := (MetricStorage (V := V)).
Notation point e := {| timestamp := e_timestamp e; value := e_value e |}.

(** [serde_json::json!] -- bin/api/http/handlers/metrics.rs:25-30

    The objects that are sent, here and at lines 71-76; their text is serde's. *)
Inductive WsMessage : Type :=
| Update (node_id : Uuid) (hash : Z) (data : list (Z * V))
| AggregatedUpdate (tag_key tag_value metric : string) (data : gmap Uuid (list (Z * V))).

(** The store, what was received for it, and what was sent to the clients. *)
Record MetricsWorld : Type := {
  ms_store : Store;
  ms_received : list Envelope;
  ms_sent : list WsMessage;
  ms_tick : nat;
}.
Notation W := MetricsWorld.
Implicit Type w : W.
Definition set_store (s : Store) w : W := {| ms_store := s; ms_received := ms_received w;
  ms_sent := ms_sent w; ms_tick := ms_tick w |}.
Definition note_received (l : list Envelope) w : W := {| ms_store := ms_store w;
  ms_received := ms_received w ++ l; ms_sent := ms_sent w; ms_tick := ms_tick w |}.
Definition note_sent (l : list WsMessage) w : W := {| ms_store := ms_store w;
  ms_received := ms_received w; ms_sent := ms_sent w ++ l; ms_tick := S (ms_tick w) |}.
Definition ms_ask {A} (f : nat → A) : Prog W A := Act (λ w, (note_sent [] w, f (ms_tick w))) Ret.
Definition on_store (f : Store → Store) : Prog W unit := modifies (λ w, set_store (f (ms_store w)) w).

(** ** The actions on the store *)

(** [MetricStorage::insert_envelope] -- metrics/storage.rs:100-112 *)
Definition insert_describe (e : Envelope) (self : Store) : Store :=
  let key := make_series_key (e_name e) (e_tags e) in
  match metadata self !! key with
  | Some _ => self
  | None =>
    {| inner := inner self;
       metadata := <[key := (e_name e, e_tags e)]> (metadata self);
       tag_index := foldr (λ '(k, v) idx, index_tag key k v idx) (tag_index self) (hiter (e_tags e));
       max_points := max_points self; retention_seconds := retention_seconds self |}
  end.
(** [MetricStorage::insert_envelope] -- metrics/storage.rs:114-136 *)
Definition insert_point (e : Envelope) (self : Store) : Store :=
  let key := make_series_key (e_name e) (e_tags e) in
  let node_map := default ∅ (inner self !! e_node_id e) in
  let entry := default [] (node_map !! key) in
  let entry := pop_excess (max_points self) (entry ++ [point e]) in
  let entry := pop_old (min_ts_of (e_timestamp e) (retention_seconds self)) entry in
  {| inner := <[e_node_id e := <[key := entry]> node_map]> (inner self);
     metadata := metadata self; tag_index := tag_index self;
     max_points := max_points self; retention_seconds := retention_seconds self |}.

(** [MetricStorage::perform_gc] -- metrics/storage.rs:213-226 *)
Definition gc_inner (now : DateTime) (self : Store) : Store :=
  let min_ts := min_ts_of (timestamp_millis now) (retention_seconds self) in
  {| inner := omap (gc_node min_ts) (inner self);
     metadata := metadata self; tag_index := tag_index self;
     max_points := max_points self; retention_seconds := retention_seconds self |}.
(** [MetricStorage::perform_gc] -- metrics/storage.rs:235-236 *)
Definition gc_metadata (alive_series : gset Z) (self : Store) : Store :=
  {| inner := inner self;
     metadata := filter (λ '(k, _), k ∈ alive_series) (metadata self);
     tag_index := tag_index self;
     max_points := max_points self; retention_seconds := retention_seconds self |}.
(** [MetricStorage::perform_gc] -- metrics/storage.rs:238-246 *)
Definition gc_index (alive_series : gset Z) (self : Store) : Store :=
  {| inner := inner self; metadata := metadata self;
     tag_index := omap (gc_tags alive_series) (tag_index self);
     max_points := max_points self; retention_seconds := retention_seconds self |}.

(** Undisturbed, the actions are the operations of [Metrics]. *)
Lemma insert_actions e (self : Store) : insert_point e (insert_describe e self) = insert_envelope e self.
Proof.
  unfold insert_point, insert_describe, insert_envelope.
  by destruct (metadata self !! make_series_key (e_name e) (e_tags e)) as [[]|].
Qed.
Lemma gc_actions now (self : Store) :
  let self1 := gc_inner now self in
  gc_index (alive (inner self1)) (gc_metadata (alive (inner self1)) self1) = perform_gc now self.
Proof. done. Qed.

(** ** The tasks *)

(** [MetricWorker::start] -- bin/api/metrics.rs:15-49

    One turn; [None] is a payload that does not decode. *)
Definition worker_turn (payload : option (list Envelope)) : Prog W unit :=
  match payload with
  | None => Ret tt
  | Some metrics =>
    modifies (note_received metrics);;
    for_each metrics (λ metric,
      on_store (insert_describe metric);; on_store (insert_point metric))
  end.

(** [main] -- bin/api/main.rs:96-108

    One round of the collector, on its own thread. *)
Definition collector_round : Prog W unit :=
  now <- ms_ask clock;;
  on_store (gc_inner now);;
  alive_series <- reads (λ w, alive (inner (ms_store w)));;
  on_store (gc_metadata alive_series);;
  on_store (gc_index alive_series).

(** [ws_tx.send(..).await.is_err()] *)
Definition ws_send (m : WsMessage) : Prog W bool :=
  Act (λ w, if ws_fault (ms_tick w) then (note_sent [] w, false) else (note_sent [m] w, true)) Ret.

(** the last ten minutes, in the release profile's arithmetic *)
Definition ten_min_ago (now_ms : Z) : Z := as_signed 64 (now_ms - 10 * 60 * 1000).
Definition pair_of (p : MetricPoint (V := V)) : Z * V := (timestamp p, value p).
Definition pairs_of (l : list (MetricPoint (V := V))) : list (Z * V) := pair_of <$> l.

(** [handle_ws_client] -- bin/api/http/handlers/metrics.rs:8-42

    The first [n] seconds. *)
Fixpoint handle_ws_client (n : nat) (node_id : Uuid) (series_hash : Z) : Prog W unit :=
  match n with
  | O => Ret tt
  | S n =>
    now <- ms_ask clock;;
    let now_ms := timestamp_millis now in
    points <- reads (λ w, get_range (ms_store w) node_id series_hash (ten_min_ago now_ms) now_ms);;
    match points with
    | [] => handle_ws_client n node_id series_hash
    | _ =>
      sent <- ws_send (Update node_id series_hash (pairs_of points));;
      if sent : bool then handle_ws_client n node_id series_hash else Ret tt
    end
  end.

(** [handle_aggregated_ws] -- bin/api/http/handlers/metrics.rs:44-91 *)
Fixpoint handle_aggregated_ws (n : nat) (tag_key tag_value metric_name : string) : Prog W unit :=
  match n with
  | O => Ret tt
  | S n =>
    now <- ms_ask clock;;
    let now_ms := timestamp_millis now in
    data <- reads (λ w, get_aggregated_range (ms_store w) tag_key tag_value metric_name
      (ten_min_ago now_ms) now_ms);;
    if decide (data = ∅) then handle_aggregated_ws n tag_key tag_value metric_name
    else
      sent <- ws_send (AggregatedUpdate tag_key tag_value metric_name
        (pairs_of <$> data));;
      if sent : bool then handle_aggregated_ws n tag_key tag_value metric_name else Ret tt
  end.

(** Everything that works on the store.  The two routes of the websockets ask for
    no token ([bin/api/http/routes.rs:219-244]). *)
Inductive metrics_service : Prog W unit → Prop :=
| streams_worker payload : metrics_service (worker_turn payload)
| streams_collector : metrics_service collector_round
| streams_client n node_id series_hash : metrics_service (handle_ws_client n node_id series_hash)
| streams_aggregate n k v name : metrics_service (handle_aggregated_ws n k v name).

(** ** Where the points come from *)
Definition key_of (e : Envelope) : Z := make_series_key (e_name e) (e_tags e).
Definition from_node (l : list Envelope) (node : Uuid) (key : Z) (tv : Z * V) : Prop :=
  ∃ e, e ∈ l ∧ e_node_id e = node ∧ key_of e = key ∧ tv = (e_timestamp e, e_value e).
Definition named_by (l : list Envelope) (name : string) (key : Z) : Prop :=
  ∃ e, e ∈ l ∧ e_name e = name ∧ key_of e = key.
Definition tagged_by (l : list Envelope) (k v : string) (key : Z) : Prop :=
  ∃ e, e ∈ l ∧ e_tags e !! k = Some v ∧ key_of e = key.

Record sourced (l : list Envelope) (s : Store) : Prop := {
  so_points : ∀ node series key points p, inner s !! node = Some series →
    series !! key = Some points → p ∈ points → from_node l node key (pair_of p);
  so_metadata : ∀ key name tags, metadata s !! key = Some (name, tags) → named_by l name key;
  so_index : ∀ k v key, key ∈ indexed (tag_index s) k v → tagged_by l k v key;
}.
(** what a client is sent *)
Definition true_to (l : list Envelope) (m : WsMessage) : Prop :=
  match m with
  | Update node hash data => data ≠ [] ∧ ∀ tv, tv ∈ data → from_node l node hash tv
  | AggregatedUpdate k v name data => ∀ node points, data !! node = Some points → points ≠ [] ∧
      ∃ key, named_by l name key ∧ tagged_by l k v key ∧ ∀ tv, tv ∈ points → from_node l node key tv
  end.
Record streams_true w : Prop := {
  st_sourced : sourced (ms_received w) (ms_store w);
  st_sent : ∀ m, m ∈ ms_sent w → true_to (ms_received w) m;
}.
Definition hears_more w w' : Prop := ∀ e, e ∈ ms_received w → e ∈ ms_received w'.
#[local] Instance hears_more_preorder : PreOrder hears_more.
Proof. split; [by intros w e|]. intros w1 w2 w3 H12 H23 e He. by apply H23, H12. Qed.

Section more.
Context (l l' : list Envelope) (Hl : ∀ e, e ∈ l → e ∈ l').
Lemma from_node_more node key tv : from_node l node key tv → from_node l' node key tv.
Proof using Hl. intros (e & He & ?). exists e. auto. Qed.
Lemma named_by_more name key : named_by l name key → named_by l' name key.
Proof using Hl. intros (e & He & ?). exists e. auto. Qed.
Lemma tagged_by_more k v key : tagged_by l k v key → tagged_by l' k v key.
Proof using Hl. intros (e & He & ?). exists e. auto. Qed.
Hint Resolve from_node_more named_by_more tagged_by_more : core.
Lemma sourced_more s : sourced l s → sourced l' s.
Proof using Hl. intros [Hp Hm Hi]. split; eauto. Qed.
Lemma true_to_more m : true_to l m → true_to l' m.
Proof using Hl.
  destruct m as [node hash data|k v name data]; cbn.
  - intros [Hne Hd]. eauto.
  - intros Hd node points Hp. destruct (Hd node points Hp) as (Hne & key & ? & ? & ?). eauto 10.
Qed.
End more.

(** ** Each action keeps it *)
Lemma sourced_describe l e s : e ∈ l → sourced l s → sourced l (insert_describe e s).
Proof.
  intros He [Hp Hm Hi]. unfold insert_describe. destruct (metadata s !! _) as [x|]; [done|].
  split; cbn [inner metadata tag_index]; [exact Hp| |].
  - intros key name tags [[<- [= <- <-]]|[_ Hk]]%lookup_insert_Some; [by exists e|by eapply Hm].
  - intros k v key [[-> Hin]|Hin]%elem_of_index_tags; [|by apply Hi].
    apply elem_of_hiter in Hin. by exists e.
Qed.
Lemma sourced_point l e s : e ∈ l → sourced l s → sourced l (insert_point e s).
Proof.
  intros He [Hp Hm Hi]. split; [|exact Hm|exact Hi]. intros node series key points p.
  unfold insert_point. cbn [inner]. intros [[<- <-]|[_ Hn]]%lookup_insert_Some; [|by eapply Hp].
  assert (∀ key points, default ∅ (inner s !! e_node_id e) !! key = Some points → ∀ p, p ∈ points →
    from_node l (e_node_id e) key (pair_of p)) as Hold.
  { intros key' pts Hk p' Hp'. destruct (inner s !! e_node_id e) as [sr|] eqn:Hs; [|done].
    by eapply Hp. }
  intros [[<- <-]|[_ Hk]]%lookup_insert_Some Hin; [|by eapply Hold].
  set (old := default [] _) in *.
  assert (p ∈ old ++ [point e]) as [Ho| ->%list_elem_of_singleton]%elem_of_app.
  { destruct (pop_excess_suffix (max_points s) (old ++ [point e])) as [pre1 ->].
    destruct (pop_old_suffix (min_ts_of (e_timestamp e) (retention_seconds s))
      (pop_excess (max_points s) (old ++ [point e]))) as (pre2 & -> & _). set_solver. }
  - subst old. destruct (default ∅ (inner s !! e_node_id e) !! _) as [pts|] eqn:Hk;
      [by eapply Hold|by apply not_elem_of_nil in Ho].
  - by exists e.
Qed.
Lemma sourced_gc_inner l now s : sourced l s → sourced l (gc_inner now s).
Proof.
  intros [Hp Hm Hi]. split; [|exact Hm|exact Hi]. intros node series key points p Hn Hs Hin.
  destruct (lookup_gc_inner _ _ _ _ _ _ Hn Hs) as (s0 & p0 & Hn0 & Hs0 & -> & _).
  eapply Hp; [done..|]. destruct (pop_old_suffix (min_ts_of (timestamp_millis now) (retention_seconds s)) p0)
    as (pre & -> & _). set_solver.
Qed.
Lemma sourced_gc_metadata l al s : sourced l s → sourced l (gc_metadata al s).
Proof.
  intros [Hp Hm Hi]. split; [exact Hp| |exact Hi]. intros key name tags [Hk _]%map_lookup_filter_Some.
  by eapply Hm.
Qed.
Lemma sourced_gc_index l al s : sourced l s → sourced l (gc_index al s).
Proof.
  intros [Hp Hm Hi]. split; [exact Hp|exact Hm|]. intros k v key. cbn [tag_index gc_index].
  rewrite indexed_gc. intros [Hk _]%elem_of_intersection. by apply Hi.
Qed.

Lemma in_range s node hash from to p :
  p ∈ get_range (s : Store) node hash from to →
  ∃ series points, inner s !! node = Some series ∧ series !! hash = Some points ∧ p ∈ points.
Proof.
  unfold get_range. destruct (inner s !! node) as [series|]; [|by intros ?%not_elem_of_nil].
  destruct (series !! hash) as [points|] eqn:Hs; [|by intros ?%not_elem_of_nil].
  intros [Hp _]%elem_of_keep. eauto.
Qed.
Lemma range_true l s node hash from to tv :
  sourced l s → tv ∈ pairs_of (get_range s node hash from to) → from_node l node hash tv.
Proof.
  intros Hs (p & -> & (series & points & Hn & Hk & Hp)%in_range)%list_elem_of_fmap.
  by eapply so_points.
Qed.
Lemma aggregate_true l s k v name from to :
  sourced l s → true_to l (AggregatedUpdate k v name
    (pairs_of <$> (get_aggregated_range s k v name from to))).
Proof.
  intros Hs node points. rewrite lookup_fmap.
  pose proof (aggregated_one_series s k v name from to node) as Ha. cbv zeta in Ha.
  destruct (get_aggregated_range s k v name from to !! node) as [pts|]; [|done].
  intros [= <-]. destruct Ha as (h & [Hh (tags & Hm)] & -> & Hne).
  split; [by destruct (get_range _ _ _ _ _)|]. exists h. split_and!.
  - by eapply so_metadata.
  - by apply (so_index _ _ Hs).
  - intros tv. by apply range_true.
Qed.

(** ** Every task keeps it *)
Notation keeps_true p w := (okp streams_true hears_more p w).

Lemma kt_on_store (f : Store → Store) w :
  onward streams_true hears_more (λ w, ∀ s, sourced (ms_received w) s → sourced (ms_received w) (f s)) w →
  keeps_true (on_store f) w.
Proof.
  intros Hf w1 Hg [Hs Hm]. assert (sourced (ms_received w1) (f (ms_store w1))) as Hs'
    by (by apply (Hf w1 Hg (Build_streams_true w1 Hs Hm))).
  split; [by split|]. split; [by intros e|]. by intros ? _ _.
Qed.
Lemma kt_on_store_any (f : Store → Store) w :
  (∀ l s, sourced l s → sourced l (f s)) → keeps_true (on_store f) w.
Proof. intros Hf. apply kt_on_store. intros w' _ _ s. apply Hf. Qed.
Lemma kt_ask {A} (f : nat → A) w : keeps_true (ms_ask f) w.
Proof.
  apply okp_act; [|by intros; apply okp_ret]. intros w' [Hs Hm]. split; [|by intros e]. split; [done|].
  cbn. intros m. rewrite app_nil_r. apply Hm.
Qed.
Lemma rg_range {A} (f : W → A) (P : A → list Envelope → Prop) w :
  (∀ l l' a, (∀ e, e ∈ l → e ∈ l') → P a l → P a l') →
  (∀ w, streams_true w → P (f w) (ms_received w)) →
  rg streams_true hears_more (reads f) (λ a w, P a (ms_received w)) w.
Proof.
  intros Hm Hf w1 _ HI. split_and!; [done|done|]. intros w2 Hg _. eapply Hm; [exact Hg|by apply Hf].
Qed.
Lemma kt_send (m : WsMessage) w :
  onward streams_true hears_more (λ w, true_to (ms_received w) m) w → keeps_true (ws_send m) w.
Proof.
  intros Hm w1 Hg HI. pose proof (Hm w1 Hg HI) as Ht. destruct HI as [Hs Hsent].
  unfold ws_send. cbn. destruct (ws_fault (ms_tick w1)); cbn; (split; [split; [done|cbn]|by split; [intros e|]]).
  - intros m'. rewrite app_nil_r. apply Hsent.
  - intros m' [Hin| ->%list_elem_of_singleton]%elem_of_app; [by apply Hsent|done].
Qed.

Lemma kt_worker payload w : keeps_true (worker_turn payload) w.
Proof.
  destruct payload as [metrics|]; [|by apply okp_ret]. unfold worker_turn.
  assert (∀ metrics w, (∀ e, e ∈ metrics → e ∈ ms_received w) →
    keeps_true (for_each metrics (λ metric,
      on_store (insert_describe metric);; on_store (insert_point metric))) w) as Hins.
  { clear. induction metrics as [|e metrics IH]; intros w Hin; [by apply okp_ret|].
    apply (rg_bind streams_true hears_more _ _ (λ _ _, True)).
    - apply (rg_bind streams_true hears_more _ _ (λ _ _, True)); [apply kt_on_store|intros [] w1 Hg _ _; apply kt_on_store].
      + intros w' Hg _ s. apply sourced_describe, Hg, Hin. left.
      + intros w' Hg' _ s. apply sourced_point, Hg', Hg, Hin. left.
    - intros [] w1 Hg _ _. apply IH. intros e' He'. apply Hg, Hin. by right. }
  eapply (rg_bind streams_true hears_more _ _ (λ _ w, ∀ e, e ∈ metrics → e ∈ ms_received w)).
  - intros w1 _ [Hs Hm]. assert (∀ e, e ∈ ms_received w1 → e ∈ ms_received w1 ++ metrics) as Hmore
      by set_solver. split_and!.
    + split; cbn; [by eapply sourced_more|]. intros m Hin. eapply true_to_more; [exact Hmore|by apply Hm].
    + exact Hmore.
    + intros w2 Hg _ e He. apply Hg. cbn. set_solver.
  - intros [] w1 _ HI Hin. apply (rg_delay streams_true hears_more). intros w2 Hg2 HI2. apply Hins.
    intros e He. by apply (Hin w2 Hg2 HI2).
Qed.
Lemma kt_collector w : keeps_true collector_round w.
Proof.
  unfold collector_round.
  apply (okp_bind streams_true hears_more); [apply kt_ask|]. intros now w1.
  apply (okp_bind streams_true hears_more);
    [apply kt_on_store_any; intros; by apply sourced_gc_inner|]. intros [] w2.
  apply (okp_bind streams_true hears_more); [apply okp_act; [done|by intros; apply okp_ret]|]. intros al w3.
  apply (okp_bind streams_true hears_more);
    [apply kt_on_store_any; intros; by apply sourced_gc_metadata|]. intros [] w4.
  apply kt_on_store_any; intros; by apply sourced_gc_index.
Qed.
Lemma kt_client n node hash w : keeps_true (handle_ws_client n node hash) w.
Proof.
  revert w. induction n as [|n IH]; intros w; [by apply okp_ret|]. cbn [handle_ws_client].
  apply (okp_bind streams_true hears_more); [apply kt_ask|]. intros now w1.
  eapply (rg_bind streams_true hears_more); [apply (rg_range _ (λ points l, ∀ tv,
    tv ∈ pairs_of points → from_node l node hash tv))|].
  - intros l l' a Hl Hp tv Htv. eapply from_node_more; [exact Hl|by apply Hp].
  - intros w' [Hs _] tv. by apply range_true.
  - intros points w2 _ _ Hp. destruct points as [|p points]; [apply IH|].
    apply (okp_bind streams_true hears_more); [|intros [] w3; [apply IH|by apply okp_ret]].
    apply kt_send. intros w3 Hg3 HI3. split; [done|]. by apply Hp.
Qed.
Lemma kt_aggregate n k v name w : keeps_true (handle_aggregated_ws n k v name) w.
Proof.
  revert w. induction n as [|n IH]; intros w; [by apply okp_ret|]. cbn [handle_aggregated_ws].
  apply (okp_bind streams_true hears_more); [apply kt_ask|]. intros now w1.
  eapply (rg_bind streams_true hears_more); [apply (rg_range _
      (λ (data : gmap Uuid (list (MetricPoint (V := V)))) l,
    true_to l (AggregatedUpdate k v name (pairs_of <$> data))))|].
  - intros l l' a Hl. by apply true_to_more.
  - intros w' [Hs _]. by apply aggregate_true.
  - intros data w2 _ _ Hp. destruct (decide (data = ∅)); [apply IH|].
    apply (okp_bind streams_true hears_more); [|intros [] w3; [apply IH|by apply okp_ret]].
    by apply kt_send.
Qed.

(** C34: a client is sent what its node reported.  In every interleaving of the
    worker, the collector and the streams: whatever is sent on a stream of one
    series are measurements that were received from that node for that series.
    Whatever is sent on a stream of an aggregate, for a node, are measurements
    received from that node, all of one series: its key, a 64-bit hash, is that
    of a received measurement of the metric asked for and that of a received
    measurement with the tag asked for.  As long as no two measurements received
    collide, each was therefore itself of that metric and with that tag. *)
Theorem stream_provenance (w0 w : W) (Hstart : streams_true w0)
    (Hreach : reachable metrics_service w0 w) :
  (∀ node hash data t v, Update node hash data ∈ ms_sent w → (t, v) ∈ data →
    ∃ e, e ∈ ms_received w ∧ e_node_id e = node ∧ key_of e = hash ∧
      e_timestamp e = t ∧ e_value e = v) ∧
  (∀ tag_key tag_value metric data node points,
    AggregatedUpdate tag_key tag_value metric data ∈ ms_sent w → data !! node = Some points →
    ∃ key e1 e2, 0 ≤ key < 2 ^ 64 ∧
      e1 ∈ ms_received w ∧ e_name e1 = metric ∧ key_of e1 = key ∧
      e2 ∈ ms_received w ∧ e_tags e2 !! tag_key = Some tag_value ∧ key_of e2 = key ∧
      ∀ t v, (t, v) ∈ points →
        ∃ e, e ∈ ms_received w ∧ e_node_id e = node ∧ key_of e = key ∧
          e_timestamp e = t ∧ e_value e = v ∧
          ((∀ e e', e ∈ ms_received w → e' ∈ ms_received w → key_of e = key_of e' →
              e_name e = e_name e' ∧ e_tags e = e_tags e') →
           e_name e = metric ∧ e_tags e !! tag_key = Some tag_value)).
Proof.
  assert (streams_true w) as [_ Hsent].
  { apply (pool_invariant streams_true hears_more metrics_service w0 w); [|done..]. intros p w' [].
    - apply kt_worker.
    - apply kt_collector.
    - apply kt_client.
    - apply kt_aggregate. }
  split.
  - intros node hash data t v Hin Htv. destruct (Hsent _ Hin) as [_ Hd].
    destruct (Hd _ Htv) as (e & ? & ? & ? & [= -> ->]). by exists e.
  - intros k v' name data node points Hin Hp.
    destruct (Hsent _ Hin node points Hp) as (_ & key & (e1 & He1 & Hn & <-) & (e2 & He2 & Ht & Hk2) & Hd).
    exists (key_of e1), e1, e2. split; [apply series_digest_u64|]. split_and!; try done.
    intros t v Htv. destruct (Hd _ Htv) as (e & He & Hnode & Hk & [= -> ->]).
    exists e. split_and!; try done. intros Hcoll.
    destruct (Hcoll e e1 He He1 Hk) as [-> _]. destruct (Hcoll e e2 He He2) as [_ ->]; [congruence|done].
Qed.
End stream.

(** ** Runs *)
Definition measured (ts : Z) : MetricEnvelope (V := Z) := {|
  e_node_id := 1%N; e_name := "cpu"; e_value := 5; e_timestamp := ts;
  e_tags := {[ "env" := "dev" ]} |}.
Definition no_data : MetricsWorld (V := Z) :=
  {| ms_store := new 10 60; ms_received := []; ms_sent := []; ms_tick := 0 |}.
Lemma no_data_true : streams_true no_data.
Proof.
  split; [split|]; cbn.
  - intros node series key points p Hn. by rewrite lookup_empty in Hn.
  - intros key name tags Hm. by rewrite lookup_empty in Hm.
  - intros k v key. unfold indexed. rewrite lookup_empty. by intros ?%elem_of_empty.
  - by intros m ?%not_elem_of_nil.
Qed.

(** A measurement received and streamed. *)
Definition streamed : list (Prog (MetricsWorld (V := Z)) unit) * MetricsWorld (V := Z) :=
  schedule (replicate 3 0 ++ replicate 3 1)%nat
    ([worker_turn (Some [measured (-1000)]);
      handle_aggregated_ws 1 "env" "dev" "cpu"], no_data).
Lemma streamed_reachable : reachable metrics_service no_data streamed.2.
Proof.
  exists streamed.1. rewrite <- surjective_pairing.
  eapply rtc_l; [apply step_spawn, (streams_aggregate 1 "env" "dev" "cpu")|].
  eapply rtc_l; [apply step_spawn, (streams_worker (Some [measured (-1000)]))|]. apply schedule_steps.
Qed.
Lemma stream_provenance_witness :
  streams_true no_data ∧ reachable metrics_service no_data streamed.2 ∧
  AggregatedUpdate "env" "dev" "cpu" {[ 1%N := [(-1000, 5)] ]} ∈ ms_sent streamed.2 ∧
  ∃ e, e ∈ ms_received streamed.2 ∧ e_node_id e = 1%N ∧ e_name e = "cpu".
Proof.
  split; [exact no_data_true|]. split; [exact streamed_reachable|].
  assert (AggregatedUpdate "env" "dev" "cpu" {[ 1%N := [(-1000, 5)] ]} ∈ ms_sent streamed.2) as Hin
    by (replace (ms_sent streamed.2) with
          [AggregatedUpdate "env" "dev" "cpu" {[ 1%N := [(-1000, 5)] ]}] by (vm_compute; reflexivity); left).
  split; [exact Hin|].
  destruct (proj2 (stream_provenance no_data streamed.2 no_data_true streamed_reachable)
    _ _ _ _ 1%N [(-1000, 5)] Hin) as (key & e1 & e2 & _ & _ & _ & _ & _ & _ & _ & Hd); [reflexivity|].
  destruct (Hd (-1000) 5) as (e & He & Hn & _ & _ & _ & Hm); [left|].
  exists e. split; [exact He|]. split; [exact Hn|]. apply Hm.
  replace (ms_received streamed.2) with [measured (-1000)] by (vm_compute; reflexivity).
  intros a b ->%list_elem_of_singleton ->%list_elem_of_singleton _. split; reflexivity.
Defined.

(** The collector has noted the series that are alive; a measurement of another
    one comes in before it forgets what is not among them. *)
Definition forgotten : list (Prog (MetricsWorld (V := Z)) unit) * MetricsWorld (V := Z) :=
  schedule (replicate 3 0 ++ replicate 3 1 ++ replicate 3 2 ++ replicate 2 1)%nat
    ([worker_turn (Some [measured (-100000)]); collector_round; worker_turn (Some [measured 0])], no_data).

(** The collector can forget a series that has just been measured.  It notes
    which series are alive, then drops the descriptions and index entries of
    all others; a measurement stored between the two is kept in a series that
    has no description and is in no index, so no aggregate shows it until the
    node measures again. *)
Theorem collector_forgets : ∃ w, reachable metrics_service no_data w ∧
  (∃ series, inner (ms_store w) !! 1%N = Some series ∧
    series !! key_of (measured 0) = Some [{| timestamp := 0; value := 5 |}]) ∧
  metadata (ms_store w) !! key_of (measured 0) = None ∧
  find_series_by_tag (ms_store w) "env" "dev" = ∅ ∧
  get_aggregated_range (ms_store w) "env" "dev" "cpu" (-600000) 0 = ∅.
Proof.
  exists forgotten.2. split.
  { exists forgotten.1. rewrite <- surjective_pairing.
    eapply rtc_l; [apply step_spawn, (streams_worker (Some [measured 0]))|].
    eapply rtc_l; [apply step_spawn, streams_collector|].
    eapply rtc_l; [apply step_spawn, (streams_worker (Some [measured (-100000)]))|]. apply schedule_steps. }
  split; [eexists; split; vm_compute; reflexivity|].
  split_and!; vm_compute; reflexivity.
Qed.
