(* ===== verification/Trials.v ===== *)
(** * The record of trials

    [bin/api/email.rs]: which addresses have had a trial, under a keyed digest,
    in memory and in a file that is read again when the server starts.  The
    mail is in [Mail]. *)
From S2P Require Import Prelude Task Foreign World.
Local Open Scope Z_scope.
Local Open Scope prog_scope.

(** [hex::encode] *)
Definition hex_encode (l : list Z) : string :=
  Str.join "" ((λ b, String.string_of_list_ascii (rev (UuidHex.digits 2 (Z.to_N b)))) <$> l).

Definition newline : ascii := ascii_of_nat 10.

(** [lines]: a line loses one carriage return at its end. *)
Fixpoint strip_cr (s : string) : string :=
  match s with
  | EmptyString => EmptyString
  | String c EmptyString => if decide (c = ascii_of_nat 13) then EmptyString else s
  | String c s => String c (strip_cr s)
  end.

Section trials.
Context `{!Oracle, !UuidText, !Hmac, !Rfc3339}.

(** [EmailStore::hmac_email] -- bin/api/email.rs:44-49 *)
Definition hmac_email (secret : list Z) (email : string) : string :=
  hex_encode (hmac_sha256 secret (str_bytes email)).

(** [EmailStore::check_email_hmac] -- bin/api/email.rs:51-55 *)
Definition check_email_hmac (secret : list Z) (email : string) : IO bool :=
  reads (λ w, bool_decide (is_Some (emails w !! hmac_email secret email))).

(** [EmailStore::save_trial_hmac] -- bin/api/email.rs:77-83

    The line. *)
Definition trial_line (secret : list Z) (email : string) (sub_id : Uuid) (time : DateTime)
    (ref_by : string) : string :=
  to_rfc3339 time +:+ String "," (hmac_email secret email +:+ String "," (uuid_str sub_id +:+
    String "," (ref_by +:+ String newline ""))).

(** [EmailStore::save_trial_hmac] -- bin/api/email.rs:71-85

    Opening the file and appending to it, of which either may fail.  The line is
    taken as written when [write_all] returns, and a failure as reported; tokio
    hands the bytes to a thread and need not wait for it. *)
Definition append_line (line : string) : IO (result unit string) :=
  opened <- ask file_fault;;
  match opened with
  | Some e => Ret (Err e)
  | None =>
    Act (λ w,
      let file := default "" (email_file w) in
      match file_fault (tick w) with
      | None => (bump (set_email_file (Some (file +:+ line)) w), Ok tt)
      | Some e =>
        let written := String.substring 0 (file_partial (tick w)) line in
        (bump (set_email_file (Some (file +:+ written)) w), Err e)
      end) Ret
  end.

(** [EmailStore::save_trial_hmac] -- bin/api/email.rs:57-88 *)
Definition save_trial_hmac (secret : list Z) (email : string) (sub_id : Uuid) (time : DateTime)
    (ref_by : string) : IO (result unit string) :=
  modifies (λ w, set_emails (<[hmac_email secret email := time]> (emails w)) w);;
  append_line (trial_line secret email sub_id time ref_by).

(** [EmailStore::load_trials] -- bin/api/email.rs:101-109

    One line of the file; one that is not of the form is skipped. *)
Definition load_line (map : gmap string DateTime) (line : string) : gmap string DateTime :=
  match Str.split "," line with
  | time :: hmac :: _ =>
    match parse_rfc3339 time with Some ts => <[hmac := ts]> map | None => map end
  | _ => map
  end.

(** the record that the file's text holds *)
Definition recorded (content : string) : gmap string DateTime :=
  foldl load_line ∅ (strip_cr <$> Str.split newline content).

(** [EmailStore::load_trials] -- bin/api/email.rs:90-115

    A file that cannot be opened leaves the store alone. *)
Definition load_trials : IO (result unit string) :=
  opened <- ask file_fault;;
  file <- reads email_file;;
  match opened, file with
  | None, Some content =>
    e <- ask file_fault;;
    match e with
    | Some e => Ret (Err e)
    | None => modifies (set_emails (recorded content));; Ret (Ok tt)
    end
  | _, _ => Ret (Ok tt)
  end.

(** ** The file holds the record *)

(** Text that ends where a line does. *)
Definition complete (s : string) : Prop := s = "" ∨ ∃ t, s = t +:+ String newline "".

(** What is written of the trials, and whether it names a digest. *)
Definition ledger (w : World) : string := default "" (email_file w).
Definition on_file (k : string) (w : World) : Prop := is_Some (recorded (ledger w) !! k).

Lemma split_nonempty sep s : Str.split sep s ≠ [].
Proof. destruct s; cbn; [done|]. case_decide; [done|]. by destruct (Str.split _ _). Qed.

Lemma split_app_any sep s t : ∃ ps p,
  Str.split sep s = ps ++ [p] ∧
  Str.split sep (s +:+ t) = ps ++ match Str.split sep t with
                                  | [] => [p] | q :: qs => (p +:+ q) :: qs end.
Proof.
  induction s as [|c s (ps & p & Hs & Ht)]; cbn.
  - exists [], "". pose proof (split_nonempty sep t). by destruct (Str.split sep t).
  - change (String.append s t) with (s +:+ t). rewrite Hs, Ht. case_decide.
    + by exists (EmptyString :: ps), p.
    + destruct ps as [|q ps].
      * exists [], (String c p). split; [done|]. by destruct (Str.split sep t).
      * by exists (String c q :: ps), p.
Qed.

(** More text is more lines to read. *)
Lemma recorded_app s t :
  complete s → recorded (s +:+ t) = foldl load_line (recorded s) (strip_cr <$> Str.split newline t).
Proof.
  intros Hs. unfold recorded.
  destruct (split_app_any newline s t) as (ps & p & Hp & ->).
  assert (p = "") as ->.
  { destruct Hs as [->|[u ->]].
    - destruct ps as [|? [|]]; by injection Hp.
    - destruct (split_app_any newline u (String newline "")) as (ps' & p' & _ & Hp').
      rewrite Hp in Hp'. change (ps ++ [p] = ps' ++ ([p' +:+ ""] ++ [""])) in Hp'.
      rewrite (assoc app) in Hp'. by apply app_inj_tail in Hp' as [_ ->]. }
  pose proof (split_nonempty newline t) as Hne. rewrite Hp.
  destruct (Str.split newline t) as [|q qs]; [done|].
  rewrite !fmap_app, !foldl_app. by destruct q.
Qed.

Lemma load_line_grows m l k : is_Some (m !! k) → is_Some (load_line m l !! k).
Proof.
  intros Hk. unfold load_line. repeat case_match; try done. by apply lookup_insert_is_Some'; right.
Qed.
Lemma load_lines_grow ls m k : is_Some (m !! k) → is_Some (foldl load_line m ls !! k).
Proof. revert m. induction ls as [|l ls IH]; intros m Hk; [done|]. by apply IH, load_line_grows. Qed.

Lemma strip_cr_app s c t : strip_cr (s +:+ String c t) = s +:+ strip_cr (String c t).
Proof.
  induction s as [|a s IH]; [done|].
  change (strip_cr (String a (s +:+ String c t)) = String a (s +:+ strip_cr (String c t))).
  rewrite <- IH. by destruct s.
Qed.
Lemma strip_cr_comma s : ∃ t, strip_cr (String "," s) = String "," t.
Proof. destruct s; by eexists. Qed.

Lemma hex_encode_plain l :
  Str.all (λ c, c ≠ ","%char ∧ c ≠ newline) (hex_encode l).
Proof.
  assert (∀ b, Str.all (λ c, c ≠ ","%char ∧ c ≠ newline)
    (String.string_of_list_ascii (rev (UuidHex.digits 2 b)))) as Hd.
  { intros b. unfold Str.all. rewrite String.list_ascii_of_string_of_list_ascii.
    apply Forall_rev, UuidHex.Forall_digits, InstantHex.digit_plain. }
  unfold hex_encode. induction l as [|b [|b' l] IH]; [constructor|apply Hd|].
  cbn [fmap list_fmap Str.join]. apply StrFacts.all_app. split; [apply Hd|exact IH].
Qed.

(** The line of a trial, whatever the referral code at its end, read back. *)
Lemma load_trial_line m secret email sub_id time ref_by :
  0 <= time < 253402300800 * NANOS →
  ∃ l ls, Str.split newline (trial_line secret email sub_id time ref_by) = l :: ls ∧
    load_line m (strip_cr l) = <[hmac_email secret email := time]> m.
Proof.
  intros Ht. set (tail := uuid_str sub_id +:+ String "," (ref_by +:+ String newline "")).
  pose proof (to_rfc3339_chars time) as Hts.
  pose proof (hex_encode_plain (hmac_sha256 secret (str_bytes email))) as Hhm.
  fold (hmac_email secret email) in Hhm. set (hm := hmac_email secret email) in *.
  assert (trial_line secret email sub_id time ref_by =
    (to_rfc3339 time +:+ String "," hm) +:+ String "," tail) as ->
    by (unfold trial_line; rewrite StrFacts.app_assoc; done).
  assert (Str.all (λ c, c ≠ newline) (to_rfc3339 time +:+ String "," hm)) as Hl.
  { apply StrFacts.all_app. split; [eapply StrFacts.all_impl, Hts; by intros ? []|].
    constructor; [done|]. eapply StrFacts.all_impl, Hhm; by intros ? []. }
  destruct (split_app_any newline (to_rfc3339 time +:+ String "," hm) (String "," tail))
    as (ps & p & Hp & ->).
  rewrite StrFacts.split_no_sep in Hp by done. destruct ps as [|? [|]]; [|by injection Hp..].
  injection Hp as <-. cbn [Str.split app]. rewrite decide_False by done.
  pose proof (split_nonempty newline tail) as Hne.
  destruct (Str.split newline tail) as [|q qs]; [done|].
  exists ((to_rfc3339 time +:+ String "," hm) +:+ String "," q), qs. split; [done|].
  rewrite strip_cr_app. destruct (strip_cr_comma q) as [t ->].
  rewrite StrFacts.app_assoc. unfold load_line.
  change (String "," hm +:+ String "," t) with (String "," (hm +:+ String "," t)).
  rewrite StrFacts.split_app by (eapply StrFacts.all_impl, Hts; by intros ? []).
  rewrite StrFacts.split_app by (eapply StrFacts.all_impl, Hhm; by intros ? []).
  by rewrite parse_to_rfc3339.
Qed.

Lemma trial_line_complete secret email sub_id time ref_by s :
  complete (s +:+ trial_line secret email sub_id time ref_by).
Proof.
  right. unfold trial_line.
  exists (s +:+ to_rfc3339 time +:+ String "," (hmac_email secret email +:+
    String "," (uuid_str sub_id +:+ String "," ref_by))).
  rewrite !StrFacts.app_assoc. f_equal. f_equal. cbn [String.append].
  f_equal. rewrite StrFacts.app_assoc. cbn [String.append]. f_equal. f_equal.
  rewrite StrFacts.app_assoc. done.
Qed.

(** What the record of trials goes through while no file operation fails: lines
    are added, and no digest is forgotten, in memory or in the file. *)
Definition trials_kept (w w' : World) : Prop :=
  ∀ k, (is_Some (emails w !! k) → is_Some (emails w' !! k)) ∧ (on_file k w → on_file k w').
#[export] Instance trials_kept_preorder : PreOrder trials_kept.
Proof.
  split; [by intros w k|]. intros w1 w2 w3 H12 H23 k.
  split; intros Hk; by apply H23, H12.
Qed.

Lemma run_append_trial secret email sub_id time ref_by w :
  (∀ n, file_fault n = None) → complete (ledger w) →
  let '(w', _) := run (append_line (trial_line secret email sub_id time ref_by)) w in
  complete (ledger w') ∧ trials_kept w w' ∧ emails w' = emails w ∧
  (0 <= time < 253402300800 * NANOS → on_file (hmac_email secret email) w').
Proof.
  intros Hf Hc. cbn. rewrite Hf. cbn. rewrite Hf. unfold trials_kept, on_file, ledger.
  cbn -[recorded]. fold (ledger w). split_and!; [apply trial_line_complete| |done|].
  - intros k. split; [done|]. rewrite recorded_app by done. apply load_lines_grow.
  - intros Ht. rewrite recorded_app by done.
    destruct (load_trial_line (recorded (ledger w)) secret email sub_id time ref_by Ht)
      as (l & ls & -> & Hl).
    cbn. rewrite Hl. apply load_lines_grow. by rewrite lookup_insert_eq.
Qed.

Lemma run_append_emails line w : emails (run (append_line line) w).1 = emails w.
Proof. cbn. destruct (file_fault _); cbn; [done|]. by destruct (file_fault _). Qed.
End trials.
