(* ===== verification/Sync.v ===== *)
(** * Synchronised operations

    [bin/api/sync/tasks.rs] and the cache's side of it in
    [bin/api/postgres/pg.rs] and [bin/api/tasks.rs]: every operation that
    touches the cache, the database and the bus together.  [update_sub] and
    the blocks that change the cache hold its lock and are single actions
    ([atomic]); between any two actions of an operation other tasks may run.

    [get_state_from_db] holds the cache's write lock from its first read of
    the database to its end.  Here its three reads and its write are four
    actions, so the model also has the interleavings in which another task
    changes the cache between them: what holds in every interleaving of the
    model holds in those the lock allows. *)
From S2P Require Import Prelude Task Foreign Naming Wireguard Connection ConnStore Subscription.
From S2P Require Import Key Node Db World.
Local Open Scope Z_scope.
Local Open Scope pony_scope.
Local Open Scope prog_scope.

(** [Subscription] -- bin/api/http/request.rs:54-60 *)
Record SubReq : Set := {
  sr_referred_by : option string;
  sr_refer_code : option string;
  sr_days : option Z;
  sr_limit_bytes : option Z;
}.

(** [SyncResult] -- bin/api/sync/tasks.rs:14-14 *)
Definition SyncResult (A : Type) : Type := result A SyncError.

(** [Validate for Node] -- bin/api/sync/tasks.rs:21-25 *)
Definition node_validate (_ : Node) : SyncResult unit := Ok tt.
(** [Validate for Connection] -- bin/api/sync/tasks.rs:27-31 *)
Definition conn_validate (_ : Conn) : SyncResult unit := Ok tt.

(** the topic a connection's changes are announced on *)
Definition conn_topic (conn : Conn) : Topic :=
  if is_some (get_token conn) then Topic.Auth else Topic.of_env (Conn.env conn).

Section sync.
Context `{!Oracle, !Postgres, !Ipv6Text, !UuidText, !IterOrder, !Chrono}.

(** [SyncOp::add_node] -- bin/api/sync/tasks.rs:87-133 *)
Definition add_node (node_id : Uuid) (node : Node) : IO (SyncResult Status) :=
  match node_validate node with
  | Err e => Ret (Err e)
  | Ok _ =>
    r <- db_do (λ _, pg_node_upsert node_id node);;
    match r with
    | Err e => Ret (Err (SyncError.Database e))
    | Ok _ =>
      result <- update_mem (λ m,
        let '(ns, r) := NodeStore.add (nodes m) node in (cache_nodes (λ _, ns) m, r));;
      Ret match result with
          | Ok (Status.Ok _) | Ok (Status.AlreadyExist _) => Ok (Status.Ok node_id)
          | Ok (Status.Updated _) => Ok (Status.Ok node_id)
          | Ok (Status.NotModified id) => Ok (Status.NotModified id)
          | Ok other =>
            Err (SyncError.Memory ("Unexpected operation status: " +:+ Status.debug other))
          | Err e => Err (SyncError.Memory (Error.fmt e))
          end
    end
  end.

(** [SyncOp::add_sub] -- bin/api/sync/tasks.rs:135-181 *)
Definition add_sub (sub : Subscription) : IO (SyncResult Status) :=
  r <- db_do (λ now, pg_sub_create now sub);;
  match r with
  | Err e => Ret (Err (SyncError.Database e))
  | Ok _ =>
    result <- update_mem (λ m,
      let '(ss, st) := Subscriptions.add (subscriptions m) sub in (cache_subs (λ _, ss) m, st));;
    Ret match result with
        | Status.Ok id => Ok (Status.Ok id)
        | Status.Updated id => Ok (Status.Updated id)
        | Status.AlreadyExist id => Ok (Status.AlreadyExist id)
        | Status.BadRequest id msg => Ok (Status.BadRequest id msg)
        | other =>
          Err (SyncError.Memory ("Unexpected operation status: " +:+ Status.debug other))
        end
  end.

(** [SyncOp::add_conn] -- bin/api/sync/tasks.rs:183-235 *)
Definition add_conn (conn_id : Uuid) (conn : Conn) : IO (SyncResult Status) :=
  match conn_validate conn with
  | Err e => Ret (Err e)
  | Ok _ =>
    let conn_row := ConnRow.from conn_id conn in
    r <- db_do (λ _, pg_conn_insert conn_row);;
    match r with
    | Err e => Ret (Err (SyncError.Database e))
    | Ok _ =>
      result <- update_mem (λ m,
        let '(cs, r) := api_add (connections m) conn_id conn in (cache_conns (λ _, cs) m, r));;
      Ret match result with
          | Ok (Status.Ok id) | Ok (Status.AlreadyExist id) => Ok (Status.Ok id)
          | Ok (Status.BadRequest id msg) => Ok (Status.BadRequest id msg)
          | Ok other =>
            Err (SyncError.Memory ("Unexpected operation status: " +:+ Status.fmt other))
          | Err e => Err (SyncError.Memory (Error.fmt e))
          end
    end
  end.

(** [memory.connections.get_mut(conn_id)] with [set_deleted] and
    [set_modified_at] *)
Definition mark_conn (conn_id : Uuid) (deleted : bool) : IO unit :=
  t <- now;;
  write_mem (cache_conns (alter (λ c, set_modified_at t (set_deleted deleted c)) conn_id)).

(** [SyncOp::delete_connection] -- bin/api/sync/tasks.rs:237-301 *)
Definition delete_connection (conn_id : Uuid) (conn : Conn) : IO (SyncResult Status) :=
  existing <- read_mem (λ m, connections m !! conn_id);;
  match existing with
  | None => Ret (Ok (Status.NotFound conn_id))
  | Some existing =>
    if get_deleted existing then Ret (Ok (Status.NotModified conn_id))
    else
      r <- db_do (λ _, pg_conn_delete conn_id);;
      match r with
      | Err e => Ret (Err (SyncError.Database e))
      | Ok _ =>
        let msg := [as_delete_message conn conn_id] in
        let topic := conn_topic conn in
        b <- to_bytes msg;;
        match b with
        | Err e => Ret (Err (SyncError.RkyvSerialize e))
        | Ok bytes =>
          s <- send_binary topic bytes;;
          match s with
          | Err e => Ret (Err (SyncError.Zmq e))
          | Ok _ => mark_conn conn_id true;; Ret (Ok (Status.Ok conn_id))
          end
        end
      end
  end.

(** [SyncOp::restore_connection] -- bin/api/sync/tasks.rs:386-423 *)
Definition restore_connection (conn_id : Uuid) : IO (SyncResult Status) :=
  current <- read_mem (λ m, connections m !! conn_id);;
  match current with
  | None => Ret (Ok (Status.NotFound conn_id))
  | Some _ =>
    r <- db_do (λ _, pg_conn_restore conn_id);;
    match r with
    | Err e => Ret (Err (SyncError.Database e))
    | Ok _ => mark_conn conn_id false;; Ret (Ok (Status.Ok conn_id))
    end
  end.

(** the future of one connection in [restore_connections_by_subscription] *)
Definition restore_task (cc : Uuid * Conn) : IO (option Uuid) :=
  let '(conn_id, conn) := cc in
  b <- to_bytes [as_update_message conn conn_id];;
  match b with
  | Err _ => Ret None
  | Ok bytes =>
    s <- send_binary (conn_topic conn) bytes;;
    match s with
    | Err _ => Ret None
    | Ok _ =>
      r <- restore_connection conn_id;;
      Ret match r with
          | Ok (Status.Ok _) | Ok (Status.Updated _) => Some conn_id
          | _ => None
          end
    end
  end.

(** [SyncOp::restore_connections_by_subscription] -- bin/api/sync/tasks.rs:303-384 *)
Definition restore_connections_by_subscription (sub_id : Uuid) : IO (SyncResult (list Uuid)) :=
  conns_to_restore <- read_mem (λ m,
    match get_by_subscription_id (connections m) sub_id with
    | Some conns => keep (λ '(_, c), get_deleted c) conns
    | None => []
    end);;
  match conns_to_restore with
  | [] => Ret (Ok [])
  | _ =>
    results <- join_all turn (restore_task <$> conns_to_restore);;
    Ret (Ok (omap id results))
  end.

(** [SyncOp::update_node_status] -- bin/api/sync/tasks.rs:425-480 *)
Definition update_node_status (uuid : Uuid) (env : Env) (status : NodeStatus) :
    IO (SyncResult unit) :=
  current_node <- read_mem (λ m, NodeStore.get (nodes m) env uuid);;
  match current_node with
  | None => Ret (Ok tt)
  | Some node =>
    if NodeStatus.eq (Node.status node) status then Ret (Ok tt)
    else
      r <- db_do (λ now, pg_node_update_status now uuid (Env.fmt env) status);;
      match r with
      | Err e => Ret (Err (SyncError.Database e))
      | Ok _ =>
        u <- update_mem (λ m,
          let '(ns, r) := NodeStore.get_mut (nodes m) env uuid (Node.update_status status) in
          (cache_nodes (λ _, ns) m, r));;
        Ret match u with
            | Some (Err e) => Err (SyncError.Memory e)
            | _ => Ok tt
            end
      end
  end.

(** what [update_sub] does to the entry it found *)
Definition update_entry (req : SubReq) (sub : Subscription) : IO Subscription :=
  sub <- match sr_days req with
         | Some days =>
           t <- now;;
           match Subscription.extend t days sub with Some sub => Ret sub | None => Panic end
         | None => Ret sub
         end;;
  let sub := match sr_referred_by req with
             | Some ref_by => Subscription.set_referred_by ref_by sub | None => sub end in
  let sub := match sr_refer_code req with
             | Some ref_code => Subscription.set_refer_code ref_code sub | None => sub end in
  Ret match sr_limit_bytes req with
      | Some limit_bytes => Subscription.set_limit_bytes limit_bytes sub | None => sub end.

(** [SyncOp::update_sub] -- bin/api/sync/tasks.rs:482-533 *)
Definition update_sub (sub_id : Uuid) (req : SubReq) : IO (SyncResult Status) :=
  atomic (
    found <- read_mem (λ m, Subscriptions.find_by_id (subscriptions m) sub_id);;
    match found with
    | None => Ret (Ok (Status.NotFound sub_id))
    | Some sub =>
      sub <- update_entry req sub;;
      write_mem (cache_subs (<[sub_id := sub]>));;
      match Subscription.expires_at sub with
      | None => Ret (Err (SyncError.InconsistentState "Subscription" sub_id))
      | Some expires_at =>
        r <- db_do (λ now, pg_sub_update now sub_id expires_at
               (Subscription.get_referred_by sub) (Subscription.get_refer_code sub));;
        match r with
        | Err e => Ret (Err (SyncError.Database e))
        | Ok _ => Ret (Ok (Status.Updated sub_id))
        end
      end
    end).

(** the block of [add_days] that changes the cache: [false] when the
    subscription is not there *)
Definition extend_entry (sub_id : Uuid) (days : Z) : IO bool :=
  atomic (
    found <- read_mem (λ m, Subscriptions.find_by_id (subscriptions m) sub_id);;
    match found with
    | None => Ret false
    | Some sub =>
      t <- now;;
      new_expires <- add_days_or_panic
        match Subscription.expires_at sub with
        | Some exp => if decide (t < exp) then exp else t
        | None => t
        end days;;
      t' <- now;;
      write_mem (cache_subs (<[sub_id := (Subscription.set_expires_at t' new_expires sub).1]>));;
      Ret true
    end).

(** [SyncOp::add_days] -- bin/api/sync/tasks.rs:535-591 *)
Definition add_days (sub_id : Uuid) (days : Z) : IO (SyncResult Status) :=
  t <- now;;
  was_inactive <- read_mem (λ m,
    match subscriptions m !! sub_id with
    | Some s => negb (Subscription.is_active t s)
    | None => false
    end);;
  found <- extend_entry sub_id days;;
  if found : bool then
    r <- db_do_or_panic (λ now, pg_sub_add_days now sub_id days);;
    match r with
    | Ok sub =>
      if was_inactive : bool then
        restore_connections_by_subscription sub_id;; Ret (Ok (Status.Updated (Subscription.id sub)))
      else Ret (Ok (Status.Updated (Subscription.id sub)))
    | Err e => Ret (Err (SyncError.Database e))
    end
  else Ret (Ok (Status.NotFound sub_id)).

(** ** Loading the database into the cache *)

(** [Tasks::add_conn] -- bin/api/postgres/pg.rs:112-123 *)
Definition load_conn (db_conn : ConnRow) (m : Cache) : Cache * result Status Error :=
  let conn_id := ConnRow.conn_id db_conn in
  match ConnRow.try_into db_conn with
  | Err e => (m, Err e)
  | Ok conn =>
    let '(cs, r) := api_add (connections m) conn_id conn in
    (cache_conns (λ _, cs) m,
     match r with
     | Ok st => Ok st
     | Err e => Err (Error.Custom ("Create: Failed to add connection " +:+ uuid_str conn_id +:+
         " to state: " +:+ Error.fmt e))
     end)
  end.

(** [Tasks::add_node] -- bin/api/postgres/pg.rs:124-136 *)
Definition load_node (db_node : Node) (m : Cache) : Cache * result unit Error :=
  let '(ns, r) := NodeStore.add (nodes m) db_node in
  (cache_nodes (λ _, ns) m,
   match r with
   | Ok _ => Ok tt
   | Err e => Err (Error.Custom ("Create: Failed to add node " +:+
       uuid_str (Node.uuid db_node) +:+ " to state: " +:+ Error.fmt e))
   end).

(** [Tasks::add_subscription] -- bin/api/postgres/pg.rs:138-152 *)
Definition load_sub (db_sub : Subscription) (m : Cache) : Cache * Status :=
  let '(ss, st) := Subscriptions.add (subscriptions m) db_sub in (cache_subs (λ _, ss) m, st).

(** a loop that stops at the first error *)
Fixpoint load_all {A B} (f : A → Cache → Cache * result B Error) (l : list A) (m : Cache) :
    result Cache Error :=
  match l with
  | [] => Ok m
  | x :: l => let '(m, r) := f x m in
    match r with Ok _ => load_all f l m | Err e => Err e end
  end.

(** the fresh cache [get_state_from_db] fills *)
Definition load_state (ns : list Node) (conns : list ConnRow) (subs : list Subscription) :
    result Cache Error :=
  let? m := load_all load_node ns Cache_new in
  let? m := load_all load_conn conns m in
  Ok (foldl (λ m s, (load_sub s m).1) m subs).

(** [Tasks::get_state_from_db] -- bin/api/tasks.rs:174-200 *)
Definition get_state_from_db : IO (result unit Error) :=
  rows <- try_join2 turn (db_get pg_node_all) (try_join2 turn (db_get pg_conn_all)
            (db_get pg_sub_all));;
  match rows with
  | Err e => Ret (Err e)
  | Ok (ns, (conns, subs)) =>
    match load_state ns conns subs with
    | Err e => Ret (Err e)
    | Ok tmp_mem => write_mem (λ _, tmp_mem);; Ret (Ok tt)
    end
  end.
End sync.
