(* ===== verification/Consistency.v ===== *)
(** * The cache never runs ahead of the database

    The invariant every operation of the API server keeps in every
    interleaving ([backed]): the database is well formed (rows stored under
    their ids, connections pointing at subscriptions that exist), and whatever
    the cache holds has a row in the database; for a connection, a row that
    agrees on everything but the deletion mark and the modification time.  And
    what no operation ever takes back ([keeps]): no row disappears, a
    connection's row never changes protocol, environment, owner, expiry or
    secrets, a key stays activated, and what was published stays published. *)
From S2P Require Import Prelude Task Foreign Naming Wireguard Connection ConnStore Subscription.
From S2P Require Import Key Inbound Node Db World Sync.
Local Open Scope Z_scope.
Local Open Scope prog_scope.

Section consistency.
Context `{!Oracle, !Postgres, !Ipv6Text, !UuidText, !IterOrder, !Chrono}.

(** What of a connection's row never changes. *)
Definition row_fixed (r : ConnRecord) :=
  (c_password r, c_token r, Env.from (c_env r), c_created_at r, c_expires_at r,
   c_subscription_id r, c_proto r, c_wg_privkey r, c_wg_address r).

(** The row that inserting [c] writes. *)
Definition row_of (id : Uuid) (c : Conn) : ConnRecord := conn_record (ConnRow.from id c).

Record db_ok (d : Db) : Prop := {
  ok_conns : ∀ id r, t_connections d !! id = Some r → ∃ c, conn_wf c ∧ r = row_of id c;
  ok_subs : ∀ id s, t_subscriptions d !! id = Some s → Subscription.id s = id;
  ok_owner : ∀ id r s, t_connections d !! id = Some r → c_subscription_id r = Some s →
    is_Some (t_subscriptions d !! s);
  ok_nodes : ∀ id n, t_nodes d !! id = Some n → n_uuid n = id;
}.

Record db_le (d d' : Db) : Prop := {
  le_conns : ∀ id r, t_connections d !! id = Some r →
    ∃ r', t_connections d' !! id = Some r' ∧ row_fixed r' = row_fixed r;
  le_subs : ∀ id, is_Some (t_subscriptions d !! id) → is_Some (t_subscriptions d' !! id);
  le_nodes : ∀ id, is_Some (t_nodes d !! id) → is_Some (t_nodes d' !! id);
  le_keys : ∀ id k, t_keys d !! id = Some k → ∃ k', t_keys d' !! id = Some k' ∧
    Key.code k' = Key.code k ∧ Key.days k' = Key.days k ∧
    (Key.activated k = true → Key.activated k' = true);
}.

(** A connection with a row behind it. *)
Definition conn_backed (d : Db) (id : Uuid) (c : Conn) : Prop :=
  conn_wf c ∧ ∃ r, t_connections d !! id = Some r ∧ row_fixed r = row_fixed (row_of id c).

Record mem_ok (m : Cache) (d : Db) : Prop := {
  mem_conns : ∀ id c, connections m !! id = Some c → conn_backed d id c;
  mem_subs : ∀ id s, subscriptions m !! id = Some s →
    Subscription.id s = id ∧ is_Some (t_subscriptions d !! id);
  mem_wf : NodeStore.wf (nodes m);
  mem_nodes : ∀ env ns n, nodes m !! env = Some ns → n ∈ ns →
    is_Some (t_nodes d !! Node.uuid n);
}.

Definition backed (w : World) : Prop := db_ok (db w) ∧ mem_ok (memory w) (db w).
Definition keeps (w w' : World) : Prop := db_le (db w) (db w') ∧ bus w `prefix_of` bus w'.

#[export] Instance db_le_preorder : PreOrder db_le.
Proof.
  split.
  - intros d. split; [by eauto|done|done|]. intros id k Hk. exists k. by split_and!.
  - intros d1 d2 d3 [c1 s1 n1 k1] [c2 s2 n2 k2]. split; auto.
    + intros id r Hr. destruct (c1 _ _ Hr) as (r2 & Hr2 & <-). eauto.
    + intros id k Hk. destruct (k1 _ _ Hk) as (k' & Hk2 & <- & <- & Ha).
      destruct (k2 _ _ Hk2) as (k'' & Hk3 & <- & <- & Ha'). exists k''. split_and!; auto.
Qed.
#[export] Instance keeps_preorder : PreOrder keeps.
Proof.
  split; [by intros w; split|]. intros w1 w2 w3 [D1 B1] [D2 B2].
  split; by etransitivity.
Qed.

(** ** The stores *)

Lemma conn_backed_le d d' id c : db_le d d' → conn_backed d id c → conn_backed d' id c.
Proof.
  intros Hle [Hwf (r & Hr & Hf)]. split; [done|].
  destruct (le_conns _ _ Hle _ _ Hr) as (r' & Hr' & Hf'). exists r'. split; [done|congruence].
Qed.

Lemma mem_ok_le m d d' : db_le d d' → mem_ok m d → mem_ok m d'.
Proof.
  intros Hle [Hc Hs Hwf Hn]. split.
  - eauto using conn_backed_le.
  - intros id s Hid. destruct (Hs _ _ Hid). eauto using le_subs.
  - done.
  - eauto using le_nodes.
Qed.

Lemma mem_ok_new d : db_ok d → mem_ok Cache_new d.
Proof. split; [| |apply NodeStore.wf_empty|];
  unfold Cache_new, Connections_default, Subscriptions.Subscriptions_default; cbn;
  intros ? ?; by rewrite lookup_empty. Qed.

Lemma row_of_deleted b id c : with_c_deleted b (row_of id c) = row_of id (set_deleted b c).
Proof. done. Qed.

Lemma row_fixed_mark t b id c :
  row_fixed (row_of id (set_modified_at t (set_deleted b c))) = row_fixed (row_of id c).
Proof. done. Qed.

(** Reading a row back gives a connection that the same row backs. *)
Lemma row_fixed_image id c : row_fixed (row_of id (conn_image c)) = row_fixed (row_of id c).
Proof.
  destruct c as [env p sub cr md ex del]. unfold row_fixed, row_of, conn_record. cbn.
  rewrite !env_from_fmt, Env.norm_idem, pg_time_idem.
  assert (pg_time <$> (pg_time <$> ex) = pg_time <$> ex) as ->
    by (destruct ex; cbn; [by rewrite pg_time_idem|done]).
  by destruct p.
Qed.

Lemma conn_wf_image c : conn_wf c → conn_wf (conn_image c).
Proof.
  intros [Hok Hwg]. split; destruct c as [env p sub cr md ex del]; cbn in *.
  - by destruct p.
  - intros q. destruct p; cbn; try done. by apply Hwg.
Qed.

Lemma conn_backed_loaded d id r :
  db_ok d → t_connections d !! id = Some r →
  ∃ c, ConnRow.try_into (row_to_conn id r) = Ok c ∧ conn_backed d id c.
Proof.
  intros Hd Hr. destruct (ok_conns _ Hd _ _ Hr) as (c & Hwf & ->).
  exists (conn_image c). split; [by apply try_into_record|].
  split; [by apply conn_wf_image|]. eexists. split; [done|]. by rewrite row_fixed_image.
Qed.

Lemma mem_ok_conns m d cs :
  mem_ok m d → (∀ id c, cs !! id = Some c → conn_backed d id c) →
  mem_ok (cache_conns (λ _, cs) m) d.
Proof. intros [Hc Hs Hwf Hn] Hcs. by split. Qed.

Lemma mem_ok_mark m d t id b :
  mem_ok m d →
  mem_ok (cache_conns (alter (λ c, set_modified_at t (set_deleted b c)) id) m) d.
Proof.
  intros Hm. apply (mem_ok_conns m); [done|]. intros i c.
  destruct (decide (i = id)) as [->|Hne].
  - rewrite lookup_alter_eq. intros (c0 & Hc0 & ->)%fmap_Some.
    destruct (mem_conns _ _ Hm _ _ Hc0) as [Hwf Hr]. split; [|by rewrite row_fixed_mark].
    exact Hwf.
  - rewrite lookup_alter_ne by done. apply (mem_conns _ _ Hm).
Qed.

Lemma mem_ok_add m d id c :
  mem_ok m d → conn_backed d id c →
  mem_ok (cache_conns (λ _, (api_add (connections m) id c).1) m) d.
Proof.
  intros Hm Hb. apply mem_ok_conns; [done|]. intros i c'. unfold api_add.
  destruct (connections m !! id); cbn; [apply (mem_conns _ _ Hm)|].
  intros [[<- <-]|[_ Hc]]%lookup_insert_Some; [done|by apply (mem_conns _ _ Hm)].
Qed.

Lemma mem_ok_sub m d id s :
  mem_ok m d → Subscription.id s = id → is_Some (t_subscriptions d !! id) →
  mem_ok (cache_subs (<[id := s]>) m) d.
Proof.
  intros [Hc Hs Hwf Hn] Hid Hsome. split; [done| |done|done]. cbn. intros i s'.
  intros [[<- <-]|[_ Hs']]%lookup_insert_Some; [done|by apply Hs].
Qed.

Lemma mem_ok_node m d n :
  mem_ok m d → is_Some (t_nodes d !! Node.uuid n) →
  mem_ok (cache_nodes (λ _, (NodeStore.add (nodes m) n).1) m) d.
Proof.
  intros [Hc Hs Hwf Hn] Hsome. split; [done|done|by apply NodeStore.wf_add|].
  cbn. intros env ns n'.
  destruct (NodeStore.add_nodes (nodes m) n Hwf) as (ns' & -> & _ & _ & _ & Hns').
  intros [[<- <-]|[_ Hns]]%lookup_insert_Some Hin; [|by eapply Hn].
  apply Hns' in Hin as [->|[(nodes' & Hns & Hin) _]]; [done|by eapply Hn].
Qed.

Lemma mem_ok_get_mut m d env uuid f :
  (∀ n, Node.uuid (f n).1 = Node.uuid n ∧ Node.env (f n).1 = Node.env n) →
  mem_ok m d → mem_ok (cache_nodes (λ _, (NodeStore.get_mut (nodes m) env uuid f).1) m) d.
Proof.
  intros Hf [Hc Hs Hwf Hn].
  destruct (NodeStore.get_mut_fixed (nodes m) env uuid f Hf Hwf) as [Hwf' Hfix].
  split; [done..|]. cbn. intros e ns n Hns Hin. specialize (Hfix e). rewrite Hns in Hfix.
  symmetry in Hfix. apply fmap_Some in Hfix as (ns' & Hns' & Hus).
  assert (Node.uuid n ∈ Node.uuid <$> ns') as (n' & -> & Hn')%list_elem_of_fmap
    by (rewrite <- Hus; by apply list_elem_of_fmap_2).
  by eapply Hn.
Qed.

(** ** The statements *)

(** A statement that keeps the database well formed and takes nothing back. *)
Definition sound_stmt {A} (f : DateTime → Db → Db * result A Error) : Prop :=
  ∀ t d, db_ok d → db_ok (f t d).1 ∧ db_le d (f t d).1.

Lemma with_connections_ok d t :
  db_ok d →
  (∀ id r, t !! id = Some r → ∃ c, conn_wf c ∧ r = row_of id c) →
  (∀ id r s, t !! id = Some r → c_subscription_id r = Some s →
    is_Some (t_subscriptions d !! s)) →
  (∀ id r, t_connections d !! id = Some r →
    ∃ r', t !! id = Some r' ∧ row_fixed r' = row_fixed r) →
  db_ok (Db.with_connections t d) ∧ db_le d (Db.with_connections t d).
Proof.
  intros [Hc Hs Ho Hn] Hrows Howner Hle. split; split; cbn; try done.
  intros id k Hk. exists k. by split_and!.
Qed.

Lemma with_subscriptions_ok d id s :
  db_ok d → Subscription.id s = id →
  db_ok (with_subscriptions (<[id := s]> (t_subscriptions d)) d) ∧
  db_le d (with_subscriptions (<[id := s]> (t_subscriptions d)) d).
Proof.
  intros [Hc Hs Ho Hn] Hid.
  assert (∀ i, is_Some (t_subscriptions d !! i) →
    is_Some (<[id := s]> (t_subscriptions d) !! i)) as Hmono.
  { intros i Hi. apply lookup_insert_is_Some'. by right. }
  split; split; cbn; eauto.
  intros i s' [[<- <-]|[_ Hs']]%lookup_insert_Some; [done|by apply Hs].
Qed.

Lemma sound_conn_mark b id :
  sound_stmt (λ _ d, (Db.with_connections (alter (with_c_deleted b) id (t_connections d)) d, Ok tt)).
Proof.
  intros t d Hd. cbn. apply with_connections_ok; [done|..]; intros i r.
  - intros [(-> & r0 & Hr & ->)|[_ Hr]]%lookup_alter_Some; [|by apply (ok_conns _ Hd)].
    destruct (ok_conns _ Hd _ _ Hr) as (c & Hwf & ->). by exists (set_deleted b c).
  - intros s [(-> & r0 & Hr & ->)|[_ Hr]]%lookup_alter_Some Hs; by apply (ok_owner _ Hd _ _ _ Hr).
  - intros Hr. destruct (decide (i = id)) as [->|Hne].
    + rewrite lookup_alter_eq, Hr. cbn. by eexists.
    + rewrite lookup_alter_ne by done. eauto.
Qed.

Lemma sound_conn_insert id c :
  conn_wf c → sound_stmt (λ _, pg_conn_insert (ConnRow.from id c)).
Proof.
  intros Hwf t d Hd. unfold pg_conn_insert. cbn [ConnRow.conn_id ConnRow.from].
  destruct (t_connections d !! id) as [r|] eqn:Hid; [done|].
  destruct (match ConnRow.subscription_id _ with Some s => _ | None => _ end) eqn:Hfk; [done|].
  cbn. apply with_connections_ok; [done|..]; intros i r.
  - intros [[<- <-]|[_ Hr]]%lookup_insert_Some; [by exists c|by apply (ok_conns _ Hd)].
  - intros s [[<- <-]|[_ Hr]]%lookup_insert_Some; [|by apply (ok_owner _ Hd _ _ _ Hr)].
    cbn in Hfk |- *. intros Hs. rewrite Hs in Hfk. apply bool_decide_eq_false_1 in Hfk.
    by destruct (t_subscriptions d !! s).
  - intros Hr. exists r. rewrite lookup_insert_ne by congruence. done.
Qed.

Lemma conn_insert_backed id c d d' :
  conn_wf c → pg_conn_insert (ConnRow.from id c) d = (d', Ok tt) → conn_backed d' id c.
Proof.
  intros Hwf. unfold pg_conn_insert. cbn [ConnRow.conn_id ConnRow.from].
  repeat case_match; try done; intros [= <-]; (split; [done|]); eexists; cbn;
    by rewrite lookup_insert_eq.
Qed.

Lemma sound_sub_create s : sound_stmt (λ now, pg_sub_create now s).
Proof.
  intros t d Hd. unfold pg_sub_create. destruct (t_subscriptions d !! _); [done|].
  case_match; [done|]. cbn. by apply with_subscriptions_ok.
Qed.

Lemma sub_create_there s t d d' s' :
  pg_sub_create t s d = (d', Ok s') → is_Some (t_subscriptions d' !! Subscription.id s).
Proof.
  unfold pg_sub_create. repeat case_match; try done; intros [= <- <-]; cbn;
    by rewrite lookup_insert_eq.
Qed.

Lemma sound_sub_update id e rb rc : sound_stmt (λ now, pg_sub_update now id e rb rc).
Proof.
  intros t d Hd. unfold pg_sub_update. destruct (t_subscriptions d !! _); [|done].
  case_match; [done|]. cbn. by apply with_subscriptions_ok.
Qed.

Lemma sound_sub_add_days id days t d d' r :
  db_ok d → pg_sub_add_days t id days d = Some (d', r) → db_ok d' ∧ db_le d d'.
Proof.
  intros Hd. unfold pg_sub_add_days. destruct (t_subscriptions d !! id) as [s|] eqn:Hs.
  - destruct (dt_add_days _ _); [|done]. intros [= <- <-]. apply with_subscriptions_ok; [done|].
    cbn. by apply (ok_subs _ Hd).
  - by intros [= <- <-].
Qed.

Lemma with_keys_ok d t :
  db_ok d →
  (∀ id k, t_keys d !! id = Some k → ∃ k', t !! id = Some k' ∧
    Key.code k' = Key.code k ∧ Key.days k' = Key.days k ∧
    (Key.activated k = true → Key.activated k' = true)) →
  db_ok (with_keys t d) ∧ db_le d (with_keys t d).
Proof. intros [Hc Hs Ho Hn] Hk. by split; split; eauto. Qed.

Lemma sound_key_insert k : sound_stmt (λ _, pg_key_insert k).
Proof.
  intros t d Hd. unfold pg_key_insert. case_match eqn:Hex; [done|]. cbn.
  apply orb_false_iff in Hex as [Hex _]. apply bool_decide_eq_false_1 in Hex.
  apply with_keys_ok; [done|]. intros id k' Hk'. exists k'.
  rewrite lookup_insert_ne; [by split_and!|]. intros <-. apply Hex. by eexists.
Qed.

Lemma sound_key_activate k : sound_stmt (λ now, pg_key_activate now k).
Proof.
  intros t d Hd. unfold pg_key_activate. cbn. apply with_keys_ok; [done|]. intros id k' Hk'.
  destruct (decide (id = Key.id k)) as [->|Hne].
  - rewrite lookup_alter_eq, Hk'. cbn. eexists. by split_and!.
  - rewrite lookup_alter_ne by done. exists k'. by split_and!.
Qed.

Lemma with_nodes_ok d t :
  db_ok d → (∀ id n, t !! id = Some n → n_uuid n = id) →
  (∀ id, is_Some (t_nodes d !! id) → is_Some (t !! id)) →
  db_ok (with_nodes t d) ∧ db_le d (with_nodes t d).
Proof.
  intros [Hc Hs Ho Hn] Ht Hle. by split; split; cbn; eauto.
Qed.

Lemma sound_node_upsert n : sound_stmt (λ _, pg_node_upsert (Node.uuid n) n).
Proof.
  intros t d Hd. unfold pg_node_upsert. cbv zeta. case_match; [done|]. cbn.
  apply with_nodes_ok; [done|..].
  - intros id r [[<- <-]|[_ Hr]]%lookup_insert_Some; [done|by apply (ok_nodes _ Hd)].
  - intros id Hid. apply lookup_insert_is_Some'. by right.
Qed.

Lemma node_upsert_there n d d' :
  pg_node_upsert (Node.uuid n) n d = (d', Ok tt) → is_Some (t_nodes d' !! Node.uuid n).
Proof.
  unfold pg_node_upsert. cbv zeta. case_match; [done|]. intros [= <-]. cbn.
  by rewrite lookup_insert_eq.
Qed.

Lemma sound_node_status u e st : sound_stmt (λ now, pg_node_update_status now u e st).
Proof.
  intros t d Hd. unfold pg_node_update_status. cbn. apply with_nodes_ok; [done|..]; intros id.
  - intros n. rewrite lookup_fmap. intros (n0 & Hn0 & ->)%fmap_Some.
    rewrite <- (ok_nodes _ Hd _ _ Hn0). by destruct (_ && _).
  - rewrite lookup_fmap. by intros [n ->].
Qed.
End consistency.
