(* ===== verification/SyncSafe.v ===== *)
(** * Every synchronised operation keeps the cache backed

    [okp backed keeps p] for each effect and each operation of [Sync]: started
    anywhere, and whatever other tasks do between its actions, the operation
    preserves [backed] and moves along [keeps].  The handlers and the
    background tasks are built from these. *)
From S2P Require Import Prelude Task Foreign Naming Wireguard Connection ConnStore Subscription.
From S2P Require Import Key Inbound Node Db World Sync Consistency.
Local Open Scope Z_scope.
Local Open Scope prog_scope.

(** A connection to insert whose protocol is well formed; a node under its own
    id. *)
Create HintDb safe.

Section safe.
Context `{!Oracle, !Postgres, !Ipv6Text, !UuidText, !IterOrder, !Chrono}.
Notation safe p w := (okp backed keeps p w).
Notation knows P w := (onward backed keeps P w).

(** ** Effects *)

(** An action that leaves the cache and the database alone. *)
Lemma safe_outside {X A} (f : World → World * X) (k : X → IO A) w :
  (∀ w, memory (f w).1 = memory w ∧ db (f w).1 = db w ∧ bus w `prefix_of` bus (f w).1) →
  (∀ x w', safe (k x) w') → safe (Act f k) w.
Proof.
  intros Hf Hk. apply okp_act; [|done]. intros w' [Hd Hm].
  destruct (Hf w') as (Hmem & Hdb & Hbus). unfold backed, keeps. by rewrite Hmem, Hdb.
Qed.

Lemma safe_ask {A} (f : nat → A) w : safe (ask f) w.
Proof. by apply safe_outside. Qed.
Lemma safe_read_mem {A} (f : Cache → A) w : safe (read_mem f) w.
Proof. by apply safe_outside. Qed.
Lemma safe_to_bytes l w : safe (to_bytes l) w.
Proof. by apply safe_outside. Qed.
Lemma safe_send t l w : safe (send_binary t l) w.
Proof.
  apply safe_outside; [|done]. intros w'. cbn. destruct (zmq_fault _); [done|].
  cbn. split_and!; [done..|]. by eexists.
Qed.
Lemma turn_safe w : backed w → backed (turn w).1 ∧ keeps w (turn w).1.
Proof. done. Qed.

Lemma safe_update_mem {A} (f : Cache → Cache * A) w :
  (∀ w', keeps w w' → backed w' → mem_ok (f (memory w')).1 (db w')) →
  safe (update_mem f) w.
Proof.
  intros Hf w' Hg HI. pose proof (Hf w' Hg HI) as Hm. destruct HI as [Hd _].
  cbn. destruct (f (memory w')) as [m a]. by cbn in *.
Qed.

Lemma safe_write_mem (f : Cache → Cache) w :
  (∀ w', keeps w w' → backed w' → mem_ok (f (memory w')) (db w')) →
  safe (write_mem f) w.
Proof.
  intros Hf w' Hg HI. pose proof (Hf w' Hg HI) as Hm. by destruct HI as [Hd _].
Qed.

(** A statement, and what its success tells for good. *)
Lemma rg_db_do {A} (f : DateTime → Db → Db * result A Error) (P : A → Db → Prop) w :
  sound_stmt f →
  (∀ t d d' a, db_ok d → f t d = (d', Ok a) → P a d') →
  (∀ a d d', db_le d d' → P a d → P a d') →
  rg backed keeps (db_do f) (on_ok (λ a w, P a (db w))) w.
Proof.
  intros Hs Hp Hst w1 Hg [Hd Hm]. cbn.
  pose proof (Hs (clock (tick w1)) (db w1) Hd) as [Hd' Hle].
  pose proof (Hp (clock (tick w1)) (db w1)) as HP.
  destruct (f (clock (tick w1)) (db w1)) as [d r]. cbn in Hd', Hle.
  assert (backed (bump (set_db d w1)) ∧ keeps w1 (bump (set_db d w1))) as [HI' Hk'].
  { split; [|by split]. split; [done|]. by eapply mem_ok_le. }
  destruct (pg_fault (tick w1)) as [|[] e]; cbn; (split_and!; [done|done|]);
    intros w2 [Hle2 _] _; try done.
  destruct r as [a|]; [|done]. cbn. eapply Hst; [exact Hle2|]. by eapply HP.
Qed.

Lemma safe_db_do {A} (f : DateTime → Db → Db * result A Error) w :
  sound_stmt f → safe (db_do f) w.
Proof.
  intros Hs. apply (okp_on_ok backed keeps), (rg_db_do f (λ _ _, True)); auto.
Qed.

Lemma safe_add_days_or_panic t days w : safe (add_days_or_panic t days) w.
Proof. unfold add_days_or_panic. by destruct (dt_add_days _ _). Qed.

Lemma sound_read {A} (f : Db → A) : sound_stmt (λ _ d, (d, Ok (f d) : result A Error)).
Proof. done. Qed.
Lemma safe_db_get {A} (f : Db → A) w : safe (db_get f) w.
Proof. apply safe_db_do, sound_read. Qed.

Lemma safe_db_do_or_panic {A} (f : DateTime → Db → option (Db * result A Error)) w :
  (∀ t d d' r, db_ok d → f t d = Some (d', r) → db_ok d' ∧ db_le d d') →
  safe (db_do_or_panic f) w.
Proof.
  intros Hs. apply okp_act.
  - intros w' [Hd Hm]. destruct (f _ _) as [[d r]|] eqn:Hf; cbn;
      [|by split].
    destruct (Hs _ _ _ _ Hd Hf) as [Hd' Hle].
    assert (backed (bump (set_db d w')) ∧ keeps w' (bump (set_db d w'))).
    { split; [|by split]. split; [done|]. by eapply mem_ok_le. }
    by destruct (pg_fault (tick w')) as [|[]].
  - by intros [].
Qed.

(** What the cache tells for good about the database. *)
Lemma rg_read_mem {A} (f : Cache → A) (P : A → Db → Prop) w :
  (∀ m d, mem_ok m d → P (f m) d) → (∀ a d d', db_le d d' → P a d → P a d') →
  rg backed keeps (read_mem f) (λ a w, P a (db w)) w.
Proof.
  intros Hp Hst w' _ [Hd Hm]. split_and!; [done|done|].
  intros w'' [Hle _] _. eapply Hst; [exact Hle|]. by apply Hp.
Qed.
End safe.

#[export] Hint Resolve okp_ret safe_ask safe_read_mem safe_to_bytes safe_send safe_db_get
  safe_add_days_or_panic   sound_conn_insert sound_sub_create sound_sub_update sound_key_insert sound_key_activate
  sound_node_upsert sound_node_status sound_read : safe.
#[export] Hint Extern 1 (sound_stmt (λ _, pg_conn_delete _)) => apply sound_conn_mark : safe.
#[export] Hint Extern 1 (sound_stmt (λ _, pg_conn_restore _)) => apply sound_conn_mark : safe.
#[export] Hint Extern 2 (okp _ _ (db_do _) _) => apply safe_db_do : safe.
#[export] Hint Extern 2 (okp _ _ (now) _) => apply safe_ask : safe.
#[export] Hint Extern 2 (okp _ _ (new_v4) _) => apply safe_ask : safe.

(** Walk through a program: binds, branches, then the hints. *)
Ltac safe_step :=
  match goal with
  | |- okp _ _ (bind _ _) _ => apply (okp_bind backed keeps); [|intros ? ?]
  | |- okp _ _ (match ?x with _ => _ end) _ => destruct x
  | |- okp _ _ (if ?x then _ else _) _ => destruct x
  | |- okp _ _ (let '(_, _) := ?x in _) _ => destruct x
  | |- okp _ _ (for_each _ _) _ => apply (okp_for_each backed keeps); intros
  | |- okp _ _ (Ret _) _ => exact (okp_ret _ _ _ _)
  | |- okp _ _ Panic _ => exact I
  | |- okp _ _ _ _ => solve [auto 3 with safe]
  end.
Ltac safe := cbv beta zeta; repeat (safe_step; cbv beta iota zeta).

Section ops.
Context `{!Oracle, !Postgres, !Ipv6Text, !UuidText, !IterOrder, !Chrono}.
Notation safe p w := (okp backed keeps p w).

Lemma safe_mark_conn id b w : safe (mark_conn id b) w.
Proof.
  unfold mark_conn. safe. apply safe_write_mem. intros w0 _ [_ Hm]. by apply mem_ok_mark.
Qed.
Hint Resolve safe_mark_conn : safe.

Lemma safe_delete_connection id c w : safe (delete_connection id c) w.
Proof. unfold delete_connection. safe. Qed.
Lemma safe_restore_connection id w : safe (restore_connection id) w.
Proof. unfold restore_connection. safe. Qed.
Hint Resolve safe_restore_connection : safe.
Lemma safe_restore_task cc w : safe (restore_task cc) w.
Proof. unfold restore_task. safe. Qed.

Lemma safe_restore_by_subscription id w : safe (restore_connections_by_subscription id) w.
Proof.
  unfold restore_connections_by_subscription. safe. eapply (rg_post backed keeps); [|eapply (rg_join_all turn backed keeps)].
  - by intros ? ? _ _ ? _ _.
  - apply turn_safe.
  - intros x _. apply safe_restore_task.
Qed.
Hint Resolve safe_restore_by_subscription : safe.

Lemma safe_add_node n w : safe (add_node (Node.uuid n) n) w.
Proof.
  unfold add_node. cbn [node_validate]. eapply (rg_bind backed keeps).
  - apply (rg_db_do _ (λ _ d, is_Some (t_nodes d !! Node.uuid n))); auto with safe.
    + intros t d d' [] _. apply node_upsert_there.
    + intros _ d d' Hle. apply (le_nodes _ _ Hle).
  - intros [[]|e] w1 Hg HI Hthere; [|done]. apply (okp_bind backed keeps); [|done].
    apply safe_update_mem. intros w2 Hg2 HI2.
    pose proof (mem_ok_node (memory w2) (db w2) n (proj2 HI2) (Hthere w2 Hg2 HI2)) as Hm.
    by destruct (NodeStore.add _ _).
Qed.

Lemma safe_add_sub s w : safe (add_sub s) w.
Proof.
  unfold add_sub. eapply (rg_bind backed keeps).
  - apply (rg_db_do _ (λ _ d, is_Some (t_subscriptions d !! Subscription.id s)));
      auto with safe.
    + intros t d d' a _. apply sub_create_there.
    + intros _ d d' Hle. apply (le_subs _ _ Hle).
  - intros [s'|e] w1 Hg HI Hthere; [|done]. apply (okp_bind backed keeps); [|by intros [] ?].
    apply safe_update_mem. intros w2 Hg2 HI2.
    pose proof (mem_ok_sub (memory w2) (db w2) _ s (proj2 HI2) eq_refl (Hthere w2 Hg2 HI2)) as Hm.
    pose proof (Subscriptions.add_lookup (subscriptions (memory w2)) s) as Ha.
    destruct (Subscriptions.add _ _) as [ss st]. cbn in *. by subst ss.
Qed.

Lemma safe_add_conn id c w : conn_wf c → safe (add_conn id c) w.
Proof.
  intros Hwf. unfold add_conn. cbn [conn_validate]. cbv zeta. eapply (rg_bind backed keeps).
  - apply (rg_db_do _ (λ _ d, conn_backed d id c)); auto with safe.
    + intros t d d' [] _. by apply conn_insert_backed.
    + intros _ d d'. apply conn_backed_le.
  - intros [[]|e] w1 Hg HI Hb; [|done]. apply (okp_bind backed keeps); [|done].
    apply safe_update_mem. intros w2 Hg2 HI2.
    pose proof (mem_ok_add (memory w2) (db w2) id c (proj2 HI2) (Hb w2 Hg2 HI2)) as Hm.
    by destruct (api_add _ _ _).
Qed.

Lemma safe_update_node_status u e st w : safe (update_node_status u e st) w.
Proof.
  unfold update_node_status. safe. apply safe_update_mem. intros w0 _ [_ Hm].
  pose proof (mem_ok_get_mut (memory w0) (db w0) e u (Node.update_status st)
    (λ n, conj eq_refl eq_refl) Hm) as Hm'.
  by destruct (NodeStore.get_mut _ _ _ _).
Qed.

(** What [find_by_id] found is in the database for good. *)
Lemma rg_find_sub id w :
  rg backed keeps (read_mem (λ m, Subscriptions.find_by_id (subscriptions m) id))
    (λ o w, match o with
            | Some s => Subscription.id s = id ∧ is_Some (t_subscriptions (db w) !! id)
            | None => True end) w.
Proof.
  apply (rg_read_mem _ (λ o d, match o with
    | Some s => Subscription.id s = id ∧ is_Some (t_subscriptions d !! id) | None => True end)).
  - intros m d Hm. unfold Subscriptions.find_by_id.
    destruct (subscriptions m !! id) eqn:Hs; [by apply (mem_subs _ _ Hm)|done].
  - intros [s|] d d' Hle; [|done]. intros [Hid Hs]. split; [done|by apply (le_subs _ _ Hle)].
Qed.

(** Writing back the entry that was found, under its own id. *)
Lemma safe_write_sub (o : Subscription) id s w :
  Subscription.id s = id →
  onward backed keeps (λ w, is_Some (t_subscriptions (db w) !! id)) w →
  safe (write_mem (cache_subs (<[id := s]>))) w.
Proof.
  intros Hid Hs. apply safe_write_mem. intros w' Hg HI. apply mem_ok_sub; [apply HI|done|].
  by apply Hs.
Qed.

(** [update_entry] never changes the id. *)
Lemma rg_update_entry req s w :
  rg backed keeps (update_entry req s) (λ s' _, Subscription.id s' = Subscription.id s) w.
Proof.
  unfold update_entry. eapply (rg_bind backed keeps _ _ (λ s' _, Subscription.id s' = Subscription.id s)).
  - destruct (sr_days req) as [days|]; [|by intros w' _ _].
    eapply (rg_bind backed keeps); [apply safe_ask|]. intros t w' _ _ _. unfold Subscription.extend.
    destruct (Subscription.expires_at s); [destruct (dt_add_days _ _); [|done]|];
      by intros w'' _ _.
  - intros s' w' _ HI Hs. cbv zeta. intros w'' Hg HI''. rewrite <- (Hs w'' Hg HI'').
    by destruct (sr_referred_by req), (sr_refer_code req), (sr_limit_bytes req).
Qed.

Lemma safe_update_sub id req w : safe (update_sub id req) w.
Proof.
  apply okp_atomic. intros w0 HI0.
  match goal with |- backed (run ?p _).1 ∧ _ => enough (safe p w0) as Hok end.
  { destruct (rg_run _ _ _ _ w0 Hok HI0) as (? & ? & _). done. }
  eapply (rg_bind backed keeps); [apply rg_find_sub|]. intros [s|] w1 Hg1 HI1 Hs; [|done].
  eapply (rg_bind backed keeps); [apply rg_update_entry|]. intros s' w2 Hg2 HI2 Hid.
  apply (okp_bind backed keeps).
  - apply (safe_write_sub s).
    + rewrite (Hid w2) by done. by apply (Hs w1).
    + intros w3 Hg3 HI3. apply (Hs w3); [by etransitivity|done].
  - intros [] w3. safe.
Qed.

Lemma safe_extend_entry id days w : safe (extend_entry id days) w.
Proof.
  apply okp_atomic. intros w0 HI0.
  match goal with |- backed (run ?p _).1 ∧ _ => enough (safe p w0) as Hok end.
  { destruct (rg_run _ _ _ _ w0 Hok HI0) as (? & ? & _). done. }
  eapply (rg_bind backed keeps); [apply rg_find_sub|]. intros [s|] w1 Hg1 HI1 Hs; [|done].
  eapply (rg_bind backed keeps); [apply safe_ask|]. intros t w2 Hg2 HI2 _.
  eapply (rg_bind backed keeps _ _ (λ _ _, True)).
  { unfold add_days_or_panic. by destruct (dt_add_days _ _). }
  intros e w3 Hg3 HI3 _. eapply (rg_bind backed keeps); [apply safe_ask|]. intros t' w4 Hg4 HI4 _.
  apply (okp_bind backed keeps); [|done]. apply (safe_write_sub s).
  - unfold Subscription.set_expires_at. destruct (decide (e <= t')); by apply (Hs w1).
  - intros w5 Hg5 HI5. apply (Hs w5); [|done]. by do 4 (etransitivity; [done|]).
Qed.
Hint Resolve safe_extend_entry : safe.

Lemma safe_add_days id days w : safe (add_days id days) w.
Proof.
  unfold add_days. safe. apply safe_db_do_or_panic. intros t d d' r. apply sound_sub_add_days.
Qed.
End ops.
