(* ===== verification/Reload.v ===== *)
(** * Loading the state from the database

    [get_state_from_db] ([bin/api/tasks.rs]) replaces the cache by what the
    database holds: here, what the loaded cache is, and that the reload is one
    of the operations that keep the cache backed. *)
From S2P Require Import Prelude Task Foreign Naming Wireguard Connection ConnStore Subscription.
From S2P Require Import Key Inbound Node Db World Sync Consistency SyncSafe.
Local Open Scope Z_scope.
Local Open Scope prog_scope.

Section reload.
Context `{!Oracle, !Postgres, !Ipv6Text, !UuidText, !IterOrder, !Chrono}.

(** What the cache is when it has just been loaded: the connections of the
    first database, the live subscriptions of the second and the IPv4 nodes of
    the third. *)
Record loaded (dn dc ds : Db) (m : Cache) : Prop := {
  loaded_conns : ∀ id c, connections m !! id = Some c ↔
    ∃ r, t_connections dc !! id = Some r ∧ ConnRow.try_into (row_to_conn id r) = Ok c;
  loaded_subs : ∀ id s, subscriptions m !! id = Some s ↔
    t_subscriptions ds !! id = Some s ∧ Subscription.is_deleted s = false;
  loaded_wf : NodeStore.wf (nodes m);
  loaded_nodes : ∀ env u n, NodeStore.get (nodes m) env u = Some n ↔
    Node.env n = env ∧ Node.uuid n = u ∧
    ∃ r, t_nodes dn !! u = Some r ∧ node_of_record r = Some n;
}.

Lemma load_conns_spec rows m :
  (∀ row, row ∈ rows → ∃ c, ConnRow.try_into row = Ok c) →
  NoDup (ConnRow.conn_id <$> rows) →
  (∀ row, row ∈ rows → connections m !! ConnRow.conn_id row = None) →
  ∃ m', load_all load_conn rows m = Ok m' ∧
    subscriptions m' = subscriptions m ∧ nodes m' = nodes m ∧
    ∀ id c, connections m' !! id = Some c ↔
      connections m !! id = Some c ∨
      ∃ row, row ∈ rows ∧ ConnRow.conn_id row = id ∧ ConnRow.try_into row = Ok c.
Proof.
  revert m; induction rows as [|row rows IH]; intros m Hok Hnd Hfree; cbn [load_all].
  - exists m. split_and!; [done..|]. intros id c. split; [by left|].
    intros [?|(row & Hin & _)]; [done|]. by apply not_elem_of_nil in Hin.
  - destruct (Hok row) as [c0 Hc0]; [left|]. unfold load_conn at 1. rewrite Hc0. cbv zeta.
    unfold api_add. rewrite (Hfree row) by left.
    cbn in Hnd. apply NoDup_cons in Hnd as [Hnotin Hnd].
    destruct (IH (cache_conns (λ _, <[ConnRow.conn_id row := c0]> (connections m)) m))
      as (m' & Hm' & Hs & Hn & Hc).
    + intros row' Hin. apply Hok. by right.
    + done.
    + intros row' Hin. cbn. rewrite lookup_insert_ne; [apply Hfree; by right|].
      intros Heq. apply Hnotin. rewrite Heq. by apply list_elem_of_fmap_2.
    + exists m'. split_and!; [done..|]. intros id c. rewrite Hc. cbn.
      rewrite lookup_insert_Some. setoid_rewrite elem_of_cons. split.
      * intros [[[Heq <-]|[_ ?]]|(row' & Hin & Hid & Ht)]; [|by left|].
        -- right. exists row. by split_and!; [left| |].
        -- right. exists row'. by split_and!; [right| |].
      * intros [Hcm|(row' & [->|Hin] & <- & Ht)].
        -- destruct (decide (ConnRow.conn_id row = id)) as [<-|]; [|by left; right].
           rewrite (Hfree row) in Hcm by left. done.
        -- left; left. split; [done|congruence].
        -- right. by exists row'.
Qed.

Lemma load_subs_spec subs m :
  NoDup (Subscription.id <$> subs) →
  (∀ s, s ∈ subs → subscriptions m !! Subscription.id s = None) →
  let m' := foldl (λ m s, (load_sub s m).1) m subs in
  connections m' = connections m ∧ nodes m' = nodes m ∧
  ∀ id s, subscriptions m' !! id = Some s ↔
    subscriptions m !! id = Some s ∨ (s ∈ subs ∧ Subscription.id s = id).
Proof.
  revert m; induction subs as [|s0 subs IH]; intros m Hnd Hfree; cbn [foldl].
  - split_and!; [done..|]. intros id s. split; [by left|].
    intros [?|[Hin _]]; [done|]. by apply not_elem_of_nil in Hin.
  - cbn in Hnd. apply NoDup_cons in Hnd as [Hnotin Hnd].
    assert (subscriptions (load_sub s0 m).1 = <[Subscription.id s0 := s0]> (subscriptions m) ∧
      connections (load_sub s0 m).1 = connections m ∧
      nodes (load_sub s0 m).1 = nodes m) as (Hs0 & Hc0 & Hn0).
    { unfold load_sub. pose proof (Subscriptions.add_lookup (subscriptions m) s0) as Ha.
      destruct (Subscriptions.add _ _). by cbn in *. }
    destruct (IH (load_sub s0 m).1 Hnd) as (Hc & Hn & Hs).
    + intros s Hin. rewrite Hs0, lookup_insert_ne; [apply Hfree; by right|].
      intros Heq. apply Hnotin. rewrite Heq. by apply list_elem_of_fmap_2.
    + split_and!; [congruence..|]. intros id s. rewrite Hs, Hs0, lookup_insert_Some, elem_of_cons.
      split.
      * intros [[[<- <-]|[_ ?]]|[? ?]]; auto.
      * intros [Hm|[[->|Hin] <-]]; auto. destruct (decide (Subscription.id s0 = id)) as [<-|];
          [|by left; right]. rewrite Hfree in Hm by left. done.
Qed.

Lemma get_add_fresh self n e u n' :
  NodeStore.wf self → (∀ e, NodeStore.get self e (Node.uuid n) = None) →
  NodeStore.get (NodeStore.add self n).1 e u = Some n' ↔
  NodeStore.get self e u = Some n' ∨ (n' = n ∧ e = Node.env n ∧ u = Node.uuid n).
Proof.
  intros Hwf Hfresh. pose proof (NodeStore.wf_add self n Hwf) as Hwf'.
  rewrite !NodeStore.get_Some by done.
  destruct (NodeStore.add_nodes self n Hwf) as (ns & -> & _ & _ & _ & Hns).
  setoid_rewrite lookup_insert_Some. split.
  - intros (nodes & [[<- <-]|[Hne Hl]] & Hin & <-); [|by left; eauto].
    apply Hns in Hin as [->|[(nodes' & Hl & Hin) _]]; [by right|left; eauto].
  - intros [(nodes & Hl & Hin & <-)|(-> & -> & ->)].
    + destruct (decide (Node.env n = e)) as [<-|Hne]; [|eauto 6].
      exists ns. split_and!; [by left| |done]. apply Hns. right. split; [eauto|].
      intros Heq. specialize (Hfresh (Node.env n)). rewrite <- Heq in Hfresh.
      assert (NodeStore.get self (Node.env n) (Node.uuid n') = Some n'); [|congruence].
      apply NodeStore.get_Some; [done|]. eauto.
    + exists ns. split_and!; [by left| |done]. apply Hns. by left.
Qed.

Lemma load_nodes_spec ns m :
  NoDup (Node.uuid <$> ns) → NodeStore.wf (nodes m) →
  (∀ n e, n ∈ ns → NodeStore.get (nodes m) e (Node.uuid n) = None) →
  ∃ m', load_all load_node ns m = Ok m' ∧ connections m' = connections m ∧
    subscriptions m' = subscriptions m ∧ NodeStore.wf (nodes m') ∧
    ∀ e u n, NodeStore.get (nodes m') e u = Some n ↔
      NodeStore.get (nodes m) e u = Some n ∨ (n ∈ ns ∧ e = Node.env n ∧ u = Node.uuid n).
Proof.
  revert m; induction ns as [|n0 ns IH]; intros m Hnd Hwf Hfree; cbn [load_all].
  - exists m. split_and!; [done..|]. intros e u n. split; [by left|].
    intros [?|[Hin _]]; [done|]. by apply not_elem_of_nil in Hin.
  - cbn in Hnd. apply NoDup_cons in Hnd as [Hnotin Hnd]. unfold load_node at 1.
    pose proof (NodeStore.wf_add (nodes m) n0 Hwf) as Hwf'.
    pose proof (λ e u n, get_add_fresh (nodes m) n0 e u n Hwf
      (λ e, Hfree n0 e ltac:(left))) as Hget.
    destruct (NodeStore.add (nodes m) n0) as [ns0 r0] eqn:Hadd. cbn in Hwf', Hget.
    assert (∃ st, r0 = Ok st) as [st ->].
    { unfold NodeStore.add in Hadd. repeat case_match; simplify_eq; eauto. }
    destruct (IH (cache_nodes (λ _, ns0) m) Hnd Hwf') as (m' & Hm' & Hc & Hs & Hw & Hn).
    + intros n e Hin. cbn. destruct (NodeStore.get ns0 e (Node.uuid n)) eqn:Hg; [|done].
      apply Hget in Hg as [Hg|(-> & _ & Heq)].
      * rewrite (Hfree n e) in Hg; [done|by right].
      * exfalso. apply Hnotin. rewrite <- Heq. by apply list_elem_of_fmap_2.
    + exists m'. split_and!; [done..|]. intros e u n. rewrite Hn. cbn. rewrite Hget.
      rewrite elem_of_cons. naive_solver.
Qed.

Lemma NoDup_omap_fixed {A B} (f : A → option B) (g : B → Uuid) (h : A → Uuid) l :
  (∀ a b, a ∈ l → f a = Some b → g b = h a) → NoDup (h <$> l) → NoDup (g <$> omap f l).
Proof.
  induction l as [|a l IH]; intros Hf Hnd; cbn; [constructor|].
  cbn in Hnd. apply NoDup_cons in Hnd as [Hnotin Hnd].
  assert (NoDup (g <$> omap f l)) as IH'.
  { apply IH; [|done]. intros a' b' Hin. apply Hf. by right. }
  destruct (f a) as [b|] eqn:Hfa; [|done]. cbn. apply NoDup_cons. split; [|done].
  rewrite (Hf a b) by (done || left). intros (b' & Heq & Hin)%list_elem_of_fmap.
  apply list_elem_of_omap in Hin as (a' & Ha' & Hfa'). apply Hnotin.
  rewrite Heq, (Hf a' b') by (done || by right). by apply list_elem_of_fmap_2.
Qed.

Lemma hvalues_ids {A} (g : A → Uuid) (m : gmap Uuid A) :
  (∀ id a, m !! id = Some a → g a = id) → NoDup (g <$> hvalues m).
Proof.
  intros Hg. unfold hvalues. rewrite <- list_fmap_compose.
  rewrite (list_fmap_ext _ fst).
  - apply NoDup_hiter_fst.
  - intros i [id a] Hl. cbn. apply Hg, elem_of_hiter. by eapply list_elem_of_lookup_2.
Qed.

Lemma NoDup_keep {A} (g : A → Uuid) f (l : list A) :
  NoDup (g <$> l) → NoDup (g <$> keep f l).
Proof.
  induction l as [|a l IH]; cbn; [done|]. intros [Hn Hd]%NoDup_cons.
  destruct (f a); [|auto]. cbn. apply NoDup_cons. split; [|auto].
  intros (b & Hb & Hin)%list_elem_of_fmap. apply elem_of_keep in Hin as [Hin _].
  apply Hn. rewrite Hb. by apply list_elem_of_fmap_2.
Qed.

Lemma node_of_record_uuid r n : node_of_record r = Some n → Node.uuid n = n_uuid r.
Proof. unfold node_of_record. destruct (n_address r); [|done]. by intros [= <-]. Qed.

(** Loading never fails on a well-formed database, and yields what it holds. *)
Lemma load_state_ok dn dc ds :
  db_ok dn → db_ok dc → db_ok ds →
  ∃ m, load_state (pg_node_all dn) (pg_conn_all dc) (pg_sub_all ds) = Ok m ∧
    loaded dn dc ds m.
Proof.
  intros Hdn Hdc Hds. unfold load_state.
  destruct (load_nodes_spec (pg_node_all dn) Cache_new) as (m1 & -> & Hc1 & Hs1 & Hw1 & Hn1).
  { apply (NoDup_omap_fixed _ _ n_uuid).
    - intros r n _. apply node_of_record_uuid.
    - apply hvalues_ids, (ok_nodes _ Hdn). }
  { apply NodeStore.wf_empty. }
  { intros n e _. unfold NodeStore.get. cbn. by rewrite lookup_empty. }
  destruct (load_conns_spec (pg_conn_all dc) m1) as (m2 & -> & Hs2 & Hn2 & Hc2).
  { intros row ([id r] & -> & Hin%elem_of_hiter)%list_elem_of_fmap.
    destruct (conn_backed_loaded dc id r Hdc Hin) as (c & Hc & _). eauto. }
  { unfold pg_conn_all. rewrite <- list_fmap_compose, (list_fmap_ext _ fst).
    - apply NoDup_hiter_fst.
    - by intros i [id r] _. }
  { intros row _. rewrite Hc1. apply cache_new_conns. }
  destruct (load_subs_spec (pg_sub_all ds) m2) as (Hc3 & Hn3 & Hs3).
  { apply NoDup_keep, hvalues_ids, (ok_subs _ Hds). }
  { intros s _. rewrite Hs2, Hs1. apply cache_new_subs. }
  eexists. split; [done|]. split.
  - intros id c. rewrite Hc3, Hc2, Hc1. split.
    + intros [Hl|(row & ([id' r] & -> & Hin%elem_of_hiter)%list_elem_of_fmap & <- & Ht)].
      * by rewrite cache_new_conns in Hl.
      * by exists r.
    + intros (r & Hr & Ht). right. exists (row_to_conn id r). split_and!; [|done|done].
      apply (list_elem_of_fmap_2' _ _ (id, r)); [by apply elem_of_hiter|done].
  - intros id s. rewrite Hs3, Hs2, Hs1. unfold pg_sub_all. rewrite elem_of_keep, negb_true_iff.
    split.
    + intros [Hl|[[[id' Hin]%elem_of_hvalues Hd] <-]]; [by rewrite cache_new_subs in Hl|].
      by rewrite <- (ok_subs _ Hds _ _ Hin) in Hin.
    + intros [Hin Hd]. right. split_and!; [|done|by apply (ok_subs _ Hds)].
      apply elem_of_hvalues. eauto.
  - by rewrite Hn3, Hn2.
  - intros e u n. rewrite Hn3, Hn2, Hn1. split.
    + intros [Hl|(Hin & -> & ->)]; [unfold NodeStore.get in Hl; cbn in Hl;
        by rewrite lookup_empty in Hl|]. split_and!; [done..|].
      apply list_elem_of_omap in Hin as (r & [id Hin]%elem_of_hvalues & Hr).
      exists r. split; [|done]. by rewrite (node_of_record_uuid _ _ Hr), (ok_nodes _ Hdn _ _ Hin).
    + intros (<- & <- & r & Hin & Hr). right. split_and!; [|done|done].
      apply list_elem_of_omap. exists r. split; [apply elem_of_hvalues; eauto|done].
Qed.

(** A cache loaded from earlier states of the database is backed by it. *)
Lemma loaded_mem_ok dn dc ds d m :
  loaded dn dc ds m → db_ok dn → db_ok dc → db_ok ds →
  db_le dn d → db_le dc d → db_le ds d → mem_ok m d.
Proof.
  intros [Hc Hs Hw Hn] Hdn Hdc Hds Hln Hlc Hls. split; [| |done|].
  - intros id c (r & Hr & Ht)%Hc. destruct (conn_backed_loaded dc id r Hdc Hr) as (c' & Hc' & Hb).
    assert (c' = c) as -> by congruence. by apply (conn_backed_le dc).
  - intros id s [Hl _]%Hs. split; [by apply (ok_subs _ Hds)|]. apply (le_subs _ _ Hls). by eexists.
  - intros env ns n Hns Hin.
    assert (NodeStore.get (nodes m) env (Node.uuid n) = Some n) as (_ & _ & r & Hr & _)%Hn.
    { apply NodeStore.get_Some; [done|]. eauto. }
    apply (le_nodes _ _ Hln). by eexists.
Qed.

(** A read of an earlier state. *)
Definition read_of {A} (f : Db → A) (a : A) (d : Db) : Prop :=
  ∃ d0, db_ok d0 ∧ db_le d0 d ∧ a = f d0.

Lemma rg_db_get {A} (f : Db → A) w :
  rg backed keeps (db_get f) (on_ok (λ a w, read_of f a (db w))) w.
Proof.
  apply (rg_db_do _ (read_of f)).
  - apply sound_read.
  - intros t d d' a Hd Heq. injection Heq as <- <-. by exists d.
  - intros a d d' Hle (d0 & H0' & Hle0 & ->). exists d0. split_and!; [done|by etransitivity|done].
Qed.

Lemma safe_get_state_from_db w : okp backed keeps get_state_from_db w.
Proof.
  unfold get_state_from_db. eapply (rg_bind backed keeps).
  - apply (rg_try_join2 turn backed keeps); [apply turn_safe|apply rg_db_get|].
    apply (rg_try_join2 turn backed keeps); [apply turn_safe|apply rg_db_get|apply rg_db_get].
  - intros [[ns [conns subs]]|e] w1 Hg HI HQ; [|done].
    destruct (HQ w1 ltac:(reflexivity) HI) as (Hn & Hc & Hs). cbn in Hn, Hc, Hs.
    destruct Hn as (dn & Hdn & Hln & ->), Hc as (dc & Hdc & Hlc & ->),
      Hs as (ds & Hds & Hls & ->).
    destruct (load_state_ok dn dc ds Hdn Hdc Hds) as (m & -> & Hm).
    apply (okp_bind backed keeps); [|done]. apply safe_write_mem. intros w2 [Hg2 _] HI2.
    eapply loaded_mem_ok; [exact Hm|done..| | |]; by etransitivity.
Qed.

(** The three reads, alone, whatever their order. *)
Lemma run_reads w :
  let p := try_join2 turn (db_get pg_node_all)
    (try_join2 turn (db_get pg_conn_all) (db_get pg_sub_all)) in
  (memory (run p w).1 = memory w ∧ db (run p w).1 = db w ∧ bus (run p w).1 = bus w) ∧
  match (run p w).2 with
  | Some (Ok (ns, (conns, subs))) =>
    ns = pg_node_all (db w) ∧ conns = pg_conn_all (db w) ∧ subs = pg_sub_all (db w)
  | Some (Err e) => ∃ n b, pg_fault n = Lost b e
  | None => False
  end.
Proof.
  set (same := λ w', memory w' = memory w ∧ db w' = db w ∧ bus w' = bus w).
  set (anything := λ _ _ : World, True).
  assert (PreOrder anything) as Hpre by done.
  assert (∀ {A} (f : Db → A), rg same anything (db_get f)
    (on_res (λ a _, a = f (db w)) (λ e _, ∃ n b, pg_fault n = Lost b e)) w) as Hget.
  { intros A f w' _ (Hm & Hdb & Hbus). cbn.
    destruct (pg_fault (tick w')) as [|[] e] eqn:Hf; cbn;
      (split_and!; [by split_and!|done|]); intros w'' _ _; cbn; [by rewrite Hdb|eauto..]. }
  assert (∀ w', same w' → same (turn w').1 ∧ anything w' (turn w').1) as Hturn by done.
  pose proof (rg_try_join2 turn same anything Hturn _ _ _ _ _ _ (Hget _ pg_node_all)
    (rg_try_join2 turn same anything Hturn _ _ _ _ _ _ (Hget _ pg_conn_all)
      (Hget _ pg_sub_all))) as Hrg.
  cbv zeta. destruct (rg_run _ _ _ _ w Hrg) as (Hsame & _ & Hq); [by split_and!|].
  split; [exact Hsame|].
  destruct (run _ w).2 as [[[ns [conns subs]]|e]|] eqn:Hr.
  - destruct (Hq _ I Hsame) as (H1' & H2' & H3'). done.
  - exact (Hq _ I Hsame).
  - exfalso. destruct (run_total (W := World) (try_join2 turn (db_get pg_node_all)
      (try_join2 turn (db_get pg_conn_all) (db_get pg_sub_all))) w) as [x Hx]; [|congruence].
    by repeat apply total_try_join2.
Qed.

(** C20: over a well-formed database, loading the state either fails and leaves the cache as it was, or
    replaces it, whatever it held, by exactly what the database holds: every
    connection row, deleted or not, rebuilt; every subscription that is not
    deleted; every IPv4 node under its environment.  The database and the bus
    are untouched.  It fails only when a read does. *)
Theorem get_state_from_db_spec (w : World) (Hd : db_ok (db w)) :
  let '(w', r) := run get_state_from_db w in
  db w' = db w ∧ bus w' = bus w ∧
  match r with
  | Some (Ok _) => loaded (db w) (db w) (db w) (memory w')
  | Some (Err e) => memory w' = memory w ∧ ∃ n b, pg_fault n = Lost b e
  | None => False
  end.
Proof.
  unfold get_state_from_db. rewrite run_bind.
  pose proof (run_reads w) as (Hsame & Hr).
  destruct (run (try_join2 turn _ _) w) as [w1 [[[ns [conns subs]]|e]|]]; cbn in Hr, Hsame;
    destruct Hsame as (Hm & Hdb & Hbus); [|by split_and!|done].
  destruct Hr as (-> & -> & ->).
  destruct (load_state_ok (db w) (db w) (db w) Hd Hd Hd) as (m & -> & Hl). done.
Qed.
End reload.

(** A server that has just started over a database with one connection. *)
Definition one_conn : Conn := example_conn (Proto.Xray ProtoTag.Vmess).
Definition started : World :=
  set_db (pg_conn_insert (ConnRow.from 1%N one_conn) db_empty).1 world_new.

Lemma db_ok_empty : db_ok db_empty.
Proof. split; intros *; cbn; by rewrite lookup_empty. Qed.
Lemma started_ok : db_ok (db started).
Proof.
  apply (sound_conn_insert 1%N one_conn); [|exact 0|apply db_ok_empty]. by split.
Qed.

Lemma get_state_from_db_spec_witness :
  db_ok (db started) ∧
  connections (memory started) !! 1%N = None ∧
  ∃ c, connections (memory (run get_state_from_db started).1) !! 1%N = Some c.
Proof.
  split; [exact started_ok|]. split; [reflexivity|].
  pose proof (get_state_from_db_spec started started_ok) as Hs.
  assert (is_Some (t_connections (db started) !! 1%N)) as [r Hr] by (eexists; reflexivity).
  destruct (conn_backed_loaded _ _ _ started_ok Hr) as (c & Hc & _).
  assert ((run get_state_from_db started).2 = Some (Ok tt)) as Hok by (vm_compute; reflexivity).
  destruct (run get_state_from_db started) as [w' o]. cbn in Hok. rewrite Hok in Hs.
  exists c. apply (loaded_conns _ _ _ _ (proj2 (proj2 Hs))). exists r. split; assumption.
Defined.
