(* ===== verification/SyncSpec.v ===== *)
(** * What each synchronised operation does, alone

    One operation run to its end with no other task in between: its answer and
    what it leaves in the cache, in the database and on the bus, on every
    branch, for every choice of the outside.  These state plainly where an
    operation stops half way. *)
From S2P Require Import Prelude Task Foreign Naming Wireguard Connection ConnStore Subscription.
From S2P Require Import Key Inbound Node Db World Sync Consistency SyncSafe Reload.
Local Open Scope Z_scope.
Local Open Scope prog_scope.

Section spec.
Context `{!Oracle, !Postgres, !Ipv6Text, !UuidText, !IterOrder, !Chrono}.

(** The cache with the mark of one connection set, at the clock's [t]. *)
Definition marked (id : Uuid) (b : bool) (t : DateTime) (m : Cache) : Cache :=
  cache_conns (alter (λ c, set_modified_at t (set_deleted b c)) id) m.

(** The database with the mark of one connection's row set. *)
Definition row_marked (id : Uuid) (b : bool) (d : Db) : Db :=
  with_connections (alter (with_c_deleted b) id (t_connections d)) d.

(** The database with the row of a new connection. *)
Definition row_added (id : Uuid) (conn : Conn) (d : Db) : Db :=
  with_connections (<[id := row_of id conn]> (t_connections d)) d.

Lemma delete_connection_run (id : Uuid) (conn : Conn) (w : World) :
  let '(w', r) := run (delete_connection id conn) w in
  match connections (memory w) !! id with
  | None => w' = w ∧ r = Some (Ok (Status.NotFound id))
  | Some c =>
    if Conn.is_deleted c then w' = w ∧ r = Some (Ok (Status.NotModified id))
    else match r with
    | Some (Ok st) => st = Status.Ok id ∧
      (∃ t, memory w' = marked id true t (memory w)) ∧ db w' = row_marked id true (db w) ∧
      bus w' = bus w ++ [(conn_topic conn, [as_delete_message conn id])]
    | Some (Err (SyncError.Database _)) =>
      memory w' = memory w ∧ bus w' = bus w ∧
      (db w' = db w ∨ db w' = row_marked id true (db w))
    | Some (Err (SyncError.Zmq _)) | Some (Err (SyncError.RkyvSerialize _)) =>
      memory w' = memory w ∧ bus w' = bus w ∧ db w' = row_marked id true (db w)
    | _ => False
    end
  end.
Proof.
  unfold delete_connection, db_do, to_bytes, send_binary, mark_conn, read_mem, reads. cbn.
  destruct (connections (memory w) !! id) as [c|]; [|done].
  destruct (Conn.is_deleted c); [done|]. cbn.
  destruct (pg_fault (tick w)) as [|[] e]; cbn; [|auto..].
  destruct (rkyv_fault _); cbn; [done|]. destruct (zmq_fault _); cbn; [done|].
  split_and!; eauto.
Qed.

(** C21: deleting a connection, branch by branch.  One that the cache does not
    know or has as deleted is left alone, with no message.  Otherwise the row is
    marked in the database first; then the nodes are told; then the cache is
    marked.  When the database fails, nothing else has happened, and the row may
    be marked if only the answer was lost.  When the bus or the serialiser fails,
    the operation answers an error with the row deleted, the nodes not told and
    the cache still showing the connection live; so that doing it again from
    there is not turned away, and when that succeeds the nodes have been told,
    once, and the cache is marked. *)
Theorem delete_connection_spec (id : Uuid) (conn : Conn) (w : World) :
  let '(w', r) := run (delete_connection id conn) w in
  match connections (memory w) !! id with
  | None => w' = w ∧ r = Some (Ok (Status.NotFound id))
  | Some c =>
    if Conn.is_deleted c then w' = w ∧ r = Some (Ok (Status.NotModified id))
    else match r with
    | Some (Ok st) => st = Status.Ok id ∧
      (∃ t, memory w' = marked id true t (memory w)) ∧ db w' = row_marked id true (db w) ∧
      bus w' = bus w ++ [(conn_topic conn, [as_delete_message conn id])]
    | Some (Err (SyncError.Database _)) =>
      memory w' = memory w ∧ bus w' = bus w ∧
      (db w' = db w ∨ db w' = row_marked id true (db w))
    | Some (Err (SyncError.Zmq _)) | Some (Err (SyncError.RkyvSerialize _)) =>
      memory w' = memory w ∧ bus w' = bus w ∧ db w' = row_marked id true (db w) ∧
      let '(w2, r2) := run (delete_connection id conn) w' in
      match r2 with
      | Some (Ok st) => st = Status.Ok id ∧ (∃ t, memory w2 = marked id true t (memory w)) ∧
        bus w2 = bus w ++ [(conn_topic conn, [as_delete_message conn id])]
      | Some (Err _) => memory w2 = memory w ∧ bus w2 = bus w
      | None => False
      end
    | _ => False
    end
  end.
Proof.
  assert (∀ w c, connections (memory w) !! id = Some c → Conn.is_deleted c = false →
    let '(w2, r2) := run (delete_connection id conn) w in
    match r2 with
    | Some (Ok st) => st = Status.Ok id ∧ (∃ t, memory w2 = marked id true t (memory w)) ∧
      bus w2 = bus w ++ [(conn_topic conn, [as_delete_message conn id])]
    | Some (Err _) => memory w2 = memory w ∧ bus w2 = bus w
    | None => False
    end) as Hagain.
  { intros w1 c Hc Hl. pose proof (delete_connection_run id conn w1) as Hd.
    destruct (run _ w1) as [w2 r2]. rewrite Hc, Hl in Hd.
    destruct r2 as [[st|[]]|]; naive_solver. }
  pose proof (delete_connection_run id conn w) as Hd.
  destruct (run (delete_connection id conn) w) as [w' r].
  destruct (connections (memory w) !! id) as [c|] eqn:Hc; [|done].
  destruct (Conn.is_deleted c) eqn:Hl; [done|].
  destruct r as [[st|[]]|]; try done; destruct Hd as (Hm & Hb & Hdb); (split_and!; [done..|]);
    rewrite <- Hm, <- Hb; (eapply Hagain; [by rewrite Hm|done]).
Qed.

Lemma add_conn_run (id : Uuid) (conn : Conn) (w : World) :
  let '(w', r) := run (add_conn id conn) w in
  bus w' = bus w ∧ subscriptions (memory w') = subscriptions (memory w) ∧
  nodes (memory w') = nodes (memory w) ∧
  match r with
  | Some (Ok st) => st = Status.Ok id ∧ t_connections (db w) !! id = None ∧
    db w' = row_added id conn (db w) ∧
    connections (memory w') =
      match connections (memory w) !! id with
      | Some _ => connections (memory w)
      | None => <[id := conn]> (connections (memory w))
      end
  | Some (Err (SyncError.Database e)) =>
    memory w' = memory w ∧
    (db w' = db w ∨ db w' = row_added id conn (db w))
  | _ => False
  end.
Proof.
  unfold add_conn, db_do, update_mem. cbn.
  pose proof (eq_refl : pg_conn_insert (ConnRow.from id conn) (db w) = _) as Hins.
  unfold pg_conn_insert in Hins at 2. cbn in Hins. rewrite Hins.
  destruct (t_connections (db w) !! id) as [r0|] eqn:Hid.
  { destruct (pg_fault (tick w)) as [|[] e]; cbn; eauto 8. }
  destruct (match Conn.subscription_id conn with Some s => _ | None => _ end).
  { destruct (pg_fault (tick w)) as [|[] e]; cbn; eauto 8. }
  destruct (pg_fault (tick w)) as [|[] e]; cbn; eauto 10.
  unfold api_add. destruct (connections (memory w) !! id); cbn; eauto 10.
Qed.

(** Adding a connection writes its row first and then the cache; the cache
    is touched only when the database took the row, and a connection id the
    cache already has keeps its old entry, which the answer does not tell.
    Nothing is published. *)
Theorem add_conn_spec (id : Uuid) (conn : Conn) (w : World) :
  let '(w', r) := run (add_conn id conn) w in
  bus w' = bus w ∧ subscriptions (memory w') = subscriptions (memory w) ∧
  nodes (memory w') = nodes (memory w) ∧
  match r with
  | Some (Ok st) => st = Status.Ok id ∧ t_connections (db w) !! id = None ∧
    db w' = row_added id conn (db w) ∧
    connections (memory w') =
      match connections (memory w) !! id with
      | Some _ => connections (memory w)
      | None => <[id := conn]> (connections (memory w))
      end
  | Some (Err (SyncError.Database e)) =>
    memory w' = memory w ∧
    (db w' = db w ∨ db w' = row_added id conn (db w))
  | _ => False
  end.
Proof. exact (add_conn_run id conn w). Qed.

(** What a request makes of a subscription: the days on top of an expiry it
    has, and the codes and the limit it names. *)
Definition sub_patched (req : SubReq) (s s' : Subscription) : Prop :=
  Subscription.id s' = Subscription.id s ∧
  Subscription.is_deleted s' = Subscription.is_deleted s ∧
  Subscription.expires_at s' =
    match sr_days req, Subscription.expires_at s with
    | Some days, Some e => dt_add_days e days
    | _, e => e
    end ∧
  Subscription.referred_by s' =
    match sr_referred_by req with Some c => Some c | None => Subscription.referred_by s end ∧
  Subscription.refer_code s' = default (Subscription.refer_code s) (sr_refer_code req) ∧
  Subscription.limit_bytes s' =
    match sr_limit_bytes req with Some l => Some l | None => Subscription.limit_bytes s end.

(** What the database keeps of it. *)
Definition sub_written (s' old row : Subscription) : Prop :=
  Subscription.expires_at row = pg_time <$> Subscription.expires_at s' ∧
  Subscription.referred_by row = clip 13 <$> Subscription.get_referred_by s' ∧
  Subscription.refer_code row = pad_to 13 (Subscription.get_refer_code s') ∧
  Subscription.limit_bytes row = Subscription.limit_bytes old.

Lemma run_update_entry (req : SubReq) (s : Subscription) (w : World) :
  let '(w', r) := run (update_entry req s) w in
  memory w' = memory w ∧ db w' = db w ∧ bus w' = bus w ∧
  match r with
  | Some s' => sub_patched req s s'
  | None => ∃ days e, sr_days req = Some days ∧ Subscription.expires_at s = Some e ∧
      dt_add_days e days = None
  end.
Proof.
  unfold update_entry, sub_patched, Subscription.extend.
  destruct (sr_days req) as [days|]; cbn; [|by repeat case_match; split_and!].
  destruct (Subscription.expires_at s) as [e|] eqn:He; cbn;
    [destruct (dt_add_days e days) eqn:Hd; cbn; [|by eauto 10]|];
    by repeat case_match; split_and!; cbn; rewrite ?He, ?Hd.
Qed.
#[local] Arguments update_entry : simpl never.

(** Updating a subscription changes its entry in the cache before anything
    can fail: an unlimited subscription answers an inconsistency, and a
    database that refuses or is lost an error, with the new days, codes and
    limit already in the cache and, except when the answer was lost, not in
    the database; the next reload takes them back.  On success the row has
    the new expiry and codes; the traffic limit is never written.  Only an
    expiry out of range panics. *)
Theorem update_sub_spec (id : Uuid) (req : SubReq) (w : World) :
  let '(w', r) := run (update_sub id req) w in
  bus w' = bus w ∧ connections (memory w') = connections (memory w) ∧
  match subscriptions (memory w) !! id, r with
  | None, _ => w' = w ∧ r = Some (Ok (Status.NotFound id))
  | Some s, None => memory w' = memory w ∧ db w' = db w ∧ ∃ days e, sr_days req = Some days ∧
      Subscription.expires_at s = Some e ∧ dt_add_days e days = None
  | Some s, Some r => ∃ s', sub_patched req s s' ∧
      subscriptions (memory w') = <[id := s']> (subscriptions (memory w)) ∧
      match r with
      | Ok st => st = Status.Updated id ∧ ∃ old row,
          t_subscriptions (db w) !! id = Some old ∧ t_subscriptions (db w') !! id = Some row ∧
          sub_written s' old row
      | Err (SyncError.InconsistentState _ i) => i = id ∧ db w' = db w ∧
          Subscription.expires_at s' = None
      | Err (SyncError.Database e) => db w' = db w ∨ ∃ n, pg_fault n = Lost true e
      | _ => False
      end
  end.
Proof.
  unfold update_sub. rewrite run_atomic. cbn. unfold Subscriptions.find_by_id.
  destruct (subscriptions (memory w) !! id) as [s|]; [|done]. rewrite run_bind.
  pose proof (run_update_entry req s w) as Hu.
  destruct (run (update_entry req s) w) as [[m1 d1 b1 e1 f1 t1] o]. cbn in Hu.
  destruct Hu as (-> & -> & -> & Hu). destruct o as [s'|]; [|done]. cbn.
  destruct (Subscription.expires_at s') as [e|] eqn:He; cbn;
    [|split_and!; [done..|]; exists s'; by split_and!].
  pose proof (eq_refl : pg_sub_update (clock t1) id e (Subscription.get_referred_by s')
    (Subscription.get_refer_code s') (db w) = _) as Hup.
  unfold pg_sub_update in Hup at 2. rewrite Hup.
  destruct (t_subscriptions (db w) !! id) as [old|] eqn:Hold;
    [destruct (negb _)|]; cbn;
    (destruct (pg_fault t1) as [|[] e'] eqn:Hf; cbn; (split_and!; [done|done|]); exists s';
      (split; [done|]; split; [done|]); eauto).
  split; [done|]. exists old. eexists. rewrite lookup_insert_eq.
  split; [done|]. split; [done|]. unfold sub_written. by rewrite He.
Qed.

(** ** Restoring a subscription's connections *)

(** Nothing fails. *)
Definition healthy : Prop :=
  (∀ n, pg_fault n = NoFault) ∧ (∀ n, zmq_fault n = None) ∧ (∀ n, rkyv_fault n = None).

(** The subscription's deleted connections. *)
Definition restorable (m : Cache) (sub id : Uuid) : Prop :=
  ∃ c, connections m !! id = Some c ∧ Conn.subscription_id c = Some sub ∧
    Conn.is_deleted c = true.

Definition conn_live (w : World) (id : Uuid) : Prop :=
  ∃ c, connections (memory w) !! id = Some c ∧ Conn.is_deleted c = false.
Definition row_live (w : World) (id : Uuid) : Prop :=
  ∀ r, t_connections (db w) !! id = Some r → c_is_deleted r = false.

Section restore.
Context (w0 : World) (sub : Uuid).
Notation target id := (restorable (memory w0) sub id).

(** Only the targets' marks and times have moved since [w0]. *)
Record restoring (w : World) : Prop := {
  rs_others : subscriptions (memory w) = subscriptions (memory w0) ∧
    nodes (memory w) = nodes (memory w0) ∧ ∃ t, db w = with_connections t (db w0);
  rs_conn : ∀ id, connections (memory w) !! id = connections (memory w0) !! id ∨
    target id ∧ ∃ c t, connections (memory w0) !! id = Some c ∧
      connections (memory w) !! id = Some (set_modified_at t (set_deleted false c));
  rs_row : ∀ id, t_connections (db w) !! id = t_connections (db w0) !! id ∨
    target id ∧ t_connections (db w) !! id =
      with_c_deleted false <$> t_connections (db w0) !! id;
}.

(** A connection or a row that is live stays live. *)
Definition reviving (w w' : World) : Prop :=
  (∀ id, conn_live w id → conn_live w' id) ∧ (∀ id, row_live w id → row_live w' id).

#[export] Instance reviving_preorder : PreOrder reviving.
Proof. split; [by split|]. intros w1 w2 w3 [A1 B1] [A2 B2]. split; auto. Qed.

Lemma restoring_start : restoring w0.
Proof.
  split; [|by left..]. split_and!; [done..|]. exists (t_connections (db w0)).
  by destruct (db w0).
Qed.

Lemma restoring_turn w : restoring w → restoring (turn w).1 ∧ reviving w (turn w).1.
Proof. intros [Ho Hc Hr]. by split. Qed.

(** The database's half of a restoration. *)
Lemma restoring_row w id :
  target id → restoring w →
  let w' := set_db (row_marked id false (db w)) w in
  restoring w' ∧ reviving w w' ∧ row_live w' id.
Proof.
  intros Ht [Ho Hc Hr]. cbv zeta. split_and!.
  - split; [|done|].
    + destruct Ho as (? & ? & t & Hdb). split_and!; [done..|]. cbn. unfold row_marked.
      rewrite Hdb. by eexists.
    + intros i. cbn. destruct (decide (i = id)) as [->|Hne].
      * rewrite lookup_alter_eq. right. split; [done|].
        destruct (Hr id) as [->|[_ ->]]; [done|].
        by destruct (t_connections (db w0) !! id).
      * rewrite lookup_alter_ne by done. apply Hr.
  - split; [done|]. intros i Hl r. cbn. destruct (decide (i = id)) as [->|Hne].
    + rewrite lookup_alter_eq. by intros (r' & _ & ->)%fmap_Some.
    + rewrite lookup_alter_ne by done. apply Hl.
  - intros r. cbn. rewrite lookup_alter_eq. by intros (r' & _ & ->)%fmap_Some.
Qed.

(** The cache's half. *)
Lemma restoring_mark w id t :
  target id → restoring w →
  let w' := set_memory (marked id false t (memory w)) w in
  restoring w' ∧ reviving w w' ∧ conn_live w' id.
Proof.
  intros Ht [Ho Hc Hr]. cbv zeta.
  assert (∃ c c', connections (memory w0) !! id = Some c ∧ connections (memory w) !! id = Some c' ∧
    set_modified_at t (set_deleted false c') = set_modified_at t (set_deleted false c))
    as (c & c' & Hc0 & Hc' & Heq).
  { destruct Ht as (c & Hc0 & _). exists c.
    destruct (Hc id) as [Hs|(_ & c1 & t1 & Hc1 & ->)]; [exists c; by rewrite Hs|].
    eexists. split_and!; [done..|]. assert (c1 = c) as -> by congruence. done. }
  split_and!.
  - split; [done| |done]. intros i. cbn. destruct (decide (i = id)) as [->|Hne].
    + rewrite lookup_alter_eq, Hc'. right. split; [done|]. exists c, t. split; [done|]. exact (f_equal Some Heq).
    + rewrite lookup_alter_ne by done. apply Hc.
  - split; [|done]. intros i (c1 & Hc1 & Hl). unfold conn_live. cbn.
    destruct (decide (i = id)) as [->|Hne].
    + rewrite lookup_alter_eq, Hc1. by eexists.
    + rewrite lookup_alter_ne by done. eauto.
  - unfold conn_live. cbn. rewrite lookup_alter_eq, Hc'. by eexists.
Qed.

Lemma target_present w id : target id → restoring w → is_Some (connections (memory w) !! id).
Proof.
  intros (c & Hc & _) [_ Hcs _]. destruct (Hcs id) as [->|(_ & c' & t & _ & ->)]; by eexists.
Qed.

Lemma restoring_ext w w' :
  memory w' = memory w → db w' = db w → restoring w → restoring w' ∧ reviving w w'.
Proof.
  intros Hm Hd [Ho Hc Hr]. split; [by split; rewrite ?Hm, ?Hd|].
  unfold reviving, conn_live, row_live. by rewrite Hm, Hd.
Qed.

(** The answer of one connection's future: [Some] is a connection live in the
    cache and in the database for good; [None] means that something failed. *)
Definition task_post (id : Uuid) (o : option Uuid) (w : World) : Prop :=
  match o with Some i => i = id ∧ conn_live w id ∧ row_live w id | None => ¬ healthy end.

Lemma rg_mark id w :
  target id →
  rg restoring reviving (mark_conn id false) (λ _ w, conn_live w id) w.
Proof.
  intros Ht w1 Hg1 HI1. destruct (restoring_ext w1 (bump w1) eq_refl eq_refl HI1) as [HI2 Hg2].
  split_and!; [done|done|]. intros w2 Hg3 HI3.
  destruct (restoring_mark w2 id (clock (tick w1)) Ht HI3) as (HI4 & Hg4 & Hl).
  split_and!; [done|done|]. intros w3 [Hg5 _] _. by apply Hg5.
Qed.

Lemma rg_restore_row id w :
  target id →
  rg restoring reviving (db_do (λ _, pg_conn_restore id))
    (on_res (λ _ w, row_live w id) (λ _ _, ¬ healthy)) w.
Proof.
  intros Ht w1 Hg1 HI1. cbn.
  destruct (restoring_row w1 id Ht HI1) as (HI2 & Hg2 & Hl). cbv zeta in *.
  fold (row_marked id false (db w1)).
  destruct (restoring_ext (set_db (row_marked id false (db w1)) w1)
    (bump (set_db (row_marked id false (db w1)) w1)) eq_refl eq_refl HI2)
    as [HI3 Hg3].
  destruct (pg_fault (tick w1)) as [|[] e] eqn:Hf; cbn.
  - split_and!; [done|by etransitivity|]. intros w2 [_ Hg4] _. by apply Hg4.
  - split_and!; [done|by etransitivity|]. intros w2 _ _ [Hh _]. by rewrite Hh in Hf.
  - destruct (restoring_ext w1 (bump w1) eq_refl eq_refl HI1) as [HI4 Hg4].
    split_and!; [done|done|]. intros w2 _ _ [Hh _]. by rewrite Hh in Hf.
Qed.

Lemma rg_restore_connection id w :
  target id →
  rg restoring reviving (restore_connection id)
    (λ r w, match r with
            | Ok st => st = Status.Ok id ∧ conn_live w id ∧ row_live w id
            | Err _ => ¬ healthy end) w.
Proof.
  intros Ht w1 Hg1 HI1. destruct (target_present w1 id Ht HI1) as [c Hc]. cbn [fst snd].
  split_and!; [done|done|]. rewrite Hc. cbn [bind].
  eapply (rg_bind restoring reviving); [by apply rg_restore_row|].
  intros [[]|e] w2 Hg2 HI2 Hq; [|done].
  eapply (rg_bind restoring reviving); [apply (rg_frame restoring reviving _ (λ _ w, conn_live w id) _ _ Hq), rg_mark, Ht|].
  intros [] w3 Hg3 HI3 Hq3 w4 Hg4 HI4. by destruct (Hq3 w4 Hg4 HI4).
Qed.

Lemma rg_restore_task id c w :
  target id → rg restoring reviving (restore_task (id, c)) (task_post id) w.
Proof.
  intros Ht w1 Hg1 HI1. cbn.
  destruct (restoring_ext w1 (bump w1) eq_refl eq_refl HI1) as [HI2 Hg2].
  split_and!; [done|done|]. destruct (rkyv_fault (tick w1)) as [e|] eqn:Hf.
  { intros w2 _ _ (_ & _ & Hh). by rewrite Hh in Hf. }
  intros w2 Hg3 HI3. cbn.
  destruct (restoring_ext w2 (match zmq_fault (tick w2) with
    | None => bump (post (conn_topic c, [as_update_message c id]) w2) | Some _ => bump w2 end))
    as [HI4 Hg4]; [by destruct (zmq_fault _)..|done|].
  destruct (zmq_fault (tick w2)) as [e|] eqn:Hz.
  { split_and!; [done|done|]. intros w3 _ _ (_ & Hh & _). by rewrite Hh in Hz. }
  split_and!; [done|done|].
  change (rg restoring reviving (bind (restore_connection id) (λ r, Ret
    match r with Ok (Status.Ok _) | Ok (Status.Updated _) => Some id | _ => None end))
    (task_post id) (bump (post (conn_topic c, [as_update_message c id]) w2))).
  eapply (rg_bind restoring reviving); [by apply rg_restore_connection|].
  intros [st|e'] w3 Hg5 HI5 Hq w4 Hg6 HI6; [|exact (Hq w4 Hg6 HI6)].
  destruct (Hq w4 Hg6 HI6) as (-> & Hc & Hr). by split_and!.
Qed.

Lemma total_restore_task id c : total (restore_task (id, c)).
Proof.
  intros [b|e]; [|done]. intros [[]|e]; [|done]. intros [c'|]; [|done].
  intros [[]|e]; [|done]. by intros ? [].
Qed.

Lemma elem_restorable id c :
  (id, c) ∈ match get_by_subscription_id (connections (memory w0)) sub with
            | Some conns => keep (λ '(_, c), get_deleted c) conns | None => [] end ↔
  connections (memory w0) !! id = Some c ∧ Conn.subscription_id c = Some sub ∧
  Conn.is_deleted c = true.
Proof.
  destruct (get_by_subscription_id _ _) as [l|] eqn:Hg.
  - rewrite elem_of_keep, (elem_of_get_by_subscription_id _ _ _ Hg). cbn. naive_solver.
  - rewrite elem_of_nil. split; [done|]. intros (Hc & Hs & _).
    rewrite get_by_subscription_id_None in Hg. by destruct (Hg _ _ Hc).
Qed.
End restore.

Lemma restore_run (sub : Uuid) (w : World) :
  let '(w', r) := run (restore_connections_by_subscription sub) w in
  restoring w sub w' ∧
  match r with
  | Some (Ok ids) =>
    (∀ id, id ∈ ids → restorable (memory w) sub id ∧ conn_live w' id ∧ row_live w' id) ∧
    (healthy → ∀ id, restorable (memory w) sub id → id ∈ ids)
  | _ => False
  end.
Proof.
  unfold restore_connections_by_subscription. cbn.
  set (l := match get_by_subscription_id _ _ with Some _ => _ | None => _ end).
  assert (∀ id c, (id, c) ∈ l ↔ connections (memory w) !! id = Some c ∧
    Conn.subscription_id c = Some sub ∧ Conn.is_deleted c = true) as Hl
    by apply elem_restorable.
  clearbody l. destruct l as [|x l0] eqn:Hl0.
  { cbn. split; [apply restoring_start|]. split; [by intros id ?%not_elem_of_nil|].
    intros _ id (c & Hc). exfalso. apply Hl in Hc. by apply not_elem_of_nil in Hc. }
  rewrite <- Hl0 in *. clear x l0 Hl0. rewrite run_bind.
  assert (rg (restoring w sub) reviving (join_all turn (restore_task <$> l))
    (λ ys w', Forall2 (λ x y, task_post x.1 y w') l ys) w) as Hrg.
  { apply (rg_join_all turn (restoring w sub) reviving); [apply restoring_turn|].
    intros [id c] Hin%Hl. apply rg_restore_task. by exists c. }
  destruct (rg_run _ _ _ _ w Hrg (restoring_start w sub)) as (HI & _ & Hq).
  assert (total (join_all turn (restore_task <$> l))) as Ht.
  { apply total_join_all. intros [id c]. apply total_restore_task. }
  apply (run_total _ w) in Ht.
  destruct (run (join_all _ _) w) as [w' o]. cbn in *. destruct Ht as [ys ->]. cbn.
  specialize (Hq w' ltac:(reflexivity) HI). split; [done|]. split.
  - intros id Hin. apply list_elem_of_omap in Hin as (o & Hin & Ho). unfold Datatypes.id in Ho. subst o.
    apply list_elem_of_lookup in Hin as [i Hi].
    destruct (Forall2_lookup_r _ _ _ _ _ Hq Hi) as ([id' c] & Hi' & -> & Hc & Hr).
    split_and!; [|done|done]. exists c. apply Hl. by eapply list_elem_of_lookup_2.
  - intros Hh id (c & Hc). apply Hl in Hc. apply list_elem_of_lookup in Hc as [i Hi].
    destruct (Forall2_lookup_l _ _ _ _ _ Hq Hi) as ([id'|] & Hi' & Hp); [|by destruct Hp].
    destruct Hp as (-> & _). apply list_elem_of_omap. exists (Some id).
    split; [by eapply list_elem_of_lookup_2|done].
Qed.

(** Restoring a subscription's connections, in whatever order its futures
    take turns: every connection it answers was a deleted one of the
    subscription and ends live in the cache and in the database; nothing but
    such connections changes; and when nothing fails it answers all of them,
    without asking who deleted them or why. *)
Theorem restore_by_subscription_spec (sub : Uuid) (w : World) :
  let '(w', r) := run (restore_connections_by_subscription sub) w in
  restoring w sub w' ∧
  match r with
  | Some (Ok ids) =>
    (∀ id, id ∈ ids → restorable (memory w) sub id ∧ conn_live w' id ∧ row_live w' id) ∧
    (healthy → ∀ id, restorable (memory w) sub id → id ∈ ids)
  | _ => False
  end.
Proof. exact (restore_run sub w). Qed.

(** The later of an expiry and now: where added days start. *)
Definition later_of (e : option DateTime) (t : DateTime) : DateTime :=
  match e with Some e => if decide (t < e) then e else t | None => t end.

(** What it makes of the cache's entry: the expiry moved, unless it would still
    have passed. *)
Definition entry_moved (days : Z) (s s' : Subscription) : Prop :=
  ∃ n n' e, dt_add_days (later_of (Subscription.expires_at s) (clock n)) days = Some e ∧
    s' = if decide (e <= clock n') then s
         else Subscription.with_updated (clock n') (Subscription.with_expires (Some e) s).

Lemma run_extend_entry id days w :
  let '(w', r) := run (extend_entry id days) w in
  db w' = db w ∧ bus w' = bus w ∧ connections (memory w') = connections (memory w) ∧
  match subscriptions (memory w) !! id, r with
  | None, _ => r = Some false ∧ w' = w
  | Some s, Some b => b = true ∧ ∃ s', entry_moved days s s' ∧
    subscriptions (memory w') = <[id := s']> (subscriptions (memory w))
  | Some s, None =>
    dt_add_days (later_of (Subscription.expires_at s) (clock (tick w))) days = None ∧
    subscriptions (memory w') = subscriptions (memory w)
  end.
Proof.
  unfold extend_entry. rewrite run_atomic. cbn. unfold Subscriptions.find_by_id.
  destruct (subscriptions (memory w) !! id) as [s|]; [|done]. cbn. unfold add_days_or_panic.
  fold (later_of (Subscription.expires_at s) (clock (tick w))).
  destruct (dt_add_days _ _) as [e|] eqn:He; cbn; [|done].
  split_and!; [done..|]. eexists. split; [|done]. exists (tick w), (S (tick w)), e.
  split; [done|]. unfold Subscription.set_expires_at. by case_decide.
Qed.

#[local] Arguments extend_entry : simpl never.
#[local] Arguments restore_connections_by_subscription : simpl never.

(** What it makes of the row: the expiry moved, from the later of it and now. *)
Definition row_moved (days : Z) (old row : Subscription) : Prop :=
  ∃ n e, dt_add_days (later_of (Subscription.expires_at old) (clock n)) days = Some e ∧
    row = Subscription.with_updated (pg_time (clock n))
      (Subscription.with_expires (Some (pg_time e)) old).

Lemma add_days_run (id : Uuid) (days : Z) (w : World) :
  let '(w', r) := run (add_days id days) w in
  match subscriptions (memory w) !! id with
  | None => r = Some (Ok (Status.NotFound id)) ∧ memory w' = memory w ∧ db w' = db w ∧
      bus w' = bus w
  | Some s =>
    let entry_written := ∃ s', entry_moved days s s' ∧
      subscriptions (memory w') = <[id := s']> (subscriptions (memory w)) in
    match r with
    | None => db w' = db w ∧ connections (memory w') = connections (memory w) ∧ bus w' = bus w ∧
      (dt_add_days (later_of (Subscription.expires_at s) (clock (S (tick w)))) days = None ∧
         subscriptions (memory w') = subscriptions (memory w) ∨
       entry_written ∧ ∃ old n, t_subscriptions (db w) !! id = Some old ∧
         dt_add_days (later_of (Subscription.expires_at old) (clock n)) days = None)
    | Some (Err e) => entry_written ∧ (∃ e', e = SyncError.Database e') ∧
      connections (memory w') = connections (memory w) ∧ bus w' = bus w ∧
      (db w' = db w ∨ ∃ old row, t_subscriptions (db w) !! id = Some old ∧ row_moved days old row ∧
         db w' = with_subscriptions (<[id := row]> (t_subscriptions (db w))) (db w))
    | Some (Ok st) => entry_written ∧ ∃ old row rows,
      t_subscriptions (db w) !! id = Some old ∧ row_moved days old row ∧
      st = Status.Updated (Subscription.id old) ∧
      db w' = with_connections rows
        (with_subscriptions (<[id := row]> (t_subscriptions (db w))) (db w)) ∧
      (Subscription.is_active (clock (tick w)) s = true →
        connections (memory w') = connections (memory w) ∧ rows = t_connections (db w) ∧
        bus w' = bus w) ∧
      (Subscription.is_active (clock (tick w)) s = false →
        (∀ c, connections (memory w') !! c = connections (memory w) !! c ∨
          restorable (memory w) id c ∧ conn_live w' c) ∧
        (∀ c, rows !! c = t_connections (db w) !! c ∨
          restorable (memory w) id c ∧
          rows !! c = with_c_deleted false <$> t_connections (db w) !! c) ∧
        (healthy → ∀ c, restorable (memory w) id c → conn_live w' c ∧ row_live w' c))
    end
  end.
Proof.
  unfold add_days. cbn. rewrite run_bind.
  pose proof (run_extend_entry id days (bump w)) as Hx. cbn in Hx.
  destruct (run (extend_entry id days) (bump w)) as [[m1 d1 b1 e1 f1 t1] o]. cbn in *.
  destruct (subscriptions (memory w) !! id) as [s|] eqn:Hs.
  2:{ destruct Hx as (-> & -> & _ & -> & [= -> ->]). done. }
  destruct Hx as (-> & -> & Hc1 & Hx). destruct o as [b|].
  2:{ destruct Hx as [Hx Hsame]. cbn. rewrite Hc1. split_and!; [done..|]. by left. }
  destruct Hx as (-> & s' & Hmv & Hs').
  assert (∃ s', entry_moved days s s' ∧ subscriptions m1 = <[id := s']> (subscriptions (memory w)))
    as Hent by by exists s'.
  cbn. unfold pg_sub_add_days.
  destruct (t_subscriptions (db w) !! id) as [old|] eqn:Hold; cbn.
  2:{ destruct (pg_fault t1) as [|[] e]; cbn; eauto 10. }
  fold (later_of (Subscription.expires_at old) (clock t1)).
  destruct (dt_add_days _ _) as [ne|] eqn:Hne; cbn.
  2:{ destruct (pg_fault t1) as [|[] e]; cbn; [|by eauto 10..]. split_and!; [done..|]. right.
      split; [done|]. by exists old, t1. }
  set (row := Subscription.with_updated _ _).
  assert (row_moved days old row) as Hrow by by exists t1, ne.
  destruct (pg_fault t1) as [|[] e]; cbn; [|split_and!; eauto 10..].
  destruct (Subscription.is_active (clock (tick w)) s) eqn:Hact; cbn.
  { split; [done|]. exists old, row, (t_connections (db w)). by split_and!. }
  rewrite run_bind.
  match goal with |- context [run _ ?w1] => set (w2 := w1); pose proof (restore_run id w2) as Hr end.
  destruct (run (restore_connections_by_subscription id) w2) as [w3 [[ids|]|]];
    destruct Hr as [[(Hsub & _ & t & Ht) Hconn Hrows] Hr]; [|done..]. cbn.
  assert (∀ c, restorable (memory w2) id c ↔ restorable (memory w) id c) as Hrest
    by (intros c; unfold restorable; subst w2; cbn; by rewrite Hc1).
  split; [by rewrite Hsub|]. exists old, row, t. split_and!; [done..|].
  intros _. rewrite Ht in Hrows. setoid_rewrite Hrest in Hconn. setoid_rewrite Hrest in Hrows.
  setoid_rewrite Hrest in Hr. split_and!.
  - intros c. destruct (Hconn c) as [->|(Hrc & c0 & t' & _ & Hc0)].
    + left. subst w2. cbn. by rewrite Hc1.
    + right. split; [done|]. unfold conn_live. rewrite Hc0. by eexists.
  - exact Hrows.
  - intros Hh c Hc. destruct Hr as [Hall Hin]. by apply (Hall c (Hin Hh c Hc)).
Qed.

(** C19: adding days to a subscription.  Unknown to the cache, nothing happens.
    Otherwise the cache's entry changes first, then the row, whose expiry
    moves by the days from the later of its expiry and now.  When the database
    fails, the entry has changed all the same, and no connection; the row has
    moved too only if the database wrote it and its answer was lost.  On
    success, of a subscription that was active no connection is touched.  Of one
    that was inactive none is touched but its own deleted ones, which may be
    restored, in the cache and in the database; and all of them are when nothing
    fails in the database, on the bus or in encoding.  A panic means that the
    days lead out of the range of dates: from the entry's expiry or now, before
    anything changed, or from the row's, after the entry did. *)
Theorem add_days_spec (id : Uuid) (days : Z) (w : World) :
  let '(w', r) := run (add_days id days) w in
  match subscriptions (memory w) !! id with
  | None => r = Some (Ok (Status.NotFound id)) ∧ memory w' = memory w ∧ db w' = db w ∧
      bus w' = bus w
  | Some s =>
    let entry_written := ∃ s', entry_moved days s s' ∧
      subscriptions (memory w') = <[id := s']> (subscriptions (memory w)) in
    match r with
    | None => db w' = db w ∧ connections (memory w') = connections (memory w) ∧ bus w' = bus w ∧
      (dt_add_days (later_of (Subscription.expires_at s) (clock (S (tick w)))) days = None ∧
         subscriptions (memory w') = subscriptions (memory w) ∨
       entry_written ∧ ∃ old n, t_subscriptions (db w) !! id = Some old ∧
         dt_add_days (later_of (Subscription.expires_at old) (clock n)) days = None)
    | Some (Err e) => entry_written ∧ (∃ e', e = SyncError.Database e') ∧
      connections (memory w') = connections (memory w) ∧ bus w' = bus w ∧
      (db w' = db w ∨ ∃ old row, t_subscriptions (db w) !! id = Some old ∧ row_moved days old row ∧
         db w' = with_subscriptions (<[id := row]> (t_subscriptions (db w))) (db w))
    | Some (Ok st) => entry_written ∧ ∃ old row rows,
      t_subscriptions (db w) !! id = Some old ∧ row_moved days old row ∧
      st = Status.Updated (Subscription.id old) ∧
      db w' = with_connections rows
        (with_subscriptions (<[id := row]> (t_subscriptions (db w))) (db w)) ∧
      (Subscription.is_active (clock (tick w)) s = true →
        connections (memory w') = connections (memory w) ∧ rows = t_connections (db w) ∧
        bus w' = bus w) ∧
      (Subscription.is_active (clock (tick w)) s = false →
        (∀ c, connections (memory w') !! c = connections (memory w) !! c ∨
          restorable (memory w) id c ∧ conn_live w' c) ∧
        (∀ c, rows !! c = t_connections (db w) !! c ∨
          restorable (memory w) id c ∧
          rows !! c = with_c_deleted false <$> t_connections (db w) !! c) ∧
        (healthy → ∀ c, restorable (memory w) id c → conn_live w' c ∧ row_live w' c))
    end
  end.
Proof. exact (add_days_run id days w). Qed.
End spec.
