(* ===== verification/Background.v ===== *)
(** * The periodic tasks of the API server

    [bin/api/tasks.rs]: deleting the connections that have expired or whose
    subscription has, restoring those of active subscriptions, and reloading
    the cache.  Each is an endless loop around a round; [loop n] is its first
    [n] rounds, so what holds for every [n] holds whenever one looks. *)
From S2P Require Import Prelude Task Foreign Naming Wireguard Connection ConnStore Subscription.
From S2P Require Import Key Inbound Node Db World Sync Consistency SyncSafe Reload SyncSpec.
Local Open Scope Z_scope.
Local Open Scope prog_scope.

Fixpoint loop (n : nat) (round : IO unit) : IO unit :=
  match n with O => Ret tt | S n => round;; loop n round end.

(** The elements that a test with effects keeps. *)
Fixpoint keep_io {A} (f : A → IO bool) (l : list A) : IO (list A) :=
  match l with
  | [] => Ret []
  | x :: l => b <- f x;; rest <- keep_io f l;; Ret (if b : bool then x :: rest else rest)
  end.

Section background.
Context `{!Oracle, !Postgres, !Ipv6Text, !UuidText, !IterOrder, !Chrono}.

(** the connections that are expired and not yet deleted *)
Definition expired_conns (now : DateTime) (m : Cache) : list (Uuid * Conn) :=
  keep (λ '(_, conn),
    match get_expires_at conn with
    | Some expires_at => bool_decide (expires_at <= now) && negb (get_deleted conn)
    | None => false
    end) (hiter (connections m)).

Definition delete_all (conns : list (Uuid * Conn)) : IO unit :=
  for_each conns (λ '(conn_id, conn), delete_connection conn_id conn;; Ret tt).

Definition expire_conns_round : IO unit :=
  t <- now;;
  expired <- read_mem (expired_conns t);;
  delete_all expired.

(** [Tasks::cleanup_expired_connections] -- bin/api/tasks.rs:30-72 *)
Definition cleanup_expired_connections (rounds : nat) : IO unit :=
  loop rounds expire_conns_round.

(** the subscriptions whose activity, read one by one, is [b] *)
Definition subs_with_activity (b : bool) : IO (list Uuid) :=
  atomic (
    l <- read_mem (λ m, hiter (subscriptions m));;
    l <- keep_io (λ '(_, sub), t <- now;; Ret (Bool.eqb (Subscription.is_active t sub) b)) l;;
    Ret (l.*1)).

(** the connections of a subscription that are not deleted *)
Definition live_conns (sub_id : Uuid) (m : Cache) : list (Uuid * Conn) :=
  match get_by_subscription_id (connections m) sub_id with
  | Some conns => keep (λ '(_, c), negb (get_deleted c)) conns
  | None => []
  end.

Definition expire_subs_round : IO unit :=
  expired_subs <- subs_with_activity false;;
  for_each expired_subs (λ sub_id,
    conns_to_delete <- read_mem (live_conns sub_id);;
    delete_all conns_to_delete).

(** [Tasks::cleanup_expired_subscriptions] -- bin/api/tasks.rs:74-122 *)
Definition cleanup_expired_subscriptions (rounds : nat) : IO unit :=
  loop rounds expire_subs_round.

Definition restore_round : IO unit :=
  active_subs <- subs_with_activity true;;
  for_each active_subs (λ sub_id, restore_connections_by_subscription sub_id;; Ret tt).

(** [Tasks::restore_subscriptions] -- bin/api/tasks.rs:124-156 *)
Definition restore_subscriptions (rounds : nat) : IO unit := loop rounds restore_round.

(** [Tasks::periodic_db_sync] -- bin/api/tasks.rs:158-172

    The pause and its jitter are the interleaving's. *)
Definition periodic_db_sync (rounds : nat) : IO unit :=
  loop rounds (get_state_from_db;; Ret tt).

(** ** They keep the cache backed *)

Section walk.
Context (I : World → Prop) (G : World → World → Prop) `{!PreOrder G}.

Lemma okp_loop n (round : IO unit) w :
  (∀ w, okp I G round w) → okp I G (loop n round) w.
Proof using PreOrder0.
  intros Hr. revert w; induction n as [|n IH]; intros w; cbn; [done|].
  apply (okp_bind I G); auto.
Qed.

Lemma okp_keep_io {A} (f : A → IO bool) l w :
  (∀ x w, okp I G (f x) w) → okp I G (keep_io f l) w.
Proof using PreOrder0.
  intros Hf. revert w; induction l as [|x l IH]; intros w; cbn; [done|].
  apply (okp_bind I G); [apply Hf|]. intros b w'.
  by apply (okp_bind I G).
Qed.

Lemma okp_run_atomic {A} (p : IO A) w :
  (∀ w, okp I G p w) → okp I G (atomic p) w.
Proof using PreOrder0.
  intros Hp. apply okp_atomic. intros w' HI.
  destruct (rg_run I G _ _ w' (Hp w') HI) as (? & ? & _). done.
Qed.
End walk.

Lemma safe_delete_all l w : okp backed keeps (delete_all l) w.
Proof.
  unfold delete_all. apply (okp_for_each backed keeps). intros [id c] w'.
  apply (okp_bind backed keeps); [apply safe_delete_connection|done].
Qed.

Lemma safe_subs_with_activity b w : okp backed keeps (subs_with_activity b) w.
Proof.
  apply (okp_run_atomic backed keeps). intros w1. apply (okp_bind backed keeps); [apply safe_read_mem|].
  intros l w2. apply (okp_bind backed keeps); [|done]. apply (okp_keep_io backed keeps).
  intros [id s] w3. apply (okp_bind backed keeps); [apply safe_ask|done].
Qed.

Lemma safe_cleanup_expired_connections n w :
  okp backed keeps (cleanup_expired_connections n) w.
Proof.
  apply (okp_loop backed keeps). intros w'. unfold expire_conns_round. safe. apply safe_delete_all.
Qed.
Lemma safe_cleanup_expired_subscriptions n w :
  okp backed keeps (cleanup_expired_subscriptions n) w.
Proof.
  apply (okp_loop backed keeps). intros w1. apply (okp_bind backed keeps); [apply safe_subs_with_activity|].
  intros l w2. apply (okp_for_each backed keeps). intros x w3.
  apply (okp_bind backed keeps); [apply safe_read_mem|]. intros. apply safe_delete_all.
Qed.
Lemma safe_restore_subscriptions n w : okp backed keeps (restore_subscriptions n) w.
Proof.
  apply (okp_loop backed keeps). intros w1. apply (okp_bind backed keeps); [apply safe_subs_with_activity|].
  intros l w2. apply (okp_for_each backed keeps). intros x w3.
  apply (okp_bind backed keeps); [apply safe_restore_by_subscription|done].
Qed.
Lemma safe_periodic_db_sync n w : okp backed keeps (periodic_db_sync n) w.
Proof.
  apply (okp_loop backed keeps). intros w1. apply (okp_bind backed keeps); [apply safe_get_state_from_db|done].
Qed.

(** ** What a round does, alone, when nothing fails *)

(** A loop whose body always finishes: an invariant, and what each element
    establishes and no other undoes. *)
Lemma run_for_each {A} (P : World → Prop) (Q : A → World → Prop) (l : list A) body w :
  (∀ x w, x ∈ l → P w → ∃ w', run (body x) w = (w', Some tt) ∧ P w' ∧ Q x w' ∧
    ∀ y, Q y w → Q y w') →
  P w →
  ∃ w', run (for_each l body) w = (w', Some tt) ∧ P w' ∧ (∀ x, x ∈ l → Q x w') ∧
    ∀ y, Q y w → Q y w'.
Proof.
  revert w; induction l as [|x l IH]; intros w Hb HP; cbn [for_each].
  - exists w. split_and!; [done|done| |done]. by intros x ?%not_elem_of_nil.
  - destruct (Hb x w) as (w1 & Hrun & HP1 & HQ1 & Hk1); [left|done|].
    rewrite run_bind, Hrun.
    destruct (IH w1) as (w2 & Hrun2 & HP2 & HQ2 & Hk2); [|done|].
    { intros y w' Hy. apply Hb. by right. }
    exists w2. split_and!; [done|done| |auto]. intros y [->|Hy]%elem_of_cons; auto.
Qed.

Lemma run_delete_healthy id c c0 w :
  healthy → connections (memory w) !! id = Some c0 → Conn.is_deleted c0 = false →
  ∃ w' t, run (delete_connection id c;; Ret tt) w = (w', Some tt) ∧
    memory w' = marked id true t (memory w) ∧ db w' = row_marked id true (db w) ∧
    bus w' = bus w ++ [(conn_topic c, [as_delete_message c id])].
Proof.
  intros (Hpg & Hz & Hrk) Hc Hl. unfold delete_connection, db_do, to_bytes, send_binary, mark_conn.
  cbn. rewrite Hc, Hl. cbn. rewrite Hpg. cbn. rewrite Hrk. cbn. rewrite Hz. cbn.
  do 2 eexists. by split_and!.
Qed.

(** What a list of deletions does. *)
Record deleted (l : list (Uuid * Conn)) (w w' : World) : Prop := {
  del_subs : subscriptions (memory w') = subscriptions (memory w);
  del_bus : bus w' = bus w ++ ((λ '(id, c), (conn_topic c, [as_delete_message c id])) <$> l);
  del_gone : ∀ id c, (id, c) ∈ l →
    (∃ t, connections (memory w') !! id = Some (set_modified_at t (set_deleted true c))) ∧
    t_connections (db w') !! id = with_c_deleted true <$> t_connections (db w) !! id;
  del_rest : ∀ id, id ∉ l.*1 →
    connections (memory w') !! id = connections (memory w) !! id ∧
    t_connections (db w') !! id = t_connections (db w) !! id;
}.

Lemma run_delete_all l w :
  healthy → NoDup l.*1 →
  (∀ id c, (id, c) ∈ l → connections (memory w) !! id = Some c ∧ Conn.is_deleted c = false) →
  ∃ w', run (delete_all l) w = (w', Some tt) ∧ deleted l w w'.
Proof.
  intros Hh. revert w; induction l as [|[id c] l IH]; intros w Hnd Hl.
  - exists w. split; [done|]. split; [done|cbn; by rewrite app_nil_r| |done].
    by intros id c ?%not_elem_of_nil.
  - cbn in Hnd. apply NoDup_cons in Hnd as [Hnotin Hnd]. 
    change (delete_all ((id, c) :: l))
      with (bind (delete_connection id c;; Ret tt) (λ _, delete_all l)). rewrite run_bind.
    destruct (Hl id c) as [Hc Hlive]; [left|].
    destruct (run_delete_healthy id c c w Hh Hc Hlive) as (w1 & t & Hrun & Hm & Hd & Hb).
    rewrite Hrun.
    assert (∀ i, i ≠ id → connections (memory w1) !! i = connections (memory w) !! i ∧
      t_connections (db w1) !! i = t_connections (db w) !! i) as Hother.
    { intros i Hi. rewrite Hm, Hd. cbn. by rewrite !lookup_alter_ne. }
    destruct (IH w1 Hnd) as (w2 & Hrun2 & [Hs2 Hb2 Hg2 Hr2]).
    { intros i ci Hin. destruct (Hother i) as [-> _]; [|by apply Hl; right].
      intros ->. apply Hnotin. by apply (list_elem_of_fmap_2 fst) in Hin. }
    exists w2. split; [done|]. split.
    + by rewrite Hs2, Hm.
    + by rewrite Hb2, Hb, <- app_assoc.
    + intros i ci [[= -> ->]|Hin]%elem_of_cons.
      * destruct (Hr2 id Hnotin) as [-> ->]. rewrite Hm, Hd. cbn.
        rewrite !lookup_alter_eq, Hc. split; [by exists t|done].
      * destruct (Hg2 i ci Hin) as [Ht ->]. split; [done|]. destruct (Hother i) as [_ ->]; [|done].
        intros ->. apply Hnotin. by apply (list_elem_of_fmap_2 fst) in Hin.
    + cbn. intros i [Hi Hin]%not_elem_of_cons. destruct (Hr2 i Hin) as [-> ->]. by apply Hother.
Qed.

Lemma NoDup_keep_fst {A} f (l : list (Uuid * A)) : NoDup l.*1 → NoDup (keep f l).*1.
Proof. apply (NoDup_keep fst). Qed.

Lemma elem_expired_conns t m id c :
  (id, c) ∈ expired_conns t m ↔ connections m !! id = Some c ∧ Conn.is_deleted c = false ∧
    ∃ e, Conn.expires_at c = Some e ∧ e <= t.
Proof.
  unfold expired_conns. rewrite elem_of_keep, elem_of_hiter. cbn.
  destruct (Conn.expires_at c) as [e|]; [|naive_solver].
  rewrite andb_true_iff, bool_decide_eq_true, negb_true_iff. naive_solver.
Qed.

(** One round of the expiry of connections, when nothing fails, deletes in
    the cache and in the database exactly the connections that are expired at
    the clock's reading and not yet deleted, and announces each of them once;
    everything else stays as it was. *)
Theorem expire_conns_round_spec (w : World) (Hh : healthy) :
  ∃ w' l, run expire_conns_round w = (w', Some tt) ∧ deleted l w w' ∧ NoDup l.*1 ∧
    ∀ id c, (id, c) ∈ l ↔ connections (memory w) !! id = Some c ∧ Conn.is_deleted c = false ∧
      ∃ e, Conn.expires_at c = Some e ∧ e <= clock (tick w).
Proof.
  set (l := expired_conns (clock (tick w)) (memory w)).
  assert (NoDup l.*1) as Hnd by apply NoDup_keep_fst, NoDup_hiter_fst.
  destruct (run_delete_all l (bump w) Hh Hnd) as (w' & Hrun & [Hs Hb Hg Hr]).
  { intros id c (Hc & Hl & _)%elem_expired_conns. done. }
  exists w', l. split_and!; [exact Hrun|by split|done|].
  intros id c. apply elem_expired_conns.
Qed.

Lemma run_keep_io {A} (f : A → IO bool) (P : A → bool → Prop) l w :
  (∀ x w, ∃ b w', run (f x) w = (w', Some b) ∧ P x b ∧
    memory w' = memory w ∧ db w' = db w ∧ bus w' = bus w) →
  ∃ w' l', run (keep_io f l) w = (w', Some l') ∧
    memory w' = memory w ∧ db w' = db w ∧ bus w' = bus w ∧
    (∀ x, x ∈ l' → x ∈ l ∧ P x true) ∧ (∀ x, x ∈ l → x ∉ l' → P x false).
Proof.
  intros Hf. revert w; induction l as [|x l IH]; intros w; cbn [keep_io].
  - exists w, []. split_and!; [done..| |]; by intros x ?%not_elem_of_nil.
  - rewrite run_bind. destruct (Hf x w) as (b & w1 & -> & HP & Hm & Hd & Hb).
    rewrite run_bind. destruct (IH w1) as (w2 & l' & -> & Hm' & Hd' & Hb' & Hin & Hout).
    exists w2, (if b then x :: l' else l'). split_and!; [done|congruence..| |].
    + intros y Hy. destruct b; [apply elem_of_cons in Hy as [->|Hy]|];
        [by split; [left|]|destruct (Hin y Hy); by split; [right|]..].
    + intros y [->|Hy]%elem_of_cons Hn; destruct b; try done.
      * by rewrite elem_of_cons in Hn; destruct Hn; left.
      * apply Hout; [done|]. intros ?. apply Hn. by right.
      * by apply Hout.
Qed.

(** Which subscriptions a round works on: each is in the cache with that
    activity at some reading of the clock, and each whose activity is so at
    every reading is among them. *)
Lemma run_subs_with_activity b w :
  ∃ w' l, run (subs_with_activity b) w = (w', Some l) ∧
    memory w' = memory w ∧ db w' = db w ∧ bus w' = bus w ∧
    (∀ id, id ∈ l → ∃ s n, subscriptions (memory w) !! id = Some s ∧
      Subscription.is_active (clock n) s = b) ∧
    (∀ id s, subscriptions (memory w) !! id = Some s →
      (∀ n, Subscription.is_active (clock n) s = b) → id ∈ l).
Proof.
  unfold subs_with_activity. rewrite run_atomic, run_bind. cbn [run read_mem reads].
  rewrite run_bind.
  destruct (run_keep_io (λ '(_, sub), t <- now;; Ret (Bool.eqb (Subscription.is_active t sub) b))
    (λ x r, ∃ n, Bool.eqb (Subscription.is_active (clock n) x.2) b = r)
    (hiter (subscriptions (memory w))) w) as (w' & l' & -> & Hm & Hd & Hb & Hin & Hout).
  { intros [id s] w1. cbn. do 2 eexists. split_and!; [done|by eexists|done..]. }
  exists w', l'.*1. split_and!; [done..| |].
  - intros id ([id' s] & -> & Hl)%list_elem_of_fmap. apply Hin in Hl as (Hs & n & Hn).
    exists s, n. split; [by apply elem_of_hiter|by apply Bool.eqb_prop].
  - intros id s Hs Hact. apply elem_of_hiter in Hs.
    destruct (decide ((id, s) ∈ l')) as [Hl|Hl]; [by apply (list_elem_of_fmap_2 fst) in Hl|].
    destruct (Hout _ Hs Hl) as [n Hn]. cbn in Hn. rewrite Hact in Hn. by destruct b.
Qed.

Lemma elem_live_conns sub m id c :
  (id, c) ∈ live_conns sub m ↔ connections m !! id = Some c ∧
    Conn.subscription_id c = Some sub ∧ Conn.is_deleted c = false.
Proof.
  unfold live_conns. destruct (get_by_subscription_id _ _) as [l|] eqn:Hg.
  - rewrite elem_of_keep, (elem_of_get_by_subscription_id _ _ _ Hg), negb_true_iff. cbn.
    naive_solver.
  - rewrite elem_of_nil. split; [done|]. intros (Hc & Hs & _).
    rewrite get_by_subscription_id_None in Hg. by destruct (Hg _ _ Hc).
Qed.

Lemma NoDup_live_conns sub m : NoDup (live_conns sub m).*1.
Proof.
  unfold live_conns, get_by_subscription_id.
  destruct (keep _ (hiter _)) as [|x l] eqn:Hk; [constructor|].
  rewrite <- Hk. apply NoDup_keep_fst, NoDup_keep_fst, NoDup_hiter_fst.
Qed.

(** The connection with [id] is as it was, or was a live one of a subscription
    in [l] and is now marked. *)
Definition expired_by (l : list Uuid) (w w' : World) (id : Uuid) : Prop :=
  connections (memory w') !! id = connections (memory w) !! id ∨
  ∃ c sub t, connections (memory w) !! id = Some c ∧ Conn.is_deleted c = false ∧
    Conn.subscription_id c = Some sub ∧ sub ∈ l ∧
    connections (memory w') !! id = Some (set_modified_at t (set_deleted true c)).

(** No connection of the subscription is live. *)
Definition all_deleted (sub : Uuid) (w : World) : Prop :=
  ∀ id c, connections (memory w) !! id = Some c → Conn.subscription_id c = Some sub →
    Conn.is_deleted c = true.

Lemma expire_sub_body l w0 sub w :
  healthy → sub ∈ l → (∀ id, expired_by l w0 w id) →
  ∃ w', run (conns <- read_mem (live_conns sub);; delete_all conns) w = (w', Some tt) ∧
    (∀ id, expired_by l w0 w' id) ∧ all_deleted sub w' ∧
    ∀ sub', all_deleted sub' w → all_deleted sub' w'.
Proof.
  intros Hh Hsub HP. destruct (run_delete_all (live_conns sub (memory w)) w Hh
    (NoDup_live_conns _ _)) as (w' & Hrun & [_ _ Hg Hr]).
  { intros id c (Hc & _ & Hl)%elem_live_conns. done. }
  assert (∀ id, (∃ c, (id, c) ∈ live_conns sub (memory w)) ∨
    connections (memory w') !! id = connections (memory w) !! id) as Hcase.
  { intros id. destruct (decide (id ∈ (live_conns sub (memory w)).*1)) as [Hin|Hout].
    - left. apply list_elem_of_fmap in Hin as ([id' c] & -> & Hin). by exists c.
    - right. apply (Hr id Hout). }
  exists w'. split_and!; [exact Hrun| | |].
  - intros id. destruct (Hcase id) as [[c Hin]|Heq]; [|unfold expired_by; rewrite Heq; apply HP].
    destruct (Hg _ _ Hin) as [[t Ht] _]. apply elem_live_conns in Hin as (Hc & Hs & Hl).
    destruct (HP id) as [Hsame|(c1 & sub1 & t1 & _ & _ & _ & _ & Hc1)].
    + right. exists c, sub, t. rewrite <- Hsame. by split_and!.
    + assert (c = set_modified_at t1 (set_deleted true c1)) as -> by congruence. done.
  - intros id c Hc Hs. destruct (Hcase id) as [[c0 Hin]|Heq].
    + destruct (Hg _ _ Hin) as [[t Ht] _]. assert (c = set_modified_at t (set_deleted true c0))
        as -> by congruence. done.
    + rewrite Heq in Hc. destruct (Conn.is_deleted c) eqn:Hd; [done|].
      assert ((id, c) ∈ live_conns sub (memory w)) as Hin by by apply elem_live_conns.
      destruct (Hg _ _ Hin) as [[t Ht] _]. assert (c = set_modified_at t (set_deleted true c))
        as Heq' by congruence. rewrite Heq' in Hd. done.
  - intros sub' Hall id c Hc Hs. destruct (Hcase id) as [[c0 Hin]|Heq].
    + destruct (Hg _ _ Hin) as [[t Ht] _]. assert (c = set_modified_at t (set_deleted true c0))
        as -> by congruence. done.
    + rewrite Heq in Hc. by eapply Hall.
Qed.

(** C23: one round of the expiry of subscriptions, when nothing fails, leaves no
    live connection to a subscription of the cache that is inactive whenever
    the clock is read, which a subscription without an expiry always is; and
    it changes no connection but live ones of subscriptions that are inactive
    at some reading. *)
Theorem expire_subs_round_spec (w : World) (Hh : healthy) :
  ∃ w', run expire_subs_round w = (w', Some tt) ∧
    (∀ sub s, subscriptions (memory w) !! sub = Some s →
      (∀ n, Subscription.is_active (clock n) s = false) → all_deleted sub w') ∧
    ∃ l, (∀ id, expired_by l w w' id) ∧
      ∀ sub, sub ∈ l → ∃ s n, subscriptions (memory w) !! sub = Some s ∧
        Subscription.is_active (clock n) s = false.
Proof.
  unfold expire_subs_round. rewrite run_bind.
  destruct (run_subs_with_activity false w) as (w1 & l & -> & Hm & _ & _ & Hin & Hall).
  destruct (run_for_each (λ w2, ∀ id, expired_by l w w2 id) all_deleted l
    (λ sub_id, conns <- read_mem (live_conns sub_id);; delete_all conns) w1)
    as (w2 & Hrun & HP & HQ & _).
  - intros sub w2 Hsub HP. by apply expire_sub_body.
  - intros id. left. by rewrite Hm.
  - exists w2. split_and!; [exact Hrun| |].
    + intros sub s Hs Hn. apply HQ. by apply (Hall sub s).
    + by exists l.
Qed.

(** Every connection of the subscription is live, in the cache and in the
    database. *)
Definition all_restored (w0 : World) (sub : Uuid) (w : World) : Prop :=
  ∀ id, restorable (memory w0) sub id → conn_live w id ∧ row_live w id.

(** A connection deleted in [w0] is still there, or has been restored. *)
Definition pending (w0 w : World) : Prop :=
  ∀ id c, connections (memory w0) !! id = Some c → Conn.is_deleted c = true →
    connections (memory w) !! id = Some c ∨ conn_live w id ∧ row_live w id.

Lemma restoring_keeps_live w sub w' id :
  restoring w sub w' → conn_live w id ∧ row_live w id → conn_live w' id ∧ row_live w' id.
Proof.
  intros [_ Hc Hr] [(c & Hcw & Hl) Hrow]. split.
  - destruct (Hc id) as [Heq|(_ & c' & t & _ & Heq)]; [exists c; by rewrite Heq|by eexists].
  - unfold row_live. destruct (Hr id) as [->|[_ ->]]; [done|].
    by intros r (r' & _ & ->)%fmap_Some.
Qed.

Lemma restore_sub_body w0 sub w :
  healthy → pending w0 w →
  ∃ w', run (restore_connections_by_subscription sub;; Ret tt) w = (w', Some tt) ∧
    pending w0 w' ∧ all_restored w0 sub w' ∧
    ∀ sub', all_restored w0 sub' w → all_restored w0 sub' w'.
Proof.
  intros Hh HP. rewrite run_bind. pose proof (restore_run sub w) as Hr.
  destruct (run (restore_connections_by_subscription sub) w) as [w' [[ids|]|]];
    destruct Hr as [Hrs Hr]; [|done..]. destruct Hr as [Hids Hall]. cbn.
  assert (∀ id, restorable (memory w) sub id → conn_live w' id ∧ row_live w' id) as Hres.
  { intros id Ht. by destruct (Hids id (Hall Hh id Ht)) as (_ & ? & ?). }
  exists w'. split_and!; [done| | |].
  - intros id c Hc Hd. destruct (HP id c Hc Hd) as [Hcw|Hlive].
    + destruct (rs_conn _ _ _ Hrs id) as [->|[Ht _]]; [by left|]. right. by apply Hres.
    + right. by eapply restoring_keeps_live.
  - intros id (c & Hc & Hs & Hd). destruct (HP id c Hc Hd) as [Hcw|Hlive].
    + apply Hres. by exists c.
    + by eapply restoring_keeps_live.
  - intros sub' Hall' id Ht. eapply restoring_keeps_live; [done|by apply Hall'].
Qed.

(** C22: one round of the restoration, when nothing fails, makes live again, in
    the cache and in the database, every deleted connection of a subscription
    that is active whenever the clock is read: also one whose deletion was
    asked for explicitly, so that deleting a connection of an active
    subscription lasts until the next round. *)
Theorem restore_round_spec (w : World) (Hh : healthy) :
  ∃ w', run restore_round w = (w', Some tt) ∧
    ∀ sub s id, subscriptions (memory w) !! sub = Some s →
      (∀ n, Subscription.is_active (clock n) s = true) →
      restorable (memory w) sub id → conn_live w' id ∧ row_live w' id.
Proof.
  unfold restore_round. rewrite run_bind.
  destruct (run_subs_with_activity true w) as (w1 & l & -> & Hm & _ & _ & _ & Hall).
  destruct (run_for_each (pending w) (all_restored w) l
    (λ sub_id, restore_connections_by_subscription sub_id;; Ret tt) w1)
    as (w2 & Hrun & _ & HQ & _).
  - intros sub w2 _ HP. by apply restore_sub_body.
  - intros id c Hc _. left. by rewrite Hm.
  - exists w2. split; [exact Hrun|]. intros sub s id Hs Hn Ht.
    apply (HQ sub); [by apply (Hall sub s)|done].
Qed.
End background.

(** A quiet server: subscription 7 never expires and has a connection that
    does, subscription 8 is active and has a deleted connection. *)
Definition demo_conn (sub : Uuid) (expires_at : option DateTime) (deleted : bool) : Conn := {|
  Conn.env := Env.Dev; Conn.proto := Proto.Xray ProtoTag.Vmess;
  Conn.subscription_id := Some sub; Conn.created_at := 0; Conn.modified_at := 0;
  Conn.expires_at := expires_at; Conn.is_deleted := deleted |}.
Definition demo : World := set_memory
  {| connections := <[1%N := demo_conn 7%N (Some 0) false]> {[ 2%N := demo_conn 8%N None true ]};
     subscriptions := <[7%N := Subscription.new 0 7%N None "abc" None None]>
       {[ 8%N := Subscription.new 0 8%N None "def" (Some DAY) None ]};
     nodes := ∅ |} world_new.

Lemma healthy_quiet : healthy (H := quiet).
Proof. split; [|split]; intros n; reflexivity. Qed.

Lemma expire_conns_round_spec_witness :
  healthy ∧ ∃ w', run expire_conns_round demo = (w', Some tt) ∧
    ∃ t, connections (memory w') !! 1%N = Some (set_modified_at t (demo_conn 7%N (Some 0) true)).
Proof.
  split; [exact healthy_quiet|].
  destruct (expire_conns_round_spec demo healthy_quiet) as (w' & l & Hrun & [_ _ Hg _] & _ & Hl).
  exists w'. split; [exact Hrun|]. apply (Hg 1%N (demo_conn 7%N (Some 0) false)). apply Hl.
  split; [reflexivity|]. split; [reflexivity|]. exists 0. split; [reflexivity|cbn; lia].
Defined.

Lemma expire_subs_round_spec_witness :
  healthy ∧ ∃ w', run expire_subs_round demo = (w', Some tt) ∧ all_deleted 7%N w'.
Proof.
  split; [exact healthy_quiet|].
  destruct (expire_subs_round_spec demo healthy_quiet) as (w' & Hrun & Hall & _).
  exists w'. split; [exact Hrun|].
  apply (Hall 7%N (Subscription.new 0 7%N None "abc" None None)); [reflexivity|].
  intros n. reflexivity.
Defined.

Lemma restore_round_spec_witness :
  healthy ∧ ∃ w', run restore_round demo = (w', Some tt) ∧ conn_live w' 2%N.
Proof.
  split; [exact healthy_quiet|].
  destruct (restore_round_spec demo healthy_quiet) as (w' & Hrun & Hall).
  exists w'. split; [exact Hrun|].
  apply (Hall 8%N (Subscription.new 0 8%N None "def" (Some DAY) None)); [reflexivity| |].
  - intros n. reflexivity.
  - exists (demo_conn 8%N None true). split; [reflexivity|]. split; reflexivity.
Defined.
