(* ===== verification/Http.v ===== *)
(** * Requests and replies of the HTTP interface

    [http/{mod,helpers,response,filters,request}.rs] and
    [bin/api/http/{request,param}.rs].  A reply is its status, its message and
    its payload before JSON; the routing is in [Routing], and the JSON printer is not
    modelled.  A rejection is what the framework answers from. *)
From S2P Require Import Prelude Foreign Naming Wireguard Connection Subscription Key Inbound Node.
From S2P Require Import Link.
Local Open Scope Z_scope.

(** [EnvInfo] -- http/response.rs:49-56 *)
Record EnvInfo : Set := {
  ei_env : Env;
  has_xray : bool;
  has_h2 : bool;
  has_mtproto : bool;
  has_wg : bool;
}.

(** [SubscriptionResponse] -- http/response.rs:37-47 *)
Record SubscriptionResponse : Set := {
  srs_id : Uuid;
  srs_expires : DateTime;
  srs_days : Z;
  srs_ref_code : string;
  srs_invited_count : nat;
  srs_locations : list EnvInfo;
  srs_downlink : Z;
  srs_limit_bytes : Z;
}.

Module Instances.
(** [Instance] -- http/response.rs:25-35 *)
Inductive Instance : Set :=
| Connection (c : Conn)
| Subscription (s : Subscription)
| SubscriptionResponse (r : SubscriptionResponse)
| Stat (l : list (Uuid * ConnStat * ProtoTag))
| Connections (l : list (Uuid * Conn))
| Key (k : Key)
| Count (n : nat)
| None.
End Instances.
Notation Instance := Instances.Instance.

(** [NodeMetricInfo] -- memory/node.rs:115-120 *)
Record NodeMetricInfo : Set := {
  nm_key : string;
  nm_name : string;
  nm_tags : gmap string string;
}.

(** What a handler answers. [Json] is [ResponseMessage] with an optional
    instance and its id, [NodeId] and [NodeList] are the node handlers', the
    others the bodies of the subscription pages. *)
Inductive Reply : Set :=
| Json (status : Z) (message : string) (response : option (Uuid * Instance))
| NodeId (status : Z) (message : string) (id : option Uuid)
| NodeList (status : Z) (message : string) (nodes : list (Node.NodeResponse * list NodeMetricInfo))
| WgLinks (nodes : list (Uuid * string * Env * string))
| MtLinks (connections : list (string * string))
| Info (r : SubscriptionResponse)
| NoSubscription
| Text (content_type : string) (body : string)
| Yaml (config : ClashConfig).

Inductive Rejection : Set :=
| MyRejection (e : string)
| Rejected (e : Error)
| AuthError (e : string)
| MissingHeader (name : string)
| MethodError
| JsonError (e : string).

(** [rejection] -- bin/api/http/mod.rs:16-52

    The status and the error that are answered to one of the program's own; the
    others are left to the framework.  On what warp rejects: [Routing.rejection]. *)
Definition rejection (reject : Rejection) : result (Z * string) Rejection :=
  match reject with
  | MethodError => Ok (405, "Method Not Allowed")
  | AuthError _ => Ok (401, "UNAUTHORIZED")
  | JsonError err => Ok (400, err)
  | MyRejection _ | Rejected _ | MissingHeader _ => Err reject
  end.

Definition NIL : Uuid := 0%N.

(** [bad_request] -- http/helpers.rs:6-13 *)
Definition bad_request (msg : string) : Reply := Json 400 msg None.
(** [conflict] -- http/helpers.rs:15-22 *)
Definition conflict (msg : string) : Reply := Json 409 msg None.
(** [internal_error] -- http/helpers.rs:24-31 *)
Definition internal_error (msg : string) : Reply := Json 500 msg None.
(** [not_found] -- http/helpers.rs:33-40 *)
Definition not_found (msg : string) : Reply := Json 404 msg None.
(** [not_modified] -- http/helpers.rs:42-49 *)
Definition not_modified (msg : string) : Reply := Json 304 msg None.
(** [success_response] -- http/helpers.rs:51-63 *)
Definition success_response (msg : string) (id : option Uuid) (instance : Instance) : Reply :=
  Json 200 msg (Some (default NIL id, instance)).

(** The status a reply is sent with. *)
Definition reply_status (r : Reply) : Z :=
  match r with
  | Json status _ _ | NodeId status _ _ | NodeList status _ _ => status
  | NoSubscription => 404
  | WgLinks _ | MtLinks _ | Info _ | Text _ _ | Yaml _ => 200
  end.

(** What the framework answers itself: a missing header is the request's fault,
    a rejection of the program's own that was not recovered the server's. *)
Definition unrecovered_status (reject : Rejection) : Z :=
  match reject with MissingHeader _ => 400 | _ => 500 end.

(** [.recover(rejection)]: the status of an answer. *)
Definition answer_status (a : result Reply Rejection) : Z :=
  match a with
  | Ok r => reply_status r
  | Err reject =>
    match rejection reject with
    | Ok (status, _) => status
    | Err reject => unrecovered_status reject
    end
  end.

(** [auth] -- http/filters.rs:7-24

    The header's value, if there is one, against the server's token. *)
Definition auth (token : string) (auth_header : option string) : bool :=
  match auth_header with
  | Some h =>
    match Str.strip_prefix "Bearer " h with
    | Some t => bool_decide (t = token)
    | None => false
    end
  | None => false
  end.

(** [ConnType] -- http/request.rs:6-12 *)
Record ConnType : Set := {
  ct_proto : ProtoTag;
  ct_last_update : option Z;
  ct_env : Env;
  ct_topic : Topic;
}.

Module TagReq.
(** [TagReq] -- bin/api/http/request.rs:10-23 *)
Inductive TagReq : Set := Xray | Wireguard | Hysteria2 | Mtproto.

(** [TagReq::tags] -- bin/api/http/request.rs:38-51 *)
Definition tags (t : TagReq) : list ProtoTag :=
  match t with
  | Xray => [ProtoTag.VlessTcpReality; ProtoTag.VlessGrpcReality; ProtoTag.VlessXhttpReality;
      ProtoTag.Vmess; ProtoTag.Shadowsocks]
  | Wireguard => [ProtoTag.Wireguard]
  | Hysteria2 => [ProtoTag.Hysteria2]
  | Mtproto => [ProtoTag.Mtproto]
  end.

(** [#[derive(Debug)]] -- bin/api/http/request.rs:10-23 *)
Definition debug (t : TagReq) : string :=
  match t with
  | Xray => "Xray" | Wireguard => "Wireguard" | Hysteria2 => "Hysteria2" | Mtproto => "Mtproto"
  end.
End TagReq.
Notation TagReq := TagReq.TagReq.

Module FormatReq.
(** [FormatReq] -- bin/api/http/request.rs:25-35 *)
Inductive FormatReq : Set := Base64 | Txt | Clash.
#[export] Instance FormatReq_eq_dec : EqDecision FormatReq.
Proof. solve_decision. Defined.
(** [#[derive(Debug)]] -- bin/api/http/request.rs:25-35 *)
Definition debug (f : FormatReq) : string :=
  match f with Base64 => "Base64" | Txt => "Txt" | Clash => "Clash" end.
End FormatReq.
Notation FormatReq := FormatReq.FormatReq.
#[export] Existing Instance FormatReq.FormatReq_eq_dec.

(** [ConnCreateRequest] -- bin/api/http/request.rs:105-111 *)
Record ConnCreateRequest : Set := {
  cc_env : Env;
  cc_subscription_id : option Uuid;
  cc_proto : ProtoTag;
  cc_days : option Z;
}.
(** [ConnCreateRequest::validate] -- bin/api/http/request.rs:113-117 *)
Definition conn_create_validate (_ : ConnCreateRequest) : result unit Error := Ok tt.

(** [KeyReq] -- bin/api/http/request.rs:119-123 *)
Record KeyReq : Set := { kr_days : Z; kr_distributor : option string }.
(** [ActivateKeyReq] -- bin/api/http/request.rs:125-129 *)
Record ActivateKeyReq : Set := { ak_code : string; ak_subscription_id : Uuid }.

(** [SubscriptionInfoRequest] -- bin/api/http/request.rs:131-137 *)
Record SubscriptionInfoRequest : Set := {
  si_id : Uuid;
  si_format : FormatReq;
  si_env : Env;
  si_proto : TagReq;
}.

(** [SubscriptionInfoRequest::allowed_formats] -- bin/api/http/request.rs:140-150 *)
Definition allowed_formats (proto : TagReq) : list FormatReq :=
  match proto with
  | TagReq.Xray => [FormatReq.Txt; FormatReq.Base64; FormatReq.Clash]
  | TagReq.Wireguard => []
  | TagReq.Hysteria2 => [FormatReq.Txt; FormatReq.Base64]
  | TagReq.Mtproto => []
  end.

(** [SubscriptionInfoRequest::validate] -- bin/api/http/request.rs:152-163 *)
Definition sub_info_validate (r : SubscriptionInfoRequest) : result unit Error :=
  if bool_decide (si_format r ∈ allowed_formats (si_proto r)) then Ok tt
  else Err (Error.Custom ("Format " +:+ FormatReq.debug (si_format r) +:+
    " not allowed for proto " +:+ TagReq.debug (si_proto r))).

(** [ConnectionInfoRequest] -- bin/api/http/request.rs:166-170 *)
Record ConnectionInfoRequest : Set := { ci_id : Uuid; ci_env : Env }.
(** [ConnectionInfoRequest::validate] -- bin/api/http/request.rs:172-176 *)
Definition conn_info_validate (_ : ConnectionInfoRequest) : result unit Error := Ok tt.

(** [Trial] -- bin/api/http/request.rs:178-183 *)
Record Trial : Set := {
  tr_user : option string;
  tr_email : option string;
  tr_referred_by : option string;
}.
(** [Trial::validate] -- bin/api/http/request.rs:185-192 *)
Definition trial_validate (t : Trial) : result unit Error :=
  if is_some (tr_user t) && is_some (tr_email t)
  then Err (Error.Custom "Only one param is allowed") else Ok tt.

Lemma auth_iff (token : string) (header : option string) :
  auth token header = true ↔ header = Some ("Bearer " +:+ token).
Proof.
  unfold auth. destruct header as [h|]; [|done].
  destruct (Str.strip_prefix "Bearer " h) as [t|] eqn:Hp.
  - apply StrFacts.strip_prefix_Some in Hp as ->. rewrite bool_decide_eq_true. split.
    + by intros ->.
    + intros [= Heq]. done.
  - split; [done|]. intros Heq. apply (f_equal (from_option id h)) in Heq.
    change (h = "Bearer " +:+ token) in Heq. subst h.
    by rewrite StrFacts.strip_prefix_app in Hp.
Qed.

(** The bearer check admits exactly the header made of the scheme, one space
    and the server's token; no other scheme, case, spacing or missing header. *)
Theorem auth_spec (token : string) (header : option string) :
  auth token header = true ↔ header = Some ("Bearer " +:+ token).
Proof. exact (auth_iff token header). Qed.
