(* ===== verification/ApiConn.v ===== *)
(** * The connection handlers

    [bin/api/http/handlers/connection.rs], and the choice of a connection's
    protocol that the trial handler repeats.  The read lock on the cache is
    held while a protocol is chosen, so that choice is one action. *)
From S2P Require Import Prelude Task Foreign Naming Wireguard Connection ConnStore Subscription.
From S2P Require Import Key Inbound Node Link Db World Sync Consistency SyncSafe Reload SyncSpec.
From S2P Require Import Background Http.
Local Open Scope Z_scope.
Local Open Scope prog_scope.

Notation Handler := (IO (result Reply Rejection)).
Notation reply r := (Ret (Ok r : result Reply Rejection)).

Section handlers.
Context `{!Oracle, !Postgres, !Ipv6Text, !UuidText, !IterOrder, !Chrono, !WgCrypto, !UrlLib}.

(** the connections a node asks for when it starts *)
Definition wanted (req : ConnType) (conn : Conn) : bool :=
  negb (get_deleted conn) && bool_decide (Proto.proto (get_proto conn) = ct_proto req) &&
  (bool_decide (ct_proto req = ProtoTag.Hysteria2) || bool_decide (Conn.env conn = ct_env req)) &&
  match ct_last_update req with
  | None => true
  | Some ts => bool_decide (ts <= as_unsigned 64 (timestamp (get_modified_at conn)))
  end.
(** [get_connections_handler] -- bin/api/http/handlers/connection.rs:26-102 *)
Definition get_connections_handler (req : ConnType) : Handler :=
  connections_to_send <- read_mem (λ m, keep (λ '(_, conn), wanted req conn) (hiter (connections m)));;
  match connections_to_send with
  | [] => reply (not_modified "")
  | _ =>
    let messages := (λ '(conn_id, conn), as_create_message conn conn_id) <$> connections_to_send in
    b <- to_bytes messages;;
    match b with
    | Err e => Ret (Err (MyRejection e))
    | Ok bytes =>
      s <- send_binary (ct_topic req) bytes;;
      match s with
      | Err e => Ret (Err (MyRejection e))
      | Ok _ => reply (success_response "Ok" None (Instances.Count (length messages)))
      end
    end
  end.

(** the next address: one past the greatest in use, or the network's first *)
Definition next_ip (network : IpAddrMask) (m : Cache) : result Ipv4Addr string :=
  let last_ip :=
    match get_last_wg_addr (connections m) with Some mask => as_ipv4 mask | None => None end in
  let next :=
    match last_ip with Some ip => increment_ipv4 ip | None => first_peer_ip network end in
  match next with
  | None => Err "Failed to allocate IP"
  | Some ip => if contains_ipv4 network ip then Ok ip else Err "IP out of range"
  end.

(** [create_connection_handler] -- bin/api/http/handlers/connection.rs:158-204

    The protocol of a new connection. *)
Definition new_proto (tag : ProtoTag) (network : IpAddrMask) : IO (result Proto string) :=
  match tag with
  | ProtoTag.Wireguard =>
    next <- read_mem (next_ip network);;
    match next with
    | Err e => Ret (Err e)
    | Ok next =>
      secret <- ask random_bytes;;
      Ret (Ok (Proto.Wireguard
        {| keys := Keys_default secret;
           param_address := {| address := V4 next; cidr := 32 |} |}))
    end
  | ProtoTag.Shadowsocks =>
    password <- generate_random_password 15;; Ret (Ok (Proto.Shadowsocks password))
  | ProtoTag.VlessTcpReality | ProtoTag.VlessGrpcReality | ProtoTag.VlessXhttpReality
  | ProtoTag.Vmess => Ret (Ok (Proto.Xray tag))
  | ProtoTag.Hysteria2 => token <- new_v4;; Ret (Ok (Proto.Hysteria2 token))
  | ProtoTag.Mtproto => secret <- generate_random_password 15;; Ret (Ok (Proto.Mtproto secret))
  end.

(** where a new connection is announced *)
Definition create_topic (conn : Conn) : option Topic :=
  if is_some (get_token conn) then Some Topic.Auth
  else if Proto.is_mtproto (get_proto conn) then None
  else Some (Topic.of_env (Conn.env conn)).

(** the checks of the subscription named in the request: the refusal *)
Definition check_subscription (sub_id : Uuid) : IO (option Reply) :=
  sub <- read_mem (λ m, Subscriptions.find_by_id (subscriptions m) sub_id);;
  match sub with
  | None => Ret (Some (bad_request ("Subscription " +:+ uuid_str sub_id +:+ " not found")))
  | Some sub =>
    t <- now;;
    Ret (if Subscription.is_active t sub then None
         else Some (bad_request ("Subscription is not active " +:+ uuid_str sub_id +:+ " ")))
  end.

(** the section under the read lock: a refusal, or the protocol *)
Definition admit_connection (req : ConnCreateRequest) (network : IpAddrMask) :
    IO (result Proto Reply) :=
  atomic (
    refusal <- match cc_subscription_id req with
               | Some sub_id => check_subscription sub_id | None => Ret None end;;
    match refusal with
    | Some r => Ret (Err r)
    | None =>
      p <- new_proto (cc_proto req) network;;
      Ret match p with Ok p => Ok p | Err e => Err (internal_error e) end
    end).

(** [create_connection_handler] -- bin/api/http/handlers/connection.rs:106-265 *)
Definition create_connection_handler (req : ConnCreateRequest) (network : IpAddrMask) : Handler :=
  match conn_create_validate req with
  | Err e => reply (bad_request (Error.fmt e))
  | Ok _ =>
    expired_at <- match cc_days req with
                  | Some days => t <- now;; e <- add_days_or_panic t days;; Ret (Some e)
                  | None => Ret None
                  end;;
    proto <- admit_connection req network;;
    match proto with
    | Err r => reply r
    | Ok proto =>
      t <- now;;
      let conn := Conn.new t (cc_env req) (cc_subscription_id req) proto expired_at in
      conn_id <- new_v4;;
      let messages := [as_create_message conn conn_id] in
      r <- add_conn conn_id conn;;
      match r with
      | Ok (Status.Ok id) =>
        b <- to_bytes messages;;
        match b with
        | Err e => reply (internal_error ("Serialization error: " +:+ e))
        | Ok bytes =>
          match create_topic conn with
          | Some topic => send_binary topic bytes;; Ret tt
          | None => Ret tt
          end;;
          reply (success_response ("Connection " +:+ uuid_str id +:+ " has been created")
            (Some id) (Instances.Connection conn))
        end
      | Ok (Status.AlreadyExist id) =>
        reply (not_modified ("Connection " +:+ uuid_str id +:+ " already exists"))
      | Ok (Status.BadRequest id msg) =>
        reply (bad_request ("BadRequest " +:+ uuid_str id +:+ " " +:+ msg))
      | Ok status => reply (bad_request ("Unsupported operation status: " +:+ Status.fmt status))
      | Err err =>
        reply (internal_error ("Internal error while processing connection " +:+
          uuid_str conn_id +:+ ": " +:+ SyncError.fmt err))
      end
    end
  end.

(** [delete_connection_handler] -- bin/api/http/handlers/connection.rs:269-326 *)
Definition delete_connection_handler (conn_id : Uuid) : Handler :=
  conn_opt <- read_mem (λ m, connections m !! conn_id);;
  match conn_opt with
  | None => reply (not_found ("Connection " +:+ uuid_str conn_id +:+ " not found"))
  | Some conn =>
    if get_deleted conn
    then reply (not_found ("Connection " +:+ uuid_str conn_id +:+ " already is deleted"))
    else
      r <- delete_connection conn_id conn;;
      match r with
      | Ok (Status.Ok id) =>
        reply (success_response ("Connection " +:+ uuid_str id +:+ " has been deleted")
          (Some id) (Instances.Connection conn))
      | Ok (Status.NotFound id) =>
        reply (not_found ("Connection " +:+ uuid_str id +:+ " not found"))
      | Ok status => reply (bad_request ("Unsupported operation status: " +:+ Status.fmt status))
      | Err err =>
        reply (internal_error ("Internal error while deleting connection " +:+
          uuid_str conn_id +:+ ": " +:+ SyncError.fmt err))
      end
  end.

(** [get_connection_handler] -- bin/api/http/handlers/connection.rs:330-362 *)
Definition get_connection_handler (conn_id : Uuid) : Handler :=
  conn <- read_mem (λ m, connections m !! conn_id);;
  match conn with
  | Some conn => reply (success_response "Connection is found" (Some conn_id)
      (Instances.Connection conn))
  | None => reply (not_found "Connection is not found")
  end.

(** the subscription check of the two handlers below: an unknown subscription
    is let through *)
Definition expired_subscription (id : Uuid) : IO (option Reply) :=
  sub <- read_mem (λ m, Subscriptions.find_by_id (subscriptions m) id);;
  match sub with
  | Some sub =>
    t <- now;;
    Ret (if Subscription.is_active t sub then None
         else Some (not_found ("Subscription " +:+ uuid_str id +:+ " is expired")))
  | None => Ret None
  end.

(** what a loop pushes for each element *)
Definition for_list {A B} (l : list A) (f : A → list B) : list B := mjoin (f <$> l).

(** the nodes of a connection's environment *)
Definition env_nodes (m : Cache) (env : Env) : list Node :=
  match NodeStore.get_by_env (nodes m) env with Some l => l | None => [] end.

(** a subscription's live connections in one environment, with one of [tags] *)
Definition served (env : Env) (tags : list ProtoTag) (conns : list (Uuid * Conn)) :
    list (Uuid * Conn) :=
  keep (λ '(_, conn), negb (get_deleted conn || bool_decide (Conn.env conn ≠ env)) &&
    bool_decide (Proto.proto (get_proto conn) ∈ tags)) conns.

(** [wireguard_connections_handler] -- bin/api/http/handlers/connection.rs:364-445 *)
Definition wireguard_connections_handler (req : ConnectionInfoRequest) : Handler :=
  match conn_info_validate req with
  | Err e => reply (bad_request ("Bad Request: " +:+ Error.fmt e))
  | Ok _ =>
    atomic (
      refusal <- expired_subscription (ci_id req);;
      match refusal with
      | Some r => reply r
      | None =>
        m <- read_mem id;;
        match get_by_subscription_id (connections m) (ci_id req) with
        | None => reply (not_found "No connections")
        | Some conns =>
          reply (WgLinks (
            for_list (served (ci_env req) [ProtoTag.Wireguard] conns) (λ '(conn_id, conn),
            for_list (env_nodes m (Conn.env conn)) (λ node,
            match Node.inbounds node !! ProtoTag.Wireguard with
            | Some inbound =>
              match create_link inbound conn_id conn (Node.hostname node) (Node.address node)
                      (Node.label node) with
              | Ok link => [(conn_id, Node.label node, Node.env node, link)]
              | Err _ => []
              end
            | None => []
            end))))
        end
      end)
  end.

(** [mtproto_connections_handler] -- bin/api/http/handlers/connection.rs:447-518 *)
Definition mtproto_connections_handler (req : ConnectionInfoRequest) : Handler :=
  match conn_info_validate req with
  | Err e => reply (bad_request ("Bad Request: " +:+ Error.fmt e))
  | Ok _ =>
    atomic (
      refusal <- expired_subscription (ci_id req);;
      match refusal with
      | Some r => reply r
      | None =>
        m <- read_mem id;;
        match get_by_subscription_id (connections m) (ci_id req) with
        | None => reply (not_found "No connections")
        | Some conns =>
          reply (MtLinks (
            for_list (served (ci_env req) [ProtoTag.Mtproto] conns) (λ '(_, conn),
            for_list (env_nodes m (Conn.env conn)) (λ node,
            match Node.inbounds node !! ProtoTag.Mtproto with
            | Some inbound =>
              match link_mtproto inbound (Node.address node) (Node.label node) with
              | Ok url => [(Node.label node, url)]
              | Err _ => []
              end
            | None => []
            end))))
        end
      end)
  end.

(** ** Addresses *)

Lemma contains_v4 network ip : contains_ipv4 network ip = true → ∃ base, address network = V4 base.
Proof. unfold contains_ipv4. destruct (address network); [eauto|done]. Qed.

Lemma next_ip_range network m d ip :
  mask_ok network → mem_ok m d → next_ip network m = Ok ip → 0 <= ip <= U32_MAX.
Proof.
  intros [Hn _] Hm. unfold next_ip.
  assert (∀ i i', 0 <= i → increment_ipv4 i = Some i' → 0 <= i' <= U32_MAX) as Hinc.
  { intros i i' Hi. unfold increment_ipv4. case_decide; [|done]. intros [= <-]. lia. }
  destruct (match get_last_wg_addr _ with Some _ => _ | None => _ end) as [last|] eqn:Hl.
  - destruct (get_last_wg_addr _) as [mk|] eqn:Hg; [|done].
    apply get_last_wg_addr_Some in Hg as (id & c & p & Hc & Hp & <- & _).
    destruct (mem_conns _ _ Hm _ _ Hc) as [[_ Hwf] _]. destruct (Hwf p Hp) as [Ha _].
    unfold as_ipv4 in Hl. destruct (address (param_address p)) as [a|]; [|done].
    injection Hl as ->. cbn in Ha. destruct (increment_ipv4 last) as [i|] eqn:Hi; [|done].
    destruct (contains_ipv4 network i); [|done]. intros [= <-]. eapply Hinc; [|done]. apply Ha.
  - unfold first_peer_ip, first_ipv4, as_ipv4.
    destruct (address network) as [base|]; [|done]. cbn in Hn.
    destruct (increment_ipv4 base) as [i|] eqn:Hi; [|done].
    destruct (increment_ipv4 i) as [j|] eqn:Hj; [|done].
    destruct (contains_ipv4 network j); [|done]. destruct (contains_ipv4 network j); [|done].
    intros [= <-]. eapply Hinc; [|exact Hj]. eapply Hinc; [|exact Hi]. apply Hn.
Qed.

(** The address a new WireGuard connection is given lies in the configured
    network and differs from the IPv4 address of every connection in the
    cache, deleted or not. *)
Theorem next_ip_fresh (network : IpAddrMask) (m : Cache) (ip : Ipv4Addr)
    (Hnet : ∀ base, address network = V4 base → 0 <= base)
    (Hok : ∀ id c, connections m !! id = Some c → Proto.proto_ok (get_proto c))
    (Hip : next_ip network m = Ok ip) :
  contains_ipv4 network ip = true ∧
  ∀ id c p, connections m !! id = Some c → get_proto c = Proto.Wireguard p →
    address (param_address p) ≠ V4 ip.
Proof.
  unfold next_ip in Hip.
  destruct (match get_last_wg_addr _ with Some _ => _ | None => _ end) as [last|] eqn:Hl.
  - destruct (increment_ipv4 last) as [i|] eqn:Hi; [|done].
    destruct (contains_ipv4 network i) eqn:Hc; [|done]. injection Hip as <-.
    split; [done|]. intros id c p Hcc Hp Heq.
    destruct (get_last_wg_addr _) as [mk|] eqn:Hg; [|done].
    apply get_last_wg_addr_Some in Hg as (id0 & c0 & p0 & Hc0 & Hp0 & <- & Hmax).
    specialize (Hmax id c Hcc). rewrite Hp in Hmax. specialize (Hmax eq_refl).
    unfold wg_key, get_wireguard in Hmax. rewrite Hp, Hp0, Heq in Hmax.
    unfold as_ipv4 in Hl. destruct (address (param_address p0)) as [a|]; [|done].
    injection Hl as ->. unfold increment_ipv4 in Hi. case_decide; [|done].
    injection Hi as <-. lia.
  - destruct (first_peer_ip network) as [i|] eqn:Hi; [|done].
    destruct (contains_ipv4 network i) eqn:Hc; [|done]. injection Hip as <-.
    split; [done|]. intros id c p Hcc Hp Heq.
    assert (0 < i) as Hpos.
    { unfold first_peer_ip, first_ipv4, as_ipv4 in Hi.
      destruct (contains_v4 _ _ Hc) as [base Hb]. pose proof (Hnet base Hb). rewrite Hb in Hi.
      unfold increment_ipv4 in Hi. repeat (case_decide; [|done]).
      destruct (contains_ipv4 _ _); [|done]. injection Hi as <-. lia. }
    destruct (get_last_wg_addr _) as [mk|] eqn:Hg.
    + apply get_last_wg_addr_Some in Hg as (id0 & c0 & p0 & Hc0 & Hp0 & <- & Hmax).
      specialize (Hmax id c Hcc). rewrite Hp in Hmax. specialize (Hmax eq_refl).
      unfold wg_key, get_wireguard in Hmax. rewrite Hp, Hp0, Heq in Hmax.
      unfold as_ipv4 in Hl. destruct (address (param_address p0)) as [a|]; [done|]. lia.
    + by apply (get_last_wg_addr_None _ Hok Hg _ _ p Hcc).
Qed.

(** ** What a creation does *)

(** A protocol as a creation makes it. *)
Definition made_ok (p : Proto) : Prop := Proto.proto_ok p ∧ p ≠ Proto.Xray ProtoTag.Mtproto.

(** Choosing a protocol changes nothing. *)
Lemma run_new_proto tag network w :
  let '(w', r) := run (new_proto tag network) w in
  memory w' = memory w ∧ db w' = db w ∧ bus w' = bus w ∧
  ∀ p, r = Some (Ok p) → Proto.proto p = tag ∧ made_ok p ∧
    (∀ q, p = Proto.Wireguard q → cidr (param_address q) = 32 ∧
      ∃ ip, address (param_address q) = V4 ip ∧ next_ip network (memory w) = Ok ip).
Proof.
  destruct tag; cbn; try by (split_and!; try done; intros p [= <-]).
  destruct (next_ip network (memory w)) as [ip|e] eqn:Hip; cbn; [|by split_and!].
  split_and!; [done..|]. intros p [= <-]. split_and!; [done..|]. intros q [= <-].
  split; [done|]. by exists ip.
Qed.

Lemma run_admit req network w :
  let '(w', r) := run (admit_connection req network) w in
  memory w' = memory w ∧ db w' = db w ∧ bus w' = bus w ∧
  (∀ rf, r = Some (Err rf) → ∃ msg, rf = bad_request msg ∨ rf = internal_error msg) ∧
  ∀ p, r = Some (Ok p) → Proto.proto p = cc_proto req ∧ made_ok p ∧
    (∀ q, p = Proto.Wireguard q → cidr (param_address q) = 32 ∧
      ∃ ip, address (param_address q) = V4 ip ∧ next_ip network (memory w) = Ok ip) ∧
    ∀ sub, cc_subscription_id req = Some sub → ∃ s n,
      subscriptions (memory w) !! sub = Some s ∧ Subscription.is_active (clock n) s = true.
Proof.
  unfold admit_connection. rewrite run_atomic, run_bind.
  assert (let '(w1, r1) := run (match cc_subscription_id req with
      | Some sub_id => check_subscription sub_id | None => Ret None end) w in
    memory w1 = memory w ∧ db w1 = db w ∧ bus w1 = bus w ∧ ∃ o, r1 = Some o ∧
    (∀ rf, o = Some rf → ∃ msg, rf = bad_request msg) ∧
    (o = None → ∀ sub, cc_subscription_id req = Some sub → ∃ s n,
      subscriptions (memory w) !! sub = Some s ∧ Subscription.is_active (clock n) s = true)) as Hc.
  { destruct (cc_subscription_id req) as [sub|]; cbn; [|by split_and!; try done; eexists].
    unfold Subscriptions.find_by_id. destruct (subscriptions (memory w) !! sub) as [s|] eqn:Hs; cbn.
    - split_and!; [done..|]. eexists. split; [done|].
      destruct (Subscription.is_active (clock (tick w)) s) eqn:Ha; (split; [|done || eauto]).
      + done.
      + intros _ sub' [= <-]. eauto.
      + intros rf [= <-]. eauto.
    - split_and!; [done..|]. eexists. split; [done|]. split; [|done]. intros rf [= <-]. eauto. }
  destruct (run _ w) as [w1 r1]. destruct Hc as (Hm & Hd & Hb & o & -> & Hrf & Ho).
  destruct o as [r|].
  { cbn. split_and!; [done..| |done]. intros rf [= <-]. destruct (Hrf r eq_refl). eauto. }
  rewrite run_bind.
  pose proof (run_new_proto (cc_proto req) network w1) as Hp. rewrite Hm in Hp.
  destruct (run (new_proto _ _) w1) as [w2 [[p|e]|]]; cbn in *;
    destruct Hp as (Hm2 & Hd2 & Hb2 & Hp); (split_and!; [congruence..| |]); try done.
  2:{ intros rf [= <-]. eauto. }
  intros p' [= <-]. destruct (Hp p eq_refl) as (? & ? & ?). split_and!; auto.
Qed.

Lemma conn_wf_new network m d t env sub p e :
  mask_ok network → mem_ok m d → Proto.proto_ok p →
  (∀ q, p = Proto.Wireguard q → cidr (param_address q) = 32 ∧
    ∃ ip, address (param_address q) = V4 ip ∧ next_ip network m = Ok ip) →
  conn_wf (Conn.new t env sub p e).
Proof.
  intros Hn Hm Hok Hwg. split; [done|]. cbn. intros q Hq.
  destruct (Hwg q Hq) as (Hcidr & ip & Ha & Hip).
  pose proof (next_ip_range network m d ip Hn Hm Hip) as Hr.
  unfold mask_ok, addr_ok. rewrite Ha, Hcidr. unfold U32_MAX, u32_ok in *. lia.
Qed.

#[local] Arguments admit_connection : simpl never.
#[local] Arguments add_conn : simpl never.

Lemma create_connection_run (req : ConnCreateRequest) (network : IpAddrMask) (w : World) :
  let '(w', r) := run (create_connection_handler req network) w in
  match r with
  | Some (Ok (Json 200 _ (Some (id, Instances.Connection conn)))) =>
    Proto.proto (Conn.proto conn) = cc_proto req ∧ Conn.env conn = cc_env req ∧
    Conn.subscription_id conn = cc_subscription_id req ∧ Conn.is_deleted conn = false ∧
    (∀ sub, cc_subscription_id req = Some sub → ∃ s n,
      subscriptions (memory w) !! sub = Some s ∧ Subscription.is_active (clock n) s = true) ∧
    made_ok (Conn.proto conn) ∧ t_connections (db w) !! id = None ∧
    db w' = row_added id conn (db w) ∧
    connections (memory w') =
      match connections (memory w) !! id with
      | Some _ => connections (memory w)
      | None => <[id := conn]> (connections (memory w))
      end ∧
    match create_topic conn with
    | None => bus w' = bus w
    | Some topic => ∃ n, tick w' = S n ∧
      bus w' = bus w ++ match zmq_fault n with
                        | None => [(topic, [as_create_message conn id])]
                        | Some _ => []
                        end
    end
  | _ => bus w' = bus w
  end.
Proof.
  unfold create_connection_handler. cbn [conn_create_validate]. rewrite run_bind.
  assert (let '(w1, r1) := run (match cc_days req with
      | Some days => t <- now;; e <- add_days_or_panic t days;; Ret (Some e)
      | None => Ret None end) w in memory w1 = memory w ∧ db w1 = db w ∧ bus w1 = bus w) as Hd.
  { destruct (cc_days req) as [days|]; [|done]. cbn. unfold add_days_or_panic.
    by destruct (dt_add_days _ _). }
  destruct (run _ w) as [w1 [e|]]; destruct Hd as (Hm1 & Hd1 & Hb1); [|done].
  rewrite run_bind. pose proof (run_admit req network w1) as Ha. rewrite Hm1, Hd1, Hb1 in Ha.
  destruct (run (admit_connection req network) w1) as [w2 [[p|rf]|]];
    destruct Ha as (Hm2 & Hd2 & Hb2 & Hrf & Ha); [| |done].
  2:{ destruct (Hrf rf eq_refl) as [msg [-> | ->]]; exact Hb2. }
  destruct (Ha p eq_refl) as (Hp & Hok & Hwg & Hsub). clear Ha. cbn. rewrite run_bind.
  set (w3 := bump (bump w2)).
  match goal with |- context [run (add_conn ?i ?c) _] => set (id := i); set (conn := c) end.
  pose proof (add_conn_run id conn w3) as Hadd.
  destruct (run (add_conn id conn) w3) as [w4 [[st|er]|]]; cbn in Hadd;
    destruct Hadd as (Hb4 & Hs4 & Hn4 & Hadd); [| |done].
  2:{ cbn. by rewrite Hb4. }
  destruct Hadd as (-> & Hfree & Hd4 & Hc4). cbn. rewrite Hm2 in Hc4. rewrite Hd2 in Hfree, Hd4.
  assert (bus w4 = bus w) as Hb by (by rewrite Hb4).
  destruct (rkyv_fault (tick w4)); cbn; [done|].
  rewrite run_bind.
  assert (let '(w5, r5) := run (match create_topic conn with
      | Some topic => send_binary topic [conn_create_message conn id];; Ret tt
      | None => Ret tt end) (bump w4) in
    r5 = Some tt ∧ db w5 = db w4 ∧ memory w5 = memory w4 ∧
    match create_topic conn with
    | None => bus w5 = bus w
    | Some topic => ∃ n, tick w5 = S n ∧
      bus w5 = bus w ++ match zmq_fault n with
                        | None => [(topic, [conn_create_message conn id])]
                        | Some _ => []
                        end
    end) as Hsend.
  { destruct (create_topic conn) as [topic|]; cbn; [|by rewrite Hb].
    destruct (zmq_fault (S (tick w4))) eqn:Hz; cbn; rewrite Hb;
      (split_and!; [done..|]; eexists; split; [done|]); rewrite Hz; [by rewrite app_nil_r|done]. }
  destruct (run _ (bump w4)) as [w5 r5]. destruct Hsend as (-> & Hd5 & Hm5 & Hsend). cbn.
  split_and!; try done.
  - by rewrite Hd5.
  - by rewrite Hm5, Hc4.
Qed.

Lemma create_topic_tag conn :
  made_ok (Conn.proto conn) →
  create_topic conn =
  match Proto.proto (Conn.proto conn) with
  | ProtoTag.Hysteria2 => Some Topic.Auth
  | ProtoTag.Mtproto => None
  | _ => Some (Topic.Updates (Conn.env conn))
  end.
Proof.
  unfold create_topic, get_token. cbn. intros [Hok Hne].
  destruct (Conn.proto conn) as [|?|[]| |]; try done; destruct Hok as (? & ? & ?); congruence.
Qed.

(** C18: a connection whose creation answers 200 has the protocol, environment
    and owner asked for, an owner that the cache had and found active, and a new
    row in the database that agrees with it; the cache takes it in, unless it
    already had an entry under the id, which then stays.  It is announced once,
    by the last action: on the authentication service's topic when Hysteria2
    was asked for, on the topic of the environment asked for when WireGuard,
    Shadowsocks or one of Xray's protocols was; unless this very publication
    fails, and then on none, which the answer does not tell.  An MTProto
    connection is not announced.  Any other answer announces nothing. *)
Theorem create_connection_spec (req : ConnCreateRequest) (network : IpAddrMask) (w : World) :
  let '(w', r) := run (create_connection_handler req network) w in
  match r with
  | Some (Ok (Json 200 _ (Some (id, Instances.Connection conn)))) =>
    Proto.proto (Conn.proto conn) = cc_proto req ∧ Conn.env conn = cc_env req ∧
    Conn.subscription_id conn = cc_subscription_id req ∧ Conn.is_deleted conn = false ∧
    (∀ sub, cc_subscription_id req = Some sub → ∃ s n,
      subscriptions (memory w) !! sub = Some s ∧ Subscription.is_active (clock n) s = true) ∧
    t_connections (db w) !! id = None ∧
    db w' = row_added id conn (db w) ∧
    connections (memory w') =
      match connections (memory w) !! id with
      | Some _ => connections (memory w)
      | None => <[id := conn]> (connections (memory w))
      end ∧
    let on (topic : Topic) := ∃ n, tick w' = S n ∧
      bus w' = bus w ++ match zmq_fault n with
                        | None => [(topic, [conn_create_message conn id])]
                        | Some _ => []
                        end in
    match cc_proto req with
    | ProtoTag.Hysteria2 => on Topic.Auth
    | ProtoTag.Mtproto => bus w' = bus w
    | _ => on (Topic.Updates (cc_env req))
    end
  | _ => bus w' = bus w
  end.
Proof.
  pose proof (create_connection_run req network w) as Hc.
  destruct (run (create_connection_handler req network) w) as [w' r].
  destruct r as [[[st msg [[id [conn| | | | | | |]]|]| | | | | | | |]|]|];
    repeat (try done; match goal with |- match ?x with _ => _ end => destruct x end); try done.
  destruct Hc as (Hproto & Henv & Hsub & Hdel & Hact & Hok & Hfree & Hdb & Hmem & Hb).
  split_and!; try done. rewrite (create_topic_tag conn Hok), Hproto, Henv in Hb. cbv zeta.
  by destruct (cc_proto req).
Qed.

(** ** The handlers keep the cache backed *)

Lemma safe_admit req network w :
  mask_ok network →
  rg backed keeps (admit_connection req network)
    (λ r _, ∀ p, r = Ok p → ∀ t env sub e, conn_wf (Conn.new t env sub p e)) w.
Proof.
  intros Hn w' _ [Hd Hm]. pose proof (run_admit req network w') as Ha.
  unfold admit_connection in Ha. rewrite run_atomic in Ha.
  destruct (run _ w') as [w1 r1] eqn:Hr. destruct Ha as (Hm1 & Hd1 & Hb1 & _ & Ha).
  cbv beta. split_and!.
  - unfold backed. cbn [fst]. by rewrite Hm1, Hd1.
  - unfold keeps. cbn [fst]. by rewrite Hd1, Hb1.
  - cbn [fst snd]. destruct r1 as [r|]; [|done]. intros w2 _ _ p ->.
    destruct (Ha p eq_refl) as (_ & [Hok _] & Hwg & _). intros. by eapply conn_wf_new.
Qed.

Lemma safe_new_proto tag network w :
  mask_ok network →
  rg backed keeps (new_proto tag network)
    (λ r _, ∀ p, r = Ok p → ∀ t env sub e, conn_wf (Conn.new t env sub p e)) w.
Proof.
  intros Hn. destruct (decide (tag = ProtoTag.Wireguard)) as [->|Hne].
  - eapply (rg_bind backed keeps).
    + apply (rg_read_mem _ (λ r _, ∀ ip, r = Ok ip → 0 <= ip <= U32_MAX)); [|done].
      intros m d Hm ip. by eapply next_ip_range.
    + intros [ip|e] w1 Hg HI Hq; [|by intros w2 _ _ p].
      pose proof (Hq w1 ltac:(reflexivity) HI ip eq_refl) as Hr.
      eapply (rg_bind backed keeps); [apply safe_ask|]. intros s w2 _ _ _ w3 _ _ p [= <-] ????.
      split; [done|]. cbn. intros q [= <-]. unfold mask_ok, addr_ok, U32_MAX, u32_ok in *. cbn. lia.
  - destruct tag; try done;
      first [intros w' _ _ p [= <-] ????; by split; [|intros q [= ]]
            |eapply (rg_bind backed keeps); [apply safe_ask|];
             intros x w1 _ _ _ w2 _ _ p [= <-] ????; by split; [|intros q [= ]]].
Qed.

Lemma safe_create_connection req network w :
  mask_ok network → okp backed keeps (create_connection_handler req network) w.
Proof.
  intros Hn. unfold create_connection_handler. cbn [conn_create_validate].
  apply (okp_bind backed keeps); [safe|].
  intros e w1. eapply (rg_bind backed keeps); [by apply safe_admit|].
  intros [p|r] w2 Hg HI Hq; [|done]. pose proof (Hq w2 ltac:(reflexivity) HI p eq_refl) as Hwf.
  apply (okp_bind backed keeps); [apply safe_ask|]. intros t w3. cbv zeta.
  apply (okp_bind backed keeps); [apply safe_ask|]. intros id w4.
  apply (okp_bind backed keeps); [by apply safe_add_conn|]. intros [st|er] w5; [|done].
  destruct st; try done. safe.
Qed.

Lemma safe_get_connections req w : okp backed keeps (get_connections_handler req) w.
Proof. unfold get_connections_handler. safe. Qed.

Lemma safe_delete_connection_handler id w : okp backed keeps (delete_connection_handler id) w.
Proof.
  unfold delete_connection_handler. safe. apply safe_delete_connection.
Qed.

Lemma safe_get_connection id w : okp backed keeps (get_connection_handler id) w.
Proof. unfold get_connection_handler. safe. Qed.

Lemma safe_expired_subscription id w : okp backed keeps (expired_subscription id) w.
Proof. unfold expired_subscription. safe. Qed.

Lemma safe_wireguard_connections req w :
  okp backed keeps (wireguard_connections_handler req) w.
Proof.
  unfold wireguard_connections_handler. cbn [conn_info_validate]. apply (okp_run_atomic backed keeps).
  intros w1. safe. apply safe_expired_subscription.
Qed.
Lemma safe_mtproto_connections req w : okp backed keeps (mtproto_connections_handler req) w.
Proof.
  unfold mtproto_connections_handler. cbn [conn_info_validate]. apply (okp_run_atomic backed keeps).
  intros w1. safe. apply safe_expired_subscription.
Qed.
End handlers.

Definition peer_net : IpAddrMask := {| address := V4 167772160; cidr := 24 |}.
Definition peer_conn (ip : Ipv4Addr) : Conn := Conn.new 0 Env.Dev None
  (Proto.Wireguard {| keys := {| privkey := "" |};
    param_address := {| address := V4 ip; cidr := 32 |} |}) None.
Definition peer_cache : Cache :=
  cache_conns (λ _, {[ 1%N := peer_conn 167772162 ]}) Cache_new.

Lemma next_ip_fresh_witness :
  next_ip peer_net peer_cache = Ok 167772163 ∧
  contains_ipv4 peer_net 167772163 = true ∧ address (param_address
    {| keys := {| privkey := "" |}; param_address := {| address := V4 167772162; cidr := 32 |} |})
    ≠ V4 167772163.
Proof.
  assert (next_ip peer_net peer_cache = Ok 167772163) as Hip by (vm_compute; reflexivity).
  split; [exact Hip|].
  destruct (next_ip_fresh peer_net peer_cache 167772163) as [Hc Hd]; [| |exact Hip|].
  - intros base Hb. injection Hb as <-. lia.
  - intros id c Hc. cbn in Hc. apply lookup_singleton_Some in Hc as [_ <-]. exact I.
  - split; [exact Hc|]. apply (Hd 1%N (peer_conn 167772162)); reflexivity.
Defined.
