(* ===== verification/ApiSub.v ===== *)
(** * The subscription handlers

    [bin/api/http/handlers/subscription.rs]. *)
From S2P Require Import Prelude Task Foreign Naming Wireguard Connection ConnStore Subscription.
From S2P Require Import Key Inbound Node Link Db World Sync Consistency SyncSafe Reload SyncSpec.
From S2P Require Import Background Http ApiConn.
Local Open Scope Z_scope.
Local Open Scope prog_scope.

(** The elements of a hash set, in its own order. *)
Definition set_iter `{!IterOrder} `{Countable K} (s : gset K) : list K :=
  (hiter (gset_to_gmap () s)).*1.

Lemma elem_of_set_iter `{!IterOrder} `{Countable K} (s : gset K) k : k ∈ set_iter s ↔ k ∈ s.
Proof.
  unfold set_iter. rewrite list_elem_of_fmap. split.
  - intros ([k' []] & -> & Hin%elem_of_hiter). by apply lookup_gset_to_gmap_Some in Hin as [? _].
  - intros Hk. exists (k, ()). split; [done|]. apply elem_of_hiter, lookup_gset_to_gmap_Some. done.
Qed.

Section handlers.
Context `{!Oracle, !Postgres, !Ipv6Text, !UuidText, !IterOrder, !Chrono, !WgCrypto, !UrlLib}.

(** the referrer named by a code: [None] when there is none *)
Definition find_referrer (ref_by : string) : IO (option Uuid) :=
  read_mem (λ m, match Subscriptions.find_by_refer_code (subscriptions m) ref_by with
                 | Some sub => Some (op_id sub) | None => None end).

(** the end of the handler: the new subscription itself *)
Definition create_subscription (req : SubReq) (sub_id : Uuid) (ref_code : string)
    (bonus_days : Z) : Handler :=
  expires_at <- match sr_days req with
    | Some days =>
      t <- now;; e <- add_days_or_panic t (as_signed 64 (days + bonus_days));; Ret (Some e)
    | None => Ret None
    end;;
  t <- now;;
  let sub := Subscription.new t sub_id (sr_referred_by req) ref_code expires_at
               (sr_limit_bytes req) in
  r <- add_sub sub;;
  reply match r with
    | Ok (Status.Ok id) =>
      success_response ("Subscription " +:+ uuid_str id +:+ " has been created")
        (Some sub_id) (Instances.Subscription sub)
    | Ok (Status.AlreadyExist id) =>
      not_modified ("Subscription " +:+ uuid_str id +:+ " already exists")
    | Ok (Status.NotFound id) =>
      not_found ("Subscription " +:+ uuid_str id +:+ " is not found")
    | Err err =>
      internal_error ("Internal error while processing subscription " +:+ uuid_str sub_id +:+
        ": " +:+ SyncError.fmt err)
    | _ => not_modified ""
    end.

(** [post_subscription_handler] -- bin/api/http/handlers/subscription.rs:28-113 *)
Definition post_subscription_handler (req : SubReq) (bonus : Z)
    (system_refer_codes : list string) : Handler :=
  sub_id <- new_v4;;
  let ref_code := match sr_refer_code req with
                  | Some c => c | None => get_uuid_last_octet_simple sub_id end in
  referrer <- match sr_referred_by req with
    | Some ref_by =>
      let is_user_referral := negb (any (λ c, bool_decide (c = ref_by)) system_refer_codes) in
      found <- find_referrer ref_by;;
      Ret match found with
          | Some id => Ok (Some id, if is_user_referral then bonus else 0)
          | None => Err (bad_request "Refer code no found")
          end
    | None => Ret (Ok (None, 0))
    end;;
  match referrer with
  | Err r => reply r
  | Ok (sub_id_to_update, bonus_days) =>
    updated <- match sub_id_to_update with
               | Some id => add_days id bonus
               | None => Ret (Ok (Status.Ok NIL))
               end;;
    match updated with
    | Err e => reply (internal_error ("Couldn't create subscription: " +:+ SyncError.fmt e))
    | Ok _ =>
      create_subscription req sub_id ref_code bonus_days
    end
  end.

(** [put_subscription_handler] -- bin/api/http/handlers/subscription.rs:117-163 *)
Definition put_subscription_handler (sub_id : Uuid) (req : SubReq) : Handler :=
  r <- update_sub sub_id req;;
  reply match r with
    | Ok (Status.Updated id) =>
      success_response ("Subscription " +:+ uuid_str id +:+ " has been updated") (Some sub_id)
        Instances.None
    | Ok (Status.NotFound id) =>
      not_found ("Subscription " +:+ uuid_str id +:+ " is not found")
    | Err err =>
      Json 500 ("Internal error while processing subscription " +:+ uuid_str sub_id +:+ ": " +:+
        SyncError.fmt err) None
    | _ => not_modified ""
    end.

Definition xray_tags : list ProtoTag :=
  [ProtoTag.VlessGrpcReality; ProtoTag.VlessTcpReality; ProtoTag.VlessXhttpReality;
   ProtoTag.Vmess].

(** whether some node has an inbound with a tag that passes the test *)
Definition node_exists (f : ProtoTag → bool) (ns : option (list Node)) : bool :=
  match ns with
  | Some ns => any (λ n, any (λ i, f (Inbound.tag i)) (hvalues (Node.inbounds n))) ns
  | None => false
  end.

(** one environment of [get_subscription_info_json] *)
Definition env_info (m : Cache) (conns : list (Uuid * Conn)) (env : Env) : EnvInfo :=
  let nodes := NodeStore.get_by_env (nodes m) env in
  let xray t := bool_decide (t ∈ xray_tags) in
  let tagged t t' := bool_decide (t' = t) in
  let has f := node_exists f nodes &&
    any (λ '(_, conn), negb (get_deleted conn) && bool_decide (Conn.env conn = env) &&
      f (Proto.proto (get_proto conn))) conns in
  {| ei_env := env;
     has_xray := has xray;
     has_h2 := has (tagged ProtoTag.Hysteria2);
     has_mtproto := has (tagged ProtoTag.Mtproto);
     has_wg := has (tagged ProtoTag.Wireguard) |}.

(** the environments of the connections that are not deleted *)
Definition active_envs (conns : list (Uuid * Conn)) : gset Env :=
  list_to_set ((λ '(_, conn), Conn.env conn) <$> keep (λ '(_, conn), negb (get_deleted conn)) conns).

(** [get_subscription_info_json] -- bin/api/http/handlers/subscription.rs:166-285 *)
Definition get_subscription_info_json (subscription_id : Uuid) : Handler :=
  atomic (
    m <- read_mem id;;
    match Subscriptions.find_by_id (subscriptions m) subscription_id with
    | None => reply NoSubscription
    | Some sub =>
      let locations :=
        match get_by_subscription_id (connections m) subscription_id with
        | Some conns => env_info m conns <$> set_iter (active_envs conns)
        | None => []
        end in
      t <- now;;
      reply (Info {|
        srs_id := Subscription.id sub;
        srs_expires := default 0 (Subscription.expires_at sub);
        srs_days := default 0 (Subscription.days_remaining t sub);
        srs_ref_code := Subscription.get_refer_code sub;
        srs_invited_count :=
          Subscriptions.count_invited_by (subscriptions m) (Subscription.get_refer_code sub);
        srs_locations := locations;
        srs_downlink := 0;
        srs_limit_bytes := default 0 (Subscription.limit_bytes sub) |})
    end).

(** [generate_meta] -- bin/api/http/handlers/subscription.rs:377-391 *)
Definition generate_meta (title : string) (limit expires_at : Z) : string :=
  nl +:+ "#profile-title: " +:+ title +:+ nl +:+ "#profile-update-interval: 1" +:+ nl +:+
  "#subscription-userinfo: upload=0; download=0; total=" +:+ pretty limit +:+ "; expire=" +:+
  pretty expires_at +:+ nl +:+ nl.

(** what a link is made from: an inbound of a node and a connection *)
Record LinkInput : Set := {
  li_inbound : Inbound;
  li_conn_id : Uuid;
  li_conn : Conn;
  li_hostname : string;
  li_address : Ipv4Addr;
  li_label : string;
}.

(** the list the handler fills *)
Definition inbounds_list (m : Cache) (req : SubscriptionInfoRequest) : list LinkInput :=
  match get_by_subscription_id (connections m) (si_id req) with
  | Some conns =>
    for_list (served (si_env req) (TagReq.tags (si_proto req)) conns) (λ '(conn_id, conn),
    for_list (env_nodes m (Conn.env conn)) (λ node,
    match Node.inbounds node !! Proto.proto (get_proto conn) with
    | Some inbound =>
      [{| li_inbound := inbound; li_conn_id := conn_id; li_conn := conn;
          li_hostname := Node.hostname node; li_address := Node.address node;
          li_label := Node.label node |}]
    | None => []
    end))
  | None => []
  end.

(** [iter().map(create_link).collect::<Result<Vec<_>, _>>()] *)
Fixpoint create_links (l : list LinkInput) : result (list string) Error :=
  match l with
  | [] => Ok []
  | i :: l =>
    match create_link (li_inbound i) (li_conn_id i) (li_conn i) (li_hostname i)
            (li_address i) (li_label i) with
    | Err e => Err e
    | Ok s => match create_links l with Ok ss => Ok (s :: ss) | Err e => Err e end
    end
  end.

(** [subscription_link_handler] -- bin/api/http/handlers/subscription.rs:287-446 *)
Definition subscription_link_handler (req : SubscriptionInfoRequest) (title : string)
    (limit : Z) : Handler :=
  match sub_info_validate req with
  | Err e => reply (bad_request ("Bad Request: " +:+ Error.fmt e))
  | Ok _ =>
    atomic (
      m <- read_mem id;;
      match Subscriptions.find_by_id (subscriptions m) (si_id req) with
      | None => reply (not_found ("Subscription " +:+ uuid_str (si_id req) +:+ " not found"))
      | Some sub =>
        t <- now;;
        if negb (Subscription.is_active t sub)
        then reply (not_found ("Subscription " +:+ uuid_str (si_id req) +:+ " is expired"))
        else
          match inbounds_list m req with
          | [] => reply (not_found ("Nodes for subscription " +:+ uuid_str (si_id req) +:+ " not found"))
          | l =>
            let expires_at := match Subscription.expires_at sub with
                              | Some exp => timestamp exp | None => 0 end in
            let meta := generate_meta title limit expires_at in
            match si_format req with
            | FormatReq.Txt =>
              Ret match create_links l with
                  | Ok links => Ok (Text "text/plain" (meta +:+ Str.join nl links))
                  | Err e => Err (Rejected e)
                  end
            | FormatReq.Base64 =>
              Ret match create_links l with
                  | Ok links => Ok (Text "text/base64"
                      (b64_encode (str_bytes (meta +:+ Str.join nl links)) +:+ nl))
                  | Err e => Err (Rejected e)
                  end
            | FormatReq.Clash =>
              reply (Yaml (clash (omap (λ i,
                proxy (li_inbound i) (li_conn_id i) (li_address i) (li_label i)) l)))
            end
          end
      end)
  end.

(** ** Referrals *)

#[local] Arguments add_days : simpl never.
#[local] Arguments add_sub : simpl never.

(** What creating a subscription writes, when the database takes it. *)
Lemma add_sub_run sub w :
  let '(w', r) := run (add_sub sub) w in
  match r with
  | Some (Ok (Status.Ok i)) => i = Subscription.id sub ∧
    t_subscriptions (db w) !! i = None ∧
    ∃ row, t_subscriptions (db w') = <[i := row]> (t_subscriptions (db w))
  | _ => True
  end.
Proof.
  unfold add_sub, db_do, update_mem. cbn.
  pose proof (eq_refl : pg_sub_create (clock (tick w)) sub (db w) = _) as Hc.
  unfold pg_sub_create in Hc at 2. rewrite Hc.
  destruct (t_subscriptions (db w) !! _) as [old|] eqn:Hold;
    [|destruct (negb _)]; cbn; destruct (pg_fault (tick w)) as [|[] e]; cbn; try done.
  unfold Subscriptions.add. destruct (subscriptions (memory w) !! _); [case_decide|];
    cbn; try done. split_and!; [done|done|by eexists].
Qed.

(** Whatever the outcome, it writes at most that row, and only a new one. *)
Definition row_created (id : Uuid) (t t' : gmap Uuid Subscription) : Prop :=
  t' = t ∨ t !! id = None ∧ ∃ row, t' = <[id := row]> t.
Lemma sub_create_rows now sub d :
  row_created (Subscription.id sub) (t_subscriptions d) (t_subscriptions (pg_sub_create now sub d).1).
Proof.
  unfold pg_sub_create, row_created. destruct (t_subscriptions d !! _) eqn:Hold; [by left|].
  destruct (negb _); [by left|]. right. split; [done|by eexists].
Qed.
Lemma add_sub_rows sub w :
  row_created (Subscription.id sub) (t_subscriptions (db w))
    (t_subscriptions (db (run (add_sub sub) w).1)).
Proof.
  pose proof (sub_create_rows (clock (tick w)) sub (db w)) as Hr. unfold add_sub, db_do, update_mem.
  cbn. destruct (pg_sub_create _ sub (db w)) as [d [row|e]]; cbn in Hr;
    destruct (pg_fault (tick w)) as [|[] e']; cbn; try done; try by left.
  by destruct (Subscriptions.add _ sub) as [ss []].
Qed.

(** The subscription a reply of success carries. *)
Definition created (r : option (result Reply Rejection)) : option (Uuid * Subscription) :=
  match r with
  | Some (Ok (Json st _ (Some (id, Instances.Subscription sub)))) =>
    if decide (st = 200) then Some (id, sub) else None
  | _ => None
  end.

(** A subscription's days, and the row it gets. *)
Lemma create_subscription_run req sub_id ref_code bonus_days w :
  let '(w', r) := run (create_subscription req sub_id ref_code bonus_days) w in
  match created r with
  | Some (id, sub) =>
    id = sub_id ∧ Subscription.id sub = id ∧ Subscription.referred_by sub = sr_referred_by req ∧
    t_subscriptions (db w) !! id = None ∧
    (∃ row, t_subscriptions (db w') = <[id := row]> (t_subscriptions (db w))) ∧
    (∀ days, sr_days req = Some days → ∃ n, is_Some (Subscription.expires_at sub) ∧
      Subscription.expires_at sub = dt_add_days (clock n) (as_signed 64 (days + bonus_days)))
  | None => True
  end.
Proof.
  unfold create_subscription. rewrite run_bind.
  assert (let '(w1, r1) := run (match sr_days req with
      | Some days => t <- now;;
        e <- add_days_or_panic t (as_signed 64 (days + bonus_days));; Ret (Some e)
      | None => Ret None end) w in
    db w1 = db w ∧ ∀ o, r1 = Some o → ∀ days, sr_days req = Some days → ∃ n, is_Some o ∧
      o = dt_add_days (clock n) (as_signed 64 (days + bonus_days))) as Hx.
  { destruct (sr_days req) as [days|]; [|done]. cbn. unfold add_days_or_panic.
    destruct (dt_add_days _ _) as [e|] eqn:He; [|done]. cbn. split; [done|].
    intros o [= <-] ? [= <-]. exists (tick w). by rewrite He. }
  destruct (run _ w) as [w1 [o|]]; destruct Hx as [Hd Hx]; [|done]. cbn. rewrite run_bind.
  set (sub := Subscription.new _ _ _ _ _ _). pose proof (add_sub_run sub (bump w1)) as Ha.
  destruct (run (add_sub sub) (bump w1)) as [w2 [[[]|]|]]; cbn; try done.
  destruct Ha as (-> & Hfree & row & Hrow). cbn in Hfree, Hrow. rewrite Hd in Hfree, Hrow.
  split_and!; [done..|by eexists|]. by apply Hx.
Qed.

(** Whatever the outcome, creating writes at most the new row. *)
Lemma create_subscription_rows req sub_id ref_code bonus_days w :
  row_created sub_id (t_subscriptions (db w))
    (t_subscriptions (db (run (create_subscription req sub_id ref_code bonus_days) w).1)).
Proof.
  unfold create_subscription. rewrite run_bind.
  assert (db (run (match sr_days req with
      | Some days => t <- now;;
        e <- add_days_or_panic t (as_signed 64 (days + bonus_days));; Ret (Some e)
      | None => Ret None end) w).1 = db w) as Hd.
  { destruct (sr_days req) as [days|]; [|done]. cbn. unfold add_days_or_panic.
    by destruct (dt_add_days _ _). }
  destruct (run _ w) as [w1 [o|]]; cbn in Hd |- *; [|left; by rewrite Hd].
  rewrite run_bind. set (sub := Subscription.new _ _ _ _ _ _).
  pose proof (add_sub_rows sub (bump w1)) as Ha. cbn in Ha. rewrite Hd in Ha.
  by destruct (run (add_sub sub) (bump w1)) as [w2 [r|]].
Qed.

#[local] Arguments create_subscription : simpl never.

(** The referrer's row after the bonus. *)
Definition bonus_given (bonus : Z) (ref : Uuid) (d d' : Db) : Prop :=
  ∃ old row, t_subscriptions d !! ref = Some old ∧ t_subscriptions d' !! ref = Some row ∧
    row_moved bonus old row.

(** Adding days writes at most the subscription's row, and on success has
    written it. *)
Lemma add_days_rows id days w :
  let '(w', r) := run (add_days id days) w in
  dom (t_subscriptions (db w')) = dom (t_subscriptions (db w)) ∧
  ∀ st, r = Some (Ok st) → is_Some (subscriptions (memory w) !! id) →
    bonus_given days id (db w) (db w').
Proof.
  pose proof (add_days_run id days w) as Ha. destruct (run (add_days id days) w) as [w' r].
  assert (∀ (t : gmap Uuid Subscription) old row, t !! id = Some old → dom (<[id := row]> t) = dom t)
    as Hdom by (intros t old row Ho; apply dom_insert_lookup_L; by eexists).
  destruct (subscriptions (memory w) !! id) as [s|] eqn:Hs.
  2:{ destruct Ha as (_ & _ & -> & _). split; [done|]. by intros st _ [? ?]. }
  destruct r as [[st|e]|].
  - destruct Ha as (_ & old & row & rows & Hold & Hrow & _ & -> & _). cbn. split; [by eapply Hdom|].
    intros _ _ _. exists old, row. cbn. by rewrite lookup_insert_eq.
  - destruct Ha as (_ & _ & _ & _ & [->|(old & row & Hold & _ & ->)]); cbn; (split; [|done]);
      [done|by eapply Hdom].
  - destruct Ha as (-> & _). by split.
Qed.

(** The bonus of the new subscription itself. *)
Lemma own_bonus (code : string) (codes : list string) (bonus : Z) :
  (if negb (any (λ c, bool_decide (c = code)) codes) then bonus else 0) =
  if decide (code ∈ codes) then 0 else bonus.
Proof.
  destruct (any _ _) eqn:Hany.
  - apply any_true in Hany as (c & Hc & ->%bool_decide_eq_true_1). by rewrite decide_True.
  - rewrite any_false in Hany. rewrite decide_False; [done|]. intros Hin.
    specialize (Hany code Hin). by rewrite bool_decide_eq_true_2 in Hany.
Qed.

(** C27: creating a subscription that names a referrer's code gives the referrer
    the bonus days first.  Whatever the outcome, also a panic: if the database
    has a new subscription, then a referrer was found in the cache by the code,
    and if the cache has the referrer under his own id, his row's expiry has
    moved by the bonus from the later of it and now; so also when the code is
    one of the system's.  When the answer is of success, the subscription is a
    new one in the database, names the code, and gets its days from now, with
    the bonus on top only when the code is not the system's. *)
Theorem post_subscription_referral (req : SubReq) (bonus : Z) (codes : list string) (w : World) :
  let '(w', r) := run (post_subscription_handler req bonus codes) w in
  (∀ id code, t_subscriptions (db w) !! id = None → is_Some (t_subscriptions (db w') !! id) →
    sr_referred_by req = Some code →
    ∃ ref, Subscriptions.find_by_refer_code (subscriptions (memory w)) code = Some ref ∧
      (is_Some (subscriptions (memory w) !! Subscription.id ref) →
       ∃ old row, t_subscriptions (db w) !! Subscription.id ref = Some old ∧
         t_subscriptions (db w') !! Subscription.id ref = Some row ∧ row_moved bonus old row)) ∧
  match created r with
  | Some (id, sub) =>
    Subscription.id sub = id ∧ Subscription.referred_by sub = sr_referred_by req ∧
    t_subscriptions (db w) !! id = None ∧ is_Some (t_subscriptions (db w') !! id) ∧
    (∀ days, sr_days req = Some days → ∃ n, is_Some (Subscription.expires_at sub) ∧
      Subscription.expires_at sub = dt_add_days (clock n) (as_signed 64 (days +
        match sr_referred_by req with
        | Some code => if decide (code ∈ codes) then 0 else bonus
        | None => 0
        end)))
  | None => True
  end.
Proof.
  unfold post_subscription_handler. cbn [run bind new_v4 ask]. cbv zeta.
  set (sub_id := fresh_uuid (tick w)). set (w1 := bump w).
  generalize (match sr_refer_code req with Some c => c
    | None => get_uuid_last_octet_simple sub_id end) as ref_code. intros ref_code.
  destruct (sr_referred_by req) as [code|] eqn:Hby; cbn.
  - destruct (Subscriptions.find_by_refer_code (subscriptions (memory w)) code) as [ref|] eqn:Hf;
      cbn; [|split; [|done]; intros id ? Hno [? Hs]; by rewrite Hno in Hs].
    rewrite run_bind. pose proof (add_days_rows (Subscription.id ref) bonus w1) as Ha.
    rewrite own_bonus.
    generalize (if decide (code ∈ codes) then 0 else bonus) as b. intros b.
    destruct (run (add_days (Subscription.id ref) bonus) w1) as [w2 r2].
    change (db w1) with (db w) in Ha. change (memory w1) with (memory w) in Ha.
    destruct Ha as [Hdom Hgiven].
    assert (∀ id, t_subscriptions (db w2) !! id = None ↔ t_subscriptions (db w) !! id = None) as Hnone
      by (intros id; by rewrite <- !not_elem_of_dom, Hdom).
    destruct r2 as [[st|e]|]; cbn.
    2,3: split; [|done]; intros id ? Hno%Hnone [? Hs]; by rewrite Hno in Hs.
    pose proof (create_subscription_run req sub_id ref_code b w2) as Hc.
    pose proof (create_subscription_rows req sub_id ref_code b w2) as Hr.
    destruct (run (create_subscription req sub_id ref_code b) w2) as [w3 r3]. cbn in Hr. split.
    + intros id ? _ _ [= <-]. exists ref. split; [done|]. intros Hin.
      destruct (Hgiven st eq_refl Hin) as (old & row & Hold & Hrow & Hmv).
      exists old, row. split_and!; [done| |done].
      destruct Hr as [->|(Hfree & row' & ->)]; [done|]. rewrite lookup_insert_ne; [done|].
      intros Heq. rewrite Heq in Hfree. congruence.
    + destruct (created r3) as [[id sub]|]; [|done].
      destruct Hc as (-> & Hid & Hrb & Hfree & [row' Hrow'] & Hdays).
      split_and!; [congruence|congruence|by apply Hnone|rewrite Hrow', lookup_insert_eq; by eexists|done].
  - pose proof (create_subscription_run req sub_id ref_code 0 w1) as Hc.
    destruct (run (create_subscription req sub_id ref_code 0) w1) as [w3 r3]. split; [done|].
    destruct (created r3) as [[id sub]|]; [|done]. destruct Hc as (-> & Hid & Hrb & Hfree & [row' Hrow'] & Hdays).
    split_and!; [congruence|congruence|done|rewrite Hrow', lookup_insert_eq; by eexists|done].
Qed.

(** ** What a subscriber is given *)

Lemma elem_of_for_list {A B} (l : list A) (f : A → list B) y :
  y ∈ for_list l f ↔ ∃ x, x ∈ l ∧ y ∈ f x.
Proof.
  unfold for_list. rewrite list_elem_of_join. setoid_rewrite list_elem_of_fmap. naive_solver.
Qed.

Lemma elem_of_served env tags conns id c :
  (id, c) ∈ served env tags conns ↔ (id, c) ∈ conns ∧ Conn.is_deleted c = false ∧
    Conn.env c = env ∧ Proto.proto (Conn.proto c) ∈ tags.
Proof.
  unfold served. rewrite elem_of_keep, andb_true_iff, negb_true_iff, orb_false_iff.
  rewrite bool_decide_eq_false, bool_decide_eq_true. cbn. split; [|naive_solver].
  intros (? & (? & Hn) & ?). split_and!; [done|done| |done]. by apply dec_stable.
Qed.

Lemma elem_inbounds_list m req i :
  i ∈ inbounds_list m req ↔ ∃ c ns n,
    connections m !! li_conn_id i = Some c ∧ li_conn i = c ∧
    Conn.subscription_id c = Some (si_id req) ∧ Conn.is_deleted c = false ∧
    Conn.env c = si_env req ∧ Proto.proto (Conn.proto c) ∈ TagReq.tags (si_proto req) ∧
    nodes m !! si_env req = Some ns ∧ n ∈ ns ∧
    Node.inbounds n !! Proto.proto (Conn.proto c) = Some (li_inbound i) ∧
    li_hostname i = Node.hostname n ∧ li_address i = Node.address n ∧ li_label i = Node.label n.
Proof.
  unfold inbounds_list. destruct (get_by_subscription_id _ _) as [conns|] eqn:Hg.
  - rewrite elem_of_for_list. split.
    + intros ([id c] & Hin & Hi). apply elem_of_served in Hin as (Hin & Hl & He & Ht).
      apply (elem_of_get_by_subscription_id _ _ _ Hg) in Hin as [Hc Hs].
      apply elem_of_for_list in Hi as (n & Hn & Hi). unfold env_nodes, NodeStore.get_by_env in Hn.
      rewrite He in Hn. destruct (nodes m !! si_env req) as [ns|] eqn:Hns;
        [|by apply not_elem_of_nil in Hn].
      cbn in Hi. destruct (Node.inbounds n !! _) as [ib|] eqn:Hib; [|by apply not_elem_of_nil in Hi].
      apply list_elem_of_singleton in Hi as ->. exists c, ns, n. by split_and!.
    + intros (c & ns & n & Hc & Hlc & Hs & Hl & He & Ht & Hns & Hn & Hib & Hh & Ha & Hlab).
      exists (li_conn_id i, c). split.
      * apply elem_of_served. split_and!; [|done..].
        by apply (elem_of_get_by_subscription_id _ _ _ Hg).
      * apply elem_of_for_list. exists n. unfold env_nodes, NodeStore.get_by_env.
        rewrite He, Hns. split; [done|]. cbn. rewrite Hib. apply list_elem_of_singleton.
        destruct i. cbn in *. congruence.
  - split; [by intros ?%not_elem_of_nil|]. intros (c & _ & _ & Hc & _ & Hs & _).
    rewrite get_by_subscription_id_None in Hg. by destruct (Hg _ _ Hc).
Qed.

(** The link of each input, or the first failure. *)
Definition link_of (i : LinkInput) : result string Error :=
  create_link (li_inbound i) (li_conn_id i) (li_conn i) (li_hostname i) (li_address i) (li_label i).
Lemma create_links_spec l :
  match create_links l with
  | Ok links => Forall2 (λ i link, link_of i = Ok link) l links
  | Err e => ∃ i, i ∈ l ∧ link_of i = Err e
  end.
Proof.
  induction l as [|i l IH]; cbn; [constructor|]. fold (link_of i).
  destruct (link_of i) as [s|e] eqn:Hi; [|exists i; split; [left|done]].
  destruct (create_links l) as [ss|e]; [by constructor|].
  destruct IH as (j & Hj & Hl). exists j. split; [by right|done].
Qed.

#[local] Arguments create_links : simpl never.

(** C24: the page of links.  What it is made of are exactly the subscription's
    live connections of the environment and group asked for, each on every
    node of that environment with an inbound of its protocol.  It is given only
    in a format that the group allows, which none is for WireGuard and MTProto,
    and only for a subscription that the cache has and finds active.  As text it
    is the header, with the title, the limit and the subscription's expiry, and
    then one link for each of those, in their order, and nothing else; in the
    format Base64 that text is encoded; and it is refused when one of the links
    cannot be made.  For Clash it is the configuration of their proxies, in
    their order, without those that Clash has no proxy for.  The cache, the
    database and the bus are untouched. *)
Theorem subscription_link_spec (req : SubscriptionInfoRequest) (title : string) (limit : Z)
    (w : World) :
  let '(w', r) := run (subscription_link_handler req title limit) w in
  let l := inbounds_list (memory w) req in
  memory w' = memory w ∧ db w' = db w ∧ bus w' = bus w ∧
  (∀ i, i ∈ l ↔ ∃ c ns n,
    connections (memory w) !! li_conn_id i = Some c ∧ li_conn i = c ∧
    Conn.subscription_id c = Some (si_id req) ∧ Conn.is_deleted c = false ∧
    Conn.env c = si_env req ∧ Proto.proto (Conn.proto c) ∈ TagReq.tags (si_proto req) ∧
    nodes (memory w) !! si_env req = Some ns ∧ n ∈ ns ∧
    Node.inbounds n !! Proto.proto (Conn.proto c) = Some (li_inbound i) ∧
    li_hostname i = Node.hostname n ∧ li_address i = Node.address n ∧ li_label i = Node.label n) ∧
  let given := si_format req ∈ allowed_formats (si_proto req) ∧
    (si_proto req = TagReq.Xray ∨ si_proto req = TagReq.Hysteria2) ∧ l ≠ [] ∧
    ∃ s n, subscriptions (memory w) !! si_id req = Some s ∧
      Subscription.is_active (clock n) s = true in
  match r with
  | Some (Ok (Text kind body)) => given ∧ ∃ s links,
      subscriptions (memory w) !! si_id req = Some s ∧
      Forall2 (λ i link, create_link (li_inbound i) (li_conn_id i) (li_conn i) (li_hostname i)
        (li_address i) (li_label i) = Ok link) l links ∧
      let text := generate_meta title limit (match Subscription.expires_at s with
        | Some exp => timestamp exp | None => 0 end) +:+ Str.join nl links in
      match si_format req with
      | FormatReq.Txt => kind = "text/plain" ∧ body = text
      | FormatReq.Base64 => kind = "text/base64" ∧ body = b64_encode (str_bytes text) +:+ nl
      | FormatReq.Clash => False
      end
  | Some (Ok (Yaml y)) => given ∧ si_format req = FormatReq.Clash ∧
      y = clash (omap (λ i, proxy (li_inbound i) (li_conn_id i) (li_address i) (li_label i)) l)
  | Some (Err e) => given ∧ si_format req ≠ FormatReq.Clash ∧ ∃ i e', i ∈ l ∧
      create_link (li_inbound i) (li_conn_id i) (li_conn i) (li_hostname i) (li_address i)
        (li_label i) = Err e' ∧ e = Rejected e'
  | Some (Ok (Json st _ None)) => st = 400 ∨ st = 404
  | _ => False
  end.
Proof.
  pose proof (λ i, elem_inbounds_list (memory w) req i) as Hl.
  unfold subscription_link_handler, sub_info_validate.
  case_bool_decide as Hfmt; [|cbn; by split_and!; auto].
  assert (si_proto req = TagReq.Xray ∨ si_proto req = TagReq.Hysteria2) as Hproto.
  { destruct (si_proto req); auto; by apply not_elem_of_nil in Hfmt. }
  rewrite run_atomic. cbn. unfold Subscriptions.find_by_id.
  destruct (subscriptions (memory w) !! si_id req) as [s|] eqn:Hs; [|cbn; by split_and!; auto].
  cbn. destruct (Subscription.is_active (clock (tick w)) s) eqn:Ha; cbn; [|by split_and!; auto].
  destruct (inbounds_list (memory w) req) as [|x l] eqn:Hil; [cbn; by split_and!; auto|].
  pose proof (create_links_spec (x :: l)) as Hlinks.
  destruct (si_format req) eqn:Hf; cbn;
    [destruct (create_links (x :: l)) as [links|e]; cbn..|];
    (split; [done|]; split; [done|]; split; [done|]; split; [exact Hl|]).
  all: try (destruct Hlinks as (i & Hi & He)).
  all: split_and!; try done; try by (exists s, (tick w)).
  all: try by (exists s, links). all: by exists i, e.
Qed.

(** ** The handlers keep the cache backed *)

#[local] Hint Resolve safe_add_days safe_add_sub safe_update_sub : safe.

Lemma safe_find_referrer code w : okp backed keeps (find_referrer code) w.
Proof. apply safe_read_mem. Qed.
#[local] Hint Resolve safe_find_referrer : safe.

Lemma safe_create_subscription req id code bonus w :
  okp backed keeps (create_subscription req id code bonus) w.
Proof. unfold create_subscription. safe. Qed.
#[local] Hint Resolve safe_create_subscription : safe.

Lemma safe_post_subscription req bonus codes w :
  okp backed keeps (post_subscription_handler req bonus codes) w.
Proof. unfold post_subscription_handler. safe. Qed.

Lemma safe_put_subscription id req w : okp backed keeps (put_subscription_handler id req) w.
Proof. unfold put_subscription_handler. safe. Qed.

Lemma safe_get_subscription_info id w :
  okp backed keeps (get_subscription_info_json id) w.
Proof. apply (okp_run_atomic backed keeps). intros w1. safe. Qed.

Lemma safe_subscription_link req title limit w :
  okp backed keeps (subscription_link_handler req title limit) w.
Proof.
  unfold subscription_link_handler. destruct (sub_info_validate req); [|by apply okp_ret].
  apply (okp_run_atomic backed keeps). intros w1. safe.
Qed.
End handlers.
