(* ===== verification/ApiKey.v ===== *)
(** * The key handlers

    [bin/api/http/handlers/key.rs]. *)
From S2P Require Import Prelude Task Foreign Naming Wireguard Connection ConnStore Subscription.
From S2P Require Import Key Inbound Node Link Db World Sync Consistency SyncSafe Reload SyncSpec.
From S2P Require Import Background Http ApiConn ApiSub.
Local Open Scope Z_scope.
Local Open Scope prog_scope.

Section keys.
Context `{!Oracle, !Postgres, !Ipv6Text, !UuidText, !IterOrder, !Chrono, !Base32, !Hmac}.

(** [PgKey::get] -- bin/api/postgres/keys.rs:19-32

    A failure reads as no key; a malformed distributor panics. *)
Definition key_get (code : string) : IO (option Key) :=
  r <- db_get (pg_key_get code);;
  match r with
  | Ok (Some row) => match key_from_row row with Some key => Ret (Some key) | None => Panic end
  | _ => Ret None
  end.

(** [get_key_validate_handler] -- bin/api/http/handlers/key.rs:16-59 *)
Definition get_key_validate_handler (code : Code.Code) (secret : list Z) : Handler :=
  if negb (Code.is_valid code secret) then reply (bad_request "Key is not valid")
  else
    key <- key_get (Code.as_str code);;
    reply match key with
      | Some key =>
        if Key.activated key
        then success_response "Key is valid and already activated" (Some (Key.id key))
          (Instances.Key key)
        else success_response "Key is valid" (Some (Key.id key)) (Instances.Key key)
      | None => not_found "Key is not found"
      end.

(** [post_key_handler] -- bin/api/http/handlers/key.rs:62-103 *)
Definition post_key_handler (req : KeyReq) (secret : list Z) : Handler :=
  let distributor_str := match kr_distributor req with Some d => d | None => "FRKN" end in
  match Distributor.new distributor_str with
  | Err _ => Ret (Err (Rejected (Error.Custom "invalid distributor")))
  | Ok distributor =>
    id <- new_v4;; t <- now;; random <- ask random_bytes;;
    let key := Key.new id t random (kr_days req) distributor secret in
    r <- db_do (λ _, pg_key_insert key);;
    reply match r with
      | Ok _ => success_response ("Key " +:+ uuid_str (Key.id key) +:+ " is created")
          (Some (Key.id key)) (Instances.Key key)
      | Err _ => bad_request "Key create error"
      end
  end.

(** [post_activate_key_handler] -- bin/api/http/handlers/key.rs:106-154 *)
Definition post_activate_key_handler (req : ActivateKeyReq) : Handler :=
  key <- key_get (ak_code req);;
  match key with
  | None => reply (not_found "Key not found")
  | Some key =>
    if Key.activated key then reply (bad_request "Key already activated")
    else
      r <- add_days (ak_subscription_id req) (Key.days key);;
      match r with
      | Ok (Status.Updated _) =>
        t <- now;;
        let key := (Key.activate t (ak_subscription_id req) key).1 in
        a <- db_do (λ now, pg_key_activate now key);;
        reply match a with
          | Err err => bad_request ("Key activation failed: " +:+ Error.fmt err)
          | Ok _ => success_response ("Key " +:+ uuid_str (Key.id key) +:+ " activated")
              (Some (Key.id key)) (Instances.Key key)
          end
      | Ok (Status.NotFound _) => reply (not_found "Subscription not found")
      | Err err => reply (bad_request ("Failed to add days: " +:+ SyncError.fmt err))
      | Ok _ => reply (not_modified "")
      end
  end.

#[local] Arguments add_days : simpl never.

(** C25: activating a key.  One that the database says is activated, or does not
    know, changes nothing.  An answer of success means that the key was not
    activated, that the subscription was known and its row's expiry moved by
    the key's days from the later of it and now, and that the key's row is now
    activated for it.  The days come first: whatever the outcome, a failure or a
    panic too, no other row of a subscription or of a key has changed, and the
    key's has only if the days were added; they may have been without the key
    being marked. *)
Theorem activate_key_spec (req : ActivateKeyReq) (w : World) :
  let '(w', r) := run (post_activate_key_handler req) w in
  match pg_key_get (ak_code req) (db w) with
  | None => memory w' = memory w ∧ db w' = db w ∧ bus w' = bus w ∧
      r = Some (Ok (not_found "Key not found"))
  | Some row =>
    let days_added := ∃ old new,
      t_subscriptions (db w) !! ak_subscription_id req = Some old ∧ row_moved (Key.days row) old new ∧
      t_subscriptions (db w') = <[ak_subscription_id req := new]> (t_subscriptions (db w)) in
    let key_marked := ∀ k, t_keys (db w) !! Key.id row = Some k →
      ∃ k', t_keys (db w') !! Key.id row = Some k' ∧
        Key.activated k' = true ∧ Key.subscription_id k' = Some (ak_subscription_id req) in
    (Key.activated row = true → memory w' = memory w ∧ db w' = db w ∧ bus w' = bus w) ∧
    (∀ msg o, r = Some (Ok (Json 200 msg o)) →
      Key.activated row = false ∧
      (∃ s, subscriptions (memory w) !! ak_subscription_id req = Some s) ∧
      days_added ∧ key_marked) ∧
    (t_keys (db w') = t_keys (db w) ∧
       (t_subscriptions (db w') = t_subscriptions (db w) ∨ days_added) ∨
     days_added ∧ key_marked ∧
       ∀ i, i ≠ Key.id row → t_keys (db w') !! i = t_keys (db w) !! i)
  end.
Proof.
  unfold post_activate_key_handler, key_get, db_get, db_do. cbn.
  destruct (pg_key_get (ak_code req) (db w)) as [row|] eqn:Hrow.
  2:{ by destruct (pg_fault (tick w)) as [|[] e]. }
  destruct (pg_fault (tick w)) as [|[] e]; cbn; [|by split_and!; auto..].
  unfold key_from_row. destruct (Distributor.new _) as [dist|]; cbn; [|by split_and!; auto].
  destruct (Key.activated row) eqn:Hact; cbn; [by split_and!; [|intros ?? [= ]|auto]|].
  rewrite run_bind.
  set (w1 := bump (set_db (db w) w)).
  pose proof (add_days_run (ak_subscription_id req) (Key.days row) w1) as Ha.
  change (memory w1) with (memory w) in Ha. change (db w1) with (db w) in Ha.
  destruct (subscriptions (memory w) !! _) as [s|] eqn:Hs.
  2:{ destruct (run (add_days _ _) w1) as [w2 r2]. destruct Ha as (-> & _ & Hd & _). cbn.
      rewrite Hd. split_and!; [done|by intros ?? [= ]|by auto]. }
  destruct (run (add_days _ _) w1) as [w2 [[st|e]|]].
  2:{ destruct Ha as (_ & _ & _ & _ & Ha). cbn. split_and!; [done|by intros ?? [= ]|]. left.
      destruct Ha as [Hd|(old & new & Hold & Hmv & Hd)]; rewrite Hd; [by auto|]. cbn.
      split; [done|]. right. by exists old, new. }
  2:{ destruct Ha as (Hd & _). cbn. rewrite Hd. split_and!; [done|by intros ?? [= ]|by auto]. }
  destruct Ha as (_ & old & new & rows & Hold & Hmv & -> & Hdb & _). cbn.
  assert (t_subscriptions (db w2) = <[ak_subscription_id req := new]> (t_subscriptions (db w)) ∧
    t_keys (db w2) = t_keys (db w)) as [Hsubs Hkeys] by by rewrite Hdb.
  assert (∀ f : Key → Key, (∀ k, Key.activated (f k) = true ∧
    Key.subscription_id (f k) = Some (ak_subscription_id req)) →
    ∀ k, t_keys (db w) !! Key.id row = Some k →
    ∃ k', alter f (Key.id row) (t_keys (db w2)) !! Key.id row = Some k' ∧
      Key.activated k' = true ∧ Key.subscription_id k' = Some (ak_subscription_id req)) as Hmark.
  { intros f Hf k Hk. exists (f k). rewrite Hkeys, lookup_alter_eq, Hk. by destruct (Hf k). }
  destruct (pg_fault (S (tick w2))) as [|[] e]; cbn.
  - split_and!; [done| |right; split_and!; [by exists old, new|by apply Hmark|]].
    + intros msg o _. split_and!; [done|by eexists|by exists old, new|by apply Hmark].
    + intros i Hi. rewrite lookup_alter_ne by done. by rewrite Hkeys.
  - split_and!; [done|by intros ?? [= ]|right; split_and!; [by exists old, new|by apply Hmark|]].
    intros i Hi. rewrite lookup_alter_ne by done. by rewrite Hkeys.
  - split_and!; [done|by intros ?? [= ]|left]. split; [done|right]. by exists old, new.
Qed.
End keys.

(** An outside whose fourth statement to come fails without effect: the one
    that would mark the key. *)
Definition breaks_at (n : nat) : Oracle := {|
  clock _ := 0; fresh_uuid n := N.of_nat n; random_bytes _ := replicate 6 0;
  random_text _ := "password";
  pg_fault m := if decide (m = n) then Lost false (Error.Database "08006") else NoFault;
  zmq_fault _ := None; rkyv_fault _ := None; file_fault _ := None; file_partial _ := 0%nat; http_fault _ := None; ws_fault _ := false;
  whose_turn _ := true |}.

Definition shop_key : Key := {|
  Key.id := 5%N; Key.code := "CODE"; Key.days := 30; Key.activated := false;
  Key.subscription_id := None; Key.created_at := 0; Key.modified_at := 0;
  Key.distributor := test_distributor |}.
Definition shop_sub : Subscription := Subscription.new 0 7%N None "abc" (Some DAY) None.
Definition shop : World := {|
  memory := cache_subs (λ _, {[ 7%N := shop_sub ]}) Cache_new;
  db := {| t_connections := ∅; t_subscriptions := {[ 7%N := shop_sub ]}; t_nodes := ∅;
    t_keys := {[ 5%N := shop_key ]} |};
  bus := []; emails := ∅; email_file := None; tick := 0 |}.

(** Activation is not atomic.  When marking the key fails after its days
    were added, the answer is an error and the key can be activated again: one
    key of 30 days has then given a subscription 60. *)
Theorem activate_key_replay :
  ∃ n : nat,
    let req := {| ak_code := "CODE"; ak_subscription_id := 7%N |} in
    let '(w1, r1) := run (post_activate_key_handler (H := breaks_at n) req) shop in
    let '(w2, r2) := run (post_activate_key_handler (H := breaks_at n) req) w1 in
    (∃ msg, r1 = Some (Ok (bad_request msg))) ∧
    (∃ msg o, r2 = Some (Ok (Json 200 msg o))) ∧
    (Subscription.expires_at <$> t_subscriptions (db w2) !! 7%N) = Some (Some (DAY + 60 * DAY)).
Proof.
  exists 6%nat. vm_compute. split; [eexists; reflexivity|].
  split; [do 2 eexists; reflexivity|reflexivity].
Qed.

Section safe_keys.
Context `{!Oracle, !Postgres, !Ipv6Text, !UuidText, !IterOrder, !Chrono, !Base32, !Hmac}.

(** ** The handlers keep the cache backed *)

#[local] Hint Resolve safe_add_days : safe.

Lemma safe_key_get code w : okp backed keeps (key_get code) w.
Proof. unfold key_get. safe. Qed.
#[local] Hint Resolve safe_key_get : safe.

Lemma safe_get_key_validate code secret w :
  okp backed keeps (get_key_validate_handler code secret) w.
Proof. unfold get_key_validate_handler. safe. Qed.

Lemma safe_post_key req secret w : okp backed keeps (post_key_handler req secret) w.
Proof. unfold post_key_handler. safe. Qed.

Lemma safe_post_activate_key req w : okp backed keeps (post_activate_key_handler req) w.
Proof. unfold post_activate_key_handler. safe. Qed.

End safe_keys.
