(* ===== verification/Conduct.v ===== *)
(** * What the server does to the outside

    Every action of the server's operations either leaves the bus and the
    record of trials alone, or publishes what [published] allows, or puts a
    trial on record.  What those three kinds of action keep, every operation
    keeps: the contract of the bus ([Contract]) and the record of trials
    ([Restart]) are two instances. *)
From S2P Require Import Prelude Task Foreign Naming Wireguard Connection ConnStore Subscription.
From S2P Require Import Key Inbound Node Link Metrics Db World Trials Sync Consistency SyncSafe.
From S2P Require Import Reload SyncSpec Background Http ApiConn ApiSub ApiKey.
Local Open Scope Z_scope.
Local Open Scope prog_scope.

(** A batch of creations, or one message on the topic of its connection. *)
Definition published (p : Topic * list Message) : Prop :=
  (∃ l, p.2 = (λ '(i, c), conn_create_message c i) <$> l) ∨
  (∃ i c m, p = (conn_topic c, [m]) ∧
    (m = conn_create_message c i ∨ m = conn_update_message c i ∨ m = conn_delete_message c i)).

(** An action that publishes nothing and touches no trial. *)
Definition quiet_step (w w' : World) : Prop :=
  bus w' = bus w ∧ emails w' = emails w ∧ email_file w' = email_file w.

(** No condition on what happens. *)
Definition anything (_ _ : World) : Prop := True.
#[export] Instance anything_preorder : PreOrder anything.
Proof. by split. Qed.

Class Tolerates `{!Oracle, !UuidText, !Hmac, !Rfc3339} (I : World → Prop)
    (G : World → World → Prop) : Prop := {
  tol_pre :: PreOrder G;
  tol_silent w w' : quiet_step w w' → I w → I w' ∧ G w w';
  tol_send p w : published p → I w → I (bump (post p w)) ∧ G w (bump (post p w));
  tol_trial secret who id t ref_by w : okp I G (save_trial_hmac secret who id t ref_by) w;
}.

Section base.
Context `{!Oracle, !UuidText, !Hmac, !Rfc3339}.
Context (I : World → Prop) (G : World → World → Prop) `{!Tolerates I G}.
Notation conducts p w := (okp I G p w).

(** An action that publishes nothing. *)
Lemma con_silent {X A} (f : World → World * X) (k : X → IO A) w :
  (∀ w, quiet_step w (f w).1) → (∀ x w', conducts (k x) w') → conducts (Act f k) w.
Proof. intros Hf Hk. apply (okp_act I G); [|done]. intros w' Hi. by apply tol_silent. Qed.

Lemma con_ask {A} (f : nat → A) w : conducts (ask f) w.
Proof. apply con_silent; [by repeat split|by intros; apply okp_ret]. Qed.
Lemma con_reads {A} (f : World → A) w : conducts (reads f) w.
Proof. apply con_silent; [by repeat split|by intros; apply okp_ret]. Qed.
Lemma con_write_mem f w : conducts (write_mem f) w.
Proof. apply con_silent; [by repeat split|by intros; apply okp_ret]. Qed.
Lemma con_update_mem {A} (f : Cache → Cache * A) w : conducts (update_mem f) w.
Proof. apply con_silent; [|done]. intros w'. by destruct (f _); repeat split. Qed.
Lemma con_db_do {A} (f : DateTime → Db → Db * result A Error) w : conducts (db_do f) w.
Proof.
  apply con_silent; [|done]. intros w'. destruct (f _ _). by destruct (pg_fault _) as [|[]]; repeat split.
Qed.
Lemma con_db_do_or_panic {A} (f : DateTime → Db → option (Db * result A Error)) w :
  conducts (db_do_or_panic f) w.
Proof.
  apply con_silent; [|by intros []]. intros w'. destruct (f _ _) as [[]|];
    by destruct (pg_fault _) as [|[]]; repeat split.
Qed.
Lemma con_send t l w : published (t, l) → conducts (send_binary t l) w.
Proof.
  intros Hp. apply (okp_act I G); [|done]. intros w' Hi. cbn.
  destruct (zmq_fault _); [|by apply tol_send].
  by apply tol_silent; [repeat split|].
Qed.
(** The bytes are the messages'. *)
Lemma con_bytes {A} l (h : result (list Message) string → IO A) w :
  (∀ w', conducts (h (Ok l)) w') → (∀ e w', conducts (h (Err e)) w') →
  conducts (bind (to_bytes l) h) w.
Proof.
  intros Hok Herr w' _ Hc. cbn.
  destruct (tol_silent w' (bump w')) as [Hi Hg]; [by repeat split|done|].
  split_and!; [done|done|]. destruct (rkyv_fault _); [apply Herr|apply Hok].
Qed.
End base.

Lemma published_single i c m :
  m = conn_create_message c i ∨ m = conn_update_message c i ∨ m = conn_delete_message c i →
  published (conn_topic c, [m]).
Proof. intros Hm. right. by exists i, c, m. Qed.
Lemma published_created i c t :
  create_topic c = Some t → published (t, [as_create_message c i]).
Proof.
  unfold create_topic. intros Ht. right. exists i, c, (conn_create_message c i).
  split; [|by left]. unfold conn_topic. f_equal. destruct (is_some _); [by injection Ht|].
  destruct (Proto.is_mtproto _); [done|]. by injection Ht.
Qed.
Lemma published_creates (l : list (Uuid * Conn)) t :
  published (t, (λ '(i, c), as_create_message c i) <$> l).
Proof. left. by exists l. Qed.

(** Walk through a program, as [safe] does. *)
Create HintDb conduct.
#[export] Hint Resolve con_ask con_reads con_write_mem con_update_mem con_db_do
  con_db_do_or_panic : conduct.
#[export] Hint Extern 1 (okp _ _ (read_mem _) _) => apply con_reads : conduct.
#[export] Hint Extern 1 (okp _ _ (db_get _) _) => apply con_db_do : conduct.
#[export] Hint Extern 1 (okp _ _ now _) => apply con_ask : conduct.
#[export] Hint Extern 1 (okp _ _ new_v4 _) => apply con_ask : conduct.
#[export] Hint Extern 1 (okp _ _ (generate_random_password _) _) => apply con_ask : conduct.
#[export] Hint Extern 1 (okp _ _ (save_trial_hmac _ _ _ _ _) _) => apply tol_trial : conduct.

Ltac walk_step :=
  match goal with
  | |- okp ?I ?G (atomic _) _ => apply (okp_run_atomic I G); intros ?
  | |- okp ?I ?G (bind (to_bytes _) _) _ => apply (con_bytes I G); [intros ?|intros ? ?]
  | |- okp ?I ?G (bind _ _) _ => apply (okp_bind I G); [|intros ? ?]
  | |- okp ?I ?G (for_each _ _) _ => apply (okp_for_each I G); intros
  | |- okp ?I ?G (for_until _ _) _ => apply (okp_for_until I G); intros
  | |- okp _ _ (match ?x with _ => _ end) _ => destruct x
  | |- okp _ _ (Ret _) _ => by apply okp_ret
  | |- okp _ _ Panic _ => exact Logic.I
  | |- okp _ _ _ _ => solve [eauto 3 with conduct typeclass_instances]
  end.
Ltac walk := cbv beta zeta; repeat (walk_step; cbv beta iota zeta).

Section conduct.
Context `{!Oracle, !Postgres, !Ipv6Text, !UuidText, !IterOrder, !Chrono, !WgCrypto, !UrlLib,
  !Base32, !Hmac, !SeriesHash, !Rfc3339}.
Context (I : World → Prop) (G : World → World → Prop) `{!Tolerates I G}.
Notation conducts p w := (okp I G p w).

(** ** Operations *)
Lemma con_add_days_or_panic t d w : conducts (add_days_or_panic t d) w.
Proof. unfold add_days_or_panic. walk. Qed.
Lemma con_mark_conn id b w : conducts (mark_conn id b) w.
Proof. unfold mark_conn. walk. Qed.
Hint Resolve con_add_days_or_panic con_mark_conn : conduct.

Lemma con_delete_connection id c w : conducts (delete_connection id c) w.
Proof.
  unfold delete_connection. walk. apply (con_send I G), (published_single id). auto.
Qed.
Lemma con_restore_task cc w : conducts (restore_task cc) w.
Proof.
  unfold restore_task, restore_connection. walk. apply (con_send I G), (published_single u). auto.
Qed.
Lemma con_restore_by_subscription id w :
  conducts (restore_connections_by_subscription id) w.
Proof.
  unfold restore_connections_by_subscription. walk.
  eapply (rg_post I G); [|eapply (rg_join_all turn I G)].
  - by intros ? ? _ _ ? _ _.
  - intros ? Hi. by apply tol_silent; [repeat split|].
  - intros x _. apply con_restore_task.
Qed.
Hint Resolve con_delete_connection con_restore_by_subscription : conduct.
Lemma con_add_conn id c w : conducts (add_conn id c) w.
Proof. unfold add_conn. walk. Qed.
Lemma con_add_sub s w : conducts (add_sub s) w.
Proof. unfold add_sub. walk. Qed.
Lemma con_add_node id n w : conducts (add_node id n) w.
Proof. unfold add_node. walk. Qed.
Lemma con_update_node_status u e st w : conducts (update_node_status u e st) w.
Proof. unfold update_node_status. walk. Qed.
Lemma con_update_sub id req w : conducts (update_sub id req) w.
Proof. unfold update_sub, update_entry. walk. Qed.
Lemma con_add_days id d w : conducts (add_days id d) w.
Proof. unfold add_days, extend_entry. walk. Qed.
Lemma con_find_referrer c w : conducts (find_referrer c) w.
Proof. unfold find_referrer. walk. Qed.
Lemma con_get_state w : conducts get_state_from_db w.
Proof.
  unfold get_state_from_db. walk. 
  assert (∀ w, I w → I (turn w).1 ∧ G w (turn w).1) as Ht
    by (intros ? Hi; by apply tol_silent; [repeat split|]).
  apply (okp_try_join2 turn I G); [done|walk|].
  apply (okp_try_join2 turn I G); [done|walk|walk].
Qed.
Hint Resolve con_add_conn con_add_sub con_add_node con_update_node_status con_update_sub con_add_days
  con_find_referrer con_get_state : conduct.

(** ** Handlers and tasks *)
Lemma con_new_proto t n w : conducts (new_proto t n) w.
Proof. unfold new_proto. walk. Qed.
Lemma con_key_get c w : conducts (key_get c) w.
Proof. unfold key_get. walk. Qed.
Hint Resolve con_new_proto con_key_get : conduct.

Lemma con_announce id c w :
  conducts (match create_topic c with
    | Some topic => send_binary topic [as_create_message c id];; Ret tt | None => Ret tt end) w.
Proof.
  destruct (create_topic c) as [t|] eqn:Ht; [|by apply okp_ret]. walk.
  by apply (con_send I G), published_created.
Qed.
End conduct.

#[export] Hint Resolve con_add_days_or_panic con_mark_conn con_delete_connection con_restore_task
  con_restore_by_subscription con_add_conn con_add_sub con_add_node con_update_node_status
  con_update_sub con_add_days con_find_referrer con_get_state con_new_proto con_key_get : conduct.

Ltac announce_step :=
  match goal with |- okp ?I ?G _ _ => apply (con_announce I G) end.
Ltac announce := cbv beta zeta; repeat ((announce_step || walk_step); cbv beta iota zeta).
