(* ===== verification/ApiTrial.v ===== *)
(** * The trial handler

    [bin/api/http/handlers/trial.rs], on the record of trials of [Trials]. *)
From S2P Require Import Prelude Task Foreign Naming Wireguard Connection ConnStore Subscription.
From S2P Require Import Key Inbound Node Link Db World Trials Sync Consistency SyncSafe Reload.
From S2P Require Import SyncSpec Metrics Background Http ApiConn ApiSub ApiKey Conduct.
Local Open Scope Z_scope.
Local Open Scope prog_scope.

Section trial.
Context `{!Oracle, !Postgres, !Ipv6Text, !UuidText, !IterOrder, !Chrono, !WgCrypto, !UrlLib,
  !Base32, !Hmac, !Rfc3339}.

Definition trial_taken (secret : list Z) (who : option string) : IO bool :=
  match who with Some who => check_email_hmac secret who | None => Ret false end.

(** one connection of a trial: [Some] ends the handler *)
Definition trial_connection (sub_id : Uuid) (network : IpAddrMask) (env : Env) (p : ProtoTag) :
    IO (option Reply) :=
  proto <- new_proto p network;;
  match proto with
  | Err e => Ret (Some (internal_error e))
  | Ok proto =>
    t <- now;;
    let conn := Conn.new t env (Some sub_id) proto None in
    conn_id <- new_v4;;
    let messages := [as_create_message conn conn_id] in
    r <- add_conn conn_id conn;;
    match r with
    | Ok (Status.Ok _) =>
      b <- to_bytes messages;;
      match b with
      | Err e => Ret (Some (internal_error ("Serialization error: " +:+ e)))
      | Ok bytes =>
        match create_topic conn with
        | Some topic => send_binary topic bytes;; Ret tt
        | None => Ret tt
        end;;
        Ret None
      end
    | _ => Ret None
    end
  end.

(** [post_trial_handler] -- bin/api/http/handlers/trial.rs:15-201 *)
Definition post_trial_handler (req : Trial) (email_secret : list Z) (network : IpAddrMask)
    (system_refer_codes : list string) (envs : list Env) (protos : list ProtoTag)
    (trial_days bonus limit_bytes : Z) : Handler :=
  match trial_validate req with
  | Err e => Ret (Err (Rejected e))
  | Ok _ =>
    taken <- trial_taken email_secret (tr_user req);;
    if taken : bool then reply (bad_request "Trial already requested") else
    taken <- trial_taken email_secret (tr_email req);;
    if taken : bool then reply (bad_request "Trial already requested") else
    let ref_by := default "WEB" (tr_referred_by req) in
    sub_id <- new_v4;;
    referrer <- match tr_referred_by req with
      | Some ref_by =>
        let is_user_referral := negb (any (λ c, bool_decide (c = ref_by)) system_refer_codes) in
        found <- find_referrer ref_by;;
        Ret match found with
            | Some id => Ok (Some id, if is_user_referral then bonus else 0)
            | None => Err (bad_request "Refer code not found")
            end
      | None => Ret (Ok (None, 0))
      end;;
    match referrer with
    | Err r => reply r
    | Ok (sub_id_to_update, bonus_days) =>
      updated <- match sub_id_to_update with
                 | Some id => add_days id bonus_days
                 | None => Ret (Ok (Status.Ok NIL))
                 end;;
      match updated with
      | Err e => reply (internal_error ("Couldn't add bonus days: " +:+ SyncError.fmt e))
      | Ok _ =>
        t <- now;;
        expires_at <- add_days_or_panic t trial_days;;
        t' <- now;;
        let sub := Subscription.new t' sub_id (tr_referred_by req)
                     (get_uuid_last_octet_simple sub_id) (Some expires_at) (Some limit_bytes) in
        r <- add_sub sub;;
        match r with
        | Ok (Status.Ok new_sub_id) =>
          stopped <- for_until envs (λ env,
            for_until protos (trial_connection new_sub_id network env));;
          match stopped with
          | Some r => reply r
          | None =>
            match tr_user req with
            | Some user => save_trial_hmac email_secret user (Subscription.id sub) t ref_by;; Ret tt
            | None => Ret tt
            end;;
            match tr_email req with
            | Some email => save_trial_hmac email_secret email (Subscription.id sub) t ref_by;; Ret tt
            | None => Ret tt
            end;;
            reply (success_response "Trial activated. Check email" (Some (Subscription.id sub))
              Instances.None)
          end
        | _ => reply (internal_error "Failed to add sub")
        end
      end
    end
  end.

(** Reaching the rest of a program only through some answer. *)
Lemma run_bind_any {A B} (P : World * option B → Prop) (p : IO A) (h : A → IO B) w :
  (∀ w', P (w', None)) → (∀ a w', run p w = (w', Some a) → P (run (h a) w')) →
  P (run (bind p h) w).
Proof. intros Hn Hh. rewrite run_bind. destruct (run p w) as [w' [a|]]; auto. Qed.

(** What a loop leaves its function with. *)
Lemma run_for_until {A R} (P : R → Prop) (l : list A) (body : A → IO (option R)) :
  (∀ x w w' r, run (body x) w = (w', Some (Some r)) → P r) →
  ∀ w w' r, run (for_until l body) w = (w', Some (Some r)) → P r.
Proof.
  intros Hb. induction l as [|x l IH]; intros w w' r; [done|]. cbn. rewrite run_bind.
  destruct (run (body x) w) as [w1 [[r1|]|]] eqn:Hr; [|by apply IH|done].
  intros [= <- <-]. by eapply Hb.
Qed.

Definition answers_200 (r : option (result Reply Rejection)) : bool :=
  match r with Some (Ok (Json st _ _)) => bool_decide (st = 200) | _ => false end.

Definition asks_for (req : Trial) (who : string) : Prop :=
  tr_user req = Some who ∨ tr_email req = Some who.

(** One address put on record. *)
Lemma run_save secret who id t ref_by w :
  let '(w', _) := run (save_trial_hmac secret who id t ref_by) w in
  (∀ k, is_Some (emails w !! k) → is_Some (emails w' !! k)) ∧
  is_Some (emails w' !! hmac_email secret who) ∧
  ((∀ n, file_fault n = None) → complete (ledger w) →
    complete (ledger w') ∧ (∀ k, on_file k w → on_file k w') ∧
    (0 <= t < 253402300800 * NANOS → on_file (hmac_email secret who) w')).
Proof.
  unfold save_trial_hmac. cbn [bind modifies run].
  set (w1 := set_emails _ w).
  assert (∀ w', emails w' = emails w1 → (∀ k, is_Some (emails w !! k) → is_Some (emails w' !! k)) ∧
    is_Some (emails w' !! hmac_email secret who)) as Hm.
  { intros w' ->. cbn. rewrite lookup_insert_eq. split; [|by eexists].
    intros k Hk. apply lookup_insert_is_Some'. by right. }
  pose proof (run_append_trial secret who id t ref_by w1) as Ha.
  pose proof (run_append_emails (trial_line secret who id t ref_by) w1) as He.
  destruct (run (append_line _) w1) as [w2 r]. destruct (Hm w2 He) as [Hg Hk].
  split_and!; [done|done|]. intros Hf Hc. destruct (Ha Hf Hc) as (Hc' & Hkept & _ & Ho).
  split_and!; [done| |done]. intros k. apply Hkept.
Qed.

(** The end of a trial: the addresses are on record. *)
Lemma run_save_trial secret (req : Trial) t sub ref_by w :
  trial_validate req = Ok tt →
  let '(w', r) := run (match tr_user req with
      | Some user => save_trial_hmac secret user (Subscription.id sub) t ref_by;; Ret tt
      | None => Ret tt end;;
    match tr_email req with
      | Some email => save_trial_hmac secret email (Subscription.id sub) t ref_by;; Ret tt
      | None => Ret tt end;;
    (Ret (Ok (success_response "Trial activated. Check email" (Some (Subscription.id sub))
      Instances.None)) : IO (result Reply Rejection))) w in
  ∀ who, asks_for req who → is_Some (emails w' !! hmac_email secret who) ∧
    ((∀ n, file_fault n = None) → complete (ledger w) → 0 <= t < 253402300800 * NANOS →
     complete (ledger w') ∧ on_file (hmac_email secret who) w').
Proof.
  unfold asks_for, trial_validate. intros Hv.
  assert (∀ who, tr_user req = Some who ∨ tr_email req = Some who →
    (tr_user req = Some who ∧ tr_email req = None) ∨
    (tr_user req = None ∧ tr_email req = Some who)) as Hone
    by (destruct (tr_user req), (tr_email req); naive_solver).
  destruct (run _ w) as [w' r] eqn:Hr. intros who [[Hu He]|[Hu He]]%Hone; rewrite Hu, He in Hr;
    pose proof (run_save secret who (Subscription.id sub) t ref_by w) as Hs;
    repeat (rewrite run_bind in Hr; cbn [run] in Hr);
    destruct (run (save_trial_hmac _ _ _ _ _) w) as [w1 [r1|]]; injection Hr as <- <-; naive_solver.
Qed.

Lemma run_trial_taken secret who w :
  run (trial_taken secret who) w = (w, Some (match who with
    | Some who => bool_decide (is_Some (emails w !! hmac_email secret who)) | None => false end)).
Proof. by destruct who. Qed.

Lemma run_trial_connection sub_id network env p w w' r :
  run (trial_connection sub_id network env p) w = (w', Some (Some r)) → ∃ e, r = internal_error e.
Proof.
  unfold trial_connection.
  set (P := λ x : World * option (option Reply),
    x = (w', Some (Some r)) → ∃ e, r = internal_error e).
  apply (run_bind_any P); [by intros ? [= ]|]. intros [pr|e] w1 _; [|intros [= _ <-]; eauto].
  do 2 (apply (run_bind_any P); [by intros ? [= ]|]; intros ? ? _). cbv zeta.
  apply (run_bind_any P); [by intros ? [= ]|]. intros [[]|e] w4 _; try by intros [= ].
  apply (run_bind_any P); [by intros ? [= ]|]. intros [b|e] w5 _; [|intros [= _ <-]; eauto].
  apply (run_bind_any P); [by intros ? [= ]|]. intros ? ? _ [= ].
Qed.

(** ** The conduct of the handler *)

Lemma con_trial_taken I G `{!Tolerates I G} secret who w : okp I G (trial_taken secret who) w.
Proof. unfold trial_taken, check_email_hmac. walk. Qed.
Lemma con_trial_connection I G `{!Tolerates I G} s n e p w :
  okp I G (trial_connection s n e p) w.
Proof. unfold trial_connection. announce. Qed.
#[local] Hint Resolve con_trial_taken con_trial_connection : conduct.
Lemma con_post_trial I G `{!Tolerates I G} req secret n codes envs protos days bonus limit w :
  okp I G (post_trial_handler req secret n codes envs protos days bonus limit) w.
Proof. unfold post_trial_handler. walk. Qed.

(** The file stays a sequence of whole lines and no digest is forgotten, if it
    was one and no file operation fails. *)
Definition fair (w0 : World) : Prop := complete (ledger w0) ∧ ∀ n, file_fault n = None.
Definition whole (w0 w : World) : Prop := fair w0 → complete (ledger w).
Definition kept (w0 w w' : World) : Prop := fair w0 → trials_kept w w'.
#[export] Instance kept_preorder w0 : PreOrder (kept w0).
Proof.
  split; [by intros w _|]. intros w1 w2 w3 H12 H23 Hf.
  etransitivity; [by apply H12|by apply H23].
Qed.
#[export] Instance whole_tolerates w0 : Tolerates (whole w0) (kept w0).
Proof.
  split; [apply _| | |].
  - intros w w' (_ & He & Hf) Hw. unfold whole, kept, trials_kept, on_file, ledger.
    by rewrite He, Hf.
  - by intros p w _ Hw.
  - intros secret who id t rf w.
    apply (okp_act (whole w0) (kept w0)).
    { intros w1 Hw. split; [done|]. intros _ k. split; [|done]. cbn. intros Hk.
      apply lookup_insert_is_Some'. by right. }
    intros [] w1. apply (okp_bind (whole w0) (kept w0)); [by apply okp_act|].
    intros [e|] w2; [by apply okp_ret|]. apply (okp_act (whole w0) (kept w0)); [|done].
    intros w3 Hw. destruct (file_fault (tick w3)) eqn:Hf;
      [by split; intros [_ Hn]; rewrite Hn in Hf|].
    split; [intros _; apply trial_line_complete|]. intros Hfair k. split; [done|].
    unfold on_file, ledger. cbn -[recorded]. fold (ledger w3).
    rewrite recorded_app by by apply Hw. apply load_lines_grow.
Qed.

(** Reaching the rest of a program only through some answer, the file whole. *)
Lemma run_bind_whole {A B} (P : World * option B → Prop) (p : IO A) (h : A → IO B) w0 w :
  whole w0 w → okp (whole w0) (kept w0) p w → (∀ w', P (w', None)) →
  (∀ a w', whole w0 w' → run p w = (w', Some a) → P (run (h a) w')) → P (run (bind p h) w).
Proof.
  intros Hw Hp Hn Hh. rewrite run_bind. pose proof (rg_run _ _ p _ w Hp Hw) as (Hw' & _ & _).
  destruct (run p w) as [w' [a|]]; auto.
Qed.

Ltac next P w := apply (run_bind_whole P _ _ w); [done|by walk|by intros ? []|].

Lemma run_trial_saves req secret network codes envs protos days bonus limit w :
  let '(w', r) := run (post_trial_handler req secret network codes envs protos days bonus limit) w in
  answers_200 r → ∀ who, asks_for req who → is_Some (emails w' !! hmac_email secret who) ∧
    (complete (ledger w) → (∀ n, file_fault n = None) → (∀ n, 0 <= clock n < 253402300800 * NANOS) →
     complete (ledger w') ∧ on_file (hmac_email secret who) w').
Proof.
  assert (whole w w) as Hw by by intros []. match goal with |- let '(w', r) := _ in @?Q w' r =>
    set (P := λ p : World * option (result Reply Rejection), let '(w', r) := p in Q w' r) end.
  unfold post_trial_handler. destruct (trial_validate req) as [[]|] eqn:Hv; [|by intros []].
  do 2 (next P w; intros [] ? ? _; [by intros []|]).
  next P w. intros sub_id w1 ? _. next P w. intros [[up b]|rf] w2 ? Href.
  2:{ destruct (tr_referred_by req) as [c|]; [|done]. cbn in Href.
    destruct (Subscriptions.find_by_refer_code _ _); [done|]. injection Href as _ <-. by intros []. }
  next P w. intros [st|e] w3 ? _; [|by intros []].
  next P w. intros t w4 ? Ht. injection Ht as _ Ht.
  do 2 (next P w; intros ? ? ? _). cbv zeta.
  next P w. intros [[]|e] w7 ? _; try by intros []. next P w. intros [rf|] w8 Hw8 Hst.
  { apply (run_for_until (λ r, ∃ e, r = internal_error e)) in Hst as [e ->]; [by intros []|].
    intros env wa wb r Hr. eapply (run_for_until (λ r, ∃ e, r = internal_error e)); [|exact Hr].
    intros p wc wd r'. apply run_trial_connection. }
  match goal with |- P (run (match _ with Some user => save_trial_hmac _ user (Subscription.id ?sub) _ _;; _
      | None => _ end;; _) _) =>
    pose proof (run_save_trial secret req t sub (default "WEB" (tr_referred_by req)) w8 Hv) as Hs end.
  unfold P. destruct (run _ w8) as [w9 r9]. intros _ who Hwho. destruct (Hs who Hwho) as [He Hf].
  split; [done|]. intros Hc Hn Hck. apply Hf; [done|by apply Hw8; split|by subst t].
Qed.

(** An address on record is refused. *)
Lemma run_trial_refused req secret network codes envs protos days bonus limit who w :
  asks_for req who → is_Some (emails w !! hmac_email secret who) →
  let '(w', r) := run (post_trial_handler req secret network codes envs protos days bonus limit) w in
  w' = w ∧ (r = Some (Ok (bad_request "Trial already requested")) ∨
    ∃ e, trial_validate req = Err e ∧ r = Some (Err (Rejected e))).
Proof.
  intros Hw Hin.
  assert (bool_decide (is_Some (emails w !! hmac_email secret who)) = true) as Hrec
    by by apply bool_decide_eq_true.
  unfold post_trial_handler. destruct (trial_validate req) as [[]|e]; cbn; [|eauto].
  rewrite run_bind, run_trial_taken. destruct Hw as [-> | He].
  - rewrite Hrec. cbn. auto.
  - destruct (match tr_user req with Some _ => _ | None => _ end); cbn; [auto|].
    rewrite run_bind, run_trial_taken, He, Hrec. cbn. auto.
Qed.

(** One trial per address.  After a trial was granted, any later request
    that names one of its addresses, as user or as e-mail, is refused and
    changes nothing, as long as the process keeps its record. *)
Theorem trial_once (req : Trial) (secret : list Z) (network : IpAddrMask) (codes : list string)
    (envs : list Env) (protos : list ProtoTag) (days bonus limit : Z) (w : World) :
  let trial req w := run (post_trial_handler req secret network codes envs protos days bonus limit) w in
  let '(w1, r1) := trial req w in
  if answers_200 r1 then
    ∀ w2 req' who,
      emails w1 ⊆ emails w2 → asks_for req who → asks_for req' who →
      let '(w3, r3) := trial req' w2 in
      w3 = w2 ∧ (r3 = Some (Ok (bad_request "Trial already requested")) ∨
        ∃ e, trial_validate req' = Err e ∧ r3 = Some (Err (Rejected e)))
  else True.
Proof.
  cbv beta zeta. pose proof (run_trial_saves req secret network codes envs protos days bonus limit w) as Hs.
  destruct (run _ w) as [w1 r1]. destruct (answers_200 r1); [|done].
  intros w2 req' who Hsub Hw Hw'. apply run_trial_refused with who; [done|].
  destruct (proj1 (Hs I who Hw)) as [t Ht]. exists t. by eapply lookup_weaken.
Qed.
End trial.

Section safe_trial.
Context `{!Oracle, !Postgres, !Ipv6Text, !UuidText, !IterOrder, !Chrono, !WgCrypto, !UrlLib,
  !Base32, !Hmac, !Rfc3339}.

(** ** The handler keeps the cache backed *)

#[local] Hint Resolve safe_add_days safe_add_sub safe_find_referrer : safe.

Lemma safe_trial_taken secret who w : okp backed keeps (trial_taken secret who) w.
Proof. destruct who; [|by apply okp_ret]. by apply safe_outside. Qed.
Lemma safe_save_trial secret who id t ref_by w :
  okp backed keeps (save_trial_hmac secret who id t ref_by) w.
Proof.
  unfold save_trial_hmac, append_line. apply (okp_bind backed keeps); [by apply safe_outside|].
  intros ? ?. apply (okp_bind backed keeps); [apply safe_ask|]. intros [e|] w1; [by apply okp_ret|].
  apply (okp_act backed keeps); [|intros; by apply okp_ret]. intros w2 HI.
  by destruct (file_fault (tick w2)).
Qed.
#[local] Hint Resolve safe_trial_taken safe_save_trial : safe.

Lemma safe_trial_connection sub_id network env p w :
  mask_ok network → okp backed keeps (trial_connection sub_id network env p) w.
Proof.
  intros Hn. unfold trial_connection. eapply (rg_bind backed keeps); [by apply safe_new_proto|].
  intros [pr|e] w1 _ HI Hq; [|done].
  pose proof (Hq w1 ltac:(reflexivity) HI pr eq_refl) as Hwf.
  apply (okp_bind backed keeps); [apply safe_ask|]. intros t w2. cbv zeta.
  apply (okp_bind backed keeps); [apply safe_ask|]. intros id w3.
  apply (okp_bind backed keeps); [by apply safe_add_conn|]. intros [st|er] w4; [|done].
  destruct st; try done. safe.
Qed.

Lemma safe_post_trial req secret network codes envs protos days bonus limit w :
  mask_ok network →
  okp backed keeps (post_trial_handler req secret network codes envs protos days bonus limit) w.
Proof.
  intros Hn. unfold post_trial_handler. safe.
  apply (okp_for_until backed keeps). intros env w1. apply (okp_for_until backed keeps). intros p w2.
  by apply safe_trial_connection.
Qed.
End safe_trial.
