(* ===== verification/Mail.v ===== *)
(** * The mail of a trial

    [EmailStore::send_email_background] ([bin/api/email.rs]): the task that the
    trial handler spawns for an address it was given.  The addresses are
    parsed, the message built and sent by lettre, which is an argument here. *)
From S2P Require Import Prelude Task Foreign Naming Wireguard Connection ConnStore Subscription.
From S2P Require Import Key Inbound Node Link Metrics Db World Trials Sync Consistency SyncSafe.
From S2P Require Import Reload SyncSpec Background Http ApiConn ApiSub ApiKey Conduct ApiTrial.
Local Open Scope Z_scope.
Local Open Scope prog_scope.

(** [SmtpConfig] -- bin/api/config.rs:89-103

    What the mail is made of. *)
Record SmtpConfig : Set := {
  smtp_from : string;
  smtp_title : string;
  smtp_company_name : string;
  smtp_support : string;
  smtp_company_website : string;
}.

(** lettre: the text of a mailbox, which has an at sign in it; whether a message
    can be built; and what becomes of an attempt to send it.  One that fails may
    have been delivered. *)
Class Lettre := {
  Mailbox : Set;
  parse_mailbox : string → option Mailbox;
  builds : Mailbox → Mailbox → string → string → bool;
  smtp_fault : nat → option bool;
  parse_mailbox_at : ∀ s m, parse_mailbox s = Some m → is_Some (Str.split_once "@" s);
}.

(** A mail that was delivered. *)
Record Mail `{!Lettre} : Set := { mail_from : Mailbox; mail_to : Mailbox; mail_page : string }.
Record MailWorld `{!Lettre} : Set := { delivered : list Mail; mail_tick : nat }.

Section mail.
Context `{!Lettre, !UuidText}.
Implicit Type w : MailWorld.

(** The page's text, its quotes written as single ones, which it has none of. *)
Definition html (s : string) : string :=
  Str.map (λ c, if decide (c = "'"%char) then ascii_of_nat 34 else c) s.

(** [EmailStore::send_email_background] -- bin/api/email.rs:139-221

    [html_body] *)
Definition html_body (smtp : SmtpConfig) (sub_id : Uuid) : string :=
  let web_host := smtp_company_website smtp in
  let title := smtp_title smtp in
  let company_name := smtp_company_name smtp in
  let support := smtp_support smtp in
  let sub_id := uuid_str sub_id in
  let link := web_host +:+ "/subscription?id=" +:+ sub_id in
  html "
            <!DOCTYPE html>
            <html>
            <head>
              <meta charset='UTF-8'>
              <title>" +:+
  title +:+
  html "</title>
            </head>
            <body style='margin:0;padding:0;background:#0b0d12;font-family:Arial,sans-serif;'>

              <table width='100%' cellpadding='0' cellspacing='0' style='background:#0b0d12;padding:40px 0;'>
                <tr>
                  <td align='center'>

                    <table width='600' cellpadding='0' cellspacing='0' style='background:#121621;border-radius:16px;padding:32px;color:#e6e8ef;'>

                      <tr>
                        <td style='text-align:center;'>
                          <h1 style='margin:0;color:#5b7cfa;'>" +:+
  title +:+
  html "</h1>
                          <p style='color:#9aa1b2;margin-top:8px;'>
                            Твоя подписка для тест-драйва успешно создана
                          </p>
                        </td>
                      </tr>

                      <tr>
                        <td style='padding:20px 0;text-align:center;'>
                          <div style='font-size:12px;color:#9aa1b2;'>Subscription ID</div>
                          <div style='font-family:monospace;font-size:14px;word-break:break-all;'>
                            " +:+
  sub_id +:+
  html "
                          </div>
                        </td>
                      </tr>

                      <tr>
                        <td align='center' style='padding:20px 0;'>

                          <a href='" +:+
  link +:+
  html "'
                             style='
                              display:inline-block;
                              padding:14px 24px;
                              background:linear-gradient(90deg,#5b7cfa,#22d3ee);
                              color:#fff;
                              text-decoration:none;
                              border-radius:12px;
                              font-weight:bold;
                             '>
                            Открыть подписку
                          </a>

                        </td>
                      </tr>

                      <tr>
                        <td style='text-align:center;color:#9aa1b2;font-size:12px;padding-top:16px;'>
                          Если кнопка не работает — скопируй ссылку:<br>
                          <span style='color:#5b7cfa;'>
                            " +:+
  link +:+
  html "
                          </span>
                        </td>
                      </tr>

                      <tr>
                        <td style='text-align:center;padding-top:24px;font-size:11px;color:#6b7280;'>
                          " +:+
  company_name +:+
  html " • <a href='" +:+
  support +:+
  html "'>Поддержка</a>
                        </td>
                      </tr>

                    </table>

                  </td>
                </tr>
              </table>

            </body>
            </html>
            ".

(** one attempt, [mailer.send(msg)] *)
Definition mail_attempt (m : Mail) : Prog MailWorld bool :=
  Act (λ w, let w' d := {| delivered := delivered w ++ d; mail_tick := S (mail_tick w) |} in
    match smtp_fault (mail_tick w) with
    | None => (w' [m], true)
    | Some delivered => (w' (if delivered : bool then [m] else []), false)
    end) Ret.
(** [EmailStore::send_email_background] -- bin/api/email.rs:237-245

    [for i in 0..3] *)
Fixpoint mail_attempts (n : nat) (m : Mail) : Prog MailWorld unit :=
  match n with
  | O => Ret tt
  | S n =>
    sent <- mail_attempt m;;
    if sent : bool then Ret tt else mail_attempts n m
  end.

(** [EmailStore::send_email_background] -- bin/api/email.rs:223-247

    The task it spawns. *)
Definition send_email_background (smtp : SmtpConfig) (to : string) (sub_id : Uuid) :
    Prog MailWorld unit :=
  let page := html_body smtp sub_id in
  match parse_mailbox (smtp_from smtp) with
  | None => Panic
  | Some from =>
    match parse_mailbox to with
    | None => Panic
    | Some to =>
      if builds from to (smtp_title smtp) page then
        mail_attempts 3 {| mail_from := from; mail_to := to; mail_page := page |}
      else Ret tt
    end
  end.

(** [post_trial_handler] -- bin/api/http/handlers/trial.rs:191-200

    What it spawns, by its answer. *)
Definition mail_of (req : Trial) (r : option (result Reply Rejection)) : option (string * Uuid) :=
  match r, tr_email req with
  | Some (Ok (Json 200 _ (Some (id, _)))), Some email => Some (email, id)
  | _, _ => None
  end.

(** The page has the subscription's link, to open and to copy. *)
Lemma html_body_link smtp sub_id :
  let link := smtp_company_website smtp +:+ "/subscription?id=" +:+ uuid_str sub_id in
  ∃ before between after,
    html_body smtp sub_id = before +:+ link +:+ between +:+ link +:+ after.
Proof.
  intros link. unfold html_body. cbv zeta. fold link.
  repeat match goal with |- context [html ?s] => generalize (html s); intros ? end.
  match goal with |- ∃ _ _ _, ?h1 +:+ ?t +:+ ?h2 +:+ ?t +:+ ?h3 +:+ ?i +:+ ?h4 +:+ link +:+ ?h5 +:+ _ = _ =>
    exists (h1 +:+ t +:+ h2 +:+ t +:+ h3 +:+ i +:+ h4), h5
  end.
  eexists. rewrite !StrFacts.app_assoc. reflexivity.
Qed.

Lemma mail_attempts_run n m w :
  let '(w', r) := run (mail_attempts n m) w in
  r = Some tt ∧ ∃ k, delivered w' = delivered w ++ replicate k m ∧ (k ≤ n)%nat ∧
    ((∃ i, (i < n)%nat ∧ smtp_fault (mail_tick w + i) = None) → (1 ≤ k)%nat).
Proof.
  revert w. induction n as [|n IH]; intros w.
  { split; [done|]. exists 0%nat. rewrite app_nil_r. split_and!; [done|lia|]. intros (i & Hi & _). lia. }
  cbn [mail_attempts]. rewrite run_bind. cbn.
  destruct (smtp_fault (mail_tick w)) as [d|] eqn:Hf.
  - cbn. set (w1 := {| delivered := _; mail_tick := _ |}). specialize (IH w1).
    destruct (run (mail_attempts n m) w1) as [w' r]. destruct IH as (-> & k & Hd & Hk & Hok).
    split; [done|]. exists ((if d then 1 else 0) + k)%nat. split_and!.
    + rewrite Hd. subst w1. cbn. rewrite replicate_add, (assoc app). by destruct d.
    + destruct d; lia.
    + intros (i & Hi & Hn). destruct i as [|i]; [rewrite Nat.add_0_r in Hn; congruence|].
      assert (1 ≤ k)%nat; [|lia]. apply Hok. exists i. split; [lia|]. subst w1. cbn.
      by rewrite Nat.add_succ_r in Hn.
  - cbn. split; [done|]. exists 1%nat. split_and!; [done|lia|lia].
Qed.

(** The mail of a trial.  When both addresses are mailboxes the task ends,
    having delivered nothing but copies of the one mail, at most three, and at
    least one if the message can be built and one of its attempts succeeds; the
    link in it is the subscription's.  When one of the addresses is no mailbox
    the task panics, with nothing sent. *)
Theorem mail_spec (smtp : SmtpConfig) (to : string) (sub_id : Uuid) w :
  let '(w', r) := run (send_email_background smtp to sub_id) w in
  match parse_mailbox (smtp_from smtp), parse_mailbox to with
  | Some from, Some rcpt =>
    let m := {| mail_from := from; mail_to := rcpt; mail_page := html_body smtp sub_id |} in
    r = Some tt ∧ ∃ k, delivered w' = delivered w ++ replicate k m ∧ (k ≤ 3)%nat ∧
      (builds from rcpt (smtp_title smtp) (html_body smtp sub_id) = true →
       (∃ i, (i < 3)%nat ∧ smtp_fault (mail_tick w + i) = None) → (1 ≤ k)%nat)
  | _, _ => r = None ∧ w' = w
  end.
Proof.
  unfold send_email_background. destruct (parse_mailbox (smtp_from smtp)) as [from|]; [|done].
  destruct (parse_mailbox to) as [rcpt|]; [|done]. cbv zeta. destruct (builds _ _ _ _).
  - pose proof (mail_attempts_run 3 {| mail_from := from; mail_to := rcpt;
      mail_page := html_body smtp sub_id |} w) as Hm.
    destruct (run _ w) as [w' r]. destruct Hm as (-> & k & Hd & Hk & Hok). split; [done|].
    exists k. auto.
  - cbn. split; [done|]. exists 0%nat. rewrite app_nil_r. split_and!; [done|lia|done].
Qed.
End mail.

Section trial.
Context `{!Oracle, !Postgres, !Ipv6Text, !UuidText, !IterOrder, !Chrono, !WgCrypto, !UrlLib,
  !Base32, !Hmac, !Rfc3339, !Lettre}.

(** A trial asked for with an address that is none.  Nothing checks the
    address before the trial is granted: whenever the handler answers that it
    was, for a text without an at sign, the text is on record as having had its
    trial, and the mail's task panics, which in the release profile aborts the
    server. *)
Theorem trial_bad_address (req : Trial) (secret : list Z) (network : IpAddrMask)
    (codes : list string) (envs : list Env) (protos : list ProtoTag) (days bonus limit : Z)
    (w : World) (smtp : SmtpConfig) (text : string)
    (Hask : tr_email req = Some text) (Hbad : Str.split_once "@" text = None) :
  let '(w1, r1) := run (post_trial_handler req secret network codes envs protos days bonus limit) w in
  ∀ to id, mail_of req r1 = Some (to, id) →
    to = text ∧ is_Some (emails w1 !! hmac_email secret text) ∧
    ∀ mw, run (send_email_background smtp to id) mw = (mw, None).
Proof.
  pose proof (run_trial_saves req secret network codes envs protos days bonus limit w) as Hs.
  destruct (run _ w) as [w1 r1]. intros to id Hm.
  assert (answers_200 r1 ∧ to = text) as [H200 ->].
  { unfold mail_of in Hm. rewrite Hask in Hm.
    destruct r1 as [[[st msg [[i x]|]| | | | | | | |]|]|];
      repeat (try done; match type of Hm with match ?x with _ => _ end = _ => destruct x end);
      by injection Hm as -> ->. }
  split; [done|]. split; [apply Hs; [done|by right]|]. intros mw. unfold send_email_background.
  destruct (parse_mailbox (smtp_from smtp)); [|done].
  destruct (parse_mailbox text) as [rcpt|] eqn:Hp; [|done].
  apply parse_mailbox_at in Hp as [x Hx]. congruence.
Qed.
End trial.

(** ** A run *)
#[local, program] Instance plain_mail : Lettre := {|
  Mailbox := string;
  parse_mailbox s := if is_some (Str.split_once "@" s) then Some s else None;
  builds _ _ _ _ := true;
  smtp_fault n := if decide (n = 0%nat) then Some true else None;
|}.
Next Obligation. intros s ?. cbv beta. destruct (Str.split_once "@" s) eqn:Hs; [by eexists|done]. Qed.

Definition plain_smtp : SmtpConfig := {| smtp_from := "noreply@x"; smtp_title := "t";
  smtp_company_name := "c"; smtp_support := "s"; smtp_company_website := "https://x" |}.
Definition ask_nobody : Trial :=
  {| tr_user := None; tr_email := Some "nobody"; tr_referred_by := None |}.
Definition nobody_asked : World * option (result Reply Rejection) :=
  run (post_trial_handler ask_nobody [2] {| address := V4 167772160; cidr := 8 |} ["WEB"] [Env.Dev]
    [ProtoTag.Vmess] 1 0 0) world_new.

Lemma trial_bad_address_witness :
  tr_email ask_nobody = Some "nobody" ∧ Str.split_once "@" "nobody" = None ∧
  answers_200 nobody_asked.2 = true ∧
  ∃ id, mail_of ask_nobody nobody_asked.2 = Some ("nobody", id) ∧
    run (send_email_background plain_smtp "nobody" id) {| delivered := []; mail_tick := 0 |} =
      ({| delivered := []; mail_tick := 0 |}, None).
Proof.
  split; [reflexivity|]. split; [reflexivity|].
  pose proof (trial_bad_address ask_nobody [2] {| address := V4 167772160; cidr := 8 |} ["WEB"] [Env.Dev]
    [ProtoTag.Vmess] 1 0 0 world_new plain_smtp "nobody" eq_refl eq_refl) as Ht.
  fold nobody_asked in Ht.
  assert (∃ id, mail_of ask_nobody nobody_asked.2 = Some ("nobody", id)) as [id Hid]
    by (vm_compute; eexists; reflexivity).
  assert (answers_200 nobody_asked.2 = true) as H200 by (vm_compute; reflexivity).
  destruct nobody_asked as [w1 r1]. cbn [snd] in *. split; [exact H200|].
  exists id. split; [exact Hid|]. exact (proj2 (proj2 (Ht "nobody" id Hid)) _).
Defined.

(** The first attempt is delivered although it fails, and the second again. *)
Example mail_twice :
  let w' := (run (send_email_background plain_smtp "a@b" 7%N) {| delivered := []; mail_tick := 0 |}).1 in
  length (delivered w') = 2%nat.
Proof. vm_compute. done. Qed.
