(* ===== verification/ApiNode.v ===== *)
(** * The node handlers

    [bin/api/http/handlers/node.rs] and the health check. *)
From S2P Require Import Prelude Task Foreign Naming Wireguard Connection ConnStore Subscription.
From S2P Require Import Key Inbound Node Link Metrics Db World Sync Consistency SyncSafe Reload.
From S2P Require Import SyncSpec Background Http ApiConn.
Local Open Scope Z_scope.
Local Open Scope prog_scope.

Section handlers.
Context `{!Oracle, !Postgres, !Ipv6Text, !UuidText, !IterOrder, !Chrono, !SeriesHash}.

(** [post_node_handler] -- bin/api/http/handlers/node.rs:18-84 *)
Definition post_node_handler (node_req : NodeRequest) : Handler :=
  t <- now;;
  let node := as_node t node_req in
  let node_id := req_uuid node_req in
  status <- add_node node_id node;;
  match status with
  | Ok (Status.Ok id) | Ok (Status.AlreadyExist id) | Ok (Status.NotModified id) =>
    update_node_status node_id (Node.env node) NodeStatus.Online;;
    reply (NodeId 200 "Ok" (Some id))
  | Ok _ => reply (NodeId 400 "Operation not supported" None)
  | Err e =>
    reply (NodeId 500 ("INTERNAL_SERVER_ERROR " +:+ SyncError.fmt e +:+ " for " +:+
      uuid_str node_id) None)
  end.

(** the closure of [filter_map]: what is told of one series of a node *)
Definition series_info {V} (metrics : MetricStorage (V := V))
    (entry : Z * list (MetricPoint (V := V))) : option NodeMetricInfo :=
  let '(series_hash, points) := entry in
  match points with
  | [] => None
  | _ =>
    match metadata metrics !! series_hash with
    | Some (name, tags) =>
      if is_some (Str.strip_prefix "sys." name) || is_some (Str.strip_prefix "net." name)
      then Some {| nm_key := pretty series_hash; nm_name := name; nm_tags := tags |}
      else None
    | None => None
    end
  end.

(** a node's entry in the list *)
Definition node_with_metrics {V} (metrics : MetricStorage (V := V)) (node : Node) :
    Node.NodeResponse * list NodeMetricInfo :=
  (Node.as_node_response node,
   match inner metrics !! Node.uuid node with
   | Some node_metrics_map => omap (series_info metrics) (hiter node_metrics_map)
   | None => []
   end).

(** [get_nodes_handler] -- bin/api/http/handlers/node.rs:87-180 *)
Definition get_nodes_handler {V} (env : option string) (metrics : MetricStorage (V := V)) :
    Handler :=
  ns <- read_mem (λ m, match env with
                       | Some env => NodeStore.get_by_env (nodes m) (Env.from env)
                       | None => NodeStore.all (nodes m)
                       end);;
  reply match ns with
    | Some ns => NodeList 200 "List of nodes with metrics" (node_with_metrics metrics <$> ns)
    | None => NodeList 404 "List of nodes" []
    end.

(** [get_node_handler] -- bin/api/http/handlers/node.rs:184-223 *)
Definition get_node_handler (node_id : Uuid) : Handler :=
  node <- read_mem (λ m, NodeStore.get_by_id (nodes m) node_id);;
  reply match node with
    | Some node => NodeList 200 ("Node " +:+ uuid_str node_id) [(Node.as_node_response node, [])]
    | None => NodeList 404 "Node not found" []
    end.

(** ** Registration *)

Lemma run_add_node node w :
  let '(w', r) := run (add_node (Node.uuid node) node) w in
  match r with
  | Some (Ok st) =>
    st = Status.Ok (Node.uuid node) ∧
    pg_node_upsert (Node.uuid node) node (db w) = (db w', Ok tt) ∧
    memory w' = cache_nodes (λ ns, (NodeStore.add ns node).1) (memory w) ∧ bus w' = bus w
  | Some (Err _) => memory w' = memory w ∧ bus w' = bus w
  | None => False
  end.
Proof.
  unfold add_node, db_do, update_mem. cbn [node_validate]. cbn.
  destruct (pg_node_upsert (Node.uuid node) node (db w)) as [d r] eqn:Hup.
  assert (∃ st, (NodeStore.add (nodes (memory w)) node).2 = Ok st ∧
    (st = Status.Ok (Node.uuid node) ∨ st = Status.AlreadyExist (Node.uuid node) ∨
     st = Status.Updated (Node.uuid node))) as (st & Hst & Hs).
  { unfold NodeStore.add. destruct (nodes (memory w) !! _) as [ns|]; [|eauto].
    destruct (NodeStore.replace_node node ns) as [[ns' st]|] eqn:Hr; [|eauto].
    destruct (NodeStore.replace_node_status _ _ _ _ Hr) as (old & _ & ->).
    case_decide; eauto. }
  destruct (pg_fault (tick w)) as [|[] e]; cbn; [|by split..].
  destruct r as [[]|e]; cbn; [|by split].
  destruct (NodeStore.add (nodes (memory w)) node) as [ns r] eqn:Ha. cbn in Hst |- *. subst r.
  destruct Hs as [-> | [-> | ->]];
    (split_and!; [done|done| |done]); unfold cache_nodes; by rewrite Ha.
Qed.

#[local] Arguments add_node : simpl never.

(** C31: registering a node.  An answer of 200 carries the node's id: its row is
    written, its environment answers the node for its id, online, and every
    other node of the cache is as it was, and so are the connections, the
    subscriptions and the bus.  Any other answer leaves the cache alone. *)
Theorem post_node_spec (req : NodeRequest) (w : World) (Hwf : NodeStore.wf (nodes (memory w))) :
  let '(w', r) := run (post_node_handler req) w in
  match r with
  | Some (Ok (NodeId 200 _ id)) => ∃ t, let node := as_node t req in
    id = Some (req_uuid req) ∧
    pg_node_upsert (req_uuid req) node (db w) = (db w', Ok tt) ∧
    NodeStore.get (nodes (memory w')) (req_env req) (req_uuid req) = Some node ∧
    Node.status node = NodeStatus.Online ∧
    (∀ env uuid, (env, uuid) ≠ (req_env req, req_uuid req) →
      NodeStore.get (nodes (memory w')) env uuid = NodeStore.get (nodes (memory w)) env uuid) ∧
    connections (memory w') = connections (memory w) ∧
    subscriptions (memory w') = subscriptions (memory w) ∧ bus w' = bus w
  | Some (Ok (NodeId _ _ None)) => memory w' = memory w ∧ bus w' = bus w
  | _ => False
  end.
Proof.
  unfold post_node_handler. cbn [run bind now ask]. cbv zeta.
  set (node := as_node (clock (tick w)) req). set (w1 := bump w). rewrite run_bind.
  pose proof (run_add_node node w1) as Ha.
  change (Node.uuid node) with (req_uuid req) in Ha.
  destruct (run (add_node (req_uuid req) node) w1) as [w2 [[st|e]|]]; [| |done].
  2:{ cbn. by destruct Ha. }
  destruct Ha as (-> & Hup & Hm & Hb). rewrite run_bind.
  destruct (NodeStore.add_get (nodes (memory w)) node Hwf) as [Hown Hrest].
  assert (nodes (memory w2) = (NodeStore.add (nodes (memory w)) node).1) as Hn by (by rewrite Hm).
  unfold update_node_status. cbn. rewrite Hn.
  change (Node.env node) with (req_env req) in Hown. change (Node.uuid node) with (req_uuid req) in Hown.
  rewrite Hown. cbn. exists (clock (tick w)). rewrite Hn. split_and!; try done; by rewrite Hm.
Qed.

(** ** The handlers keep the cache backed *)
Lemma safe_post_node req w : okp backed keeps (post_node_handler req) w.
Proof.
  unfold post_node_handler. apply (okp_bind backed keeps); [apply safe_ask|]. intros t w1. cbv zeta.
  apply (okp_bind backed keeps); [exact (safe_add_node (as_node t req) w1)|].
  pose proof safe_update_node_status. intros [st|e] w2; [destruct st|]; safe.
Qed.
Lemma safe_get_nodes {V} env (metrics : MetricStorage (V := V)) w :
  okp backed keeps (get_nodes_handler env metrics) w.
Proof. unfold get_nodes_handler. safe. Qed.
Lemma safe_get_node id w : okp backed keeps (get_node_handler id) w.
Proof. unfold get_node_handler. safe. Qed.
End handlers.

Definition agent_request : NodeRequest := {|
  req_env := Env.Dev; req_hostname := "h"; req_address := 1; req_inbounds := ∅;
  req_uuid := 1%N; req_label := "l"; req_interface := "eth0"; req_cores := 1;
  req_max_bandwidth_bps := 1; req_country := "DE"; req_type := None |}.

Lemma post_node_spec_witness :
  let '(w', r) := run (post_node_handler agent_request) world_new in
  r = Some (Ok (NodeId 200 "Ok" (Some 1%N))) ∧
  Node.hostname <$> NodeStore.get (nodes (memory w')) Env.Dev 1%N = Some "h".
Proof.
  assert (run (post_node_handler agent_request) world_new =
    ((run (post_node_handler agent_request) world_new).1,
     Some (Ok (NodeId 200 "Ok" (Some 1%N))))) as Hr by (vm_compute; reflexivity).
  pose proof (post_node_spec agent_request world_new NodeStore.wf_empty) as Hp.
  rewrite Hr in Hp |- *. destruct Hp as (t & _ & _ & Hg & _). split; [reflexivity|].
  cbn [req_env agent_request req_uuid] in Hg. rewrite Hg. reflexivity.
Defined.
