(* ===== verification/Api.v ===== *)
(** * The API server

    What is done with a request that was read, with the guard in front
    ([bin/api/http/routes.rs]; how it is read is in [Routing]), the server's
    tasks ([bin/api/main.rs]), and what holds in every interleaving of any
    number of them. *)
From S2P Require Import Prelude Task Foreign Naming Wireguard Connection ConnStore Subscription.
From S2P Require Import Key Inbound Node Link Metrics Db World Sync Consistency SyncSafe Reload.
From S2P Require Import SyncSpec Background Http ApiConn ApiSub ApiKey ApiTrial ApiNode.
Local Open Scope Z_scope.
Local Open Scope prog_scope.

(** [ServiceConfig] -- bin/api/config.rs:40-61

    With the signing key of the e-mail store; without what only reaches the
    sockets and the logger. *)
Record ServiceConfig : Set := {
  token : string;
  key_sign_token : list Z;
  bonus_days : Z;
  system_refer_codes : list string;
  wireguard_network : IpAddrMask;
  enabled_envs : list Env;
  enabled_tags : list ProtoTag;
  trial_limit_days : Z;
  trial_limit_bytes : Z;
  subscription_title : string;
  email_sign_token : list Z;
}.

(** The routes, with what warp parsed from the request. *)
Inductive Request : Set :=
| GetHealthcheck
| GetNodes (env : option string)
| PostNode (req : NodeRequest)
| GetNode (id : Uuid)
| GetSub (req : SubscriptionInfoRequest)
| GetSubscription (id : Uuid)
| PostSubscription (req : SubReq)
| PutSubscription (id : Uuid) (req : SubReq)
| GetConnection (id : Uuid)
| GetWireguard (req : ConnectionInfoRequest)
| GetMtproto (req : ConnectionInfoRequest)
| PostConnectionsSync (req : ConnType)
| PostConnection (req : ConnCreateRequest)
| DeleteConnection (id : Uuid)
| GetKeyValidate (code : Code.Code)
| PostKey (req : KeyReq)
| PostKeyActivate (req : ActivateKeyReq)
| PostTrial (req : Trial).

(** the routes with [auth] in them *)
Definition guarded (r : Request) : bool :=
  match r with
  | PostNode _ | GetNode _ | PostSubscription _ | PutSubscription _ _ | GetConnection _
  | PostConnectionsSync _ | PostConnection _ | DeleteConnection _ | PostKey _ => true
  | GetHealthcheck | GetNodes _ | GetSub _ | GetSubscription _ | GetWireguard _ | GetMtproto _
  | GetKeyValidate _ | PostKeyActivate _ | PostTrial _ => false
  end.

Section api.
Context `{!Oracle, !Postgres, !Ipv6Text, !UuidText, !IterOrder, !Chrono, !WgCrypto, !UrlLib,
  !Base32, !Hmac, !SeriesHash, !Rfc3339}.
Context {V : Type} (metrics : MetricStorage (V := V)) (config : ServiceConfig).

(** [healthcheck_handler] -- bin/api/http/handlers/mod.rs:18-43 *)
Definition healthcheck_handler : Handler := reply (Json 200 "Ok" None).

(** a route's handler, with the settings that [run] hands it *)
Definition handler_of (r : Request) : Handler :=
  match r with
  | GetHealthcheck => healthcheck_handler
  | GetNodes env => get_nodes_handler env metrics
  | PostNode req => post_node_handler req
  | GetNode id => get_node_handler id
  | GetSub req =>
    subscription_link_handler req (subscription_title config) (trial_limit_bytes config)
  | GetSubscription id => get_subscription_info_json id
  | PostSubscription req =>
    post_subscription_handler req (bonus_days config) (system_refer_codes config)
  | PutSubscription id req => put_subscription_handler id req
  | GetConnection id => get_connection_handler id
  | GetWireguard req => wireguard_connections_handler req
  | GetMtproto req => mtproto_connections_handler req
  | PostConnectionsSync req => get_connections_handler req
  | PostConnection req => create_connection_handler req (wireguard_network config)
  | DeleteConnection id => delete_connection_handler id
  | GetKeyValidate code => get_key_validate_handler code (key_sign_token config)
  | PostKey req => post_key_handler req (key_sign_token config)
  | PostKeyActivate req => post_activate_key_handler req
  | PostTrial req =>
    post_trial_handler req (email_sign_token config) (wireguard_network config)
      (system_refer_codes config) (enabled_envs config) (enabled_tags config)
      (trial_limit_days config) (bonus_days config) (trial_limit_bytes config)
  end.

(** [Http::run] -- bin/api/http/routes.rs:44-281

    A request with its authorization header. *)
Definition serve (header : option string) (r : Request) : Handler :=
  if guarded r then
    match header with
    | None => Ret (Err (MissingHeader "authorization"))
    | Some _ =>
      if auth (token config) header then handler_of r
      else Ret (Err (AuthError "Unauthorized"))
    end
  else handler_of r.

(** ** The guard *)

(** What no one saw change. *)
Definition unchanged (w w' : World) : Prop :=
  memory w' = memory w ∧ db w' = db w ∧ bus w' = bus w ∧ emails w' = emails w ∧
  email_file w' = email_file w.
#[export] Instance unchanged_preorder : PreOrder unchanged.
Proof.
  split; [by intros w|]. intros w1 w2 w3 (? & ? & ? & ? & ?) (? & ? & ? & ? & ?).
  split_and!; congruence.
Qed.
Notation still p w := (okp (λ _, True) unchanged p w).

Lemma still_ask {A} (f : nat → A) w : still (ask f) w.
Proof. by apply okp_act. Qed.
Lemma still_read_mem {A} (f : Cache → A) w : still (read_mem f) w.
Proof. by apply okp_act. Qed.
Lemma still_db_get {A} (f : Db → A) w : still (db_get f) w.
Proof.
  apply okp_act; [|done]. intros w' _. split; [done|]. cbn. by destruct (pg_fault _) as [|[]].
Qed.
Ltac still_step :=
  match goal with
  | |- okp _ _ (atomic _) _ => apply (okp_run_atomic (λ _, True) unchanged); intros ?
  | |- okp _ _ (bind _ _) _ => apply (okp_bind (λ _, True) unchanged); [|intros ? ?]
  | |- okp _ _ (match ?x with _ => _ end) _ => destruct x
  | |- okp _ _ (Ret _) _ => by apply okp_ret
  | |- okp _ _ Panic _ => exact I
  | |- okp _ _ (read_mem _) _ => apply still_read_mem
  | |- okp _ _ (db_get _) _ => apply still_db_get
  | |- okp _ _ now _ => apply still_ask
  end.
Ltac still := cbv beta zeta; repeat (still_step; cbv beta iota zeta).

(** The routes that change anything are guarded, but for two. *)
Lemma open_routes_still r w :
  guarded r = false → (∀ req, r ≠ PostKeyActivate req) → (∀ req, r ≠ PostTrial req) →
  still (handler_of r) w.
Proof.
  intros Hg Ha Ht; destruct r; try discriminate Hg; cbn [handler_of].
  - by apply okp_ret.
  - unfold get_nodes_handler. still.
  - unfold subscription_link_handler. still.
  - unfold get_subscription_info_json. still.
  - unfold wireguard_connections_handler, expired_subscription. cbn [conn_info_validate]. still.
  - unfold mtproto_connections_handler, expired_subscription. cbn [conn_info_validate]. still.
  - unfold get_key_validate_handler, key_get. still.
  - by destruct (Ha req).
  - by destruct (Ht req).
Qed.

(** Without the server's token in its header, a request changes nothing, in
    the cache, the database, on the bus or in the record of trials, unless it
    activates a key or asks for a trial; a guarded one is refused, with status
    401 when it has the header and 400 when it has none. *)
Theorem unauthorised_request (header : option string) (r : Request) (w : World) :
  header ≠ Some ("Bearer " +:+ token config) →
  let '(w', res) := run (serve header r) w in
  (guarded r = true → w' = w ∧ ∃ e, res = Some (Err e) ∧
    answer_status (Err e) = (if header then 401 else 400)) ∧
  ((∀ req, r ≠ PostKeyActivate req) → (∀ req, r ≠ PostTrial req) → unchanged w w').
Proof.
  intros Hh. unfold serve. destruct (guarded r) eqn:Hg.
  - destruct header as [h|]; [|cbn; split; [eauto|done]].
    destruct (auth (token config) (Some h)) eqn:Ha; [by apply auth_iff in Ha|].
    cbn. split; [eauto|done].
  - destruct (run (handler_of r) w) as [w' res] eqn:Hr. split; [done|]. intros Ha Ht.
    destruct (rg_run _ _ _ _ w (open_routes_still r w Hg Ha Ht) I) as (_ & Hu & _).
    by rewrite Hr in Hu.
Qed.

(** ** Every interleaving *)

(** What the server runs: the reload at start, the periodic tasks, and any
    requests. *)
Inductive api_service : IO unit → Prop :=
| serves_start : api_service (get_state_from_db;; Ret tt)
| serves_sync n : api_service (periodic_db_sync n)
| serves_expire_conns n : api_service (cleanup_expired_connections n)
| serves_expire_subs n : api_service (cleanup_expired_subscriptions n)
| serves_restore n : api_service (restore_subscriptions n)
| serves_request header r : api_service (serve header r;; Ret tt).

Lemma safe_handler r w :
  mask_ok (wireguard_network config) → okp backed keeps (handler_of r) w.
Proof.
  intros Hn. destruct r; cbn [handler_of].
  - by apply okp_ret.
  - apply safe_get_nodes.
  - apply safe_post_node.
  - apply safe_get_node.
  - apply safe_subscription_link.
  - apply safe_get_subscription_info.
  - apply safe_post_subscription.
  - apply safe_put_subscription.
  - apply safe_get_connection.
  - apply safe_wireguard_connections.
  - apply safe_mtproto_connections.
  - apply safe_get_connections.
  - by apply safe_create_connection.
  - apply safe_delete_connection_handler.
  - apply safe_get_key_validate.
  - apply safe_post_key.
  - apply safe_post_activate_key.
  - by apply safe_post_trial.
Qed.

Lemma safe_service p w :
  mask_ok (wireguard_network config) → api_service p → okp backed keeps p w.
Proof.
  intros Hn [].
  - apply (okp_bind backed keeps); [apply safe_get_state_from_db|done].
  - apply safe_periodic_db_sync.
  - apply safe_cleanup_expired_connections.
  - apply safe_cleanup_expired_subscriptions.
  - apply safe_restore_subscriptions.
  - apply (okp_bind backed keeps); [|done]. unfold serve.
    repeat case_match; try (by apply okp_ret); by apply safe_handler.
Qed.

(** Whatever the requests, the database's faults, the bus's, the clock and
    the interleaving, in every state the server reaches from a well-formed
    database and a cache that runs not ahead of it: the database is well
    formed; every connection of the cache has a row that agrees with it on
    everything but the deletion mark and the modification time, and every
    subscription and node has a row; and since the start no row disappeared, no
    connection's row changed its protocol, owner or secrets, no key was
    deactivated, and nothing published was withdrawn. *)
Theorem api_invariant (w0 w : World) (Hnet : mask_ok (wireguard_network config))
    (Hstart : backed w0) (Hreach : reachable api_service w0 w) : backed w ∧ keeps w0 w.
Proof. by apply (pool_invariant backed keeps api_service); [intros; apply safe_service|..]. Qed.
End api.

(** ** Two creations at once *)

Definition no_metrics : MetricStorage (V := Z) := Metrics.new 10 60.
Definition example_config : ServiceConfig := {|
  token := "t"; key_sign_token := [1]; bonus_days := 7; system_refer_codes := ["WEB"];
  wireguard_network := {| address := V4 167772160; cidr := 8 |};
  enabled_envs := [Env.Dev]; enabled_tags := [ProtoTag.Wireguard]; trial_limit_days := 1;
  trial_limit_bytes := 0; subscription_title := "title"; email_sign_token := [2] |}.

Definition post_wireguard : IO unit :=
  serve no_metrics example_config (Some "Bearer t") (PostConnection {| cc_env := Env.Dev;
    cc_subscription_id := None; cc_proto := ProtoTag.Wireguard; cc_days := None |});; Ret tt.

(** Each chooses its address before either is in the cache. *)
Definition race : list (IO unit) * World :=
  schedule [0; 1; 0; 0; 0; 0; 0; 0; 1; 1; 1; 1; 1; 1]%nat ([post_wireguard; post_wireguard], world_new).

Lemma race_reachable :
  reachable (api_service no_metrics example_config) world_new race.2.
Proof.
  exists race.1. rewrite <- surjective_pairing. do 2 (eapply rtc_l;
    [apply step_spawn; apply (serves_request no_metrics example_config)|]).
  apply schedule_steps.
Qed.

(** C32: two requests for a WireGuard connection at the same time can both be
    answered the same address: the choice is one action under the cache's read
    lock, and the entry that would forbid it again is written by a later one.
    Both connections are in the cache and in the database. *)
Theorem wg_address_race :
  ∃ (w : World) (id1 id2 : Uuid) (c1 c2 : Conn) (p1 p2 : Param),
    reachable (api_service no_metrics example_config) world_new w ∧ id1 ≠ id2 ∧
    connections (memory w) !! id1 = Some c1 ∧ connections (memory w) !! id2 = Some c2 ∧
    Conn.proto c1 = Proto.Wireguard p1 ∧ Conn.proto c2 = Proto.Wireguard p2 ∧
    param_address p1 = param_address p2 ∧
    is_Some (t_connections (db w) !! id1) ∧ is_Some (t_connections (db w) !! id2).
Proof.
  exists race.2, 3%N, 8%N. do 4 eexists. split; [exact race_reachable|]. split; [done|].
  split; [vm_compute; reflexivity|]. split; [vm_compute; reflexivity|].
  split; [reflexivity|]. split; [reflexivity|]. split; [reflexivity|].
  split; vm_compute; by eexists.
Qed.

Lemma api_invariant_witness :
  mask_ok (wireguard_network example_config) ∧ backed world_new ∧
  reachable (api_service no_metrics example_config) world_new race.2 ∧
  backed race.2 ∧ size (connections (memory race.2)) = 2%nat.
Proof.
  assert (mask_ok (wireguard_network example_config)) as Hn.
  { unfold mask_ok, addr_ok, u32_ok, U32_MAX. cbn. lia. }
  assert (backed world_new) as Hb by (split; [exact db_ok_empty|exact (mem_ok_new _ db_ok_empty)]).
  split; [exact Hn|]. split; [exact Hb|]. split; [exact race_reachable|].
  split; [|vm_compute; reflexivity].
  exact (proj1 (api_invariant no_metrics example_config world_new race.2 Hn Hb race_reachable)).
Defined.

Lemma unauthorised_request_witness :
  let delete := DeleteConnection 3%N in
  Some "bearer t" ≠ Some ("Bearer " +:+ token example_config) ∧
  is_Some (connections (memory race.2) !! 3%N) ∧
  (run (serve no_metrics example_config (Some "bearer t") delete) race.2).1 = race.2.
Proof.
  cbv zeta. assert (Some "bearer t" ≠ Some ("Bearer " +:+ token example_config)) as Hne by done.
  split; [exact Hne|]. split; [vm_compute; by eexists|].
  pose proof (unauthorised_request no_metrics example_config (Some "bearer t") (DeleteConnection 3%N)
    race.2 Hne) as Hu.
  destruct (run _ _) as [w' res]. exact (proj1 (proj1 Hu eq_refl)).
Defined.
