(* ===== verification/Conducts.v ===== *)
(** * What every part of the server does to the outside

    The handlers and the tasks, by the conduct of the operations they are made
    of ([Conduct]). *)
From S2P Require Import Prelude Task Foreign Naming Wireguard Connection ConnStore Subscription.
From S2P Require Import Key Inbound Node Link Metrics Db World Trials Sync Consistency SyncSafe.
From S2P Require Import Reload SyncSpec Background Http ApiConn ApiSub ApiKey Conduct ApiTrial.
From S2P Require Import ApiNode Api.
Local Open Scope Z_scope.
Local Open Scope prog_scope.

Section handlers.
Context `{!Oracle, !Postgres, !Ipv6Text, !UuidText, !IterOrder, !Chrono, !WgCrypto, !UrlLib,
  !Base32, !Hmac, !SeriesHash, !Rfc3339}.
Context (I : World → Prop) (G : World → World → Prop) `{!Tolerates I G}.
Notation conducts p w := (okp I G p w).
#[local] Hint Resolve con_post_trial : conduct.

Lemma con_create_connection req n w : conducts (create_connection_handler req n) w.
Proof.
  unfold create_connection_handler, admit_connection, check_subscription. 
  cbn [conn_create_validate]. announce.
Qed.
Lemma con_delete_handler id w : conducts (delete_connection_handler id) w.
Proof. unfold delete_connection_handler. walk. Qed.
Lemma con_get_connections req w : conducts (get_connections_handler req) w.
Proof. unfold get_connections_handler. walk; apply (con_send I G), published_creates. Qed.
Lemma con_create_subscription req id c b w : conducts (create_subscription req id c b) w.
Proof. unfold create_subscription. walk. Qed.
Hint Resolve con_create_connection con_delete_handler con_get_connections
  con_create_subscription : conduct.
Lemma con_post_node req w : conducts (post_node_handler req) w.
Proof. unfold post_node_handler. walk. Qed.
Lemma con_subs_with_activity b w : conducts (subs_with_activity b) w.
Proof.
  unfold subs_with_activity. walk. apply (okp_keep_io I G). intros [] ?. walk.
Qed.
Hint Resolve con_post_trial con_post_node con_subs_with_activity : conduct.

Context {V : Type} (metrics : MetricStorage (V := V)) (config : ServiceConfig).

Lemma con_handler r w : conducts (handler_of metrics config r) w.
Proof.
  destruct r; cbn [handler_of];
    unfold healthcheck_handler, get_nodes_handler, get_node_handler, subscription_link_handler,
      get_subscription_info_json, post_subscription_handler, put_subscription_handler,
      get_connection_handler, wireguard_connections_handler, mtproto_connections_handler,
      expired_subscription, get_key_validate_handler, post_key_handler, post_activate_key_handler;
    cbn [conn_info_validate]; walk.
Qed.

Lemma con_delete_all l w : conducts (delete_all l) w.
Proof. unfold delete_all. walk. Qed.
Hint Resolve con_handler con_delete_all : conduct.

Lemma con_service p w : api_service metrics config p → conducts p w.
Proof.
  intros [|n|n|n|n|header r]; try (apply (okp_loop I G); intros ?).
  - walk.
  - walk.
  - unfold expire_conns_round. walk.
  - unfold expire_subs_round. walk.
  - unfold restore_round. walk.
  - unfold serve. walk.
Qed.

(** ** Every interleaving *)

(** What the three kinds of action keep, the server keeps. *)
Lemma reachable_conduct (w0 w : World) :
  I w0 → reachable (api_service metrics config) w0 w → I w ∧ G w0 w.
Proof.
  intros H0' Hr. apply (pool_invariant I G (api_service metrics config) w0 w); [|done..].
  intros. by apply con_service.
Qed.
End handlers.
