(* ===== verification/Restart.v ===== *)
(** * Starting the API server

    What [bin/api/main.rs] does before it spawns its tasks, and the record of
    trials across a restart. *)
From S2P Require Import Prelude Task Foreign Naming Wireguard Connection ConnStore Subscription.
From S2P Require Import Key Inbound Node Link Metrics Db World Trials Sync Consistency SyncSafe.
From S2P Require Import Reload SyncSpec Background Http ApiConn ApiSub ApiKey Conduct ApiTrial.
From S2P Require Import ApiNode Api Conducts.
Local Open Scope Z_scope.
Local Open Scope prog_scope.

Section restart.
Context `{!Oracle, !Postgres, !Ipv6Text, !UuidText, !IterOrder, !Chrono, !WgCrypto, !UrlLib,
  !Base32, !Hmac, !SeriesHash, !Rfc3339}.

(** [main] -- bin/api/main.rs:61-78

    The record of trials is read before the state. *)
Definition api_start : IO (result unit string) :=
  r <- load_trials;;
  match r with
  | Err e => Ret (Err e)
  | Ok _ =>
    s <- get_state_from_db;;
    match s with
    | Err e => Ret (Err (Error.fmt e))
    | Ok _ => Ret (Ok tt)
    end
  end.

Lemma run_api_start w w' :
  (∀ n, file_fault n = None) → complete (ledger w) → run api_start w = (w', Some (Ok tt)) →
  complete (ledger w') ∧ ∀ k, on_file k w → is_Some (emails w' !! k).
Proof.
  intros Hf Hc. unfold api_start, on_file. unfold ledger in *. rewrite run_bind.
  cbn -[recorded get_state_from_db]. rewrite !Hf. cbn -[recorded get_state_from_db].
  assert (∀ w1 o, email_file w1 = email_file w → run (s <- get_state_from_db;;
    match s with Err e => Ret (Err (Error.fmt e)) | Ok _ => Ret (Ok tt) end) w1 = (w', o) →
    complete (ledger w') ∧ trials_kept w1 w') as Hload.
  { intros w1 o Hw1. assert (fair w1) as Hfair by (split; [unfold ledger; by rewrite Hw1|done]).
    assert (okp (whole w1) (kept w1) (s <- get_state_from_db;;
      match s with Err e => Ret (Err (Error.fmt e)) | Ok _ => Ret (Ok tt) end) w1) as Hok by walk.
    intros Hr. pose proof (rg_run _ _ _ _ w1 Hok ltac:(by intros [])) as (Hw & Hk & _).
    rewrite Hr in Hw, Hk. split; [by apply Hw|by apply Hk]. }
  destruct (email_file w) as [file|] eqn:Hfile; cbn -[recorded get_state_from_db].
  - rewrite Hf. cbn -[recorded get_state_from_db]. intros [? Hk]%Hload; [|done].
    split; [done|]. intros k Hin. by apply Hk.
  - intros [? Hk]%Hload; [|done]. split; [done|]. by intros k [? ?].
Qed.

Context {V : Type} (metrics : MetricStorage (V := V)) (config : ServiceConfig).
Notation trial req w := (run (handler_of metrics config (PostTrial req)) w).

(** C26: one trial per address, whatever the process goes through.  A trial was
    granted; the server went on serving, in any interleaving; it was started
    again, with nothing but the file of trials left, and served again: then any
    request that names one of the trial's addresses, as user or as e-mail, is
    refused and changes nothing.  No file operation failed, the file was
    empty or ended with a line at first, and the clock showed a year from 1970
    to 9999. *)
Theorem trial_survives_restart (req : Trial) (w0 : World)
    (Hfile : ∀ n, file_fault n = None)
    (Hclock : ∀ n, 0 <= clock n < 253402300800 * NANOS) (Hlines : complete (ledger w0)) :
  let '(w1, r1) := trial req w0 in
  if answers_200 r1 then
    ∀ w2 w3 w4 w5 req' who,
      reachable (api_service metrics config) w1 w2 → email_file w3 = email_file w2 →
      run api_start w3 = (w4, Some (Ok tt)) → reachable (api_service metrics config) w4 w5 →
      asks_for req who → asks_for req' who →
      let '(w6, r6) := trial req' w5 in
      w6 = w5 ∧ (r6 = Some (Ok (bad_request "Trial already requested")) ∨
        ∃ e, trial_validate req' = Err e ∧ r6 = Some (Err (Rejected e)))
  else True.
Proof.
  cbn [handler_of].
  match goal with |- let '(w1, r1) := run (post_trial_handler ?rq ?s ?n ?c ?e ?p ?d ?b ?l) ?w in _ =>
    pose proof (run_trial_saves rq s n c e p d b l w) as Hs end.
  destruct (run _ w0) as [w1 r1]. destruct (answers_200 r1); [|done].
  intros w2 w3 w4 w5 req' who Hr12 H23 Hstart Hr45 Hw Hw'.
  destruct (Hs Logic.I who Hw) as [_ Hrec]. destruct (Hrec Hlines Hfile Hclock) as [Hc1 Hon1].
  destruct (reachable_conduct (whole w1) (kept w1) metrics config w1 w2) as [Hc2 Hk2];
    [by intros []|done|].
  assert (fair w1) as Hf1 by by split.
  assert (complete (ledger w3)) as Hc3 by (unfold ledger; rewrite H23; by apply Hc2).
  assert (on_file (hmac_email (email_sign_token config) who) w3) as Hon3.
  { unfold on_file, ledger. rewrite H23. by apply Hk2. }
  destruct (run_api_start w3 w4 Hfile Hc3 Hstart) as [Hc4 Hin].
  destruct (reachable_conduct (whole w4) (kept w4) metrics config w4 w5) as [_ Hk5];
    [by intros []|done|].
  apply run_trial_refused with who; [done|]. apply Hk5; [by split|]. by apply Hin.
Qed.
End restart.

(** A trial by an e-mail address, two restarts from its record. *)
Definition ask_trial : Trial :=
  {| tr_user := None; tr_email := Some "a@b"; tr_referred_by := None |}.
Definition ask_again : Trial :=
  {| tr_user := Some "a@b"; tr_email := None; tr_referred_by := None |}.
Definition granted : World :=
  (run (handler_of no_metrics example_config (PostTrial ask_trial)) world_new).1.
Definition process : World := set_email_file (email_file granted) world_new.
Definition restarted : World := (run api_start process).1.

Lemma trial_survives_restart_witness :
  (∀ n, file_fault n = None) ∧ (∀ n, 0 <= clock n < 253402300800 * NANOS) ∧
  complete (ledger world_new) ∧ size (emails restarted) = 1%nat ∧
  (run (handler_of no_metrics example_config (PostTrial ask_again)) restarted).1 = restarted.
Proof.
  assert (∀ n, file_fault n = None) as Hfile by done.
  assert (∀ n, 0 <= clock n < 253402300800 * NANOS) as Hclock by (intros n; cbn; unfold NANOS; lia).
  assert (complete (ledger world_new)) as Hc by by left.
  split; [exact Hfile|]. split; [exact Hclock|]. split; [exact Hc|].
  split; [vm_compute; reflexivity|].
  pose proof (trial_survives_restart no_metrics example_config ask_trial world_new Hfile Hclock Hc)
    as Hs.
  assert (granted = (run (handler_of no_metrics example_config (PostTrial ask_trial)) world_new).1)
    as Hg by reflexivity.
  assert (answers_200 (run (handler_of no_metrics example_config (PostTrial ask_trial)) world_new).2
    = true) as Ha by (vm_compute; reflexivity).
  destruct (run (handler_of no_metrics example_config (PostTrial ask_trial)) world_new) as [w1 r1].
  cbn [fst snd] in Hg, Ha. rewrite Ha in Hs. subst w1.
  assert (run api_start process = (restarted, Some (Ok tt))) as Hstart.
  { unfold restarted. assert ((run api_start process).2 = Some (Ok tt)) as Hok
      by (vm_compute; reflexivity).
    destruct (run api_start process). cbn [snd] in Hok. by rewrite Hok. }
  assert (∀ w, reachable (api_service no_metrics example_config) w w) as Hrefl
    by (intros w; by exists []).
  assert (email_file process = email_file granted) as Hfile2 by (unfold process; reflexivity).
  pose proof (Hs granted process restarted restarted ask_again "a@b" (Hrefl _) Hfile2 Hstart
    (Hrefl _) (or_intror eq_refl) (or_introl eq_refl)) as Hr.
  destruct (run _ restarted) as [w6 r6]. exact (proj1 Hr).
Defined.
