(* ===== verification/Service.v ===== *)
(** * What the node and the authentication services share

    [memory/snapshot.rs] and the reception of messages that both repeat
    ([bin/node/tasks.rs], [bin/auth/tasks.rs]): a table of connections, a
    snapshot file written behind it, and the bus.  The world is generic in what
    else the service drives. *)
From S2P Require Import Prelude Task Foreign Naming Wireguard Connection ConnStore World.
Local Open Scope Z_scope.
Local Open Scope prog_scope.

(** [SnapshotData] -- memory/snapshot.rs:17-26 *)
Record SnapshotData : Set := {
  snap_timestamp : Z;
  snap_memory : Connections Base;
  snap_version : Z;
}.

(** The table, the snapshot file, and what else the service drives. *)
Record Svc (D : Type) : Type := {
  svc_mem : Connections Base;
  svc_file : option SnapshotData;
  svc_device : D;
  svc_tick : nat;
}.
Arguments svc_mem {D} s.
Arguments svc_file {D} s.
Arguments svc_device {D} s.
Arguments svc_tick {D} s.

Section service.
Context `{!Oracle} {D : Type}.
Notation W := (Svc D).
Implicit Type w : W.

Definition svc_bump w : W := {| svc_mem := svc_mem w; svc_file := svc_file w;
  svc_device := svc_device w; svc_tick := S (svc_tick w) |}.
Definition set_svc_mem (m : Connections Base) w : W := {| svc_mem := m; svc_file := svc_file w;
  svc_device := svc_device w; svc_tick := svc_tick w |}.
Definition set_svc_file (f : option SnapshotData) w : W := {| svc_mem := svc_mem w; svc_file := f;
  svc_device := svc_device w; svc_tick := svc_tick w |}.
Definition set_svc_device (d : D) w : W := {| svc_mem := svc_mem w; svc_file := svc_file w;
  svc_device := d; svc_tick := svc_tick w |}.

Definition svc_ask {A} (f : nat → A) : Prog W A := Act (λ w, (svc_bump w, f (svc_tick w))) Ret.
Definition svc_read {A} (f : Connections Base → A) : Prog W A := reads (λ w, f (svc_mem w)).
Definition svc_update {A} (f : Connections Base → Connections Base * A) : Prog W A :=
  Act (λ w, let '(m, a) := f (svc_mem w) in (set_svc_mem m w, a)) Ret.
Definition svc_turn w : W * bool := (svc_bump w, whose_turn (svc_tick w)).

(** a step of the file system, which may fail *)
Definition file_step (f : W → W) : Prog W (result unit Error) :=
  Act (λ w, match file_fault (svc_tick w) with
            | None => (svc_bump (f w), Ok tt)
            | Some e => (svc_bump w, Err (Error.Io e))
            end) Ret.

(** [SnapshotManager::create_snapshot] -- memory/snapshot.rs:88-107

    The bytes stand for the snapshot they encode.  The new file replaces the
    old one only in the last step. *)
Definition create_snapshot : Prog W (result unit Error) :=
  snapshot <- atomic (
    memory <- svc_read id;;
    t <- svc_ask clock;;
    Ret {| snap_timestamp := as_unsigned 64 (timestamp t); snap_memory := memory;
           snap_version := 1 |});;
  b <- svc_ask rkyv_fault;;
  match b with
  | Some e => Ret (Err (Error.RkyvSerialize e))
  | None =>
    _ <-? file_step id;;
    file_step (set_svc_file (Some snapshot))
  end.

(** [SnapshotManager::load_snapshot] -- memory/snapshot.rs:109-126 *)
Definition load_snapshot : Prog W (result (option Z) Error) :=
  file <- reads svc_file;;
  match file with
  | None => Ret (Ok None)
  | Some snapshot =>
    _ <-? file_step id;;
    svc_update (λ _, (snap_memory snapshot, tt));;
    Ret (Ok (Some (snap_timestamp snapshot)))
  end.

(** [SnapshotManager::get_snapshot_timestamp] -- memory/snapshot.rs:128-137 *)
Definition get_snapshot_timestamp : Prog W (result (option Z) Error) :=
  file <- reads svc_file;;
  match file with
  | None => Ret (Ok None)
  | Some snapshot => _ <-? file_step id;; Ret (Ok (Some (snap_timestamp snapshot)))
  end.

(** [SnapshotManager::len] -- memory/snapshot.rs:139-142 *)
Definition snapshot_len : Prog W nat := svc_read len.

(** [for msg in messages { ..? }] *)
Fixpoint try_each {A} (l : list A) (body : A → Prog W (result unit Error)) :
    Prog W (result unit Error) :=
  match l with
  | [] => Ret (Ok tt)
  | x :: l => _ <-? body x;; try_each l body
  end.

(** A message of the bus as a subscriber receives it: the topic's text and the
    payload, [None] when it does not decode to messages. *)
Definition Frame : Type := string * option (list Message).

(** [run_subscriber] -- bin/node/tasks.rs:34-104

    One turn of the loop: what the topic lets through is handled, whatever the
    handling answers. *)
Definition receive `{!UuidText} (accepts : Topic → bool)
    (handle : list Message → Prog W (result unit Error)) (frame : Frame) : Prog W unit :=
  let '(topic_str, payload) := frame in
  match Topic.from_str topic_str with
  | Ok topic =>
    if accepts topic then
      match payload with
      | Some msgs => handle msgs;; Ret tt
      | None => Ret tt
      end
    else Ret tt
  | Err _ => Ret tt
  end.

(** What the connection of a message carries of it; [None] is the panic of
    an expiry out of range. *)
Definition message_conn `{!Chrono} (t : DateTime) (proto : Proto) (msg : Message) : option Base :=
  match Message.expires_at msg with
  | None => Some (Base.new t proto None (Message.subscription_id msg))
  | Some e =>
    match of_rkyv e with
    | Some e => Some (Base.new t proto (Some e) (Message.subscription_id msg))
    | None => None
    end
  end.

(** A step after the other, as long as they succeed. *)
Lemma rg_try_each {A} (I : W → Prop) (G : W → W → Prop) `{!PreOrder G} (l : list A)
    (body : A → Prog W (result unit Error)) (Q : A → W → Prop) w :
  (∀ x w', x ∈ l → rg I G (body x) (on_ok (λ _, Q x)) w') →
  rg I G (try_each l body) (on_ok (λ _ w, ∀ x, x ∈ l → Q x w)) w.
Proof.
  revert w. induction l as [|x l IH]; intros w Hb; cbn [try_each].
  - intros w' _ _ x Hx. by apply not_elem_of_nil in Hx.
  - eapply (rg_bind I G); [apply Hb; left|]. intros [[]|e] w1 _ _ Hq; [|by intros ? _ _].
    assert (∀ y w', y ∈ l → rg I G (body y) (on_ok (λ _, Q y)) w') as Hb'
      by (intros; apply Hb; by right).
    refine (rg_post I G _ _ _ _ _ (rg_frame I G _ _ _ _ Hq (IH w1 Hb'))).
    intros [[]|e] w2 _ Hl w3 Hg HI; [|done]. destruct (Hl w3 Hg HI) as [Hx Hr].
    intros y [->|Hy]%elem_of_cons; [exact Hx|by apply Hr].
Qed.

(** ** Snapshots *)

(** A snapshot is taken whole or not at all, and never changes the table. *)
Lemma create_snapshot_run w :
  let '(w', r) := run create_snapshot w in
  svc_mem w' = svc_mem w ∧ svc_device w' = svc_device w ∧
  match r with
  | Some (Ok _) => ∃ n, svc_file w' = Some {|
      snap_timestamp := as_unsigned 64 (timestamp (clock n)); snap_memory := svc_mem w;
      snap_version := 1 |}
  | Some (Err _) => svc_file w' = svc_file w
  | None => False
  end.
Proof.
  unfold create_snapshot, file_step. cbn.
  destruct (rkyv_fault _); cbn; [done|].
  destruct (file_fault _); cbn; [done|]. destruct (file_fault _); cbn; [done|].
  split_and!; [done..|by eexists].
Qed.

Lemma load_snapshot_run w :
  let '(w', r) := run load_snapshot w in
  svc_file w' = svc_file w ∧ svc_device w' = svc_device w ∧
  match r with
  | Some (Ok (Some ts)) => ∃ s, svc_file w = Some s ∧ svc_mem w' = snap_memory s ∧
      ts = snap_timestamp s
  | Some (Ok None) => svc_file w = None ∧ svc_mem w' = svc_mem w
  | Some (Err _) => svc_mem w' = svc_mem w
  | None => False
  end.
Proof.
  unfold load_snapshot, file_step. cbn. destruct (svc_file w) as [s|] eqn:Hs; cbn; [|done].
  destruct (file_fault _); cbn; [done|]. split_and!; [done..|]. by exists s.
Qed.
End service.

(** A snapshot that was taken is the one that is loaded: after a restart, the
    table is the one at the time of the snapshot, and the answer is the time
    in whole seconds.  A snapshot that fails leaves the one before it. *)
Theorem snapshot_roundtrip `{!Oracle} {D} (w w2 : Svc D) :
  let '(w1, r1) := run create_snapshot w in
  svc_file w2 = svc_file w1 →
  let '(w3, r3) := run load_snapshot w2 in
  svc_mem w1 = svc_mem w ∧ svc_file w3 = svc_file w1 ∧
  match r1, r3 with
  | Some (Ok _), Some (Ok (Some ts)) => svc_mem w3 = svc_mem w ∧
      ∃ n, ts = as_unsigned 64 (timestamp (clock n))
  | Some (Ok _), Some (Ok None) => False
  | Some (Err _), Some (Ok None) => svc_file w = None ∧ svc_mem w3 = svc_mem w2
  | Some (Err _), Some (Ok (Some ts)) => ∃ s, svc_file w = Some s ∧ svc_mem w3 = snap_memory s
  | Some _, Some (Err _) => svc_mem w3 = svc_mem w2
  | _, _ => False
  end.
Proof.
  pose proof (create_snapshot_run w) as Hc. destruct (run create_snapshot w) as [w1 r1].
  destruct Hc as (Hm & _ & Hc). intros Hf.
  pose proof (load_snapshot_run w2) as Hl. destruct (run load_snapshot w2) as [w3 r3].
  destruct Hl as (Hf3 & _ & Hl). split_and!; [done|congruence|].
  destruct r1 as [[[]|e]|]; [| |done]; destruct r3 as [[[ts|]|e3]|]; try done.
  - destruct Hl as (s & Hs & Hm3 & ->). destruct Hc as [n Hn].
    assert (s = {| snap_timestamp := as_unsigned 64 (timestamp (clock n));
      snap_memory := svc_mem w; snap_version := 1 |}) as -> by congruence.
    split; [done|]. by exists n.
  - destruct Hl as [Hl _]. destruct Hc as [n Hn]. congruence.
  - destruct Hl as (s & Hs & Hm3 & _). exists s. split; [congruence|done].
  - destruct Hl as [Hl Hm3]. split; [congruence|done].
Qed.
