(* ===== verification/Client.v ===== *)
(** * The services as clients of the API server

    [bin/node/http.rs] and [bin/auth/http.rs]: the requests by which a node
    registers and both services ask for their connections, carried over a
    network that may lose a request or its answer.

    A [Net] is the API server and one service.  The programs of each run in it
    unchanged, action by action, so that other tasks of both sides can run in
    between. *)
From S2P Require Import Prelude Task Foreign Naming Wireguard Connection ConnStore Subscription.
From S2P Require Import Key Inbound Node Link Metrics Db World Trials Sync Consistency SyncSafe.
From S2P Require Import Reload SyncSpec Background Http ApiConn ApiSub ApiKey ApiTrial ApiNode.
From S2P Require Import Api Service.
Local Open Scope Z_scope.
Local Open Scope prog_scope.

Record Net (D : Type) : Type := { net_api : World; net_svc : Svc D }.
Arguments net_api {D} _.
Arguments net_svc {D} _.

(** What the program takes from its HTTP crates: how an authorization header
    arrives, if it may be sent at all, and the text of a body and of a failed
    parse. *)
Class HttpText := {
  header_value : string → option string;
  body_text : result Reply Rejection → string;
  parse_error : string → string;
  header_plain : ∀ s, Str.all (λ c, (33 <= N_of_ascii c <= 126)%N) s →
    header_value ("Bearer " +:+ s) = Some ("Bearer " +:+ s);
}.
(** A header that arrives as it is, unless it holds a control character. *)
Definition plain_header (s : string) : option string :=
  if bool_decide (Forall (λ c, (32 <= N_of_ascii c)%N) (String.list_ascii_of_string s))
  then Some s else None.
#[export, program] Instance plain_http : HttpText := {|
  header_value := plain_header;
  body_text _ := "";
  parse_error _ := "parse error";
|}.
Next Obligation.
  intros s Hs. unfold plain_header. rewrite bool_decide_true; [done|].
  rewrite StrFacts.list_app. apply Forall_app. split; [by repeat constructor|].
  eapply Forall_impl; [exact Hs|]. cbn. lia.
Qed.

Section net.
Context `{!Oracle} {D : Type}.
Notation W := (Net D).

Definition set_net_api (w : World) (s : W) : W := {| net_api := w; net_svc := net_svc s |}.
Definition set_net_svc (a : Svc D) (s : W) : W := {| net_api := net_api s; net_svc := a |}.

(** A task of the service. *)
Fixpoint at_service {A} (p : Prog (Svc D) A) : Prog W A :=
  match p with
  | Ret a => Ret a
  | Panic => Panic
  | Act f k => Act (λ s, let '(w, x) := f (net_svc s) in (set_net_svc w s, x))
                 (λ x, at_service (k x))
  end.
(** A request at the server, which survives a handler's panic: [None]. *)
Fixpoint at_server {A} (p : IO A) : Prog W (option A) :=
  match p with
  | Ret a => Ret (Some a)
  | Panic => Ret None
  | Act f k => Act (λ s, let '(w, x) := f (net_api s) in (set_net_api w s, x))
                 (λ x, at_server (k x))
  end.

Lemma run_at_service {A} (p : Prog (Svc D) A) (s : W) :
  run (at_service p) s = (set_net_svc (run p (net_svc s)).1 s, (run p (net_svc s)).2).
Proof.
  revert s. induction p as [a| |X f k IH]; intros s; cbn; [by destruct s..|].
  destruct (f (net_svc s)) as [w x]. by rewrite IH.
Qed.
Lemma run_at_server {A} (p : IO A) (s : W) :
  run (at_server p) s = (set_net_api (run p (net_api s)).1 s, Some (run p (net_api s)).2).
Proof.
  revert s. induction p as [a| |X f k IH]; intros s; cbn; [by destruct s..|].
  destruct (f (net_api s)) as [w x]. by rewrite IH.
Qed.
End net.

Section client.
Context `{!Oracle, !Postgres, !Ipv6Text, !UuidText, !IterOrder, !Chrono, !WgCrypto, !UrlLib,
  !Base32, !Hmac, !SeriesHash, !Rfc3339, !HttpText}.
Context {V : Type} (metrics : MetricStorage (V := V)) (config : ServiceConfig).
Context {D : Type}.
Notation Client A := (Prog (Net D) A).

(** [reqwest::Error], from [send] or from [text] *)
Inductive HttpError : Set := SendError (e : string) | TextError (e : string).

(** [HttpClient::new().post(url).header(..).json(..).send()] and the body's
    text: the server's answer, unless the header cannot be sent, or the
    request, the handler, the answer or its body is lost. *)
Definition http_post (header : string) (r : Request) :
    Client (result (result Reply Rejection) HttpError) :=
  match header_value header with
  | None => Ret (Err (SendError "builder error"))
  | Some header =>
    lost <- at_service (svc_ask http_fault);;
    match lost with
    | Some e => Ret (Err (SendError e))
    | None =>
      answer <- at_server (serve metrics config (Some header) r);;
      lost <- at_service (svc_ask http_fault);;
      match lost, answer with
      | Some e, _ => Ret (Err (SendError e))
      | None, None => Ret (Err (SendError "connection closed before message completed"))
      | None, Some answer =>
        cut <- at_service (svc_ask http_fault);;
        Ret match cut with Some e => Err (TextError e) | None => Ok answer end
      end
    end
  end.

(** [Url::parse(&endpoint)] and [path_segments_mut().push(..)]; the endpoint of
    the configuration is the server's. *)
Definition endpoint_url (endpoint : string) (segments : list string)
    (parse_err : string → Error) : result Url Error :=
  match url_parse endpoint with
  | Err e => Err (parse_err e)
  | Ok url =>
    match push_segments url segments with
    | None => Err (Error.Custom "Invalid API endpoint")
    | Some url => Ok url
    end
  end.

(** [result.response.instance] of [ResponseMessage<InstanceWithId<Instance>>] *)
Definition body_instance (answer : result Reply Rejection) : option Instance :=
  match answer with Ok (Json _ _ (Some (_, instance))) => Some instance | _ => None end.

(** What is made of the answer to a request for connections. *)
Definition sync_answer (res : result (result Reply Rejection) HttpError) : result unit Error :=
  match res with
  | Err (SendError e) => Err (Error.Custom ("HTTP Send Error: " +:+ e))
  | Err (TextError e) => Err (Error.Http e)
  | Ok answer =>
    let status := answer_status answer in
    let body := body_text answer in
    if bool_decide (200 <= status < 300) then
      match body_instance answer with
      | None => Err (Error.Json (parse_error body))
      | Some (Instances.Count count) => Ok tt
      | Some _ => Err (Error.Custom "Unexpected instance type")
      end
    else if bool_decide (status = 304) then Ok tt
    else Err (Error.Custom ("Status " +:+ pretty status +:+ ": " +:+ body))
  end.

(** [sync_connections] -- bin/node/http.rs:49-116 *)
Definition sync_connections (node : Node) (endpoint token : string) (proto : ProtoTag)
    (last_update : option Z) : Client (result unit Error) :=
  let topic := Topic.Init (Node.uuid node) in
  let env := Node.env node in
  let req := {| ct_proto := proto; ct_last_update := last_update; ct_env := env;
                ct_topic := topic |} in
  match endpoint_url endpoint ["connections"; "sync"] (λ _, Error.Custom "Invalid API endpoint") with
  | Err e => Ret (Err e)
  | Ok _ =>
    res <- http_post ("Bearer " +:+ Str.trim token) (PostConnectionsSync req);;
    Ret (sync_answer res)
  end.

(** [NodeRequest] -- bin/node/http.rs:17-30 *)
Definition request_of_node (node : Node) : NodeRequest := {|
  req_env := Node.env node;
  req_hostname := Node.hostname node;
  req_address := Node.address node;
  req_inbounds := Node.inbounds node;
  req_uuid := Node.uuid node;
  req_label := Node.label node;
  req_interface := Node.interface node;
  req_cores := Node.cores node;
  req_max_bandwidth_bps := Node.max_bandwidth_bps node;
  req_country := Node.country node;
  req_type := Some (Node.type node);
|}.

(** [register_node] -- bin/node/http.rs:118-167

    The token is sent as it is, where [sync_connections] trims it. *)
Definition register_node (node : Node) (endpoint token : string) : Client (result unit Error) :=
  match endpoint_url endpoint ["node"] Error.UrlParse with
  | Err e => Ret (Err e)
  | Ok _ =>
    res <- http_post ("Bearer " +:+ token) (PostNode (request_of_node node));;
    Ret match res with
        | Err (SendError e) | Err (TextError e) => Err (Error.Http e)
        | Ok answer =>
          let status := answer_status answer in
          if bool_decide (200 <= status < 300) || bool_decide (status = 304) then Ok tt
          else Err (Error.Custom ("Registration failed: " +:+ pretty status +:+ " - " +:+
            body_text answer))
        end
  end.

(** [get_connections] -- bin/auth/http.rs:31-98 *)
Definition get_connections (node : Node) (endpoint token : string) (proto : ProtoTag)
    (last_update : option Z) : Client (result unit Error) :=
  let topic := Topic.Init (Node.uuid node) in
  let env := Node.env node in
  let conn_type_param := {| ct_proto := proto; ct_last_update := last_update; ct_env := env;
                            ct_topic := topic |} in
  match endpoint_url endpoint ["connections"; "sync"] (λ _, Error.Custom "Invalid API endpoint") with
  | Err e => Ret (Err e)
  | Ok _ =>
    res <- http_post ("Bearer " +:+ Str.trim token) (PostConnectionsSync conn_type_param);;
    Ret (sync_answer res)
  end.
End client.

(** ** An example *)

Definition example_node : Node := {|
  Node.uuid := 9%N; Node.env := Env.Dev; Node.hostname := "node"; Node.address := 1;
  Node.status := NodeStatus.Online; Node.label := "label"; Node.interface := "eth0";
  Node.created_at := 0; Node.modified_at := 0; Node.inbounds := ∅; Node.cores := 4;
  Node.max_bandwidth_bps := 1000; Node.country := "NL"; Node.type := NodeType.Common |}.
