(* ===== verification/Warp.v ===== *)
(** * Filters

    What the servers take from warp, as its documentation states it, over the
    state [St] that their handlers work on: a filter looks at a request and at
    what is left of its path, and extracts a value or rejects, with causes that [Rejection::find] can see; [and], [or],
    [and_then] and the filters of the crate are an interface with their laws,
    which [documented] implements.

    A table of entries (method, path, what to read) is what a chain of [or]
    should amount to; [chain_dispatch] proves that it does when no two entries
    fit the same request. *)
From S2P Require Import Prelude Task Foreign Naming Wireguard Connection ConnStore Subscription.
From S2P Require Import Key Inbound Node Link Metrics Db World Http.
Local Open Scope Z_scope.
Local Open Scope prog_scope.

Inductive Method : Set :=
| GET | POST | PUT | DELETE | OPTIONS | OtherMethod (name : string).
#[export] Instance Method_eq_dec : EqDecision Method.
Proof. solve_decision. Defined.

(** A request as the filters see it: the segments of its path, its query, its
    headers by lower-case name (the value is [None] when it is not text), and
    its body with whether its type is JSON's and whether it is a websocket's
    handshake. *)
Record HttpRequest : Set := {
  method : Method;
  path : list string;
  query_string : option string;
  headers : gmap string (option string);
  body : string;
  is_json : bool;
  is_websocket : bool;
}.

(** What a rejection is known by; [warp::reject::not_found] has no cause. *)
Inductive Cause : Set :=
| MethodNotAllowed
| InvalidHeader (name : string)
| InvalidQuery
| UnsupportedMediaType
| BodyDeserialize
| NotWebsocket
| CorsForbidden
| Own (r : Rejection).
#[export] Existing Instance Error.Error_eq_dec.
#[export] Instance Rejection_eq_dec : EqDecision Rejection.
Proof. solve_decision. Defined.
#[export] Instance Cause_eq_dec : EqDecision Cause.
Proof. solve_decision. Defined.
Notation Causes := (list Cause).

(** The status of a rejection that nothing recovers. *)
Definition cause_status (c : Cause) : Z :=
  match c with
  | MethodNotAllowed => 405
  | InvalidHeader _ | InvalidQuery | BodyDeserialize | NotWebsocket => 400
  | UnsupportedMediaType => 415
  | CorsForbidden => 403
  | Own r => unrecovered_status r
  end.

Notation Outcome A := (result (A * list string) Causes).

Class Warp (St : Type) := {
  Filter : Type → Type;
  exec : ∀ {A}, Filter A → HttpRequest → list string → Prog St (Outcome A);
  any : Filter unit;
  meth : Method → Filter unit;
  segment : string → Filter unit;
  path_end : Filter unit;
  param : ∀ {A}, (string → option A) → Filter A;
  header : string → Filter string;
  query : ∀ {A}, (option string → option A) → Filter A;
  json : ∀ {A}, (string → option A) → Filter A;
  ws : Filter unit;
  and : ∀ {A B}, Filter A → Filter B → Filter (A * B);
  map : ∀ {A B}, Filter A → (A → B) → Filter B;
  and_then : ∀ {A B}, Filter A → (A → Prog St (result B Causes)) → Filter B;
  or : ∀ {A}, Filter A → Filter A → Filter A;
  recover : ∀ {A}, Filter A → (Causes → result A Causes) → Filter A;
  with_cors : ∀ {A}, (string → bool) → (HttpRequest → result A Causes) → Filter A → Filter A;
  (** which origins may ask, by those that were listed *)
  cors_allows : list string → string → bool;
  (** the status of combined rejections *)
  warp_status : Causes → Z;

  exec_any r p : exec any r p = Ret (Ok (tt, p));
  exec_meth m r p :
    exec (meth m) r p = Ret (if decide (method r = m) then Ok (tt, p) else Err [MethodNotAllowed]);
  exec_segment s r p :
    exec (segment s) r p = Ret match p with
      | s' :: p' => if decide (s' = s) then Ok (tt, p') else Err []
      | [] => Err [] end;
  exec_path_end r p :
    exec path_end r p = Ret match p with [] => Ok (tt, []) | _ :: _ => Err [] end;
  exec_param {A} (f : string → option A) r p :
    exec (param f) r p = Ret match p with
      | s :: p' => match f s with Some a => Ok (a, p') | None => Err [] end
      | [] => Err [] end;
  exec_header n r p :
    exec (header n) r p = Ret match headers r !! n with
      | None => Err [Own (MissingHeader n)]
      | Some None => Err [InvalidHeader n]
      | Some (Some h) => Ok (h, p) end;
  exec_query {A} (f : option string → option A) r p :
    exec (query f) r p =
      Ret match f (query_string r) with Some a => Ok (a, p) | None => Err [InvalidQuery] end;
  exec_json {A} (f : string → option A) r p :
    exec (json f) r p =
      Ret (if is_json r then match f (body r) with Some a => Ok (a, p) | None => Err [BodyDeserialize] end
           else Err [UnsupportedMediaType]);
  exec_ws r p :
    exec ws r p = Ret (if decide (method r = GET)
      then if is_websocket r then Ok (tt, p) else Err [NotWebsocket]
      else Err [MethodNotAllowed]);
  exec_and {A B} (f : Filter A) (g : Filter B) r p :
    exec (and f g) r p =
      (x <-? exec f r p;; y <-? exec g r x.2;; Ret (Ok ((x.1, y.1), y.2)));
  exec_map {A B} (f : Filter A) (h : A → B) r p :
    exec (map f h) r p = (x <-? exec f r p;; Ret (Ok (h x.1, x.2)));
  exec_and_then {A B} (f : Filter A) (h : A → Prog St (result B Causes)) r p :
    exec (and_then f h) r p = (x <-? exec f r p;; b <-? h x.1;; Ret (Ok (b, x.2)));
  exec_or {A} (f g : Filter A) r p :
    exec (or f g) r p =
      (o <- exec f r p;;
       match o with
       | Ok x => Ret (Ok x)
       | Err e => o' <- exec g r p;; Ret match o' with Ok x => Ok x | Err e' => Err (e ++ e') end
       end);
  exec_recover {A} (f : Filter A) h r p :
    exec (recover f h) r p =
      (o <- exec f r p;;
       Ret match o with
           | Ok x => Ok x
           | Err e => match h e with Ok a => Ok (a, p) | Err e' => Err e' end
           end);
  exec_with_cors {A} allowed (preflight : HttpRequest → result A Causes) (f : Filter A) r p :
    exec (with_cors allowed preflight f) r p =
      match headers r !! "origin" with
      | None => exec f r p
      | Some o =>
        if negb (from_option allowed false o) then Ret (Err [CorsForbidden])
        else if decide (method r = OPTIONS) then
          Ret match preflight r with Ok a => Ok (a, p) | Err e => Err e end
        else exec f r p
      end;

  cors_allows_listed l o : l ≠ [] → cors_allows l o = bool_decide (o ∈ l);
  status_nil : warp_status [] = 404;
  (** beside another cause, a wrong method does not count *)
  status_only l c : c ∈ l → Forall (λ c', c' = c ∨ c' = MethodNotAllowed) l →
    warp_status l = cause_status c;
}.

(** The interface as the documentation describes it. *)
Module Documented.
Section filters.
Context {St : Type}.
Notation F A := (HttpRequest → list string → Prog St (Outcome A)).
Definition meth (m : Method) : F unit := λ r p,
  Ret (if decide (method r = m) then Ok (tt, p) else Err [MethodNotAllowed]).
Definition segment (s : string) : F unit := λ r p,
  Ret match p with
      | s' :: p' => if decide (s' = s) then Ok (tt, p') else Err []
      | [] => Err []
      end.
Definition path_end : F unit := λ r p,
  Ret match p with [] => Ok (tt, []) | _ :: _ => Err [] end.
Definition param {A} (f : string → option A) : F A := λ r p,
  Ret match p with
      | s :: p' => match f s with Some a => Ok (a, p') | None => Err [] end
      | [] => Err []
      end.
Definition header (n : string) : F string := λ r p,
  Ret match headers r !! n with
      | None => Err [Own (MissingHeader n)]
      | Some None => Err [InvalidHeader n]
      | Some (Some h) => Ok (h, p)
      end.
Definition query {A} (f : option string → option A) : F A := λ r p,
  Ret match f (query_string r) with Some a => Ok (a, p) | None => Err [InvalidQuery] end.
Definition json {A} (f : string → option A) : F A := λ r p,
  Ret (if is_json r then match f (body r) with Some a => Ok (a, p) | None => Err [BodyDeserialize] end
       else Err [UnsupportedMediaType]).
Definition ws : F unit := λ r p,
  Ret (if decide (method r = GET)
       then if is_websocket r then Ok (tt, p) else Err [NotWebsocket]
       else Err [MethodNotAllowed]).
Definition and {A B} (f : F A) (g : F B) : F (A * B) := λ r p,
  x <-? f r p;; y <-? g r x.2;; Ret (Ok ((x.1, y.1), y.2)).
Definition map {A B} (f : F A) (h : A → B) : F B := λ r p, x <-? f r p;; Ret (Ok (h x.1, x.2)).
Definition and_then {A B} (f : F A) (h : A → Prog St (result B Causes)) : F B := λ r p,
  x <-? f r p;; b <-? h x.1;; Ret (Ok (b, x.2)).
Definition or {A} (f g : F A) : F A := λ r p,
  o <- f r p;;
  match o with
  | Ok x => Ret (Ok x)
  | Err e => o' <- g r p;; Ret match o' with Ok x => Ok x | Err e' => Err (e ++ e') end
  end.
Definition recover {A} (f : F A) (h : Causes → result A Causes) : F A := λ r p,
  o <- f r p;;
  Ret match o with
      | Ok x => Ok x
      | Err e => match h e with Ok a => Ok (a, p) | Err e' => Err e' end
      end.
Definition with_cors {A} (allowed : string → bool) (preflight : HttpRequest → result A Causes)
    (f : F A) : F A := λ r p,
  match headers r !! "origin" with
  | None => f r p
  | Some o =>
    if negb (from_option allowed false o) then Ret (Err [CorsForbidden])
    else if decide (method r = OPTIONS) then
      Ret match preflight r with Ok a => Ok (a, p) | Err e => Err e end
    else f r p
  end.
Definition cors_allows (l : list string) (o : string) : bool :=
  match l with [] => true | _ => bool_decide (o ∈ l) end.
Lemma cors_allows_listed l o : l ≠ [] → cors_allows l o = bool_decide (o ∈ l).
Proof. by destruct l. Qed.
Definition warp_status (l : Causes) : Z :=
  match filter (.≠ MethodNotAllowed) l, l with
  | c :: _, _ => cause_status c
  | [], [] => 404
  | [], _ :: _ => 405
  end.
Lemma status_only l c :
  c ∈ l → Forall (λ c', c' = c ∨ c' = MethodNotAllowed) l → warp_status l = cause_status c.
Proof.
  intros Hc Hl. unfold warp_status. destruct (filter _ l) as [|c' l'] eqn:Hf.
  - destruct (decide (c = MethodNotAllowed)) as [->|Hn]; [by destruct l; [inversion Hc|]|].
    assert (c ∈ filter (.≠ MethodNotAllowed) l) as H by by apply list_elem_of_filter.
    rewrite Hf in H. inversion H.
  - assert (c' ∈ filter (.≠ MethodNotAllowed) l) as H by (rewrite Hf; constructor).
    apply list_elem_of_filter in H as [Hn H]. rewrite Forall_forall in Hl.
    by destruct (Hl _ H) as [->|].
Qed.
End filters.
End Documented.

#[export] Instance documented {St} : Warp St.
Proof.
  refine {| Filter A := HttpRequest → list string → Prog St (Outcome A); exec A f := f;
    any := λ r p, Ret (Ok (tt, p)); meth := Documented.meth; segment := Documented.segment;
    path_end := Documented.path_end; param := @Documented.param St; header := Documented.header;
    query := @Documented.query St; json := @Documented.json St; ws := Documented.ws;
    and := @Documented.and St; map := @Documented.map St; and_then := @Documented.and_then St;
    or := @Documented.or St; recover := @Documented.recover St; with_cors := @Documented.with_cors St;
    cors_allows := Documented.cors_allows; cors_allows_listed := Documented.cors_allows_listed;
    warp_status := Documented.warp_status; status_only := Documented.status_only |};
    reflexivity.
Defined.

#[export] Hint Rewrite @exec_any @exec_meth @exec_segment @exec_path_end @exec_param @exec_header
  @exec_query @exec_json @exec_ws @exec_and @exec_map @exec_and_then : exec.

Notation "f & g" := (and f g) (at level 50, left associativity) : prog_scope.

Section chain.
Context {St : Type} `{!Warp St} {A : Type}.
Implicit Types (f g : Filter A) (r : HttpRequest).

(** A filter on a whole request, without what is left of the path. *)
Definition forget (o : Outcome A) : result A Causes :=
  match o with Ok (a, _) => Ok a | Err e => Err e end.
Definition ask_filter f r : Prog St (result A Causes) :=
  o <- exec f r (path r);; Ret (forget o).

(** [f0.or(f1).or(f2)...] *)
Definition chain f (fs : list (Filter A)) : Filter A := foldl or f fs.

(** It is not for [r]: it rejects, doing nothing, for no other cause than the
    method. *)
Definition passes r f : Prop :=
  ∃ l, exec f r (path r) = Ret (Err l) ∧ Forall (eq MethodNotAllowed) l.

(** The same, but for the causes that other methods' routes add. *)
Definition own (l : Causes) : Causes := filter (.≠ MethodNotAllowed) l.
Definition alike (x y : St * option (result A Causes)) : Prop :=
  x.1 = y.1 ∧
  match x.2, y.2 with
  | Some (Ok a), Some (Ok b) => a = b
  | Some (Err l), Some (Err l') => own l = own l'
  | None, None => True
  | _, _ => False
  end.
#[export] Instance alike_equiv : Equivalence alike.
Proof.
  split.
  - intros [w [[]|]]; by split.
  - intros [w [[]|]] [w' [[]|]] [? ?]; by split.
  - intros [w1 [[]|]] [w2 [[]|]] [w3 [[]|]] [? ?] [? ?]; cbn in *; (split; cbn; [congruence|]); done || congruence.
Qed.

Lemma own_passing l : Forall (eq MethodNotAllowed) l → own l = [].
Proof.
  induction 1 as [|c l <- Hl IH]; [done|]. unfold own. by rewrite filter_cons_False by auto.
Qed.

Lemma run_ask f r w :
  run (ask_filter f r) w =
  let '(w', o) := run (exec f r (path r)) w in (w', forget <$> o).
Proof. unfold ask_filter. rewrite run_bind. by destruct (run _ w) as [w' [o|]]. Qed.

Lemma ask_or f g r w :
  run (ask_filter (or f g) r) w =
  match run (ask_filter f r) w with
  | (w', Some (Err e)) =>
    match run (ask_filter g r) w' with
    | (w'', Some (Err e')) => (w'', Some (Err (e ++ e')))
    | x => x
    end
  | x => x
  end.
Proof.
  rewrite !run_ask, exec_or, run_bind. destruct (run _ w) as [w' [[[a p]|e]|]]; cbn; [done| |done].
  rewrite run_ask, run_bind. by destruct (run _ w') as [w'' [[[a p]|e']|]].
Qed.

Lemma passes_run f r w :
  passes r f → ∃ l, run (ask_filter f r) w = (w, Some (Err l)) ∧ own l = [].
Proof.
  intros (l & He & Hl). exists l. rewrite run_ask, He. split; [done|by apply own_passing].
Qed.

Lemma alike_or_left f g r w :
  passes r f → alike (run (ask_filter (or f g) r) w) (run (ask_filter g r) w).
Proof.
  intros Hf. destruct (passes_run f r w Hf) as (l & Hl & Ho). rewrite ask_or, Hl.
  destruct (run (ask_filter g r) w) as [w' [[a|e]|]]; split; cbn; [done..| |done|done].
  by unfold own in *; rewrite filter_app, Ho.
Qed.
Lemma alike_or_right f g r w :
  passes r g → alike (run (ask_filter (or f g) r) w) (run (ask_filter f r) w).
Proof.
  intros Hg. rewrite ask_or. destruct (run (ask_filter f r) w) as [w' [[a|e]|]]; [done| |done].
  destruct (passes_run g r w' Hg) as (l & -> & Ho). split; cbn; [done|].
  by unfold own in *; rewrite filter_app, Ho, app_nil_r.
Qed.

Lemma passes_or r f g : passes r f → passes r g → passes r (or f g).
Proof.
  intros (l & Hf & Hl) (l' & Hg & Hl'). exists (l ++ l'). rewrite exec_or, Hf. cbn.
  rewrite Hg. split; [done|by apply Forall_app].
Qed.
Lemma passes_chain r fs f : passes r f → Forall (passes r) fs → passes r (chain f fs).
Proof.
  intros Hf Hfs. revert f Hf. induction Hfs as [|g fs Hg _ IH]; intros f Hf; [done|].
  by apply IH, passes_or.
Qed.

Lemma chain_first r w fs f :
  Forall (passes r) fs → alike (run (ask_filter (chain f fs) r) w) (run (ask_filter f r) w).
Proof.
  intros Hfs. revert f. induction Hfs as [|g fs Hg _ IH]; intros f; [reflexivity|].
  etransitivity; [apply IH|]. by apply alike_or_right.
Qed.
(** Of a chain in which all others pass, only one filter is seen. *)
Lemma chain_only r w f l1 g l2 :
  passes r f → Forall (passes r) l1 → Forall (passes r) l2 →
  alike (run (ask_filter (chain f (l1 ++ g :: l2)) r) w) (run (ask_filter g r) w).
Proof.
  intros Hf H1 H2. unfold chain. rewrite foldl_app. cbn.
  etransitivity; [by apply chain_first|]. by apply alike_or_left, passes_chain.
Qed.

(** ** Tables *)

(** A method, a path ([None] is any segment) that may go on, and what a request
    for it means. *)
Record Entry := {
  e_method : Method;
  e_pattern : list (option string);
  e_open : bool;
  e_read : HttpRequest → Prog St (result A Causes);
}.
Fixpoint fits (pattern : list (option string)) (goes_on : bool) (p : list string) : bool :=
  match pattern, p with
  | [], [] => true
  | [], _ :: _ => goes_on
  | None :: pattern, _ :: p => fits pattern goes_on p
  | Some s :: pattern, s' :: p => bool_decide (s' = s) && fits pattern goes_on p
  | _ :: _, [] => false
  end.
Definition takes (r : HttpRequest) (e : Entry) : bool :=
  bool_decide (method r = e_method e) && fits (e_pattern e) (e_open e) (path r).
Definition dispatch (es : list Entry) (r : HttpRequest) : Prog St (result A Causes) :=
  match List.find (takes r) es with Some e => e_read e r | None => Ret (Err []) end.

(** No path fits both. *)
Fixpoint apart (p1 : list (option string)) (o1 : bool) (p2 : list (option string)) (o2 : bool) :
    bool :=
  match p1, p2 with
  | [], [] => false
  | [], _ :: _ => negb o1
  | _ :: _, [] => negb o2
  | Some s :: p1, Some s' :: p2 => negb (bool_decide (s = s')) || apart p1 o1 p2 o2
  | _ :: p1, _ :: p2 => apart p1 o1 p2 o2
  end.
Lemma apart_sound p1 o1 p2 o2 p :
  apart p1 o1 p2 o2 = true → fits p1 o1 p = true → fits p2 o2 p = false.
Proof.
  revert p2 p. induction p1 as [|[s1|] p1 IH]; intros [|[s2|] p2] [|s p]; cbn; try done.
  all: rewrite ?negb_true_iff, ?andb_true_iff, ?bool_decide_eq_true, ?orb_true_iff.
  all: try (intros -> ?; done).
  all: try (intros ?; naive_solver).
  - intros [Hn|Ha] [-> Hf].
    + apply negb_true_iff, bool_decide_eq_false in Hn. by rewrite bool_decide_false.
    + rewrite (IH _ _ Ha Hf). by apply andb_false_r.
  - intros Ha Hf. rewrite (IH _ _ Ha Hf). by apply andb_false_r.
Qed.

Definition disjoint_entries (e1 e2 : Entry) : bool :=
  negb (bool_decide (e_method e1 = e_method e2)) ||
  apart (e_pattern e1) (e_open e1) (e_pattern e2) (e_open e2).
Fixpoint all_apart (es : list Entry) : bool :=
  match es with [] => true | e :: es => forallb (disjoint_entries e) es && all_apart es end.

Lemma disjoint_takes r e1 e2 :
  disjoint_entries e1 e2 = true → takes r e1 = true → takes r e2 = false.
Proof.
  unfold disjoint_entries, takes. intros [Hm|Ha]%orb_true_iff [->%bool_decide_eq_true Hf]%andb_prop.
  - apply negb_true_iff, bool_decide_eq_false in Hm. by rewrite bool_decide_false.
  - rewrite (apart_sound _ _ _ _ _ Ha Hf). by apply andb_false_r.
Qed.

(** [f] is the filter of the entry [e]: it answers the same, by the same
    actions. *)
Definition implements f (e : Entry) : Prop := ∀ r,
  if takes r e then
    (∀ w, run (ask_filter f r) w = run (e_read e r) w) ∧ same (exec f r (path r)) (e_read e r)
  else passes r f.

Lemma implements_passes f e r : implements f e → takes r e = false → passes r f.
Proof. intros Hi Ht. specialize (Hi r). by rewrite Ht in Hi. Qed.
Lemma all_implements_pass r fs es :
  Forall2 implements fs es → Forall (λ e, takes r e = false) es → Forall (passes r) fs.
Proof.
  intros Hi. induction Hi as [|f e fs es Hf _ IH]; [done|]. inversion 1; subst.
  constructor; [by eapply implements_passes|auto].
Qed.

Lemma find_only r es e :
  all_apart es = true → List.find (takes r) es = Some e →
  ∃ l1 l2, es = l1 ++ e :: l2 ∧ takes r e = true ∧
    Forall (λ e, takes r e = false) l1 ∧ Forall (λ e, takes r e = false) l2.
Proof.
  induction es as [|e0 es IH]; cbn; [done|]. intros [Ha Hes]%andb_prop.
  destruct (takes r e0) eqn:Ht.
  - intros [= <-]. exists [], es. split_and!; [done..|constructor|].
    apply Forall_forall. intros e' He'. rewrite forallb_forall in Ha.
    eapply disjoint_takes; [apply Ha; by apply list_elem_of_In|done].
  - intros Hf. destruct (IH Hes Hf) as (l1 & l2 & -> & ? & ? & ?).
    exists (e0 :: l1), l2. split_and!; [done..|by constructor|done].
Qed.
Lemma find_none r es :
  List.find (takes r) es = None → Forall (λ e, takes r e = false) es.
Proof.
  induction es as [|e es IH]; cbn; [constructor|]. destruct (takes r e) eqn:Ht; [done|].
  constructor; auto.
Qed.

(** A chain of the entries' filters does what the table says. *)
Lemma chain_dispatch f fs e es :
  implements f e → Forall2 implements fs es → all_apart (e :: es) = true →
  ∀ r w, alike (run (ask_filter (chain f fs) r) w) (run (dispatch (e :: es) r) w).
Proof.
  intros Hf Hfs Ha r w. unfold dispatch.
  destruct (List.find (takes r) (e :: es)) as [e'|] eqn:Hfind.
  - destruct (find_only _ _ _ Ha Hfind) as (l1 & l2 & He & Ht & H1 & H2).
    destruct l1 as [|e0 l1]; injection He as <- ->.
    + etransitivity; [by eapply chain_first, all_implements_pass|].
      specialize (Hf r). rewrite Ht in Hf. by rewrite (proj1 Hf).
    + apply Forall2_app_inv_r in Hfs as (fs1 & fs2 & Hfs1 & Hfs2 & ->).
      inversion Hfs2 as [|g ? fs2' ? Hg Hfs2']; subst. inversion H1; subst.
      etransitivity; [apply chain_only; [by eapply implements_passes|by eapply all_implements_pass..]|].
      specialize (Hg r). rewrite Ht in Hg. by rewrite (proj1 Hg).
  - apply find_none in Hfind. inversion Hfind; subst.
    destruct (passes_run (chain f fs) r w) as (l & -> & Ho); [|by split].
    apply passes_chain; [by eapply implements_passes|by eapply all_implements_pass].
Qed.

Lemma apart_sym p1 o1 p2 o2 : apart p1 o1 p2 o2 = apart p2 o2 p1 o1.
Proof.
  revert p2. induction p1 as [|[s1|] p1 IH]; intros [|[s2|] p2]; cbn; rewrite ?IH; try done.
  do 2 f_equal. apply bool_decide_ext. naive_solver.
Qed.
Lemma disjoint_entries_sym e1 e2 : disjoint_entries e1 e2 = disjoint_entries e2 e1.
Proof.
  unfold disjoint_entries. rewrite apart_sym. do 2 f_equal. apply bool_decide_ext. naive_solver.
Qed.
#[export] Instance all_apart_permute : Proper ((≡ₚ) ==> (=)) all_apart.
Proof.
  assert (∀ P, Proper ((≡ₚ) ==> (=)) (@forallb Entry P)) as Hp.
  { intros P l1 l2 Hl. induction Hl; cbn; [done|by f_equal| |congruence].
    by rewrite !andb_assoc, (andb_comm (P y)). }
  intros l1 l2 Hl. induction Hl as [|e l1 l2 Hl IH|e1 e2 l|]; cbn; [done| | |congruence].
  - by rewrite IH, Hl.
  - rewrite (disjoint_entries_sym e2 e1). destruct (disjoint_entries e1 e2), (forallb _ l), (forallb _ l); done.
Qed.

Lemma dispatch_permute es es' r :
  all_apart es = true → es ≡ₚ es' → dispatch es r = dispatch es' r.
Proof.
  intros Ha Hp. unfold dispatch. destruct (List.find (takes r) es) as [e|] eqn:Hf.
  - destruct (find_only _ _ _ Ha Hf) as (l1 & l2 & -> & Ht & H1 & H2).
    destruct (List.find (takes r) es') as [e'|] eqn:Hf'.
    + rewrite Hp in Ha. destruct (find_only _ _ _ Ha Hf') as (k1 & k2 & -> & Ht' & _).
      assert (e' ∈ l1 ++ e :: l2) as He' by (rewrite Hp; set_solver).
      rewrite Forall_forall in H1, H2. rewrite elem_of_app, elem_of_cons in He'.
      destruct He' as [He'|[->|He']]; [|done|].
      * apply H1 in He'. congruence.
      * apply H2 in He'. congruence.
    + apply find_none in Hf'. rewrite Forall_forall in Hf'.
      rewrite (Hf' e) in Ht by (rewrite <- Hp; set_solver). done.
  - apply find_none in Hf. rewrite Hp in Hf. destruct (List.find _ es') as [e|] eqn:Hf'; [|done].
    apply List.find_some in Hf' as [Hin Ht]. rewrite Forall_forall in Hf.
    rewrite (Hf e) in Ht by (by apply list_elem_of_In). done.
Qed.

Lemma dispatch_at es e r :
  all_apart es = true → e ∈ es → takes r e = true → dispatch es r = e_read e r.
Proof.
  intros Ha He Ht. apply elem_of_Permutation in He as [es' Hp].
  rewrite (dispatch_permute _ _ r Ha Hp). unfold dispatch. cbn. by rewrite Ht.
Qed.

(** And by the same actions. *)
Lemma same_or_left f g r :
  passes r f → same (exec (or f g) r (path r)) (exec g r (path r)).
Proof.
  intros (l & Hf & _). rewrite exec_or, Hf. cbn. apply same_bind. eauto.
Qed.
Lemma same_or_right f g r :
  passes r g → same (exec (or f g) r (path r)) (exec f r (path r)).
Proof.
  intros (l & Hg & _). rewrite exec_or. apply same_bind. intros [x|e]; [eauto|].
  rewrite Hg. cbn. eauto.
Qed.
Lemma same_first r fs f :
  Forall (passes r) fs → same (exec (chain f fs) r (path r)) (exec f r (path r)).
Proof.
  intros Hfs. revert f. induction Hfs as [|g fs Hg _ IH]; intros f; [apply same_refl|].
  eapply same_trans; [apply IH|]. by apply same_or_right.
Qed.
Lemma same_dispatch f fs e es :
  implements f e → Forall2 implements fs es → all_apart (e :: es) = true →
  ∀ r, same (exec (chain f fs) r (path r)) (dispatch (e :: es) r).
Proof.
  intros Hf Hfs Ha r. unfold dispatch.
  destruct (List.find (takes r) (e :: es)) as [e'|] eqn:Hfind.
  - destruct (find_only _ _ _ Ha Hfind) as (l1 & l2 & He & Ht & H1 & H2).
    destruct l1 as [|e0 l1]; injection He as <- ->.
    + eapply same_trans; [by eapply same_first, all_implements_pass|].
      specialize (Hf r). rewrite Ht in Hf. apply Hf.
    + apply Forall2_app_inv_r in Hfs as (fs1 & fs2 & Hfs1 & Hfs2 & ->).
      inversion Hfs2 as [|g ? fs2' ? Hg Hfs2']; subst. inversion H1; subst.
      unfold chain. rewrite foldl_app. cbn.
      eapply same_trans; [by eapply (same_first r fs2'), all_implements_pass|].
      eapply same_trans.
      * apply same_or_left, passes_chain; [by eapply implements_passes|by eapply all_implements_pass].
      * specialize (Hg r). rewrite Ht in Hg. apply Hg.
  - apply find_none in Hfind. inversion Hfind; subst.
    assert (passes r (chain f fs)) as (l & -> & _); [|apply same_ret].
    apply passes_chain; [by eapply implements_passes|by eapply all_implements_pass].
Qed.

(** Whichever order they are in. *)
Lemma chain_permute f fs f' fs' e es :
  implements f e → Forall2 implements fs es → all_apart (e :: es) = true →
  f :: fs ≡ₚ f' :: fs' →
  ∀ r w, alike (run (ask_filter (chain f fs) r) w) (run (ask_filter (chain f' fs') r) w).
Proof.
  intros Hf Hfs Ha Hp r w. rewrite (chain_dispatch f fs e es Hf Hfs Ha r w).
  assert (Forall2 implements (f :: fs) (e :: es)) as H2 by by constructor.
  destruct (Permutation_Forall2 Hp H2) as (es' & Hes & Hi).
  inversion Hi as [|? e' ? es'' Hf' Hfs']; subst.
  rewrite (dispatch_permute _ _ r Ha Hes). symmetry. apply chain_dispatch; [done..|].
  by rewrite <- Hes.
Qed.

(** A chain that rejects has the causes of all its filters. *)
Lemma chain_keeps r w fs f w' l :
  run (ask_filter (chain f fs) r) w = (w', Some (Err l)) →
  ∃ w1 l1, run (ask_filter f r) w = (w1, Some (Err l1)) ∧ l1 ⊆ l.
Proof.
  revert f. induction fs as [|g fs IH]; intros f Hr; [by eauto|].
  destruct (IH _ Hr) as (w1 & l1 & H1 & Hl). rewrite ask_or in H1.
  destruct (run (ask_filter f r) w) as [w2 [[a|e]|]]; [done| |done].
  destruct (run (ask_filter g r) w2) as [w3 [[a|e']|]]; [done| |done].
  injection H1 as <- <-. exists w2, e. split; [done|]. set_solver.
Qed.
Lemma chain_causes r w f fs g w' l lg :
  run (ask_filter (chain f fs) r) w = (w', Some (Err l)) → g ∈ f :: fs →
  exec g r (path r) = Ret (Err lg) → lg ⊆ l.
Proof.
  intros Hr Hg He. apply elem_of_cons in Hg as [->|Hg].
  - destruct (chain_keeps _ _ _ _ _ _ Hr) as (w1 & l1 & H1 & Hl).
    rewrite run_ask, He in H1. by injection H1 as _ <-.
  - apply list_elem_of_split in Hg as (a & b & ->).
    assert (chain f (a ++ g :: b) = chain (or (chain f a) g) b) as Hc.
    { unfold chain. by rewrite foldl_app. }
    rewrite Hc in Hr. destruct (chain_keeps _ _ _ _ _ _ Hr) as (w1 & l1 & H1 & Hl).
    rewrite ask_or in H1. destruct (run (ask_filter (chain f a) r) w) as [w2 [[x|e]|]]; [done| |done].
    rewrite run_ask, He in H1. injection H1 as _ <-. cbn in Hl. set_solver.
Qed.
End chain.
