(* ===== verification/Routing.v ===== *)
(** * The routes of the API server

    [Http::run] of [bin/api/http/routes.rs], filter by filter, with the filters
    of [http/filters.rs] and [bin/api/http/filters.rs], the parameters of
    [bin/api/http/param.rs] and the recovery of [bin/api/http/mod.rs].  How a
    query and a body are read is serde's, a parameter; the table [resources]
    says what the chain of routes amounts to, and [Api.serve] is what it does
    with a request that could be read. *)
From S2P Require Import Prelude Task Foreign Naming Wireguard Connection ConnStore Subscription.
From S2P Require Import Key Inbound Node Link Metrics Db World Sync Http ApiConn ApiSub ApiKey.
From S2P Require Import ApiTrial ApiNode Api Warp.
Local Open Scope Z_scope.
Local Open Scope prog_scope.

(** [SubIdQueryParam] -- bin/api/http/param.rs:5-9 *)
Record SubIdQueryParam : Set := { sq_id : Uuid; sq_env : option string }.
(** [NodesQueryParams] -- bin/api/http/param.rs:11-14 *)
Record NodesQueryParams : Set := { nq_env : option string }.
(** [NodeIdParam] -- bin/api/http/param.rs:15-18 *)
Record NodeIdParam : Set := { ni_id : Uuid }.
(** [ConnQueryParam] -- bin/api/http/param.rs:20-23 *)
Record ConnQueryParam : Set := { cq_id : Uuid }.
(** [KeyQueryParams] -- bin/api/http/param.rs:25-28 *)
Record KeyQueryParams : Set := { kq_key : Code.Code }.

(** serde's readers. *)
Class Readers := {
  query_sub_id : option string → option SubIdQueryParam;
  query_nodes : option string → option NodesQueryParams;
  query_node_id : option string → option NodeIdParam;
  query_conn : option string → option ConnQueryParam;
  query_key : option string → option KeyQueryParams;
  query_sub_info : option string → option SubscriptionInfoRequest;
  query_conn_info : option string → option ConnectionInfoRequest;
  json_node : string → option NodeRequest;
  json_sub : string → option SubReq;
  json_conn_type : string → option ConnType;
  json_conn : string → option ConnCreateRequest;
  json_key : string → option KeyReq;
  json_activate : string → option ActivateKeyReq;
  json_trial : string → option Trial;
}.

(** A websocket that was opened, by the loop that serves it:
    [Stream.handle_ws_client] or [Stream.handle_aggregated_ws]. *)
Inductive Socket : Set :=
| AllMetrics (node_id : Uuid) (series_hash : Z)
| Aggregate (tag_key tag_value metric_name : string).

(** What is sent back: a handler's reply, a socket, or the error that
    [rejection] made of a rejection. *)
Inductive Answer : Set :=
| Replied (r : Reply)
| Upgraded (s : Socket)
| ErrorReply (status : Z) (error : string).

(** [u64::from_str] *)
Definition parse_u64 (s : string) : option Z :=
  let s := match s with String "+" s => s | s => s end in
  if decide (s = EmptyString) then None else
  match parse_digits 0 s with
  | Some n => if decide (n <= U64_MAX) then Some n else None
  | None => None
  end.

Section routing.
Context `{!Oracle, !Postgres, !Ipv6Text, !UuidText, !IterOrder, !Chrono, !WgCrypto, !UrlLib,
  !Base32, !Hmac, !SeriesHash, !Rfc3339, !Warp World, !Readers}.
Context {V : Type} (metrics : MetricStorage (V := V)) (params : ServiceConfig)
  (cors_origins : list string) (preflight : HttpRequest → result Answer Causes).
Notation Route := (Filter Answer).

(** [auth] -- http/filters.rs:7-24 *)
Definition auth_filter (token : string) : Filter unit :=
  and_then (header "authorization") (λ auth_header, Ret
    (if Http.auth token (Some auth_header) then Ok tt
     else Err [Own (AuthError "Unauthorized")])).

(** [with_i64] -- http/filters.rs:32-43

    And [with_param_string], [with_u16]. *)
Definition with_value {A} (v : A) : Filter A := map any (λ _, v).
(** [with_sync] -- bin/api/http/filters.rs:15-32

    The handle of the shared state, which is the world itself. *)
Definition with_sync : Filter unit := map any (λ _, tt).
(** [with_param_vec] -- bin/api/http/filters.rs:34-58

    And [with_param_envs], [with_param_tags], [with_param_ipaddrmask],
    [with_param_vec_string]: one filter at five types. *)
Definition with_param {A} (p : A) : Filter A := map any (λ _, p).
(** [with_metrics] -- bin/api/http/filters.rs:60-64 *)
Definition with_metrics : Filter (MetricStorage (V := V)) := map any (λ _, metrics).
(** [with_email_store] -- bin/api/http/filters.rs:66-70

    By its signing key; its table and file are the world's. *)
Definition with_email_store : Filter (list Z) := map any (λ _, email_sign_token params).

(** [.and_then(handler)] *)
Definition handle {A} (f : Filter A) (h : A → Handler) : Route :=
  and_then f (λ a, r <- h a;; Ret match r with Ok r => Ok (Replied r) | Err e => Err [Own e] end).
(** [warp::path!] *)
Definition path_lits (s : string) (l : list string) : Filter unit :=
  map (foldl (λ f s, map (f & segment s) (λ _, tt)) (segment s) l & path_end) (λ _, tt).

Definition guard : Filter unit := auth_filter (token params).

(** [get_healthcheck_route] -- bin/api/http/routes.rs:65-69 *)
Definition get_healthcheck_route : Route :=
  handle (meth GET & segment "healthcheck" & path_end & with_sync) (λ _, healthcheck_handler).

(** [get_nodes_route] -- bin/api/http/routes.rs:71-78 *)
Definition get_nodes_route : Route :=
  handle (meth GET & segment "nodes" & path_end & query query_nodes & with_sync & with_metrics)
    (λ '(_, q, _, metrics), get_nodes_handler (nq_env q) metrics).

(** [post_node_register_route] -- bin/api/http/routes.rs:80-86 *)
Definition post_node_register_route : Route :=
  handle (meth POST & segment "node" & path_end & guard & json json_node & with_sync)
    (λ '(_, req, _), post_node_handler req).

(** [get_node_route] -- bin/api/http/routes.rs:88-94 *)
Definition get_node_route : Route :=
  handle (meth GET & segment "node" & path_end & guard & query query_node_id & with_sync)
    (λ '(_, q, _), get_node_handler (ni_id q)).

(** [get_subscription_route] -- bin/api/http/routes.rs:96-103 *)
Definition get_subscription_route : Route :=
  handle (meth GET & segment "sub" & path_end & query query_sub_info & with_sync &
      with_value (subscription_title params) & with_value (trial_limit_bytes params))
    (λ '(_, req, _, title, limit), subscription_link_handler req title limit).

(** [get_subscription_info_route] -- bin/api/http/routes.rs:105-110 *)
Definition get_subscription_info_route : Route :=
  handle (meth GET & (segment "subscription" & param uuid_parse & path_end) & path_end &
      with_sync & with_metrics)
    (λ '(_, (_, id, _), _, _, _), get_subscription_info_json id).

(** [post_subscription_route] -- bin/api/http/routes.rs:112-120 *)
Definition post_subscription_route : Route :=
  handle (meth POST & segment "subscription" & path_end & guard & json json_sub & with_sync &
      with_value (bonus_days params) & with_param (system_refer_codes params))
    (λ '(_, req, _, bonus, codes), post_subscription_handler req bonus codes).

(** [put_subscription_route] -- bin/api/http/routes.rs:122-129 *)
Definition put_subscription_route : Route :=
  handle (meth PUT & segment "subscription" & path_end & guard & query query_sub_id &
      json json_sub & with_sync)
    (λ '(_, q, req, _), put_subscription_handler (sq_id q) req).

(** [get_a_connection_route] -- bin/api/http/routes.rs:131-137 *)
Definition get_a_connection_route : Route :=
  handle (path_lits "connection" [] & meth GET & guard & query query_conn & with_sync)
    (λ '(_, q, _), get_connection_handler (cq_id q)).

(** [get_wg_connections_info_route] -- bin/api/http/routes.rs:139-143 *)
Definition get_wg_connections_info_route : Route :=
  handle (path_lits "info" ["connections"; "wireguard"] & meth GET & query query_conn_info & with_sync)
    (λ '(_, req, _), wireguard_connections_handler req).

(** [get_mtproto_connections_info_route] -- bin/api/http/routes.rs:145-149 *)
Definition get_mtproto_connections_info_route : Route :=
  handle (path_lits "info" ["connections"; "mtproto"] & meth GET & query query_conn_info & with_sync)
    (λ '(_, req, _), mtproto_connections_handler req).

(** [post_connections_sync_route] -- bin/api/http/routes.rs:151-157

    The path may go on. *)
Definition post_connections_sync_route : Route :=
  handle (segment "connections" & segment "sync" & meth POST & guard & json json_conn_type & with_sync)
    (λ '(_, req, _), get_connections_handler req).

(** [post_connection_route] -- bin/api/http/routes.rs:159-166 *)
Definition post_connection_route : Route :=
  handle (meth POST & segment "connection" & path_end & guard & json json_conn & with_sync &
      with_param (wireguard_network params))
    (λ '(_, req, _, network), create_connection_handler req network).

(** [delete_connection_route] -- bin/api/http/routes.rs:168-174 *)
Definition delete_connection_route : Route :=
  handle (meth DELETE & segment "connection" & path_end & guard & query query_conn & with_sync)
    (λ '(_, q, _), delete_connection_handler (cq_id q)).

(** [get_key_validation_route] -- bin/api/http/routes.rs:176-184 *)
Definition get_key_validation_route : Route :=
  handle (meth GET & segment "key" & segment "validate" & path_end & query query_key & with_sync &
      with_param (key_sign_token params))
    (λ '(_, q, _, secret), get_key_validate_handler (kq_key q) secret).

(** [post_key_route] -- bin/api/http/routes.rs:186-193 *)
Definition post_key_route : Route :=
  handle (meth POST & segment "key" & path_end & guard & json json_key & with_sync &
      with_param (key_sign_token params))
    (λ '(_, req, _, secret), post_key_handler req secret).

(** [post_activate_key_route] -- bin/api/http/routes.rs:195-201 *)
Definition post_activate_key_route : Route :=
  handle (meth POST & segment "key" & segment "activate" & path_end & json json_activate & with_sync)
    (λ '(_, req, _), post_activate_key_handler req).

(** [post_trial_route] -- bin/api/http/routes.rs:203-217 *)
Definition post_trial_route : Route :=
  handle (meth POST & segment "trial" & path_end & json json_trial & with_sync &
      with_email_store & with_param (wireguard_network params) &
      with_param (system_refer_codes params) & with_param (enabled_envs params) &
      with_param (enabled_tags params) & with_value (trial_limit_days params) &
      with_value (bonus_days params) & with_value (trial_limit_bytes params))
    (λ '(_, req, _, store, network, codes, envs, tags, days, bonus, limit),
       post_trial_handler req store network codes envs tags days bonus limit).

(** [ws_all_metrics_route] -- bin/api/http/routes.rs:219-229 *)
Definition ws_all_metrics_route : Route :=
  map (segment "metrics" & segment "all" & param uuid_parse & param parse_u64 & segment "ws" &
      path_end & ws & with_metrics)
    (λ '(_, node_id, series_hash, _, _, _, _), Upgraded (AllMetrics node_id series_hash)).

(** [ws_aggregate_route] -- bin/api/http/routes.rs:231-245 *)
Definition ws_aggregate_route : Route :=
  map (segment "metrics" & segment "aggregate" & param Some & param Some & param Some &
      segment "ws" & path_end & ws & with_metrics)
    (λ '(_, tag_key, tag_value, metric_name, _, _, _, _),
       Upgraded (Aggregate tag_key tag_value metric_name)).

Definition other_routes : list Route := [
  get_subscription_route; get_subscription_info_route; post_subscription_route;
  put_subscription_route; get_nodes_route; get_node_route; post_node_register_route;
  post_connection_route; post_connections_sync_route; delete_connection_route;
  get_mtproto_connections_info_route; get_wg_connections_info_route; get_a_connection_route;
  get_key_validation_route; post_key_route; post_activate_key_route; post_trial_route;
  ws_all_metrics_route; ws_aggregate_route].
(** [routes] -- bin/api/http/routes.rs:247-271 *)
Definition routes : Route := chain get_healthcheck_route other_routes.

(** [reject.find::<T>()] *)
Definition finds {A} (cause : Rejection → option A) (l : Causes) : option A :=
  head (omap (λ c, match c with Own r => cause r | _ => None end) l).

(** [rejection] -- bin/api/http/mod.rs:16-52 *)
Definition rejection (reject : Causes) : result Answer Causes :=
  if finds (λ r, match r with MethodError => Some tt | _ => None end) reject then
    Ok (ErrorReply 405 "Method Not Allowed")
  else if finds (λ r, match r with AuthError _ => Some tt | _ => None end) reject then
    Ok (ErrorReply 401 "UNAUTHORIZED")
  else match finds (λ r, match r with JsonError err => Some err | _ => None end) reject with
  | Some err => Ok (ErrorReply 400 err)
  | None =>
    if bool_decide (reject = []) then Ok (ErrorReply 404 "Not Found") else Err reject
  end.

(** [Http::run] -- bin/api/http/routes.rs:44-63

    With the end, at lines 268-279; the answer to a preflight is warp's.  That
    warp's builder panics on an origin of the settings that is none is left out:
    the process then ends before it serves. *)
Definition served : Route :=
  with_cors (cors_allows cors_origins) preflight (recover routes rejection).

(** ** The table *)

Definition authorised (r : HttpRequest) : result unit Causes :=
  match headers r !! "authorization" with
  | None => Err [Own (MissingHeader "authorization")]
  | Some None => Err [InvalidHeader "authorization"]
  | Some (Some h) =>
    if Http.auth (token params) (Some h) then Ok tt else Err [Own (AuthError "Unauthorized")]
  end.
Definition of_query {A} (f : option string → option A) (r : HttpRequest) : result A Causes :=
  ok_or (f (query_string r)) [InvalidQuery].
Definition of_json {A} (f : string → option A) (r : HttpRequest) : result A Causes :=
  if is_json r then ok_or (f (body r)) [BodyDeserialize] else Err [UnsupportedMediaType].
Definition of_path {A} (f : string → option A) (i : nat) (r : HttpRequest) : result A Causes :=
  ok_or (path r !! i ≫= f) [].
Definition of_socket (r : HttpRequest) : result unit Causes :=
  if is_websocket r then Ok tt else Err [NotWebsocket].

(** What a handler answered. *)
Definition answered (r : result Reply Rejection) : result Answer Causes :=
  match r with Ok r => Ok (Replied r) | Err e => Err [Own e] end.
Definition perform (q : result Request Causes) : IO (result Answer Causes) :=
  match q with
  | Ok q => r <- handler_of metrics params q;; Ret (answered r)
  | Err e => Ret (Err e)
  end.

Definition resource (m : Method) (p : list (option string))
    (reads : HttpRequest → result Request Causes) : Entry (A := Answer) :=
  {| e_method := m; e_pattern := p; e_open := false; e_read r := perform (reads r) |}.

Local Open Scope pony_scope.
Definition healthcheck_entry := resource GET [Some "healthcheck"] (λ r, Ok GetHealthcheck).
Definition resources : list Entry := [
  resource GET [Some "sub"] (λ r, let? q := of_query query_sub_info r in Ok (GetSub q));
  resource GET [Some "subscription"; None] (λ r,
    let? id := of_path uuid_parse 1 r in Ok (GetSubscription id));
  resource POST [Some "subscription"] (λ r,
    let? _ := authorised r in let? req := of_json json_sub r in Ok (PostSubscription req));
  resource PUT [Some "subscription"] (λ r,
    let? _ := authorised r in let? q := of_query query_sub_id r in
    let? req := of_json json_sub r in Ok (PutSubscription (sq_id q) req));
  resource GET [Some "nodes"] (λ r, let? q := of_query query_nodes r in Ok (GetNodes (nq_env q)));
  resource GET [Some "node"] (λ r,
    let? _ := authorised r in let? q := of_query query_node_id r in Ok (GetNode (ni_id q)));
  resource POST [Some "node"] (λ r,
    let? _ := authorised r in let? req := of_json json_node r in Ok (PostNode req));
  resource POST [Some "connection"] (λ r,
    let? _ := authorised r in let? req := of_json json_conn r in Ok (PostConnection req));
  {| e_method := POST; e_pattern := [Some "connections"; Some "sync"]; e_open := true;
     e_read r := perform (
       let? _ := authorised r in let? req := of_json json_conn_type r in
       Ok (PostConnectionsSync req)) |};
  resource DELETE [Some "connection"] (λ r,
    let? _ := authorised r in let? q := of_query query_conn r in Ok (DeleteConnection (cq_id q)));
  resource GET [Some "info"; Some "connections"; Some "mtproto"] (λ r,
    let? q := of_query query_conn_info r in Ok (GetMtproto q));
  resource GET [Some "info"; Some "connections"; Some "wireguard"] (λ r,
    let? q := of_query query_conn_info r in Ok (GetWireguard q));
  resource GET [Some "connection"] (λ r,
    let? _ := authorised r in let? q := of_query query_conn r in Ok (GetConnection (cq_id q)));
  resource GET [Some "key"; Some "validate"] (λ r,
    let? q := of_query query_key r in Ok (GetKeyValidate (kq_key q)));
  resource POST [Some "key"] (λ r,
    let? _ := authorised r in let? req := of_json json_key r in Ok (PostKey req));
  resource POST [Some "key"; Some "activate"] (λ r,
    let? req := of_json json_activate r in Ok (PostKeyActivate req));
  resource POST [Some "trial"] (λ r, let? req := of_json json_trial r in Ok (PostTrial req));
  {| e_method := GET; e_pattern := [Some "metrics"; Some "all"; None; None; Some "ws"];
     e_open := false; e_read r := Ret (
       let? node_id := of_path uuid_parse 2 r in let? series_hash := of_path parse_u64 3 r in
       let? _ := of_socket r in Ok (Upgraded (AllMetrics node_id series_hash))) |};
  {| e_method := GET;
     e_pattern := [Some "metrics"; Some "aggregate"; None; None; None; Some "ws"];
     e_open := false; e_read r := Ret (
       let? k := of_path Some 2 r in let? v := of_path Some 3 r in let? n := of_path Some 4 r in
       let? _ := of_socket r in Ok (Upgraded (Aggregate k v n))) |} ].

Lemma resources_apart : all_apart (healthcheck_entry :: resources) = true.
Proof. reflexivity. Qed.

(** Runs a route on a request of which nothing is known, by the laws of its
    filters. *)
Ltac filters :=
  repeat (progress (autorewrite with exec;
    cbn [bind fst snd forget run from_option default ok_or mbind option_bind e_method e_pattern
      e_open e_read fits andb negb foldl perform list_lookup lookup])).
Ltac route_case :=
  match goal with
  | H : path ?r = _ |- context [path ?r] => rewrite H
  | H : ?x = _ |- context [match ?x with None => _ | Some _ => _ end] => rewrite H
  | H : ?b = _ |- context [if ?b then _ else _] => rewrite H
  | |- context [decide (?a = ?b)] =>
    first [rewrite (decide_True (P := a = b)) by done | rewrite (decide_False (P := a = b)) by done
          |destruct (decide (a = b)) as [?|?]; [try subst a|]]
  | |- context [_ && false] => rewrite andb_false_r
  | |- context [bool_decide ?P] =>
    first [rewrite (bool_decide_true P) by done | rewrite (bool_decide_false P) by done]
  | |- context [match ?p with [] => _ | _ :: _ => _ end] => is_var p; destruct p
  | |- context [match ?x with None => _ | Some _ => _ end] => destruct x eqn:?
  | |- context [if ?b then _ else _] => destruct b eqn:?
  end.
Ltac route_run :=
  unfold implements, resource, handle, with_sync, with_metrics, with_email_store, with_value,
    with_param, guard, auth_filter, path_lits;
  intros r; unfold takes, passes, ask_filter, of_path, of_query, of_json, of_socket, authorised;
  remember (path r) as p eqn:Hp; symmetry in Hp; filters; repeat (route_case; filters).
(** The same handler, whatever is made of its answer. *)
Ltac same_handler :=
  eapply same_trans; [apply same_bind; intros []; eauto|];
  apply same_binds; [apply same_refl|..]; eauto.
Ltac route f := unfold f; route_run;
  first
  [ by eexists; split; [reflexivity|repeat constructor]
  | split; [intros ?|]; first
    [ reflexivity
    | apply same_ret
    | cbn [handler_of]; rewrite !run_bind; unfold answered;
      destruct (run _ _) as [? [[]|]]; reflexivity
    | cbn [handler_of]; same_handler ] ].

Lemma resources_implement :
  implements get_healthcheck_route healthcheck_entry ∧ Forall2 implements other_routes resources.
Proof.
  split; [unfold healthcheck_entry; route get_healthcheck_route|].
  unfold other_routes, resources. repeat apply List.Forall2_cons; [..|constructor].
  - route get_subscription_route.
  - route get_subscription_info_route.
  - route post_subscription_route.
  - route put_subscription_route.
  - route get_nodes_route.
  - route get_node_route.
  - route post_node_register_route.
  - route post_connection_route.
  - route post_connections_sync_route.
  - route delete_connection_route.
  - route get_mtproto_connections_info_route.
  - route get_wg_connections_info_route.
  - route get_a_connection_route.
  - route get_key_validation_route.
  - route post_key_route.
  - route post_activate_key_route.
  - route post_trial_route.
  - route ws_all_metrics_route.
  - route ws_aggregate_route.
Qed.

End routing.
