(* ===== verification/HttpSpec.v ===== *)
(** * What the routes do

    That the chain of [Routing] is its table, in whatever order; which status a
    rejection gets; what a request that can be read is answered, which is what
    [Api.serve] says; and what one without the server's token can do, and one
    for no route. *)
From S2P Require Import Prelude Task Foreign Naming Wireguard Connection ConnStore Subscription.
From S2P Require Import Key Inbound Node Link Metrics Db World Sync Background Http ApiConn ApiSub.
From S2P Require Import ApiKey ApiTrial ApiNode Api Warp Routing.
Local Open Scope Z_scope.
Local Open Scope prog_scope.

Section spec.
Context `{!Oracle, !Postgres, !Ipv6Text, !UuidText, !IterOrder, !Chrono, !WgCrypto, !UrlLib,
  !Base32, !Hmac, !SeriesHash, !Rfc3339, !Warp World, !Readers}.
Context {V : Type} (metrics : MetricStorage (V := V)) (params : ServiceConfig)
  (cors_origins : list string) (preflight : HttpRequest → result Answer Causes).
Notation Route := (Filter Answer).
Notation routes := (routes metrics params).
Notation served := (served metrics params cors_origins preflight).
Notation other_routes := (other_routes metrics params).

Notation table := (healthcheck_entry metrics params :: resources metrics params).

Lemma chain_is_table (r : HttpRequest) (w : World) :
  alike (run (ask_filter routes r) w) (run (dispatch table r) w).
Proof. apply chain_dispatch; [apply (resources_implement metrics params)..|apply resources_apart]. Qed.

(** C11: The chain of routes is the table.  Whatever the request, the state and
    the outside, the server does what the one entry that fits its method and
    path says, or nothing when none does: the panics and the effects are the
    same, the answer is the same, and so are the causes of a rejection but for
    the methods of other routes.  In particular no request reaches two handlers,
    even when the first one rejects. *)
Theorem routes_dispatch (r : HttpRequest) (w : World) :
  alike (run (ask_filter routes r) w) (run (dispatch table r) w).
Proof. apply chain_is_table. Qed.

(** The order in which [run] chains its routes is immaterial: any other does
    the same. *)
Theorem routes_any_order (f : Route) (fs : list Route) (r : HttpRequest) (w : World) :
  get_healthcheck_route :: other_routes ≡ₚ f :: fs →
  alike (run (ask_filter routes r) w) (run (ask_filter (chain f fs) r) w).
Proof.
  intros Hp. eapply chain_permute; [apply (resources_implement metrics params)..|apply resources_apart|done].
Qed.

(** ** Rejections *)

(** The status that is sent. *)
Definition sent_status (a : result Answer Causes) : Z :=
  match a with
  | Ok (Replied r) => reply_status r
  | Ok (Upgraded _) => 101
  | Ok (ErrorReply status _) => status
  | Err l => warp_status l
  end.

Lemma finds_own {A} (cause : Rejection → option A) l : finds cause l = finds cause (own l).
Proof.
  unfold finds, own. induction l as [|c l IH]; [done|].
  destruct (decide (c = MethodNotAllowed)) as [->|Hc].
  - by rewrite filter_cons_False by auto.
  - rewrite filter_cons_True by done. cbn. by destruct (match c with Own r => cause r | _ => None end).
Qed.

Lemma elem_own c l : c ∈ own l ↔ c ≠ MethodNotAllowed ∧ c ∈ l.
Proof. unfold own. by rewrite list_elem_of_filter. Qed.
Lemma own_status l c : own l = [c] → warp_status l = cause_status c.
Proof.
  intros Ho. apply status_only.
  - apply (elem_own c l). rewrite Ho. constructor.
  - apply Forall_forall. intros c' Hc'. destruct (decide (c' = MethodNotAllowed)); [by right|left].
    assert (c' ∈ own l) as He by by apply elem_own. rewrite Ho in He. by apply list_elem_of_singleton.
Qed.

(** One own cause is answered with the status of [Http.answer_status]. *)
Lemma rejection_own l e :
  own l = [Own e] → sent_status (rejection l) = answer_status (Err e).
Proof.
  intros Ho. unfold rejection. rewrite !(finds_own _ l), Ho. unfold answer_status.
  destruct e; cbn; try done.
  all: rewrite bool_decide_false by (by intros ->); cbn; by rewrite (own_status _ _ Ho).
Qed.

(** And one of warp's with its own. *)
Lemma rejection_other l c :
  own l = [c] → (∀ e, c ≠ Own e) → sent_status (rejection l) = cause_status c.
Proof.
  intros Ho Hc. unfold rejection. rewrite !(finds_own _ l), Ho.
  destruct c; try by edestruct Hc. all: cbn.
  all: rewrite bool_decide_false by (by intros ->); cbn; by rewrite (own_status _ _ Ho).
Qed.

(** What is answered is known from what the routes did. *)
Definition finish (o : result Answer Causes) : result Answer Causes :=
  match o with Ok a => Ok a | Err l => rejection l end.

(** The CORS filter first: it refuses the origins that are not allowed and
    answers the preflights of the others. *)
Definition cors_refuses (r : HttpRequest) : bool :=
  match headers r !! "origin" with
  | None => false
  | Some o => negb (from_option (cors_allows cors_origins) false o)
  end.
Lemma run_served r w :
  cors_refuses r = false → headers r !! "origin" = None ∨ method r ≠ OPTIONS →
  run (ask_filter served r) w =
  let '(w', o) := run (ask_filter routes r) w in (w', finish <$> o).
Proof.
  intros Hr Hm. rewrite !run_ask. unfold served. rewrite exec_with_cors.
  assert (∀ (x y : Prog World (result (Answer * list string) Causes)), match headers r !! "origin" with
    | None => x | Some o => if negb (from_option (cors_allows cors_origins) false o)
      then Ret (Err [CorsForbidden]) else if decide (method r = OPTIONS) then y else x end = x) as ->.
  { intros x y. unfold cors_refuses in Hr. destruct (headers r !! "origin") as [o|]; [|done].
    rewrite Hr. destruct Hm as [?|Hm]; [done|]. by rewrite decide_False. }
  rewrite exec_recover, run_bind.
  destruct (run _ w) as [w' [[[a p]|e]|]]; cbn; [done| |done].
  by destruct (rejection e).
Qed.
Lemma run_refused r w :
  cors_refuses r = true → run (ask_filter served r) w = (w, Some (Err [CorsForbidden])).
Proof.
  unfold cors_refuses. intros Hr. rewrite run_ask. unfold served. rewrite exec_with_cors.
  destruct (headers r !! "origin") as [o|]; [|done]. by rewrite Hr.
Qed.
Lemma run_preflight r w :
  cors_refuses r = false → headers r !! "origin" ≠ None → method r = OPTIONS →
  run (ask_filter served r) w = (w, Some (preflight r)).
Proof.
  unfold cors_refuses. intros Hr Ho Hm. rewrite run_ask. unfold served. rewrite exec_with_cors.
  destruct (headers r !! "origin") as [o|]; [|done]. rewrite Hr, decide_True by done. cbn.
  by destruct (preflight r).
Qed.
Lemma refused_status : sent_status (Err [CorsForbidden]) = 403.
Proof. apply (own_status _ CorsForbidden). reflexivity. Qed.

(** ** What a request asks for *)

(** [r] is a request for [q]: its method, path, query and body. *)
Definition asks (r : HttpRequest) (q : Request) : Prop :=
  let at_path m l := method r = m ∧ path r = l in
  let json {A} (f : string → option A) a := is_json r = true ∧ f (body r) = Some a in
  let query {A} (f : option string → option A) a := f (query_string r) = Some a in
  match q with
  | GetHealthcheck => at_path GET ["healthcheck"]
  | GetNodes env => at_path GET ["nodes"] ∧ query query_nodes {| nq_env := env |}
  | PostNode req => at_path POST ["node"] ∧ json json_node req
  | GetNode id => at_path GET ["node"] ∧ query query_node_id {| ni_id := id |}
  | GetSub req => at_path GET ["sub"] ∧ query query_sub_info req
  | GetSubscription id => ∃ s, at_path GET ["subscription"; s] ∧ uuid_parse s = Some id
  | PostSubscription req => at_path POST ["subscription"] ∧ json json_sub req
  | PutSubscription id req => at_path PUT ["subscription"] ∧ json json_sub req ∧
      ∃ env, query query_sub_id {| sq_id := id; sq_env := env |}
  | GetConnection id => at_path GET ["connection"] ∧ query query_conn {| cq_id := id |}
  | GetWireguard req => at_path GET ["info"; "connections"; "wireguard"] ∧ query query_conn_info req
  | GetMtproto req => at_path GET ["info"; "connections"; "mtproto"] ∧ query query_conn_info req
  | PostConnectionsSync req => at_path POST ["connections"; "sync"] ∧ json json_conn_type req
  | PostConnection req => at_path POST ["connection"] ∧ json json_conn req
  | DeleteConnection id => at_path DELETE ["connection"] ∧ query query_conn {| cq_id := id |}
  | GetKeyValidate code => at_path GET ["key"; "validate"] ∧ query query_key {| kq_key := code |}
  | PostKey req => at_path POST ["key"] ∧ json json_key req
  | PostKeyActivate req => at_path POST ["key"; "activate"] ∧ json json_activate req
  | PostTrial req => at_path POST ["trial"] ∧ json json_trial req
  end.

Lemma table_at n e r : table !! n = Some e → takes r e = true → dispatch table r = e_read e r.
Proof. intros Hn. eapply dispatch_at; [apply resources_apart|by eapply list_elem_of_lookup_2]. Qed.

(** The [n]th entry fits. *)
Ltac entry_takes :=
  unfold takes; cbn [e_method e_pattern e_open resource healthcheck_entry];
  repeat match goal with
    | H : method _ = _ |- _ => rewrite H
    | H : path _ = _ |- _ => rewrite H end;
  cbn [fits]; rewrite !bool_decide_true by done; by repeat case_match.
Ltac at_entry n := erewrite (table_at n); [|reflexivity|]; [|entry_takes].

Lemma run_perform q w :
  run (perform metrics params (Ok q)) w =
  let '(w', b) := run (handler_of metrics params q) w in (w', answered <$> b).
Proof. cbn. rewrite run_bind. by destruct (run _ w) as [w' [b|]]. Qed.

(** Judged by the header before anything else is read. *)
Lemma run_guarded r q h w x :
  guarded q = true → headers r !! "authorization" = Some <$> h → x = Ok q →
  run (perform metrics params match authorised params r with Ok _ => x | Err e => Err e end) w =
  let '(w', b) := run (serve metrics params h q) w in (w', answered <$> b).
Proof.
  intros Hg Hh ->. unfold authorised, serve. rewrite Hh, Hg. destruct h as [h|]; cbn [fmap option_fmap option_map].
  - destruct (Http.auth _ _); [apply run_perform|done].
  - done.
Qed.

Lemma run_open q h w x :
  guarded q = false → x = Ok q →
  run (perform metrics params x) w =
  let '(w', b) := run (serve metrics params h q) w in (w', answered <$> b).
Proof. intros Hg ->. unfold serve. rewrite Hg. apply run_perform. Qed.

(** The entry reads what the request asks for. *)
Ltac read_as :=
  unfold of_json, of_query, of_path;
  repeat match goal with
    | H : ?x = _ |- context [?x] => rewrite H; cbn [lookup list_lookup mbind option_bind]
    end; reflexivity.
Ltac serve_entry n :=
  at_entry n; cbn [e_read resource healthcheck_entry];
  first [apply run_open; [reflexivity|read_as] | eapply run_guarded; [reflexivity|done|read_as]].

Lemma table_serves r q h w :
  asks r q → headers r !! "authorization" = Some <$> h →
  run (dispatch table r) w =
  let '(w', b) := run (serve metrics params h q) w in (w', answered <$> b).
Proof.
  intros Ha Hh. destruct q; cbn [asks] in Ha; destruct_and?.
  - serve_entry 0%nat.
  - serve_entry 5%nat.
  - serve_entry 7%nat.
  - serve_entry 6%nat.
  - serve_entry 1%nat.
  - destruct Ha as (s & [Hm Hp] & Hu). serve_entry 2%nat.
  - serve_entry 3%nat.
  - match goal with H : ∃ _, _ |- _ => destruct H as [env Hq] end. serve_entry 4%nat.
  - serve_entry 13%nat.
  - serve_entry 12%nat.
  - serve_entry 11%nat.
  - serve_entry 9%nat.
  - serve_entry 8%nat.
  - serve_entry 10%nat.
  - serve_entry 14%nat.
  - serve_entry 15%nat.
  - serve_entry 16%nat.
  - serve_entry 17%nat.
Qed.

Lemma asks_method r q : asks r q → method r ≠ OPTIONS.
Proof. intros Ha Hm. destruct q; cbn [asks] in Ha; naive_solver congruence. Qed.

(** C12: The model of the handlers is what the server does with an HTTP request.
    Take a request whose method, path, query and body are those of [q], with any
    authorization header that is text or none, and any other headers.  When it
    names an origin that the settings do not allow, it is refused with 403 and
    nothing changes.  Otherwise, without an origin or with an allowed one, the
    server does what [Api.serve] does: the same effects, the same panics, the
    same reply, and the status that [answer_status] gives it. *)
Theorem http_serves (r : HttpRequest) (q : Request) (h : option string) (w : World) :
  asks r q → headers r !! "authorization" = Some <$> h →
  let '(w1, a) := run (ask_filter served r) w in
  let '(w2, b) := run (serve metrics params h q) w in
  if match headers r !! "origin" with
     | None => true
     | Some o => from_option (cors_allows cors_origins) false o
     end
  then w1 = w2 ∧
    match a, b with
    | Some a, Some b => sent_status a = answer_status b ∧ ∀ rep, b = Ok rep → a = Ok (Replied rep)
    | None, None => True
    | _, _ => False
    end
  else w1 = w ∧ ∃ a', a = Some a' ∧ sent_status a' = 403.
Proof.
  intros Ha Hh. destruct (cors_refuses r) eqn:Hc.
  { rewrite run_refused by done. unfold cors_refuses in Hc.
    destruct (headers r !! "origin") as [o|]; [|done]. apply negb_true_iff in Hc. rewrite Hc.
    destruct (run (serve _ _ h q) w) as [w2 b]. split; [done|]. eexists. split; [done|].
    apply refused_status. }
  replace (match headers r !! "origin" with None => true | Some _ => _ end) with true
    by (unfold cors_refuses in Hc; destruct (headers r !! "origin"); [by apply negb_false_iff in Hc|done]).
  rewrite run_served by first [done|right; by eapply asks_method]. pose proof (chain_is_table r w) as Hd.
  rewrite (table_serves r q h w Ha Hh) in Hd.
  destruct (run (ask_filter routes r) w) as [w1 o], (run (serve _ _ h q) w) as [w2 b].
  destruct Hd as [Hw Hd]; cbn in Hw, Hd. split; [done|].
  destruct o as [[a|l]|], b as [[rep|e]|]; cbn in *; try done.
  - subst a. split; [done|]. by intros ? [= <-].
  - split; [|done]. by apply rejection_own.
Qed.

(** ** Without the token *)

(** The resources behind the token; what follows [/connections/sync] is not
    looked at. *)
Definition private (r : HttpRequest) : Prop :=
  (method r, path r) ∈ [(GET, ["node"]); (POST, ["node"]); (POST, ["subscription"]);
    (PUT, ["subscription"]); (GET, ["connection"]); (POST, ["connection"]);
    (DELETE, ["connection"]); (POST, ["key"])] ∨
  method r = POST ∧ ∃ l, path r = "connections" :: "sync" :: l.

Lemma authorised_iff r x :
  authorised params r = Ok x ↔ headers r !! "authorization" = Some (Some ("Bearer " +:+ token params)).
Proof.
  unfold authorised. destruct (headers r !! _) as [[h|]|]; [|done..].
  destruct (Http.auth _ _) eqn:Ha.
  - apply auth_iff in Ha as [= ->]. by destruct x.
  - split; [done|]. intros [= ->]. by rewrite (proj2 (auth_iff _ _)) in Ha.
Qed.

(** The entry at a place of the table. *)
Ltac nth_entry n Hn := apply (Hn n _ eq_refl); [entry_takes|by eexists].

Lemma private_run r w e :
  private r → authorised params r = Err e → run (dispatch table r) w = (w, Some (Err e)).
Proof.
  intros Hp He.
  assert (∀ n e', table !! n = Some e' → takes r e' = true →
    (∃ x : result Request Causes, e_read e' r =
      perform metrics params match authorised params r with Ok _ => x | Err e => Err e end) →
    run (dispatch table r) w = (w, Some (Err e))) as Hn.
  { intros n e' Hn Ht [x Hx]. by rewrite (table_at n e') , Hx, He. }
  destruct Hp as [Hp|(Hm & l & Hp)]; [|nth_entry 9%nat Hn].
  repeat (apply elem_of_cons in Hp as [[= Hm Hp]|Hp]); [..|by inversion Hp].
  - nth_entry 6%nat Hn.
  - nth_entry 7%nat Hn.
  - nth_entry 3%nat Hn.
  - nth_entry 4%nat Hn.
  - nth_entry 13%nat Hn.
  - nth_entry 8%nat Hn.
  - nth_entry 10%nat Hn.
  - nth_entry 15%nat Hn.
Qed.

(** Not one of the two requests that anyone may make the server change by. *)
Definition harmless (r : HttpRequest) : Prop :=
  (method r, path r) ∉ [(POST, ["key"; "activate"]); (POST, ["trial"])].

Lemma still_perform w x :
  (∀ q, x = Ok q → guarded q = false ∧ (∀ req, q ≠ PostKeyActivate req) ∧ ∀ req, q ≠ PostTrial req) →
  unchanged w (run (perform metrics params x) w).1.
Proof.
  intros Hq. destruct x as [q|e]; [|reflexivity]. destruct (Hq q eq_refl) as (Hg & Ha & Ht).
  rewrite run_perform.
  destruct (rg_run _ _ _ _ w (open_routes_still metrics params q w Hg Ha Ht) I) as (_ & Hu & _).
  by destruct (run (handler_of metrics params q) w).
Qed.

Lemma takes_lits r m l reads :
  takes r (resource metrics params m (Some <$> l) reads) = true → (method r, path r) = (m, l).
Proof.
  unfold takes. cbn [e_method e_pattern e_open resource].
  intros [->%bool_decide_eq_true Hf]%andb_prop. f_equal. revert Hf. generalize (path r).
  induction l as [|s l IH]; intros [|s' p]; cbn; try done.
  intros [->%bool_decide_eq_true Hf]%andb_prop. f_equal. auto.
Qed.

Lemma entry_still e r w :
  e ∈ table → takes r e = true → (∀ x, authorised params r ≠ Ok x) → harmless r →
  unchanged w (run (e_read e r) w).1.
Proof.
  intros He Ht Ha Hh. destruct (authorised params r) as [x|c] eqn:Hau; [by destruct (Ha x)|].
  repeat (apply elem_of_cons in He as [->|He]); [..|by inversion He].
  all: cbn [e_read resource healthcheck_entry]; rewrite ?Hau; try reflexivity.
  all: unfold of_json, of_query, of_path, ok_or.
  all: try (apply still_perform; repeat case_match; by intros ? [= <-]).
  - destruct Hh. rewrite (takes_lits r POST ["key"; "activate"] _ Ht). left.
  - destruct Hh. rewrite (takes_lits r POST ["trial"] _ Ht). right. left.
Qed.

Lemma alike_world (x y : World * option (result Answer Causes)) : alike x y → x.1 = y.1.
Proof. by intros []. Qed.

Lemma private_method r : private r → method r ≠ OPTIONS.
Proof.
  intros [Hp|(Hm & _)] Hx; [|congruence].
  repeat (apply elem_of_cons in Hp as [[= Hm _]|Hp]; [congruence|]). by inversion Hp.
Qed.

(** C13: Without the server's token in its header, whatever its path, query,
    body, other headers and origin, an HTTP request changes nothing: not the
    cache, the database, the bus or the record of trials; unless it is a POST to
    [/key/activate] or to [/trial].  One for a private resource, or for anything
    under [/connections/sync], is not even looked at: it is answered 403 when it
    names an origin that the settings do not allow; otherwise 401 when it has
    the authorization header as text, 400 when it has not. *)
Theorem http_unauthorised (r : HttpRequest) (w : World) :
  headers r !! "authorization" ≠ Some (Some ("Bearer " +:+ token params)) →
  let '(w', a) := run (ask_filter served r) w in
  (harmless r → unchanged w w') ∧
  (private r → w' = w ∧ ∃ a', a = Some a' ∧ sent_status a' =
    if match headers r !! "origin" with
       | None => true
       | Some o => from_option (cors_allows cors_origins) false o
       end
    then (if headers r !! "authorization" is Some (Some _) then 401 else 400)
    else 403).
Proof.
  intros Hh. destruct (cors_refuses r) eqn:Hcr.
  { rewrite run_refused by done. split; [by intros _|]. intros _. split; [done|]. eexists.
    split; [done|]. rewrite refused_status. unfold cors_refuses in Hcr.
    destruct (headers r !! "origin") as [o|]; [|done]. apply negb_true_iff in Hcr. by rewrite Hcr. }
  replace (match headers r !! "origin" with None => true | Some _ => _ end) with true
    by (unfold cors_refuses in Hcr; destruct (headers r !! "origin");
        [by apply negb_false_iff in Hcr|done]).
  destruct (decide (method r = OPTIONS ∧ headers r !! "origin" ≠ None)) as [[Hm Ho]|Hno'].
  { rewrite run_preflight by done. split; [by intros _|]. by intros Hp%private_method. }
  rewrite run_served; [|done|destruct (headers r !! "origin"); [right; naive_solver|by left]].
  pose proof (chain_is_table r w) as Hd.
  assert (∀ x, authorised params r ≠ Ok x) as Hno by by intros x Hx%authorised_iff.
  destruct (run (ask_filter routes r) w) as [w' o]. split.
  - intros Hr. apply alike_world in Hd. cbn in Hd. subst w'. unfold dispatch.
    destruct (List.find (takes r) table) as [e|] eqn:Hf; [|reflexivity].
    apply List.find_some in Hf as [He Ht]. apply entry_still; [|done..].
    by apply list_elem_of_In.
  - intros Hp. destruct (authorised params r) as [x|c] eqn:Hc; [by destruct (Hno x)|].
    rewrite (private_run r w c Hp Hc) in Hd. destruct Hd as [Hw Hd]; cbn in Hw, Hd.
    split; [done|]. destruct o as [[a|l]|]; [done| |done]. eexists. split; [reflexivity|].
    unfold authorised in Hc. destruct (headers r !! _) as [[h|]|].
    + destruct (Http.auth _ _); [done|]. injection Hc as <-. exact (rejection_own _ _ Hd).
    + injection Hc as <-. by apply (rejection_other l (InvalidHeader "authorization")).
    + injection Hc as <-. exact (rejection_own _ _ Hd).
Qed.

(** ** No route *)

Lemma wrong_method r w w' l :
  run (ask_filter routes r) w = (w', Some (Err l)) → MethodNotAllowed ∈ l.
Proof.
  intros Hr. destruct (decide (method r = GET)) as [Hm|Hm].
  - assert ([MethodNotAllowed] ⊆ l) as Hl; [|set_solver].
    eapply (chain_causes r w _ _ (post_subscription_route params)); [exact Hr|..].
    + unfold other_routes. set_solver.
    + unfold post_subscription_route, handle. autorewrite with exec.
      by rewrite decide_False by congruence.
  - assert ([MethodNotAllowed] ⊆ l) as Hl; [|set_solver].
    eapply (chain_causes r w _ _ get_healthcheck_route); [exact Hr|left|].
    unfold get_healthcheck_route, handle. autorewrite with exec. by rewrite decide_False.
Qed.

(** A request for which there is no route is not answered the JSON error
    404 that [rejection] has for it, but 405, by warp.  Routes ask for the method
    before the path, so that every rejection of theirs carries a wrong method,
    whatever the request: [is_not_found] never holds, and the branch is dead. *)
Theorem not_found_unreachable (r : HttpRequest) (w : World) :
  (∀ w' l, run (ask_filter routes r) w = (w', Some (Err l)) →
     rejection l ≠ Ok (ErrorReply 404 "Not Found")) ∧
  (Forall (λ e, takes r e = false) table → headers r !! "origin" = None →
     ∃ l, run (ask_filter served r) w = (w, Some (Err l)) ∧ warp_status l = 405).
Proof.
  split.
  - intros w' l Hr%wrong_method. unfold rejection.
    rewrite (bool_decide_false (l = [])) by (intros ->; inversion Hr). by repeat case_match.
  - intros Hf Ho. rewrite run_served by first [by left|unfold cors_refuses; by rewrite Ho].
    assert (passes r routes) as Hp.
    { apply passes_chain; inversion Hf; subst.
      - by eapply implements_passes; [apply (resources_implement metrics params)|].
      - by eapply all_implements_pass; [apply (resources_implement metrics params)|]. }
    destruct (passes_run routes r w Hp) as (l & Hr & Hl). rewrite Hr.
    assert (∀ A (cause : Rejection → option A), finds cause l = None) as Hn.
    { intros A cause. by rewrite finds_own, Hl. }
    pose proof (wrong_method _ _ _ _ Hr) as Hm. exists l. cbn. unfold rejection. rewrite !Hn.
    rewrite bool_decide_false by (intros ->; inversion Hm). split; [done|].
    apply (status_only l MethodNotAllowed Hm), Forall_forall. intros c Hc.
    destruct (decide (c = MethodNotAllowed)); [by left|].
    assert (c ∈ own l) as Hx by by apply elem_own. rewrite Hl in Hx. inversion Hx.
Qed.

(** ** Every interleaving of requests *)

(** What the server runs, with the requests as they arrive. *)
Inductive http_service : IO unit → Prop :=
| http_start : http_service (get_state_from_db;; Ret tt)
| http_sync n : http_service (periodic_db_sync n)
| http_expire_conns n : http_service (cleanup_expired_connections n)
| http_expire_subs n : http_service (cleanup_expired_subscriptions n)
| http_restore n : http_service (restore_subscriptions n)
| http_request r : http_service (ask_filter served r;; Ret tt).

Lemma entry_reads e r :
  e ∈ table → (∃ x, e_read e r = perform metrics params x) ∨ ∃ a, e_read e r = Ret a.
Proof.
  intros He. repeat (apply elem_of_cons in He as [->|He]); [..|by inversion He].
  all: cbn [e_read resource healthcheck_entry]; eauto.
Qed.

Lemma same_table r :
  (∃ a, dispatch table r = Ret a) ∨ ∃ q, same (dispatch table r) (handler_of metrics params q).
Proof.
  unfold dispatch. destruct (List.find (takes r) table) as [e|] eqn:Hf; [|by left; eexists].
  apply List.find_some in Hf as [He%list_elem_of_In _].
  destruct (entry_reads e r He) as [[[q|l] ->]|[a ->]]; [|by left; eexists..].
  right. exists q. apply same_bind. eauto.
Qed.

Lemma same_served r :
  (∃ a, exec served r (path r) = Ret a) ∨
  ∃ q, same (exec served r (path r)) (handler_of metrics params q).
Proof.
  assert (same (exec (recover routes rejection) r (path r)) (dispatch table r)) as Hs.
  { eapply same_trans; [|apply same_dispatch; [apply (resources_implement metrics params)..|
      apply resources_apart]]. rewrite exec_recover. apply same_bind. eauto. }
  assert ((∃ a, exec (recover routes rejection) r (path r) = Ret a) ∨
    ∃ q, same (exec (recover routes rejection) r (path r)) (handler_of metrics params q)) as Hr.
  { destruct (same_table r) as [[a Ha]|[q Hq]]; [left|right].
    - rewrite Ha in Hs. apply same_sym in Hs as [b ->]. by eexists.
    - exists q. by eapply same_trans. }
  unfold served. rewrite exec_with_cors. repeat case_match; try done; by left; eexists.
Qed.

(** Each task does what a task of [Api] does. *)
Lemma http_task p : http_service p → ∃ q, api_service metrics params q ∧ same p q.
Proof.
  intros Hp. destruct Hp; try by (eexists; split; [constructor|apply same_refl]).
  assert (same (ask_filter served r;; Ret tt) (exec served r (path r))) as Hs.
  { eapply same_trans; [apply same_bind; eauto|]. apply same_bind. eauto. }
  destruct (same_served r) as [[a Ha]|[q Hq]].
  - exists (serve metrics params None GetHealthcheck;; Ret tt). split; [constructor|].
    eapply same_trans; [exact Hs|]. rewrite Ha. apply same_ret.
  - exists (serve metrics params (Some ("Bearer " +:+ token params)) q;; Ret tt).
    split; [constructor|]. eapply same_trans; [exact Hs|]. eapply same_trans; [exact Hq|].
    apply same_sym. eapply same_trans; [apply same_bind; eauto|].
    unfold serve. rewrite (proj2 (auth_iff _ _)) by done. destruct (guarded q); apply same_refl.
Qed.

Lemma http_reaches (w0 w : World) :
  reachable http_service w0 w → reachable (api_service metrics params) w0 w.
Proof. apply reachable_same, http_task. Qed.

(** C2: the server of HTTP requests refines the server of requests that were
    read.  Whatever requests arrive, well formed or not, for a route or for
    none, from any origin, with any header, and however their handlers and the
    server's own tasks interleave: the worlds that are reached are among those
    that [Api]'s service reaches, so that whatever holds in all of those holds
    here. *)
Theorem http_refines (w0 w : World) :
  reachable http_service w0 w → reachable (api_service metrics params) w0 w.
Proof. apply http_reaches. Qed.
End spec.

(** ** Requests over HTTP *)

Definition delete_query (s : option string) : option ConnQueryParam :=
  if decide (s = Some "id=3") then Some {| cq_id := 3%N |} else None.
Definition create_body (s : string) : option ConnCreateRequest :=
  if decide (s = "wireguard") then Some {| cc_env := Env.Dev; cc_subscription_id := None;
    cc_proto := ProtoTag.Wireguard; cc_days := None |} else None.
(** Readers that know one query and one body. *)
#[local] Instance example_readers : Readers := {|
  query_sub_id _ := None; query_nodes _ := Some {| nq_env := None |}; query_node_id _ := None;
  query_conn := delete_query; query_key _ := None; query_sub_info _ := None;
  query_conn_info _ := None; json_node _ := None; json_sub _ := None; json_conn_type _ := None;
  json_conn := create_body; json_key _ := None; json_activate _ := None; json_trial _ := None |}.

Definition delete_request (token : string) : HttpRequest := {|
  method := DELETE; path := ["connection"]; query_string := Some "id=3";
  headers := {[ "authorization" := Some token ]}; body := ""; is_json := false;
  is_websocket := false |}.
Definition create_request : HttpRequest := {|
  method := POST; path := ["connection"]; query_string := None;
  headers := {[ "authorization" := Some "Bearer t" ]}; body := "wireguard"; is_json := true;
  is_websocket := false |}.
Definition stray_request : HttpRequest := {|
  method := GET; path := ["connections"]; query_string := None; headers := ∅; body := "";
  is_json := false; is_websocket := false |}.
Definition no_preflight (r : HttpRequest) : result Answer Causes := Err [].
Notation example_routes := (routes no_metrics example_config).
Notation example_served := (served no_metrics example_config [] no_preflight).

Lemma routes_any_order_witness :
  let fs := rev (other_routes no_metrics example_config) in
  get_healthcheck_route :: other_routes no_metrics example_config ≡ₚ get_healthcheck_route :: fs ∧
  alike (run (ask_filter example_routes (delete_request "Bearer t")) race.2)
    (run (ask_filter (chain get_healthcheck_route fs) (delete_request "Bearer t")) race.2).
Proof.
  intros fs. assert (get_healthcheck_route :: other_routes no_metrics example_config ≡ₚ
    get_healthcheck_route :: fs) as Hp by (apply perm_skip, Permutation_rev).
  split; [exact Hp|].
  exact (routes_any_order no_metrics example_config _ fs (delete_request "Bearer t") race.2 Hp).
Defined.

(** The connection of the race is deleted by a request over HTTP. *)
Lemma http_serves_witness :
  asks (delete_request "Bearer t") (DeleteConnection 3%N) ∧
  (run (ask_filter example_served (delete_request "Bearer t")) race.2).1 =
  (run (serve no_metrics example_config (Some "Bearer t") (DeleteConnection 3%N)) race.2).1 ∧
  Conn.is_deleted <$> connections (memory
    (run (ask_filter example_served (delete_request "Bearer t")) race.2).1) !! 3%N = Some true.
Proof.
  assert (asks (delete_request "Bearer t") (DeleteConnection 3%N)) as Ha by done.
  split; [exact Ha|]. split; [|vm_compute; reflexivity].
  pose proof (http_serves no_metrics example_config [] no_preflight (delete_request "Bearer t")
    (DeleteConnection 3%N) (Some "Bearer t") race.2 Ha eq_refl) as Hs.
  destruct (run (ask_filter _ _) _) as [w1 a], (run (serve _ _ _ _) _) as [w2 b]. exact (proj1 Hs).
Defined.

Lemma http_unauthorised_witness :
  private (delete_request "Bearer T") ∧
  (run (ask_filter example_served (delete_request "Bearer T")) race.2).1 = race.2.
Proof.
  assert (private (delete_request "Bearer T")) as Hp by (left; set_solver).
  split; [exact Hp|].
  assert (headers (delete_request "Bearer T") !! "authorization" ≠
    Some (Some ("Bearer " +:+ token example_config))) as Hn by done.
  pose proof (http_unauthorised no_metrics example_config [] no_preflight
    (delete_request "Bearer T") race.2 Hn) as Hu.
  destruct (run (ask_filter _ _) _) as [w1 a]. exact (proj1 (proj2 Hu Hp)).
Defined.

(** [GET /connections] is answered 405. *)
Lemma not_found_unreachable_witness : ∃ l,
  run (ask_filter example_served stray_request) world_new = (world_new, Some (Err l)) ∧
  warp_status (St := World) l = 405.
Proof.
  apply (not_found_unreachable no_metrics example_config [] no_preflight); [|reflexivity].
  by repeat constructor.
Defined.

(** The deletion, action by action. *)
Definition deleting : list (IO unit) * World :=
  schedule (replicate 12 0%nat)
    ([ask_filter example_served (delete_request "Bearer t");; Ret tt], race.2).

Lemma http_refines_witness :
  reachable (http_service no_metrics example_config [] no_preflight) race.2 deleting.2 ∧
  reachable (api_service no_metrics example_config) race.2 deleting.2 ∧
  Conn.is_deleted <$> connections (memory deleting.2) !! 3%N = Some true.
Proof.
  assert (reachable (http_service no_metrics example_config [] no_preflight) race.2 deleting.2)
    as Hr.
  { exists deleting.1. rewrite <- surjective_pairing.
    eapply rtc_l; [apply step_spawn, (http_request _ _ _ _ (delete_request "Bearer t"))|].
    apply schedule_steps. }
  split; [exact Hr|]. split; [|vm_compute; reflexivity].
  exact (http_refines no_metrics example_config [] no_preflight race.2 deleting.2 Hr).
Defined.
