(* ===== verification/Auth.v ===== *)
(** * The authentication service

    [bin/auth/{service,tasks,handlers}.rs]: a table of Hysteria2 connections
    fed by the bus, and the question the proxy asks of it. *)
From S2P Require Import Prelude Task Foreign Naming Wireguard Connection ConnStore Subscription.
From S2P Require Import Key Inbound Node Link Db World Sync Consistency SyncSafe Reload SyncSpec.
From S2P Require Import Background Http ApiConn Metrics Service.
Local Open Scope Z_scope.
Local Open Scope prog_scope.

(** Beside the table the service has its buffer of metrics. *)
Notation AuthWorld := (Svc (MetricBuffer (V := f64))).

(** [Auth] -- bin/auth/response.rs:3-8 *)
Record AuthReply : Set := { auth_ok : bool; auth_id : option string }.

(** [Auth] -- bin/auth/request.rs:3-8 *)
Record AuthRequest : Set := { req_addr : string; req_auth : Uuid; req_tx : Z }.

Section auth.
Context `{!Oracle, !UuidText, !IterOrder, !Chrono, !F64}.
Implicit Type w : AuthWorld.

(** [run_subscriber] -- bin/auth/tasks.rs:47-69

    The topics that are processed: its own, and its initialisation. *)
Definition auth_accepts (node_uuid : Uuid) (topic : Topic) : bool :=
  match topic with
  | Topic.Auth => true
  | Topic.Metrics => false
  | Topic.Updates _ => false
  | Topic.Init uuid => bool_decide (uuid = node_uuid)
  end.

Definition auth_message (msg : Message) : Prog AuthWorld (result unit Error) :=
  let conn_id := Message.conn_id msg in
  match Message.action msg with
  | Action.Create | Action.Update =>
    match Message.token msg with
    | Some token =>
      t <- svc_ask clock;;
      match message_conn t (Proto.new_hysteria2 token) msg with
      | None => Panic
      | Some conn =>
        r <- svc_update (λ m, add m conn_id conn);;
        Ret match r with
            | Ok _ => Ok tt
            | Err err => Err (Error.Custom ("Failed to add conn " +:+ uuid_str conn_id +:+ ": " +:+
                Error.fmt err))
            end
      end
    | None => Ret (Ok tt)
    end
  | Action.Delete => svc_update (λ m, remove m conn_id);; Ret (Ok tt)
  | Action.ResetStat => Ret (Ok tt)
  end.

(** [handle_messages_batch] -- bin/auth/tasks.rs:97-135

    The table's lock is held from the first message to the last. *)
Definition auth_batch (messages : list Message) : Prog AuthWorld (result unit Error) :=
  atomic (try_each messages auth_message).

(** [auth_handler] -- bin/auth/handlers.rs:9-29 *)
Definition auth_handler (auth : Uuid) : Prog AuthWorld AuthReply :=
  id <- svc_read (λ m, validate_token m auth);;
  Ret match id with
      | Some id => {| auth_ok := true; auth_id := Some (uuid_str id) |}
      | None => {| auth_ok := false; auth_id := None |}
      end.

(** one turn of the subscriber's loop *)
Definition auth_receive (node_uuid : Uuid) (frame : Frame) : Prog AuthWorld unit :=
  receive (auth_accepts node_uuid) auth_batch frame.

(** ** One connection's register *)

Definition deletes (id : Uuid) (m : Message) : Prop :=
  Message.conn_id m = id ∧ Message.action m = Action.Delete.
Definition grants (id tok : Uuid) (m : Message) : Prop :=
  Message.conn_id m = id ∧ (Message.action m = Action.Create ∨ Message.action m = Action.Update) ∧
  Message.token m = Some tok.

(** what the table says of one id: absent, or present with its token *)
Definition token_at (id : Uuid) w : option (option Uuid) := get_token <$> svc_mem w !! id.

Definition register (id : Uuid) (o : option (option Uuid)) (m : Message) : option (option Uuid) :=
  if decide (Message.conn_id m = id) then
    match Message.action m with
    | Action.Create | Action.Update =>
      match Message.token m, o with Some t, None => Some (Some t) | _, _ => o end
    | Action.Delete => None
    | Action.ResetStat => o
    end
  else o.

Lemma run_auth_message msg w :
  let '(w', r) := run (auth_message msg) w in
  match r with
  | Some (Ok _) => ∀ id, token_at id w' = register id (token_at id w) msg
  | Some (Err _) => False
  | None => ∃ e, Message.expires_at msg = Some e ∧ of_rkyv e = None
  end.
Proof.
  unfold auth_message, register, token_at. destruct (Message.action msg) eqn:Hact; cbn.
  3:{ intros id. case_decide as Hid.
      - rewrite <- Hid. by rewrite lookup_delete_eq.
      - by rewrite lookup_delete_ne by done. }
  3:{ intros id. by case_decide. }
  all: destruct (Message.token msg) as [tok|]; cbn; [|intros id; by case_decide].
  all: unfold message_conn; destruct (Message.expires_at msg) as [e|];
    [destruct (of_rkyv e) eqn:He; [|by exists e]|]; cbn; unfold add;
    destruct (svc_mem w !! Message.conn_id msg) as [c|] eqn:Hc; cbn; intros id;
    (case_decide as Hid; [rewrite <- Hid, ?lookup_insert_eq, Hc|rewrite ?lookup_insert_ne by done]);
    done.
Qed.

Lemma run_auth_batch msgs w :
  let '(w', r) := run (auth_batch msgs) w in
  match r with
  | Some (Ok _) => ∀ id, token_at id w' = foldl (register id) (token_at id w) msgs
  | Some (Err _) => False
  | None => ∃ m e, m ∈ msgs ∧ Message.expires_at m = Some e ∧ of_rkyv e = None
  end.
Proof.
  unfold auth_batch. rewrite run_atomic. revert w.
  induction msgs as [|m msgs IH]; intros w; [done|]. cbn [try_each]. rewrite run_bind.
  pose proof (run_auth_message m w) as Hm. destruct (run (auth_message m) w) as [w1 [[[]|e]|]].
  - specialize (IH w1). destruct (run (try_each msgs auth_message) w1) as [w2 [[[]|e]|]].
    + intros id. cbn [foldl]. by rewrite IH, Hm.
    + done.
    + destruct IH as (m' & e & Hin & He). exists m', e. split; [by right|done].
  - done.
  - destruct Hm as (e & He). exists m, e. split; [by left|done].
Qed.

Lemma register_absent id msgs :
  (∀ m tok, m ∈ msgs → ¬ grants id tok m) → foldl (register id) None msgs = None.
Proof.
  induction msgs as [|m msgs IH]; intros Hno; [done|]. cbn [foldl].
  assert (register id None m = None) as ->.
  { unfold register. case_decide as Hid; [|done].
    destruct (Message.action m) eqn:Ha, (Message.token m) as [t|] eqn:Ht; try done;
      exfalso; (refine (Hno m t _ _); [by left|by split_and!; auto]). }
  apply IH. intros m' tok Hm'. apply Hno. by right.
Qed.

Lemma register_present id o msgs :
  (∀ m, m ∈ msgs → ¬ deletes id m) → foldl (register id) (Some o) msgs = Some o.
Proof.
  induction msgs as [|m msgs IH]; intros Hno; [done|]. cbn [foldl].
  assert (register id (Some o) m = Some o) as ->.
  { unfold register. case_decide as Hid; [|done].
    destruct (Message.action m) eqn:Ha, (Message.token m); try done;
      exfalso; (refine (Hno m _ _); [by left|done]). }
  apply IH. intros m' Hm'. apply Hno. by right.
Qed.

(** C28: what a batch of messages makes of one connection, however the messages of
    others are mixed in.  A connection that a message deletes and none grants
    again afterwards is gone; one that is absent and then granted a token, and
    not deleted after, has that token, and later grants do not replace it; one
    that was there keeps its token, whatever is granted, until it is deleted.
    A batch fails only on an expiry that is no date, and then the service
    panics. *)
Theorem auth_batch_spec (msgs : list Message) (w : AuthWorld) :
  let '(w', r) := run (auth_batch msgs) w in
  match r with
  | Some (Ok _) => ∀ id,
      (∀ pre m post, msgs = pre ++ m :: post → deletes id m →
        (∀ m' tok, m' ∈ post → ¬ grants id tok m') → svc_mem w' !! id = None) ∧
      (∀ pre m post tok, msgs = pre ++ m :: post → grants id tok m →
        (∀ m', m' ∈ post → ¬ deletes id m') →
        (svc_mem w !! id = None ∧ ∀ m' tok', m' ∈ pre → ¬ grants id tok' m') ∨
        (∃ p1 d p2, pre = p1 ++ d :: p2 ∧ deletes id d ∧ ∀ m' tok', m' ∈ p2 → ¬ grants id tok' m') →
        token_at id w' = Some (Some tok)) ∧
      ((∀ m, m ∈ msgs → ¬ deletes id m) → is_Some (svc_mem w !! id) → token_at id w' = token_at id w)
  | Some (Err _) => False
  | None => ∃ m e, m ∈ msgs ∧ Message.expires_at m = Some e ∧ of_rkyv e = None
  end.
Proof.
  pose proof (run_auth_batch msgs w) as Hb. destruct (run (auth_batch msgs) w) as [w' [[[]|e]|]];
    [|done|done]. intros id. specialize (Hb id).
  assert (∀ o d, deletes id d → register id o d = None) as Hdel.
  { intros o d [Hid Ha]. unfold register. by rewrite decide_True, Ha. }
  split_and!.
  - intros pre m post -> Hm Hno. rewrite foldl_app in Hb. cbn [foldl] in Hb.
    rewrite Hdel, register_absent in Hb by done. unfold token_at in Hb.
    by destruct (svc_mem w' !! id).
  - intros pre m post tok -> (Hid & Ha & Ht) Hnd Hpre. rewrite Hb, foldl_app. cbn [foldl].
    assert (foldl (register id) (token_at id w) pre = None) as ->.
    { destruct Hpre as [[Hw Hno]|(p1 & d & p2 & -> & Hd & Hno)].
      - unfold token_at. rewrite Hw. by apply register_absent.
      - rewrite foldl_app. cbn [foldl]. rewrite Hdel by done. by apply register_absent. }
    assert (register id None m = Some (Some tok)) as ->.
    { unfold register. rewrite decide_True by done. by destruct Ha as [-> | ->]; rewrite Ht. }
    by apply register_present.
  - intros Hnd [c Hc]. rewrite Hb. unfold token_at. rewrite Hc. by apply register_present.
Qed.

(** The proxy is told yes with an id exactly when the table has a connection
    with the token, and then the id is of such a connection; whether it is
    marked deleted, or its expiry has passed, is not asked. *)
Theorem auth_handler_spec (tok : Uuid) (w : AuthWorld) :
  let '(w', r) := run (auth_handler tok) w in
  w' = w ∧
  match r with
  | Some a =>
    if auth_ok a
    then ∃ id c, auth_id a = Some (uuid_str id) ∧ svc_mem w !! id = Some c ∧
         Base.proto c = Proto.Hysteria2 tok
    else auth_id a = None ∧
         ∀ id c, svc_mem w !! id = Some c → Base.proto c ≠ Proto.Hysteria2 tok
  | None => False
  end.
Proof.
  unfold auth_handler. cbn. split; [done|].
  destruct (validate_token (svc_mem w) tok) as [id|] eqn:Hv; cbn.
  - apply validate_token_Some in Hv as (c & Hc & Hp). by exists id, c.
  - split; [done|]. exact (proj1 (validate_token_None _ _) Hv).
Qed.
End auth.

(** ** Against the API server *)
Section resync.
Context `{!Oracle, !Postgres, !Ipv6Text, !UuidText, !IterOrder, !Chrono, !WgCrypto, !UrlLib, !F64}.

(** What the API server publishes when it is asked for connections. *)
Lemma run_get_connections req (w : World) :
  let '(w', r) := run (get_connections_handler req) w in
  bus w' = bus w ∨ ∃ l, bus w' = bus w ++ [(ct_topic req, (λ '(i, c), conn_create_message c i) <$> l)].
Proof.
  unfold get_connections_handler. cbn.
  destruct (keep _ _) as [|x l]; cbn; [by left|].
  destruct (rkyv_fault _); cbn; [by left|]. destruct (zmq_fault _); cbn; [by left|].
  right. by exists (x :: l).
Qed.

(** C30: a connection deleted while the service was down stays accepted.  The
    service restores its snapshot and asks the API server for what changed
    since; whatever the server then publishes, no connection of the snapshot
    leaves the table: the answer holds creations only. *)
Theorem resync_never_revokes (req : ConnType) (wa : World) (w : AuthWorld) :
  let '(wa', _) := run (get_connections_handler req) wa in
  ∀ msgs, bus wa' = bus wa ++ [(ct_topic req, msgs)] →
    let '(w', r) := run (auth_batch msgs) w in
    match r with
    | Some (Ok _) => ∀ id c tok, svc_mem w !! id = Some c → Base.proto c = Proto.Hysteria2 tok →
        ∃ c', svc_mem w' !! id = Some c' ∧ Base.proto c' = Proto.Hysteria2 tok
    | Some (Err _) => False
    | None => True
    end.
Proof.
  pose proof (run_get_connections req wa) as Hb. destruct (run _ wa) as [wa' ra].
  intros msgs Hm. pose proof (run_auth_batch msgs w) as Hr.
  destruct (run (auth_batch msgs) w) as [w' [[[]|e]|]]; [|done|done].
  intros id c tok Hc Hp. specialize (Hr id). rewrite Hm in Hb.
  assert (∀ m, m ∈ msgs → ¬ deletes id m) as Hnd.
  { destruct Hb as [Hb|[l Hb]].
    - apply (f_equal length) in Hb. rewrite length_app in Hb. cbn in Hb. lia.
    - apply (inj (app (bus wa))) in Hb. injection Hb as ->. intros m Hin [_ Ha].
      apply list_elem_of_fmap in Hin as ([i c'] & -> & _). discriminate Ha. }
  unfold token_at in Hr. rewrite Hc in Hr. cbn [fmap option_fmap option_map] in Hr.
  rewrite register_present in Hr by done. unfold get_token in Hr. cbn in Hr. rewrite Hp in Hr.
  destruct (svc_mem w' !! id) as [c'|]; [|done]. exists c'. split; [done|].
  injection Hr as Hr. destruct (Base.proto c'); try done. congruence.
Qed.
End resync.
