(* ===== verification/AuthHttp.v ===== *)
(** * The authentication service over HTTP

    [Service::start_server] ([bin/auth/service.rs]): the health check and the
    question of the proxies, written with the filters of [Warp], and what comes
    back for every request. *)
From S2P Require Import Prelude Task Foreign Naming Wireguard Connection ConnStore Subscription.
From S2P Require Import Key Inbound Node Link Db World Sync Consistency SyncSafe Reload SyncSpec.
From S2P Require Import Background Http ApiConn Metrics Warp Service Auth.
Local Open Scope Z_scope.
Local Open Scope prog_scope.

(** The answers: a text, or what the handler replies. *)
Inductive AuthAnswer : Set := ServerOK | AuthReplied (said : AuthReply).

Section auth.
Context `{!Oracle, !UuidText, !IterOrder, !Chrono, !F64, !Warp AuthWorld}.
(** serde's reader of a question, the origin of the settings, and warp's answer
    to a preflight *)
Context (read_body : string → option AuthRequest) (origin : string)
  (answer : HttpRequest → result AuthAnswer Causes).
Implicit Types (w : AuthWorld) (r : HttpRequest).

(** [Service::start_server] -- bin/auth/service.rs:61-61

    [health_check]: by any method, and the path may go on. *)
Definition health_check : Filter AuthAnswer := map (segment "health-check") (λ _, ServerOK).

(** [Service::start_server] -- bin/auth/service.rs:72-78

    [auth_route] *)
Definition auth_route : Filter AuthAnswer :=
  and_then (meth POST & segment "auth" & json read_body & map any (λ _, tt)) (λ x,
    a <- auth_handler (req_auth x.1.2);; Ret (Ok (AuthReplied a))).

(** [Service::start_server] -- bin/auth/service.rs:60-84 *)
Definition start_server : Filter AuthAnswer :=
  let cors := with_cors (cors_allows [origin]) answer in
  let routes := or health_check auth_route in
  cors routes.

(** ** What comes back *)

(** The paths that the two routes are for. *)
Definition for_health r : bool := bool_decide (head (path r) = Some "health-check").
Definition for_auth r : bool := bool_decide (head (path r) = Some "auth").


(** What is wrong with a request that neither route serves. *)
Definition auth_fault r : option Cause :=
  if bool_decide (method r ≠ POST) then Some MethodNotAllowed
  else if negb (for_auth r) then None
  else if is_json r then Some BodyDeserialize else Some UnsupportedMediaType.



Lemma exec_health_check r :
  exec health_check r (path r) =
  Ret (if for_health r then Ok (ServerOK, drop 1 (path r)) else Err []).
Proof.
  unfold health_check, for_health. autorewrite with exec.
  destruct (path r) as [|s p]; cbn; [done|].
  destruct (decide (s = "health-check")) as [->|Hn]; [done|].
  by rewrite bool_decide_eq_false_2 by congruence.
Qed.

Lemma exec_auth_route r :
  exec auth_route r (path r) =
  if bool_decide (method r = POST) && for_auth r && is_json r then
    match read_body (body r) with
    | Some q => a <- auth_handler (req_auth q);; Ret (Ok (AuthReplied a, drop 1 (path r)))
    | None => Ret (Err [BodyDeserialize])
    end
  else Ret (Err (option_list (auth_fault r))).
Proof.
  unfold auth_route, auth_fault, for_auth. autorewrite with exec. cbn [bind].
  destruct (decide (method r = POST)) as [Hm|Hm].
  - rewrite (bool_decide_eq_true_2 (method r = POST)), (bool_decide_eq_false_2 (method r ≠ POST))
      by naive_solver.
    cbn [bind snd fst]. rewrite exec_segment.
    destruct (path r) as [|s p]; [done|]. cbn [head].
    destruct (decide (s = "auth")) as [->|Hn]; cbn [bind snd fst].
    + rewrite exec_json, bool_decide_eq_true_2 by done.
      destruct (is_json r); [|done]. destruct (read_body (body r)); [|done].
      cbn [bind snd fst]. by rewrite exec_map, exec_any.
    + by rewrite bool_decide_eq_false_2 by congruence.
  - by rewrite (bool_decide_eq_false_2 (method r = POST)), (bool_decide_eq_true_2 (method r ≠ POST)).
Qed.






(** The service's tables are not touched: for [Tables]. *)
Lemma spares_start_server {B} (view : AuthWorld → B) r :
  (∀ tok, spares view (auth_handler tok)) → spares view (ask_filter start_server r).
Proof.
  intros Ha. unfold ask_filter. apply spares_bind; [|done].
  assert (spares view (exec (or health_check auth_route) r (path r))) as Hor.
  { rewrite exec_or, exec_health_check. destruct (for_health r); [done|]. cbn [bind].
    rewrite exec_auth_route. destruct (_ && _ && _); [|done].
    destruct (read_body (body r)); [|done].
    apply spares_bind; [by apply spares_bind|]. by intros []. }
  unfold start_server. rewrite exec_with_cors.
  destruct (headers r !! "origin") as [o|]; [|done].
  destruct (negb _); [done|]. by destruct (decide _).
Qed.
End auth.

(** ** Requests over HTTP *)



