(* ===== verification/Xray.v ===== *)
(** * The node's devices

    [proto/xray/*.rs] and [bin/node/stats.rs]: the calls to the node's WireGuard
    interface and to its Xray process, accounts and counters. *)
From S2P Require Import Prelude Task Foreign Naming Wireguard Connection ConnStore Node Metrics.
From S2P Require Import World Service.
Local Open Scope Z_scope.
Local Open Scope prog_scope.

(** ** Xray *)

(** the protobuf messages of Xray's interface *)
Inductive Account : Set :=
| VlessAccount (id flow encryption : string)
| VmessAccount (id : string)
| ShadowsocksAccount (password : string) (cipher : string).
Record User : Set := { level : Z; user_email : string; account : Account }.

(** Xray's [HandlerService], by gRPC: a call that fails may have taken effect.
    A user is never replaced: adding one that exists is refused.  And its
    [StatsService]: counters by name, which asking may reset; an answer may
    have no counter in it. *)
Class XrayService (X : Type) := {
  users : X → string → string → option User;
  get_stats : X → string → bool → X * result (option Z) string;
  get_stats_online : X → string → bool → X * result (option Z) string;
  users_count : X → string → result Z string;
  add_user : X → string → User → X * result unit string;
  remove_user : X → string → string → X * result unit string;
  add_user_ok : ∀ x tag u x', add_user x tag u = (x', Ok tt) →
    users x' tag (user_email u) = Some u;
  add_user_keeps : ∀ x tag u x' r t e v, add_user x tag u = (x', r) →
    users x t e = Some v → users x' t e = Some v;
  remove_user_ok : ∀ x tag e x', remove_user x tag e = (x', Ok tt) → users x' tag e = None;
  remove_user_others : ∀ x tag e x' r t e', remove_user x tag e = (x', r) →
    (t, e') ≠ (tag, e) → users x' t e' = users x t e';
  get_stats_users : ∀ x name reset t e, users (get_stats x name reset).1 t e = users x t e;
  get_stats_online_users : ∀ x name reset t e,
    users (get_stats_online x name reset).1 t e = users x t e;
  get_stats_read : ∀ x name, (get_stats x name false).1 = x;
  get_stats_online_read : ∀ x name, (get_stats_online x name false).1 = x;
}.

(** A process that answers always: its users, its counters, and who is online. *)
Record XrayTable : Type := {
  xt_users : gmap (string * string) User;
  xt_counters : gmap string Z;
}.
Definition xray_empty : XrayTable := {| xt_users := ∅; xt_counters := ∅ |}.
Definition set_xt_users (u : gmap (string * string) User) (x : XrayTable) : XrayTable :=
  {| xt_users := u; xt_counters := xt_counters x |}.
Definition xt_get (x : XrayTable) (name : string) (reset : bool) :
    XrayTable * result (option Z) string :=
  match xt_counters x !! name with
  | Some n => (if reset then {| xt_users := xt_users x; xt_counters := <[name := 0]> (xt_counters x) |}
               else x, Ok (Some n))
  | None => (x, Err (name +:+ " not found."))
  end.
#[export, program] Instance table_xray : XrayService XrayTable := {|
  users x tag e := xt_users x !! (tag, e);
  add_user x tag u :=
    match xt_users x !! (tag, user_email u) with
    | Some _ => (x, Err "User already exists.")
    | None => (set_xt_users (<[(tag, user_email u) := u]> (xt_users x)) x, Ok tt)
    end;
  remove_user x tag e := (set_xt_users (delete (tag, e) (xt_users x)) x, Ok tt);
  get_stats := xt_get;
  get_stats_online := xt_get;
  users_count x tag := Ok (Z.of_nat (size (filter (λ k, k.1 = tag) (dom (xt_users x)))));
|}.
Next Obligation.
  intros x tag u x'. cbn. destruct (xt_users x !! _) eqn:Hx; [done|]. intros [= <-]. cbn.
  by rewrite lookup_insert_eq.
Qed.
Next Obligation.
  intros x tag u x' r t e v. cbn. destruct (xt_users x !! (tag, _)) eqn:Hx; intros [= <- <-]; [done|].
  intros Hv. cbn. rewrite lookup_insert_ne; [done|]. intros [= <- <-]. congruence.
Qed.
Next Obligation. intros x tag e x' [= <-]. cbn. by rewrite lookup_delete_eq. Qed.
Next Obligation.
  intros x tag e x' r t e' [= <- <-] Hne. cbn. by rewrite lookup_delete_ne.
Qed.
Next Obligation. intros x name reset t e. unfold xt_get. by destruct (xt_counters x !! name), reset. Qed.
Next Obligation. intros x name reset t e. unfold xt_get. by destruct (xt_counters x !! name), reset. Qed.
Next Obligation. intros x name. unfold xt_get. by destruct (xt_counters x !! name). Qed.
Next Obligation. intros x name. unfold xt_get. by destruct (xt_counters x !! name). Qed.

Section conn_info.
Context `{!UuidText}.

(** [ProtocolConn] -- proto/xray/client.rs:178-181 *)
Class ProtocolConn (P : Type) := {
  pc_tag : P → ProtoTag;
  pc_email : P → string;
  to_user : P → result User string;
}.

Definition email_of (uuid : Uuid) : string := uuid_str uuid +:+ "@" +:+ "pony".

(** [ConnFlow] -- proto/xray/vless.rs:32-37 *)
Inductive ConnFlow : Set := Vision | Direct | NoFlow.
(** [ConnFlow::fmt] -- proto/xray/vless.rs:39-47 *)
Definition flow_fmt (f : ConnFlow) : string :=
  match f with Vision => "xtls-rprx-vision" | Direct => "xtls-rprx-direct" | NoFlow => "" end.

(** [ConnInfo] -- proto/xray/vless.rs:9-30 *)
Record VlessConnInfo : Set := {
  vl_uuid : Uuid; vl_in_tag : ProtoTag; vl_level : Z; vl_email : string;
  vl_encryption : option string; vl_flow : ConnFlow }.
Definition VlessConnInfo_new (uuid : Uuid) (flow : ConnFlow) (tag : ProtoTag) : VlessConnInfo := {|
  vl_uuid := uuid; vl_in_tag := tag; vl_level := 0; vl_email := email_of uuid;
  vl_encryption := Some "none"; vl_flow := flow |}.
(** [ProtocolConn for vless::ConnInfo] -- proto/xray/vless.rs:49-73 *)
#[export] Instance vless_conn : ProtocolConn VlessConnInfo := {|
  pc_tag := vl_in_tag;
  pc_email := vl_email;
  to_user i := Ok {| level := vl_level i; user_email := vl_email i;
    account := VlessAccount (uuid_str (vl_uuid i)) (flow_fmt (vl_flow i))
      (default "none" (vl_encryption i)) |};
|}.

(** [ConnInfo] -- proto/xray/vmess.rs:7-24 *)
Record VmessConnInfo : Set := {
  vm_in_tag : ProtoTag; vm_level : Z; vm_email : string; vm_uuid : Uuid }.
Definition VmessConnInfo_new (uuid : Uuid) : VmessConnInfo := {|
  vm_in_tag := ProtoTag.Vmess; vm_level := 0; vm_email := email_of uuid; vm_uuid := uuid |}.
(** [ProtocolConn for vmess::ConnInfo] -- proto/xray/vmess.rs:26-49 *)
#[export] Instance vmess_conn : ProtocolConn VmessConnInfo := {|
  pc_tag := vm_in_tag;
  pc_email := vm_email;
  to_user i := Ok {| level := vm_level i; user_email := vm_email i;
    account := VmessAccount (uuid_str (vm_uuid i)) |};
|}.

(** [ConnInfo] -- proto/xray/shadowsocks.rs:9-30 *)
Record SsConnInfo : Set := {
  ss_uuid : Uuid; ss_cipher_type : string; ss_in_tag : ProtoTag; ss_level : Z;
  ss_email : string; ss_password : option string }.
Definition SsConnInfo_new (uuid : Uuid) (password : option string) : SsConnInfo := {|
  ss_uuid := uuid; ss_in_tag := ProtoTag.Shadowsocks; ss_level := 0;
  ss_email := email_of uuid; ss_password := password;
  ss_cipher_type := "chacha20-ietf-poly1305" |}.
(** [ProtocolConn for shadowsocks::ConnInfo] -- proto/xray/shadowsocks.rs:32-63 *)
#[export] Instance ss_conn : ProtocolConn SsConnInfo := {|
  pc_tag := ss_in_tag;
  pc_email := ss_email;
  to_user i :=
    match (if decide (ss_cipher_type i = "aes-128-gcm") then Ok "Aes128Gcm"
           else if decide (ss_cipher_type i = "aes-256-gcm") then Ok "Aes256Gcm"
           else if decide (ss_cipher_type i = "chacha20-ietf-poly1305") then Ok "Chacha20Poly1305"
           else Err "Unsupported cipher type") with
    | Err e => Err e
    | Ok cipher_type =>
      match ss_password i with
      | None => Err "Missing password"
      | Some password => Ok {| level := ss_level i; user_email := ss_email i;
          account := ShadowsocksAccount password cipher_type |}
      end
    end;
|}.
End conn_info.

(** ** Counters *)

Section prefix.
Context `{!UuidText}.

(** [Prefix] -- proto/xray/stats.rs:10-14 *)
Inductive Prefix : Set := ConnPrefix (id : Uuid) | InboundPrefix (tag : ProtoTag).
(** [Prefix::as_tag] -- proto/xray/stats.rs:16-24 *)
Definition as_tag (p : Prefix) : option ProtoTag :=
  match p with InboundPrefix tag => Some tag | ConnPrefix _ => None end.

(** what the name of a counter starts with *)
Definition base_name (p : Prefix) : string :=
  match p with
  | InboundPrefix tag => "inbound>>>" +:+ ProtoTag.fmt tag
  | ConnPrefix uuid => "user>>>" +:+ uuid_str uuid +:+ "@pony"
  end.
End prefix.

(** [Stat] -- memory/node.rs:307-311 *)
Record InboundStat : Set := { in_downlink : Z; in_uplink : Z; in_conn_count : Z }.

(** ** The node's devices *)
Record Devices `{!F64} (D X : Type) : Type := {
  dev_wg : D;
  dev_xray : X;
  dev_metrics : MetricBuffer (V := f64);
}.
Arguments dev_wg {_ D X} d.
Arguments dev_xray {_ D X} d.
Arguments dev_metrics {_ D X} d.
Definition set_dev_wg `{!F64} {D X} (wg : D) (d : Devices D X) : Devices D X :=
  {| dev_wg := wg; dev_xray := dev_xray d; dev_metrics := dev_metrics d |}.
Definition set_dev_xray `{!F64} {D X} (x : X) (d : Devices D X) : Devices D X :=
  {| dev_wg := dev_wg d; dev_xray := x; dev_metrics := dev_metrics d |}.
Definition set_dev_metrics `{!F64} {D X} (m : MetricBuffer (V := f64))
    (d : Devices D X) : Devices D X :=
  {| dev_wg := dev_wg d; dev_xray := dev_xray d; dev_metrics := m |}.

(** Which of them the node's configuration has, [wg_client], [handler_client] and
    [stats_client], and its description. *)
Record AgentConfig : Set := {
  has_wg : bool; has_xray : bool; has_stats : bool; agent_node : Node }.
Definition agent_uuid (c : AgentConfig) : Uuid := Node.uuid (agent_node c).
Definition agent_env (c : AgentConfig) : Env := Node.env (agent_node c).

Section xray.
Context `{!Oracle, !UuidText, !F64, !Tonic}.
Context {D X : Type} `{!XrayService X}.
Context (config : AgentConfig).
Notation W := (Svc (Devices D X)).
Notation Agent A := (Prog W A).
Implicit Type w : W.

Definition xray_call {A} (f : X → X * A) : Agent A :=
  Act (λ w, let '(x, a) := f (dev_xray (svc_device w)) in
            (set_svc_device (set_dev_xray x (svc_device w)) w, a)) Ret.
Definition wg_call {A} (f : D → D * A) : Agent A :=
  Act (λ w, let '(d, a) := f (dev_wg (svc_device w)) in
            (set_svc_device (set_dev_wg d (svc_device w)) w, a)) Ret.

(** [ProtocolConn::create] -- proto/xray/client.rs:183-200

    [to_user]'s failure is a panic. *)
Definition conn_create {P} `{!ProtocolConn P} (p : P) : Agent (result unit string) :=
  match to_user p with
  | Err _ => Panic
  | Ok user => xray_call (λ x, add_user x (ProtoTag.fmt (pc_tag p)) user)
  end.
(** [ProtocolConn::remove] -- proto/xray/client.rs:202-223 *)
Definition conn_remove {P} `{!ProtocolConn P} (p : P) : Agent (result unit string) :=
  xray_call (λ x, remove_user x (ProtoTag.fmt (pc_tag p)) (pc_email p)).

Definition grpc (r : result unit string) : result unit Error :=
  match r with Ok _ => Ok tt | Err e => Err (Error.Grpc e) end.

(** [HandlerActions::create] -- proto/xray/client.rs:92-133 *)
Definition xray_create (conn_id : Uuid) (tag : ProtoTag) (password : option string) :
    Agent (result unit Error) :=
  match tag with
  | ProtoTag.VlessTcpReality =>
    r <- conn_create (VlessConnInfo_new conn_id Vision tag);; Ret (grpc r)
  | ProtoTag.VlessGrpcReality =>
    r <- conn_create (VlessConnInfo_new conn_id Direct tag);; Ret (grpc r)
  | ProtoTag.VlessXhttpReality =>
    r <- conn_create (VlessConnInfo_new conn_id NoFlow tag);; Ret (grpc r)
  | ProtoTag.Vmess => r <- conn_create (VmessConnInfo_new conn_id);; Ret (grpc r)
  | ProtoTag.Shadowsocks =>
    match password with
    | Some pass => r <- conn_create (SsConnInfo_new conn_id (Some pass));; Ret (grpc r)
    | None => Ret (Err (Error.Custom "Create SS user error, password not provided"))
    end
  | _ => Ret (Err (Error.Custom "Not supported Proto"))
  end.

(** [HandlerActions::remove] -- proto/xray/client.rs:135-174

    What the removal answers is dropped. *)
Definition xray_remove (conn_id : Uuid) (tag : ProtoTag) (password : option string) :
    Agent (result unit Error) :=
  match tag with
  | ProtoTag.VlessTcpReality =>
    conn_remove (VlessConnInfo_new conn_id Vision tag);; Ret (Ok tt)
  | ProtoTag.VlessGrpcReality =>
    conn_remove (VlessConnInfo_new conn_id Direct tag);; Ret (Ok tt)
  | ProtoTag.VlessXhttpReality =>
    conn_remove (VlessConnInfo_new conn_id NoFlow tag);; Ret (Ok tt)
  | ProtoTag.Vmess => conn_remove (VmessConnInfo_new conn_id);; Ret (Ok tt)
  | ProtoTag.Shadowsocks =>
    match password with
    | Some pass => conn_remove (SsConnInfo_new conn_id (Some pass));; Ret (Ok tt)
    | None => Ret (Err (Error.Custom "Remove SS user error, password not provided"))
    end
  | _ => Ret (Err (Error.Custom "Not supported Proto"))
  end.
(** ** Statistics *)

Definition stat_name (base_name : string) (stat_type : StatPath.Stat) : option string :=
  match stat_type with
  | StatPath.Conn Kind.Downlink | StatPath.Conn Kind.Uplink
  | StatPath.Inbound Kind.Downlink | StatPath.Inbound Kind.Uplink =>
    Some (base_name +:+ ">>>traffic>>>" +:+ StatPath.fmt stat_type)
  | StatPath.Conn Kind.Online => Some (base_name +:+ ">>>" +:+ StatPath.fmt stat_type)
  | _ => None
  end.

(** [StatsOp::stat] -- bin/node/stats.rs:17-64 *)
Definition stat (prefix : Prefix) (stat_type : StatPath.Stat) (reset : bool) :
    Agent (result (option Z) GrpcStatus) :=
  if has_stats config then
    match stat_name (base_name prefix) stat_type with
    | None => Ret (Err (Internal "Unsupported stat type"))
    | Some name =>
      response <- match stat_type with
                  | StatPath.Conn Kind.Online => xray_call (λ x, get_stats_online x name reset)
                  | _ => xray_call (λ x, get_stats x name reset)
                  end;;
      Ret match response with
          | Ok stat => Ok stat
          | Err e => Err (Internal ("Stat request failed: " +:+ e))
          end
    end
  else Ret (Err (Unavailable "Xray Stats client doesn't exist")).

(** [tokio::join!] of three *)
Definition join3 {A B C} (p : Agent A) (q : Agent B) (r : Agent C) : Agent (A * B * C) :=
  x <- join2 svc_turn p (join2 svc_turn q r);;
  let '(a, (b, c)) := x in Ret (a, b, c).

(** [StatsOp::reset] -- bin/node/stats.rs:66-74 *)
Definition reset (conn_id : Uuid) : Agent (result unit GrpcStatus) :=
  let id := ConnPrefix conn_id in
  join3 (stat id (StatPath.Conn Kind.Downlink) true) (stat id (StatPath.Conn Kind.Uplink) true)
    (stat id (StatPath.Conn Kind.Online) true);;
  Ret (Ok tt).

(** [.ok().and_then(|s| s.stat).map(|v| v.value).unwrap_or(0)] *)
Definition value_or_0 (r : result (option Z) GrpcStatus) : Z :=
  match r with Ok (Some v) => v | _ => 0 end.

(** [StatsOp::conn] -- bin/node/stats.rs:76-110 *)
Definition conn (conn_id : Prefix) : Agent (result ConnStat GrpcStatus) :=
  res <- join3 (stat conn_id (StatPath.Conn Kind.Downlink) false)
    (stat conn_id (StatPath.Conn Kind.Uplink) false)
    (stat conn_id (StatPath.Conn Kind.Online) false);;
  let '(down_res, up_res, online_res) := res in
  Ret (Ok {| downlink := value_or_0 down_res; uplink := value_or_0 up_res;
             online := value_or_0 online_res |}).

(** [ConnOp::conn_count_op] -- proto/xray/client.rs:255-275 *)
Definition conn_count_op (tag : ProtoTag) : Agent (result Z GrpcStatus) :=
  r <- xray_call (λ x, (x, users_count x (ProtoTag.fmt tag)));;
  Ret match r with
      | Ok count => Ok count
      | Err e => Err (Internal ("Failed to fetch conn count for tag " +:+ ProtoTag.fmt tag +:+
          ": " +:+ e))
      end.

(** [StatsOp::conn_count] -- bin/node/stats.rs:129-143 *)
Definition conn_count (inbound : ProtoTag) : Agent (result (option Z) GrpcStatus) :=
  if has_xray config then
    r <- conn_count_op inbound;;
    Ret match r with Ok n => Ok (Some n) | Err e => Err (Internal (status_fmt e)) end
  else Ret (Err (Unavailable "Xray Handler client missing")).

(** [StatsOp::inbound] -- bin/node/stats.rs:112-127

    A prefix that is no tag panics. *)
Definition inbound (prefix : Prefix) : Agent (result InboundStat GrpcStatus) :=
  match as_tag prefix with
  | None => Panic
  | Some tag =>
    res <- join3 (stat prefix (StatPath.Inbound Kind.Downlink) false)
      (stat prefix (StatPath.Inbound Kind.Uplink) false) (conn_count tag);;
    match res with
    | (Ok d, Ok u, Ok c) => Ret (Ok {| in_downlink := default 0 d;
        in_uplink := default 0 u; in_conn_count := default 0 c |})
    | _ => Ret (Err (Internal "Failed to fetch inbound stats"))
    end
  end.
End xray.

(** ** Names of counters *)

Lemma fmt_no_mark t : Str.all (λ c, c ≠ ">"%char) (ProtoTag.fmt t).
Proof. destruct t; repeat constructor; done. Qed.
Lemma tag_fmt_inj t1 t2 : ProtoTag.fmt t1 = ProtoTag.fmt t2 → t1 = t2.
Proof. by destruct t1, t2. Qed.

Lemma app_inj_length s1 t1 s2 t2 :
  String.length s1 = String.length s2 → s1 +:+ t1 = s2 +:+ t2 → s1 = s2 ∧ t1 = t2.
Proof.
  revert s2. induction s1 as [|c s1 IH]; intros [|d s2] [=]; [by split|].
  intros [= -> Ht]. destruct (IH s2) as [-> ->]; done.
Qed.

(** What a counter's name ends with says in which direction it counts. *)
Definition stat_suffix (k : StatPath.Stat) (t : string) : Prop :=
  t = StatPath.fmt k ∧ t = "online" ∨ t = "traffic>>>" +:+ StatPath.fmt k.
Lemma stat_name_suffix base k n :
  stat_name base k = Some n → ∃ t, n = base +:+ String ">" (">>" +:+ t) ∧ stat_suffix k t.
Proof.
  unfold stat_suffix. destruct k as [[]|[]|[]]; intros [= <-]; eexists; (split; [reflexivity|auto]).
Qed.
Lemma stat_suffix_inj k1 k2 t :
  stat_suffix k1 t → stat_suffix k2 t → StatPath.fmt k1 = StatPath.fmt k2.
Proof.
  intros [[<- H1]|H1] [[<- H2]|H2]; [done|by rewrite H1 in H2|by rewrite H2 in H1|].
  rewrite H1 in H2. by apply StrFacts.app_inj_l in H2.
Qed.

(** No two counters that the node asks Xray for have one name: the name says
    whose it is, which connection's or which inbound's, and in which
    direction.  So no connection is reported, or reset, under another's. *)
Theorem stat_name_inj `{!UuidText} (p1 p2 : Prefix) (k1 k2 : StatPath.Stat) (n : string)
    (Hu1 : ∀ id, p1 = ConnPrefix id → uuid_ok id) (Hu2 : ∀ id, p2 = ConnPrefix id → uuid_ok id)
    (Hn1 : stat_name (base_name p1) k1 = Some n) (Hn2 : stat_name (base_name p2) k2 = Some n) :
  p1 = p2 ∧ StatPath.fmt k1 = StatPath.fmt k2.
Proof.
  apply stat_name_suffix in Hn1 as (t1 & -> & Ht1), Hn2 as (t2 & Hn & Ht2).
  assert (p1 = p2 ∧ t1 = t2) as [-> ->]; [|split; [done|by eapply stat_suffix_inj]].
  destruct p1 as [id1|tag1], p2 as [id2|tag2]; cbn [base_name] in Hn; try done.
  - rewrite !StrFacts.app_assoc in Hn. apply StrFacts.app_inj_l in Hn.
    apply app_inj_length in Hn as [Hid Ht]; [|by rewrite !uuid_str_length].
    injection Ht as <-. split; [|done].
    pose proof (uuid_parse_str id1 (Hu1 _ eq_refl)) as Hp.
    rewrite Hid, uuid_parse_str in Hp by eauto. congruence.
  - rewrite !StrFacts.app_assoc in Hn. apply StrFacts.app_inj_l in Hn.
    apply (f_equal (Str.split_once ">")) in Hn.
    rewrite !StrFacts.split_once_app in Hn by apply fmt_no_mark.
    injection Hn as Htag <-. split; [|done]. by apply tag_fmt_inj in Htag as ->.
Qed.

Lemma stat_name_inj_witness :
  let p := ConnPrefix 7%N in
  let n := "user>>>00000000-0000-0000-0000-000000000007@pony>>>online" in
  uuid_ok 7%N ∧ stat_name (base_name p) (StatPath.Conn Kind.Online) = Some n ∧ p = p.
Proof.
  cbv zeta. assert (uuid_ok 7%N) as Hok by (unfold uuid_ok; lia).
  assert (∀ id, ConnPrefix 7%N = ConnPrefix id → uuid_ok id) as Hid by (intros id [= <-]; exact Hok).
  assert (stat_name (base_name (ConnPrefix 7%N)) (StatPath.Conn Kind.Online) =
    Some "user>>>00000000-0000-0000-0000-000000000007@pony>>>online") as Hn
    by (vm_compute; reflexivity).
  split; [exact Hok|]. split; [exact Hn|].
  exact (proj1 (stat_name_inj (ConnPrefix 7%N) (ConnPrefix 7%N) _ _ _ Hid Hid Hn Hn)).
Defined.
