(* ===== verification/Agent.v ===== *)
(** * The node's agent

    [bin/node/{tasks,snapshot}.rs]: the messages of the bus carried out on the
    node's devices ([Xray]). *)
From S2P Require Import Prelude Task Foreign Naming Wireguard Connection ConnStore Node World.
From S2P Require Import Service Xray.
Local Open Scope Z_scope.
Local Open Scope prog_scope.

Section agent.
Context `{!Oracle, !UuidText, !Ipv6Text, !IterOrder, !Chrono, !WgCrypto, !F64, !Tonic}.
Context {D X : Type} `{!KernelIface D, !XrayService X}.
Context (config : AgentConfig).
Notation W := (Svc (Devices D X)).
Notation Agent A := (Prog W A).
Implicit Type w : W.

(** [.map_err(|err| Error::Custom(format!("{prefix}{}", err)))] *)
Definition context_err {A} (prefix : string) (r : result A Error) : result A Error :=
  match r with Ok a => Ok a | Err e => Err (Error.Custom (prefix +:+ Error.fmt e)) end.

Definition memory_add (conn_id : Uuid) (conn : Base) (prefix : string) : Agent (result unit Error) :=
  r <- svc_update (λ m, add m conn_id conn);;
  Ret match context_err (prefix +:+ uuid_str conn_id +:+ ": ") r with
      | Ok _ => Ok tt | Err e => Err e end.

(** the arms of [handle_message] for a creation or an update *)
Definition create_wg (msg : Message) : Agent (result unit Error) :=
  let conn_id := Message.conn_id msg in
  match Message.wg msg with
  | None => Ret (Err (Error.Custom "Missing WireGuard keys"))
  | Some wg =>
    t <- svc_ask clock;;
    match message_conn t (Proto.new_wg wg) msg with
    | None => Panic
    | Some conn =>
      _ <-? memory_add conn_id conn "Failed to add WireGuard conn ";;
      if negb (has_wg config) then Ret (Err (Error.Custom "WireGuard API is unavailable"))
      else
        match pubkey (keys wg) with
        | Err _ => Ret (Ok tt)
        | Ok pubkey =>
          exist <- wg_call (λ d, (d, WgApi_is_exist d pubkey));;
          if exist : bool then Ret (Err (Error.Custom "WG User already exist"))
          else
            r <- wg_call (λ d, WgApi_create d pubkey (param_address wg));;
            Ret (context_err "Failed to create WireGuard peer: " r)
        end
    end
  end.

(** an Xray protocol: the client first, then the table *)
Definition create_on_xray (msg : Message) (proto : Proto) (password : option string) :
    Agent (result unit Error) :=
  let conn_id := Message.conn_id msg in
  t <- svc_ask clock;;
  match message_conn t proto msg with
  | None => Panic
  | Some conn =>
    if negb (has_xray config) then Ret (Err (Error.Grpc "Xray handler unavailable"))
    else
      r <- xray_create conn_id (Message.tag msg) password;;
      match context_err ("Failed to create conn " +:+ uuid_str conn_id +:+ ": ") r with
      | Err e => Ret (Err e)
      | Ok _ => memory_add conn_id conn "Failed to add conn "
      end
  end.

Definition UNSUPPORTED : Error :=
  Error.Custom "Is not supported, or built without support the proto".

Definition message_create (msg : Message) : Agent (result unit Error) :=
  match Message.tag msg with
  | ProtoTag.Wireguard => create_wg msg
  | ProtoTag.VlessTcpReality | ProtoTag.VlessGrpcReality | ProtoTag.VlessXhttpReality
  | ProtoTag.Vmess => create_on_xray msg (Proto.new_xray (Message.tag msg)) None
  | ProtoTag.Shadowsocks =>
    match Message.password msg with
    | Some password => create_on_xray msg (Proto.new_ss password) (Some password)
    | None => Ret (Err (Error.Custom "Password not provided for Shadowsocks user"))
    end
  | _ => Ret (Err UNSUPPORTED)
  end.

Definition message_delete (msg : Message) : Agent (result unit Error) :=
  let conn_id := Message.conn_id msg in
  match Message.tag msg with
  | ProtoTag.Wireguard =>
    if negb (has_wg config) then Ret (Err (Error.Custom "WireGuard API is unavailable"))
    else
      match Message.wg msg with
      | None => Ret (Err (Error.Custom "Missing WireGuard keys in message"))
      | Some wg =>
        match pubkey (keys wg) with
        | Err e => Ret (Err e)
        | Ok pubkey =>
          r <- wg_call (λ d, WgApi_delete d pubkey);;
          match context_err "Failed to delete WireGuard peer: " r with
          | Err e => Ret (Err e)
          | Ok _ => svc_update (λ m, remove m conn_id);; Ret (Ok tt)
          end
        end
      end
  | ProtoTag.VlessTcpReality | ProtoTag.VlessGrpcReality | ProtoTag.VlessXhttpReality
  | ProtoTag.Vmess | ProtoTag.Shadowsocks =>
    if negb (has_xray config) then Ret (Err (Error.Grpc "Xray handler unavailable"))
    else
      r <- xray_remove conn_id (Message.tag msg) (Message.password msg);;
      match context_err "Couldn't remove connection from Xray: " r with
      | Err e => Ret (Err e)
      | Ok _ => svc_update (λ m, remove m conn_id);; Ret (Ok tt)
      end
  | _ => Ret (Err UNSUPPORTED)
  end.

(** [handle_message] -- bin/node/tasks.rs:119-319 *)
Definition handle_message (msg : Message) : Agent (result unit Error) :=
  match Message.action msg with
  | Action.Create | Action.Update => message_create msg
  | Action.Delete => message_delete msg
  | Action.ResetStat =>
    r <- reset config (Message.conn_id msg);;
    Ret match r with
        | Ok _ => Ok tt
        | Err e => Err (Error.Custom ("Couldn't reset stat: " +:+ status_fmt e))
        end
  end.

(** [handle_messages_batch] -- bin/node/tasks.rs:106-117

    The messages of a batch run together, and the first error abandons those
    that are not done. *)
Definition handle_messages_batch (messages : list Message) : Agent (result unit Error) :=
  r <- try_join_all svc_turn (handle_message <$> messages);;
  Ret match r with Ok _ => Ok tt | Err e => Err e end.

(** [run_subscriber] -- bin/node/tasks.rs:58-77 *)
Definition agent_accepts (topic : Topic) : bool :=
  match topic with
  | Topic.Auth | Topic.Metrics => false
  | Topic.Init uuid => bool_decide (uuid = agent_uuid config)
  | Topic.Updates env => bool_decide (env = agent_env config)
  end.
Definition agent_receive (frame : Frame) : Agent unit :=
  receive agent_accepts handle_messages_batch frame.

(** [restore_wg_connections] -- bin/node/snapshot.rs:39-74

    The tasks it spawns, one per connection. *)
Definition restore_wg_connections : Agent (result (list (Agent unit)) Error) :=
  mem <- svc_read id;;
  if is_empty mem then Ret (Err (Error.Custom "Empty snapshot"))
  else
    Ret (Ok ((λ '(conn_id, conn),
      match get_wireguard conn with
      | Some wg =>
        if has_wg config then
          match pubkey (keys wg) with
          | Ok pubkey => wg_call (λ d, WgApi_create d pubkey (param_address wg));; Ret tt
          | Err _ => Ret tt
          end
        else Ret tt
      | None => Ret tt
      end) <$> keep (λ '(_, conn),
        bool_decide (Proto.proto (get_proto conn) = ProtoTag.Wireguard)) (hiter mem))).

(** the protocols of Xray's process *)
Definition on_xray (tag : ProtoTag) : bool :=
  match tag with
  | ProtoTag.VlessTcpReality | ProtoTag.VlessGrpcReality | ProtoTag.VlessXhttpReality
  | ProtoTag.Vmess | ProtoTag.Shadowsocks => true
  | _ => false
  end.

(** [restore_xray_connections] -- bin/node/snapshot.rs:76-126 *)
Definition restore_xray_connections : Agent (result (list (Agent unit)) Error) :=
  mem <- svc_read id;;
  if is_empty mem then Ret (Err (Error.Custom "Empty snapshot"))
  else
    Ret (Ok ((λ '(conn_id, conn),
      if has_xray config then
        let proto := Proto.proto (get_proto conn) in
        let password := if bool_decide (proto = ProtoTag.Shadowsocks)
                        then get_password conn else None in
        xray_create conn_id proto password;; Ret tt
      else Ret tt) <$> keep (λ '(_, conn), on_xray (Proto.proto (get_proto conn))) (hiter mem))).

(** ** Accounts

    The account a connection stands for, if it is one of Xray's. *)
Definition password_of (p : Proto) : option string :=
  match p with Proto.Shadowsocks password => Some password | _ => None end.
Definition account_of (id : Uuid) (p : Proto) : option User :=
  match p with
  | Proto.Shadowsocks password => result_ok (to_user (SsConnInfo_new id (Some password)))
  | Proto.Xray ProtoTag.VlessTcpReality =>
    result_ok (to_user (VlessConnInfo_new id Vision ProtoTag.VlessTcpReality))
  | Proto.Xray ProtoTag.VlessGrpcReality =>
    result_ok (to_user (VlessConnInfo_new id Direct ProtoTag.VlessGrpcReality))
  | Proto.Xray ProtoTag.VlessXhttpReality =>
    result_ok (to_user (VlessConnInfo_new id NoFlow ProtoTag.VlessXhttpReality))
  | Proto.Xray ProtoTag.Vmess => result_ok (to_user (VmessConnInfo_new id))
  | _ => None
  end.

Notation xray_of w := (dev_xray (svc_device w)).
Notation wg_of w := (dev_wg (svc_device w)).
Definition with_xray (x : X) w : W := set_svc_device (set_dev_xray x (svc_device w)) w.
Definition with_wg (d : D) w : W := set_svc_device (set_dev_wg d (svc_device w)) w.

Definition has_account (id : Uuid) (p : Proto) w : Prop :=
  ∀ u, account_of id p = Some u →
    users (xray_of w) (ProtoTag.fmt (Proto.proto p)) (email_of id) = Some u.
(** Every connection of the table has its account. *)
Record served w : Prop := {
  served_accounts : ∀ id c, svc_mem w !! id = Some c → has_account id (Base.proto c) w;
  served_ids : ∀ id, is_Some (svc_mem w !! id) → uuid_ok id;
}.

(** No account is taken away, and no connection either. *)
Definition users_grow (x x' : X) : Prop := ∀ t e u, users x t e = Some u → users x' t e = Some u.
#[export] Instance users_grow_preorder : PreOrder users_grow.
Proof. split; [by intros x t e u|]. intros x1 x2 x3 H12 H23 t e u Hu. by apply H23, H12. Qed.
Definition nothing_lost w w' : Prop :=
  users_grow (xray_of w) (xray_of w') ∧ svc_mem w ⊆ svc_mem w'.
#[export] Instance nothing_lost_preorder : PreOrder nothing_lost.
Proof.
  split; [by split|]. intros w1 w2 w3 [] []. split; by etransitivity.
Qed.

Lemma has_account_grow id p w w' : nothing_lost w w' → has_account id p w → has_account id p w'.
Proof. intros [Hg _] Ha u Hu. by apply Hg, Ha. Qed.
Lemma add_subseteq (m : Connections Base) id conn : m ⊆ (add m id conn).1.
Proof. unfold add. destruct (m !! id) eqn:Hm; [done|]. by apply insert_subseteq. Qed.

(** ** Creations

    What a message that creates a connection asks for, and what it makes of
    the table. *)
Definition message_proto (msg : Message) : option Proto :=
  match Message.tag msg with
  | ProtoTag.Wireguard => Proto.new_wg <$> Message.wg msg
  | ProtoTag.VlessTcpReality | ProtoTag.VlessGrpcReality | ProtoTag.VlessXhttpReality
  | ProtoTag.Vmess => Some (Proto.new_xray (Message.tag msg))
  | ProtoTag.Shadowsocks => Proto.new_ss <$> Message.password msg
  | _ => None
  end.
Definition carries (msg : Message) (conn : Base) : Prop :=
  ∃ t p, message_proto msg = Some p ∧ message_conn t p msg = Some conn.
(** the key under which the interface knows the connection of a message *)
Definition peer_key (msg : Message) (key : list Z) : Prop :=
  ∃ wg k, Message.tag msg = ProtoTag.Wireguard ∧ Message.wg msg = Some wg ∧
    pubkey (keys wg) = Ok k ∧ decode_pubkey k = Ok key.

Lemma message_conn_proto t p msg conn : message_conn t p msg = Some conn → Base.proto conn = p.
Proof.
  unfold message_conn. destruct (Message.expires_at msg) as [e|]; [destruct (of_rkyv e)|];
    by try intros [= <-].
Qed.
Lemma message_proto_tag msg p : message_proto msg = Some p → Proto.proto p = Message.tag msg.
Proof.
  unfold message_proto. destruct (Message.tag msg), (Message.wg msg), (Message.password msg);
    by try intros [= <-].
Qed.

(** What holds throughout creations ([I]), how they move the agent's world ([G]),
    which connections may enter the table ([admits]) and what configuring a
    peer achieves ([peered]). *)
Class Creating (I : W → Prop) (G : W → W → Prop) (admits : Uuid → Base → W → Prop)
    (peered : list Z → W → Prop) : Prop := {
  cr_pre :: PreOrder G;
  cr_lost w w' : G w w' → nothing_lost w w';
  cr_tick w : I w → I (svc_bump w) ∧ G w (svc_bump w);
  cr_xray x w : users_grow (xray_of w) x → I w → I (with_xray x w) ∧ G w (with_xray x w);
  cr_wg key ips w (w' := with_wg (configure_peer (wg_of w) key ips).1 w) : I w → I w' ∧ G w w';
  cr_add id conn w (w' := set_svc_mem (add (svc_mem w) id conn).1 w) :
    admits id conn w → I w → I w' ∧ G w w';
  cr_peered key w w' : G w w' → peered key w → peered key w';
  cr_configured key ips w : I w → (configure_peer (wg_of w) key ips).2 = Ok tt →
    peered key (with_wg (configure_peer (wg_of w) key ips).1 w);
}.

Section creating.
Context (I : W → Prop) (G : W → W → Prop) (admits : Uuid → Base → W → Prop).
Context (peered : list Z → W → Prop) `{!Creating I G admits peered}.
Notation creating p w := (okp I G p w).
Notation yields p Q w := (rg I G p (on_ok (λ _, Q)) w).

(** What a creation leaves behind it. *)
Record done_of (msg : Message) w : Prop := {
  done_conn : is_Some (svc_mem w !! Message.conn_id msg);
  done_account : ∀ p, message_proto msg = Some p → has_account (Message.conn_id msg) p w;
  done_peer : ∀ key, peer_key msg key → peered key w;
}.

Lemma cr_ask {A} (f : nat → A) w : creating (svc_ask f) w.
Proof. apply okp_act; [|by intros; apply okp_ret]. intros w'. apply cr_tick. Qed.

(** Asking for a counter touches no account. *)
Lemma cr_ask_xray {A} (f : X → X * A) w :
  (∀ x t e, users (f x).1 t e = users x t e) → creating (xray_call f) w.
Proof.
  intros Hf. apply okp_act; [|by intros; apply okp_ret]. intros w' Hs.
  pose proof (cr_xray (f (xray_of w')).1 w') as Hx. destruct (f _) as [x a] eqn:He; cbn in *.
  apply Hx; [|done]. intros t e u. pose proof (Hf (xray_of w') t e) as Hu. by rewrite He in Hu; cbn in *; rewrite Hu.
Qed.
Lemma cr_stat p k b w : creating (stat config p k b) w.
Proof.
  unfold stat. destruct (has_stats config); [|by apply okp_ret].
  destruct (stat_name _ _); [|by apply okp_ret].
  apply (okp_bind I G); [|by intros; apply okp_ret].
  assert (∀ n, creating (xray_call (λ x, get_stats x n b)) w) as Hs
    by (intros n; apply cr_ask_xray; intros; apply get_stats_users).
  destruct k as [[]| |]; try apply Hs. apply cr_ask_xray. intros. apply get_stats_online_users.
Qed.
Lemma cr_turn w : I w → I (svc_turn w).1 ∧ G w (svc_turn w).1.
Proof. apply cr_tick. Qed.
Lemma cr_join2 {A B} (p : Agent A) (q : Agent B) w :
  creating p w → creating q w → creating (join2 svc_turn p q) w.
Proof.
  intros Hp Hq. eapply (rg_post I G); [|apply (rg_join2 svc_turn I G);
    [exact cr_turn|exact Hp|exact Hq]]. by intros ? ? _ _ ? _ _.
Qed.
Lemma cr_join3 {A B C} (p : Agent A) (q : Agent B) (r : Agent C) w :
  creating p w → creating q w → creating r w → creating (join3 p q r) w.
Proof.
  intros Hp Hq Hr. apply (okp_bind I G); [by apply cr_join2, cr_join2|].
  intros [? []] ?. by apply okp_ret.
Qed.
Lemma cr_reset id w : creating (reset config id) w.
Proof.
  apply (okp_bind I G); [|by intros; apply okp_ret]. apply cr_join3; apply cr_stat.
Qed.

Lemma rg_conn_create {P} `{!ProtocolConn P} (p : P) user w :
  to_user p = Ok user →
  yields (conn_create p) (λ w,
    users (xray_of w) (ProtoTag.fmt (pc_tag p)) (user_email user) = Some user) w.
Proof.
  intros Hu. unfold conn_create. rewrite Hu. intros w' _ HI. cbn.
  pose proof (cr_xray (add_user (xray_of w') (ProtoTag.fmt (pc_tag p)) user).1 w') as Hx.
  destruct (add_user _ _ _) as [x r] eqn:Hadd. cbn in *.
  destruct Hx as [HI' Hg]; [intros t e u; by eapply add_user_keeps|done|].
  split_and!; [done|done|]. intros w'' Hg' _. destruct r as [[]|]; [|done].
  apply cr_lost in Hg' as [Hg' _]. apply Hg'. cbn. by eapply add_user_ok.
Qed.

Lemma rg_create_account {P} `{!ProtocolConn P} (q : P) id p w :
  result_ok (to_user q) = account_of id p → pc_tag q = Proto.proto p →
  (∀ u, to_user q = Ok u → user_email u = email_of id) → (∃ u, to_user q = Ok u) →
  yields (r <- conn_create q;; Ret (grpc r)) (has_account id p) w.
Proof.
  intros Ha Ht He [u Hu]. eapply (rg_bind I G); [by apply rg_conn_create|].
  intros r w1 _ _ Hr w2 Hg2 HI2. specialize (Hr w2 Hg2 HI2). destruct r as [[]|]; [|done].
  intros u' Hu'. rewrite <- Ha, Hu in Hu'. injection Hu' as <-. by rewrite <- Ht, <- (He u Hu).
Qed.

Lemma rg_xray_create id p w :
  yields (xray_create id (Proto.proto p) (password_of p)) (has_account id p) w.
Proof.
  destruct p as [wg|pw|tag|tok|sec]; cbn [Proto.proto password_of]; [by intros w1 _ _| | |by intros w1 _ _..].
  - apply (rg_create_account (SsConnInfo_new id (Some pw))); [done|done|by intros u [= <-]|by eexists].
  - destruct tag; cbn [xray_create]; try (by intros w1 _ _);
      (apply rg_create_account; [done|done|by intros u [= <-]|by eexists]).
Qed.

Lemma rg_memory_add id conn prefix w :
  onward I G (admits id conn) w →
  yields (memory_add id conn prefix) (λ w, is_Some (svc_mem w !! id)) w.
Proof.
  intros Ha w1 Hg HI. pose proof (cr_add id conn w1 (Ha w1 Hg HI) HI) as [HI' Hg'].
  assert (is_Some ((add (svc_mem w1) id conn).1 !! id)) as Hin.
  { unfold add. destruct (svc_mem w1 !! id) eqn:Hm; cbn; [by rewrite Hm|by rewrite lookup_insert_eq]. }
  cbn. destruct (add (svc_mem w1) id conn) as [m r] eqn:He; cbn in *. split_and!; [done|done|].
  intros w2 Hg2 _. destruct (context_err _ r); [|done]. cbn. destruct Hin as [c Hc].
  apply cr_lost in Hg2 as [_ Hm]. exists c. by eapply lookup_weaken.
Qed.

Lemma onward_lost (P : W → Prop) w :
  (∀ w w', nothing_lost w w' → P w → P w') → P w → onward I G P w.
Proof. intros HP Hw w' Hg _. by eapply HP, Hw; apply cr_lost. Qed.

(** A message that creates a connection, on every branch. *)
Lemma rg_create_on_xray msg p w :
  message_proto msg = Some p → Message.tag msg ≠ ProtoTag.Wireguard →
  (∀ conn w', carries msg conn → has_account (Message.conn_id msg) p w' → I w' →
    admits (Message.conn_id msg) conn w') →
  yields (create_on_xray msg p (password_of p)) (done_of msg) w.
Proof.
  intros Hp Hnw Hadm. pose proof (message_proto_tag _ _ Hp) as Ht. unfold create_on_xray.
  apply (rg_bind I G _ _ (λ _ _, True)); [apply cr_ask|]. intros t w1 _ _ _.
  destruct (message_conn t p msg) as [conn|] eqn:Hconn; [|exact Logic.I].
  destruct (negb _); [by intros ? _ _|].
  eapply (rg_bind I G); [rewrite <- Ht; apply rg_xray_create|].
  intros [[]|e] w2 _ _ Hacc; cbn [context_err]; [|by intros ? _ _].
  refine (rg_post I G _ _ _ _ _ (rg_frame I G _ _ _ _ Hacc (rg_memory_add _ _ _ _ _))).
  - intros [[]|e] w3 _ Hq w4 Hg HI; [|done]. destruct (Hq w4 Hg HI) as [Ha Hin].
    split; [done| |].
    + intros p' Hp'. rewrite Hp in Hp'. by injection Hp' as <-.
    + intros key (wg & k & Hw & _). done.
  - intros w3 Hg HI. apply Hadm; [by exists t, p|by apply Hacc|done].
Qed.

Lemma with_wg_same w : with_wg (wg_of w) w = w.
Proof. by destruct w as [? ? [] ?]. Qed.

Lemma rg_wg_create pubkey ip w :
  rg I G (wg_call (λ d, WgApi_create d pubkey ip)) (on_ok (λ _ w,
    ∀ key, decode_pubkey pubkey = Ok key → peered key w)) w.
Proof.
  intros w1 _ HI. unfold WgApi_create. destruct (decode_pubkey pubkey) as [key|e]; cbn.
  - pose proof (cr_wg key [ip] w1 HI) as [HI' Hg]. pose proof (cr_configured key [ip] w1 HI) as Hp.
    destruct (configure_peer (wg_of w1) key [ip]) as [d [[]|e]]; cbn in *; split_and!; [done|done| |done..].
    intros w2 Hg2 _ key' [= <-]. by eapply cr_peered, Hp.
  - change (set_svc_device _ w1) with (with_wg (wg_of w1) w1). rewrite with_wg_same. by split_and!.
Qed.

Lemma rg_create_wg msg w :
  Message.tag msg = ProtoTag.Wireguard →
  (∀ conn w', carries msg conn → I w' → admits (Message.conn_id msg) conn w') →
  yields (create_wg msg) (done_of msg) w.
Proof.
  intros Ht Hadm. unfold create_wg. destruct (Message.wg msg) as [wg|] eqn:Hwg; [|by intros ? _ _].
  assert (message_proto msg = Some (Proto.new_wg wg)) as Hp
    by (unfold message_proto; by rewrite Ht, Hwg).
  apply (rg_bind I G _ _ (λ _ _, True)); [apply cr_ask|]. intros t w1 _ _ _.
  destruct (message_conn _ _ msg) as [conn|] eqn:Hconn; [|exact Logic.I].
  eapply (rg_bind I G); [apply rg_memory_add; intros w2 _ HI; apply Hadm; [by eexists _, _|done]|].
  assert (∀ w, is_Some (svc_mem w !! Message.conn_id msg) → (∀ key, peer_key msg key → peered key w) →
    done_of msg w) as Hdone.
  { intros w' Hin Hk. split; [done| |done]. intros p Hp'. rewrite Hp in Hp'. by injection Hp' as <-. }
  intros [[]|e] w2 _ _ Hin; [|by intros ? _ _]. destruct (negb _); [by intros ? _ _|].
  destruct (pubkey (keys wg)) as [k|e] eqn:Hk.
  2:{ intros w3 Hg HI. apply Hdone; [by apply (Hin w3)|]. intros key (wg' & k & _ & Hw & He & _).
      congruence. }
  apply (rg_bind I G _ _ (λ _ _, True)).
  { intros w3 _ HI. cbn. change (set_svc_device _ w3) with (with_wg (wg_of w3) w3).
    rewrite with_wg_same. by split_and!. }
  intros [] w3 Hg3 _ _; [by intros ? _ _|].
  eapply (rg_bind I G);
    [apply (rg_frame I G); [exact (onward_mono I G _ _ _ Hg3 Hin)|apply rg_wg_create]|].
  intros r w4 _ _ Hq w5 Hg5 HI5. destruct (Hq w5 Hg5 HI5) as [Hc Hpe].
  destruct r as [[]|e]; [|done]. apply Hdone; [done|].
  intros key (wg' & k' & _ & Hw & He & Hd). apply Hpe. congruence.
Qed.

Definition creates (m : Message) : Prop :=
  Message.action m = Action.Create ∨ Message.action m = Action.Update.

Lemma rg_handle_create msg w :
  creates msg →
  (∀ p conn w', message_proto msg = Some p → carries msg conn →
    has_account (Message.conn_id msg) p w' → I w' → admits (Message.conn_id msg) conn w') →
  yields (handle_message msg) (done_of msg) w.
Proof.
  intros Hc Hadm. unfold handle_message.
  assert (yields (message_create msg) (done_of msg) w) as Hm; [|by destruct Hc as [-> | ->]].
  assert (∀ p, message_proto msg = Some p → Message.tag msg ≠ ProtoTag.Wireguard →
    yields (create_on_xray msg p (password_of p)) (done_of msg) w) as Hx
    by (intros p Hp Hnw; apply rg_create_on_xray; naive_solver).
  assert (Message.tag msg = ProtoTag.Wireguard → yields (create_wg msg) (done_of msg) w) as Hw.
  { intros Ht. apply rg_create_wg; [done|]. intros conn w' Hcar HI.
    pose proof Hcar as (t & p & Hp & _). eapply Hadm; [done..| |done].
    unfold message_proto in Hp. rewrite Ht in Hp. destruct (Message.wg msg); [|done].
    by injection Hp as <-. }
  unfold message_proto in Hx. unfold message_create.
  destruct (Message.tag msg) eqn:Ht; try (by intros ? _ _); try (by apply Hw);
    try (by apply (Hx (Proto.Xray _))).
  destruct (Message.password msg) as [pw|]; [|by intros ? _ _].
  by apply (Hx (Proto.Shadowsocks pw)).
Qed.

Lemma cr_batch msgs w :
  (∀ m, m ∈ msgs → creating (handle_message m) w) → creating (handle_messages_batch msgs) w.
Proof.
  intros Hm. apply (okp_bind I G); [|by intros; apply okp_ret].
  apply okp_try_join_all; [apply _|exact cr_turn|].
  intros p (m & -> & Hin)%list_elem_of_fmap. by apply Hm.
Qed.
Lemma cr_reset_message m w :
  Message.action m = Action.ResetStat → creating (handle_message m) w.
Proof.
  intros Ha. unfold handle_message. rewrite Ha.
  apply (okp_bind I G); [apply cr_reset|by intros; apply okp_ret].
Qed.
End creating.

(** ** What the table says, Xray does *)
Definition admits_served (id : Uuid) (conn : Base) w : Prop :=
  uuid_ok id ∧ has_account id (Base.proto conn) w.
Definition any_peer (_ : list Z) (_ : W) : Prop := True.

Lemma served_same w w' :
  svc_mem w' = svc_mem w → users_grow (xray_of w) (xray_of w') → served w →
  served w' ∧ nothing_lost w w'.
Proof.
  intros Hm Hg [Ha Hi]. assert (nothing_lost w w') as Hl by (split; [done|by rewrite Hm]).
  split; [|done]. split; rewrite Hm; [|done].
  intros id c Hc. eapply has_account_grow; [done|by apply Ha].
Qed.

Lemma served_add id conn w :
  uuid_ok id → has_account id (Base.proto conn) w → served w →
  served (set_svc_mem (add (svc_mem w) id conn).1 w).
Proof.
  intros Hid Ha [Hs Hi]. unfold add. destruct (svc_mem w !! id) as [c|] eqn:Hc; cbn.
  - split; [exact Hs|exact Hi].
  - split; cbn.
    + intros id' c' [[<- <-]|[_ Hc']]%lookup_insert_Some; [exact Ha|by apply Hs].
    + intros id' [<-|[_ Hc']]%lookup_insert_is_Some; [done|by apply Hi].
Qed.

#[export] Instance served_creating : Creating served nothing_lost admits_served any_peer.
Proof.
  split; [apply _|done| | | | |done|done].
  - intros w. by apply served_same.
  - intros x w Hx. by apply served_same.
  - intros key ips w w'. by apply served_same.
  - intros id conn w w' [Hid Ha] Hs. split; [by apply served_add|].
    split; [done|]. apply add_subseteq.
Qed.
Notation grows p w := (okp served nothing_lost p w).

Lemma grows_create msg w :
  creates msg → uuid_ok (Message.conn_id msg) → grows (handle_message msg) w.
Proof.
  intros Hc Hid. eapply (rg_post served nothing_lost);
    [|apply (rg_handle_create served nothing_lost admits_served any_peer); [done|]].
  - by intros [] ? _ _ ? _ _.
  - intros p conn w' Hp (t & p' & Hp' & Hconn) Ha _. split; [done|].
    rewrite (message_conn_proto _ _ _ _ Hconn). rewrite Hp in Hp'. by injection Hp' as <-.
Qed.

Lemma served_remove id w : served w → served (set_svc_mem (remove (svc_mem w) id).1 w).
Proof.
  intros [Hs Hi]. split; cbn.
  - intros id' c' [_ Hc']%lookup_delete_Some. by apply Hs.
  - intros id' [_ Hc']%lookup_delete_is_Some. by apply Hi.
Qed.

Lemma email_of_inj a b : uuid_ok a → uuid_ok b → email_of a = email_of b → a = b.
Proof.
  intros Ha Hb He. apply StrFacts.app_inj_r in He.
  pose proof (uuid_parse_str a Ha) as Hp. rewrite He, uuid_parse_str in Hp by done. congruence.
Qed.

Lemma served_deleted id w w' :
  uuid_ok id → svc_mem w' = delete id (svc_mem w) →
  (∀ t e, e ≠ email_of id →
    users (dev_xray (svc_device w')) t e = users (dev_xray (svc_device w)) t e) →
  served w → served w'.
Proof.
  intros Hid Hm Hu [Hs Hi]. split; rewrite Hm.
  - intros id' c' [Hne Hc']%lookup_delete_Some u Hacc. rewrite Hu; [by eapply Hs|].
    intros He. apply Hne. symmetry. apply email_of_inj; [|done..]. apply Hi. by exists c'.
  - intros id' [_ Hc']%lookup_delete_is_Some. by apply Hi.
Qed.

Lemma run_conn_remove {P} `{!ProtocolConn P} (p : P) id w :
  pc_email p = email_of id →
  let '(w', r) := run (conn_remove p) w in
  svc_mem w' = svc_mem w ∧ r ≠ None ∧ ∀ t e, e ≠ email_of id →
    users (dev_xray (svc_device w')) t e = users (dev_xray (svc_device w)) t e.
Proof.
  intros He. cbn. destruct (remove_user _ _ _) as [x r] eqn:Hr. cbn. split_and!; [done|done|].
  intros t e Hne. eapply remove_user_others; [exact Hr|]. rewrite He. by intros [= _ ->].
Qed.

Lemma run_xray_remove id tag pw w :
  let '(w', r) := run (xray_remove id tag pw) w in
  svc_mem w' = svc_mem w ∧
  match r with
  | Some (Ok _) => ∀ t e, e ≠ email_of id →
      users (dev_xray (svc_device w')) t e = users (dev_xray (svc_device w)) t e
  | Some (Err _) => svc_device w' = svc_device w
  | None => False
  end.
Proof.
  assert (∀ P (HP : ProtocolConn P) (p : P), pc_email p = email_of id →
    let '(w', r) := run (conn_remove p;; Ret (Ok tt : result unit Error)) w in
    svc_mem w' = svc_mem w ∧
    match r with
    | Some (Ok _) => ∀ t e, e ≠ email_of id →
        users (dev_xray (svc_device w')) t e = users (dev_xray (svc_device w)) t e
    | Some (Err _) => svc_device w' = svc_device w
    | None => False
    end) as Hp.
  { intros P HP p He. rewrite run_bind. pose proof (run_conn_remove p id w He) as Hr.
    destruct (run (conn_remove p) w) as [w' [r|]]; destruct Hr as (Hm & Hn & Hu); [|done].
    by cbn. }
  destruct tag; cbn [xray_remove]; try done; try by apply Hp.
  destruct pw; [by apply Hp|done].
Qed.

Lemma run_delete_served msg w :
  uuid_ok (Message.conn_id msg) → served w → served (run (message_delete msg) w).1.
Proof.
  intros Hid Hs.
  assert (∀ tag, served (run (r <- xray_remove (Message.conn_id msg) tag (Message.password msg);;
      match context_err "Couldn't remove connection from Xray: " r with
      | Err e => Ret (Err e)
      | Ok _ => svc_update (λ m, remove m (Message.conn_id msg));; Ret (Ok tt)
      end) w).1) as Hx.
  { intros tag. rewrite run_bind.
    pose proof (run_xray_remove (Message.conn_id msg) tag (Message.password msg) w) as Hr.
    destruct (run (xray_remove _ _ _) w) as [w' [[[]|e]|]]; destruct Hr as [Hm Hr]; [| |done].
    - cbn. apply (served_deleted (Message.conn_id msg) w); [done|by rewrite <- Hm|exact Hr|done].
    - cbn. refine (proj1 (served_same w _ Hm _ Hs)). by rewrite Hr. }
  unfold message_delete. destruct (Message.tag msg); try done; destruct (negb _); try done;
    try exact (Hx _).
  destruct (Message.wg msg) as [wg|]; [|done]. destruct (pubkey _) as [k|]; [|done].
  cbn. destruct (WgApi_delete _ _) as [d [[]|e]]; cbn.
  - refine (served_remove (Message.conn_id msg) (set_svc_device _ w) _).
    by apply (λ w' H1 H2, proj1 (served_same w w' H1 H2 Hs)).
  - by apply (λ w' H1 H2, proj1 (served_same w w' H1 H2 Hs)).
Qed.

(** The batches that the API server publishes: creations, or one message. *)
Definition batch_ok (msgs : list Message) : Prop := Forall creates msgs ∨ ∃ m, msgs = [m].

Lemma batch_served (msgs : list Message) w :
  batch_ok msgs → Forall (λ m, uuid_ok (Message.conn_id m)) msgs → served w →
  served (run (handle_messages_batch msgs) w).1.
Proof.
  intros Hb Hids Hs.
  assert ((∀ m, m ∈ msgs → grows (handle_message m) w) →
    served (run (handle_messages_batch msgs) w).1) as Hgr.
  { intros Hm. apply (rg_run served nothing_lost _ (λ _ _, True)); [|done].
    by apply (cr_batch served nothing_lost admits_served any_peer). }
  destruct Hb as [Hc|[m ->]].
  { apply Hgr. rewrite Forall_forall in Hc, Hids. intros m Hm. apply grows_create; auto. }
  rewrite Forall_singleton in Hids. destruct (Message.action m) eqn:Ha;
    try (apply Hgr; intros m' ->%list_elem_of_singleton;
      first [apply grows_create; [by unfold creates; auto|done]
        | by apply (cr_reset_message served nothing_lost admits_served any_peer)]).
  unfold handle_messages_batch. rewrite run_bind. cbn [fmap list_fmap].
  rewrite run_try_join_one. unfold handle_message. rewrite Ha.
  pose proof (run_delete_served m w Hids Hs) as Hd.
  by destruct (run (message_delete m) w) as [w' [[[]|e]|]].
Qed.
End agent.
