(* ===== verification/Batch.v ===== *)
(** * Batches of creations on a node

    [bin/node/tasks.rs] carries the messages of one batch out together
    ([try_join_all]).  What a batch that succeeds has done, in whatever order
    its messages overlapped; that the order does not show; and what is lost
    of one that fails. *)
From S2P Require Import Prelude Task Foreign Naming Wireguard Connection ConnStore Node World.
From S2P Require Import Metrics Service Xray Agent.
Local Open Scope Z_scope.
Local Open Scope prog_scope.

Section batch.
Context `{!Oracle, !UuidText, !Ipv6Text, !IterOrder, !Chrono, !WgCrypto, !F64, !Tonic}.
Context {D X : Type} `{!KernelIface D, !XrayService X}.
Context (config : AgentConfig).
Notation W := (Svc (Devices D X)).
Implicit Type w : W.
Notation xray_of w := (dev_xray (svc_device w)).
Notation wg_of w := (dev_wg (svc_device w)).

(** The interface can be read, and has a peer. *)
Definition readable w : Prop := ∃ peers, read_interface_data (wg_of w) = Ok peers.
Definition has_peer (key : list Z) w : Prop :=
  ∃ peers, read_interface_data (wg_of w) = Ok peers ∧ is_Some (peers !! key).

Section moves.
Context (msgs : list Message) (R : Prop).

(** What enters the table is what one of the messages carries. *)
Definition from_batch (id : Uuid) (conn : Base) : Prop :=
  ∃ m, m ∈ msgs ∧ Message.conn_id m = id ∧ carries m conn.
(** The peers are spoken of when the interface can be read, [R]. *)
Record batch_moves w w' : Prop := {
  bm_lost : nothing_lost w w';
  bm_peers : ∀ key, R → has_peer key w → has_peer key w';
  bm_new : ∀ id c, svc_mem w' !! id = Some c → svc_mem w !! id = Some c ∨ from_batch id c;
}.
#[export] Instance batch_moves_preorder : PreOrder batch_moves.
Proof.
  split; [by split; auto|]. intros w1 w2 w3 H12 H23. split.
  - etransitivity; by apply bm_lost.
  - intros key HR Hk. by apply H23, H12.
  - intros id c Hc. destruct (bm_new _ _ H23 id c Hc) as [Hc2|]; [|by right].
    by apply (bm_new _ _ H12).
Qed.

Lemma moves_same w w' :
  svc_mem w' = svc_mem w → users_grow (xray_of w) (xray_of w') →
  (∀ key, R → has_peer key w → has_peer key w') → batch_moves w w'.
Proof.
  intros Hm Hu Hp. split; [split; [done|by rewrite Hm]|done|]. intros id c. rewrite Hm. by left.
Qed.

Definition readable_if w : Prop := R → readable w.
Definition peer_if (key : list Z) w : Prop := R → has_peer key w.
Lemma batch_creating : Creating readable_if batch_moves (λ id c _, from_batch id c) peer_if.
Proof.
  split; [apply _|by intros ?? []| | | | | |].
  - intros w Hr. split; [done|]. by apply moves_same.
  - intros x w Hx Hr. split; [done|]. by apply moves_same.
  - intros key ips w w' Hr. subst w'. destruct (configure_peer _ _ _) as [d r] eqn:Hc. split.
    + intros HR. destruct (Hr HR) as [peers Hp].
      destruct (configure_peer_keeps _ _ _ _ _ _ Hc Hp) as (peers' & Hr' & _). by exists peers'.
    + apply moves_same; [done..|]. intros k _ (ps & Hps & Hin).
      destruct (configure_peer_keeps _ _ _ _ _ _ Hc Hps) as (peers' & Hr' & Hk). exists peers'.
      split; [done|by apply Hk].
  - intros id conn w w' Hb Hr. subst w'. split; [done|]. split; [split; [done|apply add_subseteq]|done|].
    intros id' c'. cbn. unfold add. destruct (svc_mem w !! id) eqn:Hm; cbn; [by left|].
    intros [[<- <-]|[_ Hc]]%lookup_insert_Some; [by right|by left].
  - intros key w w' [_ Hp _] Hk HR. by apply Hp, Hk.
  - intros key ips w Hr Hok HR. destruct (Hr HR) as [peers Hp].
    destruct (configure_peer _ _ _) as [d r] eqn:Hc. cbn in Hok. subst r.
    destruct (configure_peer_ok _ _ _ _ _ Hc Hp) as (p & Hp' & _).
    eexists. split; [exact Hp'|]. by rewrite lookup_insert_eq; eexists.
Qed.
End moves.

#[local] Existing Instance batch_creating.

Section rg.
Context (msgs : list Message) (R : Prop).
Notation completed := (done_of (peer_if R)).
Notation ends p w := (rg (readable_if R) (batch_moves msgs R) p
  (on_ok (λ _ w', ∀ m, m ∈ msgs → completed m w')) w).

Lemma rg_batch_message m w :
  m ∈ msgs → creates m →
  rg (readable_if R) (batch_moves msgs R) (handle_message config m) (on_ok (λ _, completed m)) w.
Proof.
  intros Hin Hc. apply (rg_handle_create config _ _ (λ id c _, from_batch msgs id c) _);
    [assumption|]. intros p conn w' _ Hcar _ _. by exists m.
Qed.

Lemma rg_batch w : Forall creates msgs → ends (handle_messages_batch config msgs) w.
Proof.
  intros Hc. rewrite Forall_forall in Hc. unfold handle_messages_batch.
  eapply (rg_bind (readable_if R) (batch_moves msgs R)).
  - apply (rg_try_join_all svc_turn (readable_if R) (batch_moves msgs R) (λ w, cr_tick w) msgs
      (handle_message config) (λ m _, completed m) (λ _ _, True)).
    intros m Hm. apply rg_batch_message; auto.
  - intros [ys|e] w1 _ _ Hq w2 Hg HI; [|by split]. intros m Hm.
    pose proof (Hq w2 Hg HI) as Hf. cbn in Hf.
    apply list_elem_of_lookup in Hm as [i Hi]. by destruct (Forall2_lookup_l _ _ _ _ _ Hf Hi) as (y & _ & Hd).
Qed.

Lemma rg_sequence w : Forall creates msgs → ends (try_each msgs (handle_message config)) w.
Proof.
  intros Hc. rewrite Forall_forall in Hc. apply (rg_try_each (readable_if R) (batch_moves msgs R)).
  intros m w' Hm. apply rg_batch_message; auto.
Qed.

(** What a program with such a guarantee makes of the node, alone. *)
Lemma run_moves (p : Prog W (result unit Error)) w :
  ends p w → (R → readable w) →
  let '(w', r) := run p w in
  batch_moves msgs R w w' ∧ (R → readable w') ∧
  match r with Some (Ok _) => ∀ m, m ∈ msgs → completed m w' | _ => True end.
Proof.
  intros Hp Hr. pose proof (rg_run _ _ _ _ _ Hp Hr) as (HI & Hg & Hq).
  destruct (run p w) as [w' [[[]|e]|]]; cbn in *; split_and!; try assumption; try exact Logic.I.
  apply (Hq w'); [reflexivity|assumption].
Qed.
End rg.



(** ** The order does not show *)

(** A connection but for the instants of its creation. *)
Definition content (c : Base) : Proto * option DateTime * option Uuid * bool :=
  (Base.proto c, Base.expires_at c, Base.subscription_id c, Base.is_deleted c).

Lemma carries_content m c c' : carries m c → carries m c' → content c = content c'.
Proof.
  intros (t & p & Hp & Hc) (t' & p' & Hp' & Hc'). rewrite Hp in Hp'. injection Hp' as <-.
  unfold message_conn in *. destruct (Message.expires_at m) as [e|]; [destruct (of_rkyv e); [|done]|];
    by injection Hc as <-; injection Hc' as <-.
Qed.

Lemma moves_lookup msgs R w w1 w2 id c :
  NoDup (Message.conn_id <$> msgs) → batch_moves msgs R w w1 → batch_moves msgs R w w2 →
  (∀ m, m ∈ msgs → done_of (peer_if R) m w2) → svc_mem w1 !! id = Some c →
  content <$> svc_mem w2 !! id = Some (content c).
Proof.
  intros Hnd Hg1 Hg2 Hd Hc. destruct (bm_new _ _ _ _ Hg1 id c Hc) as [Hw|(m & Hm & <- & Hcar)].
  - destruct (bm_lost _ _ _ _ Hg2) as [_ Hsub]. by rewrite (lookup_weaken _ _ _ _ Hw Hsub).
  - destruct (done_conn _ _ _ (Hd m Hm)) as [c' Hc']. rewrite Hc'. cbn. f_equal.
    destruct (bm_new _ _ _ _ Hg2 _ _ Hc') as [Hw|(m' & Hm' & Hid & Hcar')].
    + destruct (bm_lost _ _ _ _ Hg1) as [_ Hsub].
      rewrite (lookup_weaken _ _ _ _ Hw Hsub) in Hc. congruence.
    + apply list_elem_of_lookup in Hm as [i Hi], Hm' as [j Hj].
      assert (i = j) as <-
        by (apply (NoDup_lookup _ _ _ (Message.conn_id m) Hnd); rewrite list_lookup_fmap;
            [by rewrite Hi|by rewrite Hj; cbn; rewrite Hid]).
      rewrite Hi in Hj. injection Hj as <-. by eapply carries_content.
Qed.

(** C33: the order in which the messages of a batch overlap does not show in the
    table.  Take a batch that succeeds, of creations of different connections,
    and the same messages carried out one after the other instead, which may
    fail where the batch did not: when two WireGuard connections share a key, the
    second finds the peer of the first.  Whatever is then in the table of the
    second run is in that of the batch, the same but for the instants at which
    the connections were made; and when the second run succeeds too, the tables
    are the same but for those. *)
Theorem batch_as_sequence (msgs : list Message) w (Hc : Forall creates msgs)
    (Hnd : NoDup (Message.conn_id <$> msgs)) :
  let '(w1, r1) := run (handle_messages_batch config msgs) w in
  let '(w2, r2) := run (try_each msgs (handle_message config)) w in
  r1 = Some (Ok tt) →
  (∀ id c, svc_mem w2 !! id = Some c → content <$> svc_mem w1 !! id = Some (content c)) ∧
  (r2 = Some (Ok tt) → ∀ id, content <$> svc_mem w1 !! id = content <$> svc_mem w2 !! id).
Proof.
  pose proof (run_moves msgs False _ _ (rg_batch msgs False w Hc) (False_ind _)) as Hb.
  pose proof (run_moves msgs False _ _ (rg_sequence msgs False w Hc) (False_ind _)) as Hs.
  destruct (run (handle_messages_batch _ _) w) as [w1 r1], (run (try_each _ _) w) as [w2 r2].
  intros ->. destruct Hb as (Hb & _ & Hdb), Hs as (Hs & _ & Hds).
  assert (∀ id c, svc_mem w2 !! id = Some c → content <$> svc_mem w1 !! id = Some (content c)) as H21
    by (intros id c Hc2; exact (moves_lookup _ _ _ _ _ _ _ Hnd Hs Hb Hdb Hc2)).
  split; [done|]. intros -> id.
  destruct (svc_mem w1 !! id) as [c|] eqn:Hc1;
    [symmetry; exact (moves_lookup _ _ _ _ _ _ _ Hnd Hb Hs Hds Hc1)|].
  destruct (svc_mem w2 !! id) as [c|] eqn:Hc2; [|done].
  pose proof (H21 id c Hc2) as Hno. by rewrite Hc1 in Hno.
Qed.

(** ** What is lost *)

Definition anyhow (_ _ : W) : Prop := True.
#[local] Instance anyhow_preorder : PreOrder anyhow.
Proof. by split. Qed.

Lemma run_left_first {A B E} {Y Z : Type} (f : W → W * Y) (k : Y → Prog W (result A E))
    (g : W → W * Z) (h : Z → Prog W (result B E)) w :
  (∀ n, whose_turn n = true) →
  run (try_join2 svc_turn (Act f k) (Act g h)) w =
  run (try_join2 svc_turn (k (f (svc_bump w)).2) (Act g h)) (f (svc_bump w)).1.
Proof.
  intros Ht. cbn [try_join2 run]. unfold svc_turn at 1. rewrite Ht. cbn [fst snd run].
  by destruct (f (svc_bump w)).
Qed.

(** A task that keeps [I] and cannot succeed, polled first. *)
Lemma first_fails {A B E} (I : W → Prop) (p : Prog W (result A E)) (q : Prog W (result B E)) w :
  (∀ n, whose_turn n = true) → (∀ w, I w → I (svc_bump w)) →
  rg I anyhow p (on_res (λ _ _, False) (λ _ _, True)) w → I w →
  I (run (try_join2 svc_turn p q) w).1 ∧ ∀ x, (run (try_join2 svc_turn p q) w).2 ≠ Some (Ok x).
Proof.
  intros Ht Hb. revert w. induction p as [[a|e]| |Y f k IH]; intros w Hp HI; cbn [try_join2]; [|done..|].
  - by destruct (Hp w).
  - destruct q as [[b|e]| |Z g h]; [|done..|].
    + rewrite run_bind. pose proof (rg_run I anyhow (Act f k) _ w Hp HI) as (HI' & _ & Hq).
      destruct (run (Act f k) w) as [w' [[a|e]|]]; cbn in *; [by destruct (Hq w')|done..].
    + pose proof (run_left_first f k g h w Ht) as Hr. cbn [try_join2] in Hr. rewrite Hr.
      destruct (Hp (svc_bump w)) as (HI' & _ & Hk); [done|by apply Hb|]. by apply IH.
Qed.

(** A message about one of Xray's protocols, as the one program it is. *)
Lemma message_on_xray (m : Message) (p : Proto) :
  creates m → message_proto m = Some p → on_xray (Message.tag m) = true →
  handle_message config m = create_on_xray config m p (password_of p).
Proof.
  intros Hc Hp Hx. unfold handle_message. unfold message_proto in Hp. unfold message_create.
  destruct Hc as [-> | ->], (Message.tag m); try done; try (by injection Hp as <-);
    destruct (Message.password m); try done; by injection Hp as <-.
Qed.
Lemma message_conn_total (m : Message) (p : Proto) t :
  (∀ e, Message.expires_at m = Some e → of_rkyv e ≠ None) →
  ∃ conn, message_conn t p m = Some conn.
Proof.
  intros Hdate. unfold message_conn. destruct (Message.expires_at m) as [e|] eqn:He; [|by eexists].
  destruct (of_rkyv e) eqn:Hd; [by eexists|by destruct (Hdate e)].
Qed.

Lemma rg_refused (m : Message) (p : Proto) (mem : Connections Base) (x : X) w
    (Hc : creates m) (Hp : message_proto m = Some p) (Hx : on_xray (Message.tag m) = true)
    (Hdate : ∀ e, Message.expires_at m = Some e → of_rkyv e ≠ None)
    (Hhas : has_xray config = true)
    (Hrefused : ∀ u, account_of (Message.conn_id m) p = Some u → ∃ e,
      add_user x (ProtoTag.fmt (Message.tag m)) u = (x, Err e)) :
  rg (λ w, svc_mem w = mem ∧ xray_of w = x) anyhow (handle_message config m)
    (on_res (λ _ _, False) (λ _ _, True)) w.
Proof.
  rewrite (message_on_xray m p) by done.
  unfold create_on_xray. apply (rg_bind _ anyhow _ _ (λ _ _, True)); [by intros w1 _ HI1; split|].
  intros t w1 _ _ _. destruct (message_conn_total m p t Hdate) as [conn ->]. rewrite Hhas. cbn [negb].
  assert (∀ w, rg (λ w, svc_mem w = mem ∧ xray_of w = x) anyhow
    (xray_create (Message.conn_id m) (Message.tag m) (password_of p))
    (on_res (λ _ _, False) (λ _ _, True)) w) as Hcreate.
  { rewrite <- (message_proto_tag _ _ Hp) in *. intros w2.
    destruct p as [?|pw|[]|?|?]; try done; intros w3 _ [Hm Hxw]; cbn in Hrefused |- *;
      destruct (Hrefused _ eq_refl) as [e He]; rewrite Hxw, He; cbn; by split_and!. }
  eapply (rg_bind _ anyhow); [apply Hcreate|].
  intros [[]|e] w2 _ HI2 Hq; [by destruct (Hq w2)|]. by intros w3 _ _.
Qed.

(** One connection that Xray has already costs the others of its batch.  When the first
    message of a batch asks for an account that is refused, and is heard
    first, the rest of the batch is abandoned: none of its connections enters
    the table or Xray, and nothing asks for them again. *)
Theorem agent_batch_abandoned (m : Message) (rest : list Message) (p : Proto) w
    (Hc : creates m) (Hp : message_proto m = Some p) (Hx : on_xray (Message.tag m) = true)
    (Hdate : ∀ e, Message.expires_at m = Some e → of_rkyv e ≠ None)
    (Hhas : has_xray config = true) (Hturn : ∀ n, whose_turn n = true)
    (Hrefused : ∀ u, account_of (Message.conn_id m) p = Some u → ∃ e,
      add_user (xray_of w) (ProtoTag.fmt (Message.tag m)) u = (xray_of w, Err e)) :
  let '(w', r) := run (handle_messages_batch config (m :: rest)) w in
  svc_mem w' = svc_mem w ∧ xray_of w' = xray_of w ∧ r ≠ Some (Ok tt).
Proof.
  set (I := λ w', svc_mem w' = svc_mem w ∧ xray_of w' = xray_of w).
  assert (∀ q : Prog W (result (list unit) Error),
    I (run (try_join2 svc_turn (handle_message config m) q) w).1 ∧
    ∀ x, (run (try_join2 svc_turn (handle_message config m) q) w).2 ≠ Some (Ok x)) as Hfirst.
  { intros q. apply (first_fails I); [done..| |done]. by eapply rg_refused. }
  unfold handle_messages_batch. rewrite run_bind. cbn [fmap list_fmap try_join_all]. rewrite run_bind.
  destruct (Hfirst (try_join_all svc_turn (handle_message config <$> rest))) as [[Hm Hxr] Hno].
  destruct (run (try_join2 _ _ _) w) as [w' [[[]|e]|]]; cbn in *; [by destruct (Hno (u, l))|done..].
Qed.

(** ** One creation that Xray accepts *)
Lemma run_conn_create {P} `{!ProtocolConn P} (q : P) u w :
  to_user q = Ok u →
  run (r <- conn_create q;; Ret (grpc r)) w =
  (let '(x, r) := add_user (xray_of w) (ProtoTag.fmt (pc_tag q)) u in (with_xray x w, Some (grpc r))).
Proof. intros Hu. unfold conn_create. rewrite Hu. cbn. by destruct (add_user _ _ _). Qed.
Lemma run_xray_create id p u w :
  account_of id p = Some u →
  run (xray_create id (Proto.proto p) (password_of p)) w =
  (let '(x, r) := add_user (xray_of w) (ProtoTag.fmt (Proto.proto p)) u in (with_xray x w, Some (grpc r))) ∧
  user_email u = email_of id.
Proof.
  intros Hu. unfold account_of in Hu. destruct p as [?|pw|[]|?|?]; try done; injection Hu as <-;
    (split; [|done]); cbn [Proto.proto password_of xray_create].
  1: exact (run_conn_create (SsConnInfo_new id (Some pw)) _ w eq_refl).
  4: exact (run_conn_create (VmessConnInfo_new id) _ w eq_refl).
  1: exact (run_conn_create (VlessConnInfo_new id Vision ProtoTag.VlessTcpReality) _ w eq_refl).
  1: exact (run_conn_create (VlessConnInfo_new id Direct ProtoTag.VlessGrpcReality) _ w eq_refl).
  exact (run_conn_create (VlessConnInfo_new id NoFlow ProtoTag.VlessXhttpReality) _ w eq_refl).
Qed.

Lemma run_accepted (m : Message) (p : Proto) (u : User) w
    (Hc : creates m) (Hp : message_proto m = Some p)
    (Hdate : ∀ e, Message.expires_at m = Some e → of_rkyv e ≠ None)
    (Hhas : has_xray config = true) (Hu : account_of (Message.conn_id m) p = Some u)
    (Hok : (add_user (xray_of w) (ProtoTag.fmt (Message.tag m)) u).2 = Ok tt) :
  let '(w', r) := run (handle_messages_batch config [m]) w in
  r = Some (Ok tt) ∧ (∃ c, carries m c ∧ svc_mem w' = (add (svc_mem w) (Message.conn_id m) c).1) ∧
  users (xray_of w') (ProtoTag.fmt (Message.tag m)) (email_of (Message.conn_id m)) = Some u.
Proof.
  unfold handle_messages_batch. cbn [fmap list_fmap]. rewrite run_bind, run_try_join_one.
  assert (on_xray (Message.tag m) = true) as Hx.
  { rewrite <- (message_proto_tag _ _ Hp). unfold account_of in Hu. by destruct p as [?|?|[]|?|?]. }
  rewrite (message_on_xray m p) by done. unfold create_on_xray. rewrite run_bind. cbn [run svc_ask].
  destruct (message_conn_total m p (clock (svc_tick w)) Hdate) as [conn Hconn].
  rewrite Hconn, Hhas. cbn [negb]. rewrite run_bind. set (w1 := svc_bump w).
  rewrite <- (message_proto_tag _ _ Hp) in *.
  assert (run (xray_create (Message.conn_id m) (Proto.proto p) (password_of p)) w1 =
    (with_xray (add_user (xray_of w) (ProtoTag.fmt (Proto.proto p)) u).1 w1, Some (Ok tt)) ∧
    user_email u = email_of (Message.conn_id m)) as [-> He].
  { destruct (run_xray_create _ _ _ w1 Hu) as [-> ?]. split; [|done].
    change (xray_of w1) with (xray_of w).
    destruct (add_user (xray_of w) _ u) as [x r]. cbn in *. by subst r. }
  cbn [context_err]. unfold memory_add. rewrite run_bind. cbn.
  destruct (add (svc_mem w) (Message.conn_id m) conn) as [mem st] eqn:Ha. cbn.
  assert (∃ s, st = Ok s) as [s ->].
  { unfold add in Ha. destruct (svc_mem w !! _); injection Ha as <- <-; by eexists. }
  cbn. split_and!; [done| |].
  - exists conn. rewrite Ha. split; [by exists (clock (svc_tick w)), p|done].
  - rewrite <- He. destruct (add_user (xray_of w) _ u) as [x r] eqn:Hadd. cbn in *. subst r.
    by eapply add_user_ok.
Qed.
End batch.

(** ** Runs *)

Definition batch_agent : AgentConfig :=
  {| has_wg := true; has_xray := true; has_stats := true;
     agent_node := NodeStore.example_node Env.Dev 9%N |}.
Definition idle_agent : Svc (Devices (gmap (list Z) Peer) XrayTable) :=
  {| svc_mem := ∅; svc_file := None;
     svc_device := {| dev_wg := ∅; dev_xray := xray_empty;
       dev_metrics := {| batch := []; beat_index := 0 |} |}; svc_tick := 0 |}.

Definition ask_vmess (id : Uuid) : Message := {| Message.conn_id := id;
  Message.action := Action.Create; Message.tag := ProtoTag.Vmess; Message.wg := None;
  Message.password := None; Message.token := None; Message.expires_at := None;
  Message.subscription_id := None |}.
Definition ask_wg (id : Uuid) (host : Z) : Message := {| Message.conn_id := id;
  Message.action := Action.Create; Message.tag := ProtoTag.Wireguard;
  Message.wg := Some (Param_new (replicate 32 host) {| address := V4 (10 * 2 ^ 24 + host); cidr := 32 |});
  Message.password := None; Message.token := None; Message.expires_at := None;
  Message.subscription_id := None |}.
Definition asked : list Message := [ask_vmess 7%N; ask_wg 8%N 2; ask_vmess 9%N].

Lemma asked_creates : Forall creates asked.
Proof. repeat constructor. Qed.


Lemma batch_as_sequence_witness :
  Forall creates asked ∧ NoDup (Message.conn_id <$> asked) ∧
  content <$> svc_mem (run (handle_messages_batch batch_agent asked) idle_agent).1 !! 9%N =
  content <$> svc_mem (run (try_each asked (handle_message batch_agent)) idle_agent).1 !! 9%N.
Proof.
  assert (NoDup (Message.conn_id <$> asked)) as Hnd
    by (apply (bool_decide_unpack _); vm_compute; exact I).
  split; [exact asked_creates|]. split; [exact Hnd|].
  pose proof (batch_as_sequence batch_agent asked idle_agent asked_creates Hnd) as Hs.
  assert ((run (handle_messages_batch batch_agent asked) idle_agent).2 = Some (Ok tt)) as Hr1
    by (vm_compute; reflexivity).
  assert ((run (try_each asked (handle_message batch_agent)) idle_agent).2 = Some (Ok tt)) as Hr2
    by (vm_compute; reflexivity).
  destruct (run (handle_messages_batch batch_agent asked) idle_agent) as [w1 r1].
  destruct (run (try_each asked (handle_message batch_agent)) idle_agent) as [w2 r2].
  exact (proj2 (Hs Hr1) Hr2 9%N).
Defined.

(** The agent that has carried one of them out hears of it again, with the
    others. *)
Definition restored_agent : Svc (Devices (gmap (list Z) Peer) XrayTable) :=
  (run (handle_messages_batch batch_agent [ask_vmess 7%N]) idle_agent).1.

Lemma agent_batch_abandoned_witness :
  (∀ u, account_of 7%N (Proto.new_xray ProtoTag.Vmess) = Some u → ∃ e,
    add_user (dev_xray (svc_device restored_agent)) "Vmess" u =
      (dev_xray (svc_device restored_agent), Err e)) ∧
  size (svc_mem restored_agent) = 1%nat ∧
  svc_mem (run (handle_messages_batch batch_agent asked) restored_agent).1 = svc_mem restored_agent.
Proof.
  assert (∀ u, account_of 7%N (Proto.new_xray ProtoTag.Vmess) = Some u → ∃ e,
    add_user (dev_xray (svc_device restored_agent)) "Vmess" u =
      (dev_xray (svc_device restored_agent), Err e)) as Href.
  { intros u Hu. injection Hu as <-. eexists. vm_compute. reflexivity. }
  split; [exact Href|]. split; [vm_compute; reflexivity|].
  pose proof (agent_batch_abandoned batch_agent (ask_vmess 7%N) [ask_wg 8%N 2; ask_vmess 9%N]
    (Proto.new_xray ProtoTag.Vmess) restored_agent (or_introl eq_refl) eq_refl eq_refl) as Ha.
  specialize (Ha ltac:(intros e He; discriminate He) eq_refl ltac:(intros n; reflexivity) Href).
  change (run (handle_messages_batch batch_agent asked) restored_agent) with
    (run (handle_messages_batch batch_agent [ask_vmess 7%N; ask_wg 8%N 2; ask_vmess 9%N]) restored_agent).
  destruct (run (handle_messages_batch batch_agent [ask_vmess 7%N; ask_wg 8%N 2; ask_vmess 9%N])
    restored_agent) as [w' r]. exact (proj1 Ha).
Defined.
