(* ===== verification/Collect.v ===== *)
(** * Collecting metrics

    [metrics/impls.rs], [bin/node/metrics.rs] and [bin/auth/metrics.rs]: what
    the services measure of their machine, of Xray and of WireGuard, sample by
    sample into the buffer of [Metrics], and its publication. *)
From S2P Require Import Prelude Task Foreign Naming Wireguard Connection ConnStore Node Metrics.
From S2P Require Import World Service Xray Auth.
Local Open Scope Z_scope.
Local Open Scope prog_scope.

Create HintDb total.

(** ** The machine

    [sysinfo]'s readings, one per consultation. *)
Record MemInfo : Set := { mem_free : Z; mem_total : Z; mem_used : Z; mem_available : Z }.
Record NetData : Set := {
  total_received : Z; total_transmitted : Z; received : Z; transmitted : Z }.
Record Disk : Set := { mount_point : option string; total_space : Z; available_space : Z }.
Class SysInfo `{!F64} := {
  mem_info : nat → MemInfo;
  load_average : nat → f64 * f64 * f64;
  networks : nat → list (string * NetData);
  cpus : nat → list (string * f32);
  disks : nat → list Disk;
}.

(** A small machine. *)
#[export] Instance small_machine : SysInfo := {|
  mem_info _ := {| mem_free := 1; mem_total := 4; mem_used := 3; mem_available := 2 |};
  load_average _ := (10, 20, 30);
  networks _ := [("eth0", {| total_received := 5; total_transmitted := 6; received := 7;
    transmitted := 8 |}); ("lo", {| total_received := 0; total_transmitted := 0; received := 0;
    transmitted := 0 |})];
  cpus _ := [("cpu0", 1234)];
  disks _ := [{| mount_point := Some "/"; total_space := 100; available_space := 40 |}];
|}.

(** [HasMetrics] -- metrics/storage.rs:8-11

    A service's buffer and description, and its consultations of the outside,
    which leave the buffer alone. *)
Class HasMetrics `{!F64} (W : Type) := {
  metrics : W → MetricBuffer (V := f64);
  set_metrics : MetricBuffer (V := f64) → W → W;
  node_settings : Node;
  consult : W → W * nat;
  metrics_set : ∀ m w, metrics (set_metrics m w) = m;
  metrics_consult : ∀ w, metrics (consult w).1 = metrics w;
}.
Arguments node_settings {_} W {_}.

(** ["/mnt/x".trim_start_matches('/')] *)
Fixpoint trim_slashes (s : string) : string :=
  match s with
  | String c s' => if decide (c = "/"%char) then trim_slashes s' else s
  | EmptyString => EmptyString
  end.

Section collect.
Context `{!Oracle, !F64, !SysInfo} {W : Type} `{!HasMetrics W}.
Notation M A := (Prog W A).

Definition sys_ask {A} (f : nat → A) : M A :=
  Act (λ w, let '(w, n) := consult w in (w, f n)) Ret.

(** [self.metrics().write(&node_uuid, metric, value, tags)] *)
Definition put (metric : string) (value : f64) (tags : Tags) : M unit :=
  Act (λ w, let '(w, n) := consult w in
            let m := metrics w in
            (set_metrics {| batch := write (clock n) (Node.uuid (node_settings W)) metric value tags
                              (batch m); beat_index := beat_index m |} w, tt)) Ret.

Definition pattern : list Z :=
  [10; 10; 25; 4; 6; 13; 10; 10; 11; 10; 10; 8; 10; 19; 3; 5; 10].

(** [Metrics::heartbeat] -- metrics/impls.rs:17-35 *)
Definition heartbeat : M unit :=
  value <- Act (λ w,
    let m := metrics w in
    (set_metrics {| batch := batch m; beat_index := as_unsigned 64 (beat_index m + 1) |} w,
     nth (Z.to_nat (beat_index m mod Z.of_nat (length pattern))) pattern 0)) Ret;;
  let tags := Node.get_base_tags (node_settings W) in
  put "sys.heartbeat" (f64_tenths value) tags.

(** [Metrics::memory] -- metrics/impls.rs:37-60 *)
Definition memory_metrics : M unit :=
  system <- sys_ask mem_info;;
  let tags := Node.get_base_tags (node_settings W) in
  put "sys.mem_free" (f64_of_int (mem_free system)) tags;;
  put "sys.mem_total" (f64_of_int (mem_total system)) tags;;
  put "sys.mem_used" (f64_of_int (mem_used system)) tags;;
  put "sys.mem_available" (f64_of_int (mem_available system)) tags.

(** [Metrics::loadavg] -- metrics/impls.rs:62-75 *)
Definition loadavg : M unit :=
  load <- sys_ask load_average;;
  let '(one, five, fifteen) := load in
  let tags := Node.get_base_tags (node_settings W) in
  put "sys.loadavg_1" one tags;;
  put "sys.loadavg_5" five tags;;
  put "sys.loadavg_15" fifteen tags.

(** [Metrics::bandwidth] -- metrics/impls.rs:88-121

    The loop, with the tags it changes from one interface to the next. *)
Fixpoint bandwidth_loop (default_if : string) (tags : Tags) (l : list (string * NetData)) :
    M unit :=
  match l with
  | [] => Ret tt
  | (interface, data) :: l =>
    let tags := if decide (interface = default_if)
                then <["default_interface" := "true"]> tags
                else <["default_interface" := "false"]> tags in
    put ("net." +:+ interface +:+ ".total_rx_bps") (f64_of_int (total_received data)) tags;;
    put ("net." +:+ interface +:+ ".total_tx_bps") (f64_of_int (total_transmitted data)) tags;;
    put ("net." +:+ interface +:+ ".rx_bps") (f64_of_int (received data)) tags;;
    put ("net." +:+ interface +:+ ".tx_bps") (f64_of_int (transmitted data)) tags;;
    bandwidth_loop default_if tags l
  end.

(** [Metrics::bandwidth] -- metrics/impls.rs:77-122 *)
Definition bandwidth : M unit :=
  nets <- sys_ask networks;;
  bandwidth_loop (Node.interface (node_settings W)) (Node.get_base_tags (node_settings W)) nets.

(** [Metrics::cpu_usage] -- metrics/impls.rs:123-143 *)
Definition cpu_usage : M unit :=
  sys <- sys_ask cpus;;
  let tags := Node.get_base_tags (node_settings W) in
  for_each sys (λ '(name, usage),
    let usage := f32_div (f32_round (f32_mul usage (f32_of_int 100))) (f32_of_int 100) in
    put ("sys.cpu." +:+ name) (f64_of_f32 usage) tags).

(** [Metrics::disk_usage] -- metrics/impls.rs:145-191

    The subtraction is [u64]'s. *)
Definition disk_usage : M unit :=
  ds <- sys_ask disks;;
  let tags := Node.get_base_tags (node_settings W) in
  for_each ds (λ disk,
    let mount_point := default "unknown" (mount_point disk) in
    let safe_mount := if decide (mount_point = "/") then "root" else trim_slashes mount_point in
    let total := total_space disk in
    let available := available_space disk in
    let used := as_unsigned 64 (total - available) in
    let usage_percent :=
      if decide (0 < total)
      then f64_div (f64_round (f64_mul (f64_div (f64_of_int used) (f64_of_int total))
             (f64_of_int 100))) (f64_of_int 100)
      else f64_of_int 0 in
    put ("sys.disk." +:+ safe_mount +:+ ".used_bytes") (f64_of_int used) tags;;
    put ("sys.disk." +:+ safe_mount +:+ ".total_bytes") (f64_of_int total) tags;;
    put ("sys.disk." +:+ safe_mount +:+ ".usage_percent") usage_percent tags).

(** [collect_metrics] -- bin/auth/tasks.rs:137-144 *)
Definition collect_system : M unit :=
  heartbeat;; bandwidth;; cpu_usage;; loadavg;; memory_metrics;; disk_usage.

(** [MetricBuffer::flush_to_zmq] -- metrics/storage.rs:59-77

    The batch is taken, then serialised, which panics when it fails, then
    sent; the answer is what was published. *)
Definition flush : M (option (Topic * list (MetricEnvelope (V := f64)))) :=
  out <- Act (λ w,
    let m := metrics w in
    let '(rest, out) := flush_to_zmq (batch m) in
    (set_metrics {| batch := rest; beat_index := beat_index m |} w, out)) Ret;;
  match out with
  | None => Ret None
  | Some out =>
    b <- sys_ask rkyv_fault;;
    match b with
    | Some _ => Panic
    | None =>
      s <- sys_ask zmq_fault;;
      Ret match s with None => Some out | Some _ => None end
    end
  end.

(** ** Samples are labelled

    A sample of a node names it and carries its tags, whatever it adds. *)
Definition labelled (node : Node) (e : MetricEnvelope (V := f64)) : Prop :=
  e_node_id e = Node.uuid node ∧ Node.get_base_tags node ⊆ e_tags e.
Definition samples_added (node : Node) (w w' : W) : Prop :=
  ∃ new, batch (metrics w') = batch (metrics w) ++ new ∧ Forall (labelled node) new.
#[export] Instance samples_added_preorder node : PreOrder (samples_added node).
Proof.
  split; [intros w; exists []; by rewrite app_nil_r|].
  intros w1 w2 w3 (n1 & Hb1 & F1) (n2 & Hb2 & F2). exists (n1 ++ n2).
  split; [by rewrite Hb2, Hb1, (assoc app)|by apply Forall_app].
Qed.
Lemma samples_same node w w' :
  batch (metrics w') = batch (metrics w) → samples_added node w w'.
Proof. intros Hb. exists []. by rewrite app_nil_r. Qed.

(** A relation that consultations, beats and labelled samples satisfy. *)
Class Measures (G : W → W → Prop) : Prop := {
  measures_pre :: PreOrder G;
  measures_consult w : G w (consult w).1;
  measures_set w m : (∃ new, batch m = batch (metrics w) ++ new ∧
    Forall (labelled (node_settings W)) new) → G w (set_metrics m w);
}.

Notation base := (Node.get_base_tags (node_settings W)).
Lemma base_fresh k : k ∈ ["default_interface"; "inbound_tag"; "conn_id"; "user_id"; "proto"] →
  base !! k = None.
Proof.
  intros Hk. unfold Node.get_base_tags. rewrite !lookup_insert_None, lookup_empty.
  split_and!; [done|..]; intros <-; set_solver.
Qed.
Lemma base_insert k v tags :
  k ∈ ["default_interface"; "inbound_tag"; "conn_id"; "user_id"; "proto"] →
  base ⊆ tags → base ⊆ <[k := v]> tags.
Proof. intros Hk Ht. apply insert_subseteq_r; [by apply base_fresh|done]. Qed.

Section measures.
Context (G : W → W → Prop) `{!Measures G}.
Notation measured p w := (okp (λ _ : W, True) G p w).

Lemma measured_ask {A} (f : nat → A) w : measured (sys_ask f) w.
Proof.
  apply okp_act; [|by intros; apply okp_ret]. intros w' _. split; [done|].
  pose proof (measures_consult w') as Hc. by destruct (consult w').
Qed.
Lemma measured_put metric value tags w : base ⊆ tags → measured (put metric value tags) w.
Proof.
  intros Ht. apply okp_act; [|by intros; apply okp_ret]. intros w' _. split; [done|].
  pose proof (measures_consult w') as Hc. destruct (consult w') as [w1 n]. cbn in *.
  etransitivity; [exact Hc|]. apply measures_set. eexists [_]. split; [reflexivity|].
  by repeat constructor.
Qed.
Lemma measured_bind {A B} (p : M A) (h : A → M B) w :
  measured p w → (∀ a w', measured (h a) w') → measured (bind p h) w.
Proof. apply (okp_bind (λ _, True) G). Qed.
Lemma measured_heartbeat w : measured heartbeat w.
Proof.
  apply measured_bind; [|intros; by apply measured_put].
  apply okp_act; [|by intros; apply okp_ret]. intros w' _. split; [done|]. cbn.
  apply measures_set. exists []. by rewrite app_nil_r.
Qed.
Lemma measured_bandwidth_loop default_if l tags w :
  base ⊆ tags → measured (bandwidth_loop default_if tags l) w.
Proof.
  revert tags w. induction l as [|[i d] l IH]; intros tags w Ht; [by apply okp_ret|].
  cbn [bandwidth_loop]. cbv zeta.
  match goal with |- context [if decide ?P then ?a else ?b] =>
    assert (base ⊆ (if decide P then a else b)) as Ht'
      by (case_decide; apply base_insert; try done; left) end.
  do 4 (apply measured_bind; [by apply measured_put|intros ? ?]). by apply IH.
Qed.
Lemma measured_each {A} (l : list A) (body : A → M unit) w :
  (∀ x w', measured (body x) w') → measured (for_each l body) w.
Proof. apply (okp_for_each (λ _, True) G). Qed.

Lemma measured_system w : measured collect_system w.
Proof.
  unfold collect_system. apply measured_bind; [apply measured_heartbeat|]. intros _ w1.
  apply measured_bind; [apply measured_bind; [apply measured_ask|];
    intros; by apply measured_bandwidth_loop|]. intros _ w2.
  apply measured_bind; [apply measured_bind; [apply measured_ask|];
    intros; apply measured_each; intros [] ?; by apply measured_put|]. intros _ w3.
  apply measured_bind; [apply measured_bind; [apply measured_ask|]; intros [[] ?] ?;
    repeat (apply measured_bind; [by apply measured_put|intros ? ?]); by apply measured_put|].
  intros _ w4. apply measured_bind; [apply measured_bind; [apply measured_ask|]; intros ? ?;
    repeat (apply measured_bind; [by apply measured_put|intros ? ?]); by apply measured_put|].
  intros _ w5. apply measured_bind; [apply measured_ask|]. intros; apply measured_each; intros.
  cbv zeta. repeat (apply measured_bind; [by apply measured_put|intros ? ?]). by apply measured_put.
Qed.
End measures.
End collect.

(** ** The authentication service *)
Section auth_metrics.
Context `{!F64} (node : Node).

(** [HasMetrics for Service] -- bin/auth/metrics.rs:5-16 *)
#[export, program] Instance auth_metrics : HasMetrics AuthWorld := {|
  metrics := svc_device;
  set_metrics := set_svc_device;
  node_settings := node;
  consult w := (svc_bump w, svc_tick w);
|}.
Next Obligation. done. Qed.
Next Obligation. done. Qed.
End auth_metrics.

(** ** The node's agent *)
Section node_metrics.
Context `{!Oracle, !UuidText, !Ipv6Text, !IterOrder, !WgCrypto, !F64, !Tonic, !SysInfo}.
Context {D X : Type} `{!KernelIface D, !XrayService X}.
Context (config : AgentConfig).
Notation W := (Svc (Devices D X)).
Notation Agent A := (Prog W A).

(** [HasMetrics for Node] -- bin/node/metrics.rs:8-19 *)
#[export, program] Instance node_metrics : HasMetrics W := {|
  metrics w := dev_metrics (svc_device w);
  set_metrics m w := set_svc_device (set_dev_metrics m (svc_device w)) w;
  node_settings := agent_node config;
  consult w := (svc_bump w, svc_tick w);
|}.
Next Obligation. done. Qed.
Next Obligation. done. Qed.

(** [collect_inbound_metrics] -- bin/node/metrics.rs:39-76 *)
Definition collect_inbound_metrics : Agent unit :=
  let base_tags := Node.get_base_tags (node_settings W) in
  for_each (hiter (Node.inbounds (node_settings W))).*1 (λ tag,
    match tag with
    | ProtoTag.Hysteria2 | ProtoTag.Mtproto => Ret tt
    | _ =>
      stats <- inbound config (InboundPrefix tag);;
      match stats with
      | Ok stats =>
        let metric_tags := <["inbound_tag" := ProtoTag.fmt tag]> base_tags in
        let metric_prefix := "net.inbound." +:+ ProtoTag.fmt tag in
        put (metric_prefix +:+ ".downlink") (f64_of_int (in_downlink stats)) metric_tags;;
        put (metric_prefix +:+ ".uplink") (f64_of_int (in_uplink stats)) metric_tags;;
        put (metric_prefix +:+ ".connections") (f64_of_int (in_conn_count stats)) metric_tags
      | Err _ => Ret tt
      end
    end).

(** one user of [collect_user_metrics] *)
Definition collect_user (conn_id : Uuid) : Agent unit :=
  let base_tags := Node.get_base_tags (node_settings W) in
  res <- conn config (ConnPrefix conn_id);;
  match res with
  | Ok stats =>
    let metric_tags := <["conn_id" := uuid_str conn_id]> base_tags in
    put "user.traffic.downlink" (f64_of_int (downlink stats)) metric_tags;;
    put "user.traffic.uplink" (f64_of_int (uplink stats)) metric_tags;;
    put "user.online" (f64_of_int (online stats)) metric_tags
  | Err _ => Ret tt
  end.

(** [collect_user_metrics] -- bin/node/metrics.rs:79-116 *)
Definition collect_user_metrics : Agent unit :=
  active_conns <- svc_read (λ mem, (hiter mem).*1);;
  for_each active_conns collect_user.

(** [collect_wg_metrics] -- bin/node/metrics.rs:119-153 *)
Definition collect_wg_metrics : Agent unit :=
  if has_wg config then
    let base_tags := Node.get_base_tags (node_settings W) in
    wg_conns <- svc_read (λ mem, omap (M := list) (λ '(id, conn),
      (λ wg, (id, pubkey (keys wg))) <$> get_wireguard conn) (hiter mem));;
    for_each wg_conns (λ '(conn_id, pubkey),
      match pubkey with
      | Err _ => Ret tt
      | Ok pubkey =>
        stats <- wg_call (λ d, (d, WgApi_peer_stats d pubkey));;
        match stats with
        | Err _ => Ret tt
        | Ok (uplink, downlink) =>
          let metric_tags :=
            <["proto" := "wireguard"]> (<["user_id" := uuid_str conn_id]> base_tags) in
          put "user.traffic.downlink" (f64_of_int downlink) metric_tags;;
          put "user.traffic.uplink" (f64_of_int uplink) metric_tags
        end
      end)
  else Ret tt.

(** [collect_metrics] -- bin/node/tasks.rs:321-337 *)
Definition collect_metrics : Agent unit :=
  collect_system;;
  if has_stats config then
    collect_inbound_metrics;;
    collect_user_metrics;;
    if has_wg config then collect_wg_metrics else Ret tt
  else if has_wg config then collect_wg_metrics else Ret tt.

(** ** What collecting changes *)

(** Samples are added; no connection and no account is touched. *)
Definition node_kept (w w' : W) : Prop :=
  samples_added (agent_node config) w w' ∧ svc_mem w' = svc_mem w ∧
  ∀ t e, users (dev_xray (svc_device w')) t e = users (dev_xray (svc_device w)) t e.
#[local] Instance node_measures : Measures node_kept.
Proof.
  split.
  - split; [by intros w|]. intros w1 w2 w3 (Hs1 & Hm1 & Hu1) (Hs2 & Hm2 & Hu2).
    split_and!; [by etransitivity|congruence|]. intros t e. by rewrite Hu2.
  - intros w. split_and!; [by apply samples_same|done|done].
  - intros w m Hm. split_and!; [exact Hm|done|done].
Qed.
Notation measured p w := (okp (λ _ : W, True) node_kept p w).

Lemma measured_xray {A} (f : X → X * A) w :
  (∀ x t e, users (f x).1 t e = users x t e) → measured (xray_call f) w.
Proof.
  intros Hf. apply okp_act; [|by intros; apply okp_ret]. intros w' _. split; [done|].
  pose proof (Hf (dev_xray (svc_device w'))) as Hu. destruct (f _) as [x a].
  split_and!; [by apply samples_same|done|exact Hu].
Qed.
Lemma measured_stat p k b w : measured (stat config p k b) w.
Proof.
  unfold stat. destruct (has_stats config); [|by apply okp_ret].
  destruct (stat_name _ _); [|by apply okp_ret].
  apply (measured_bind node_kept); [|by intros; apply okp_ret].
  assert (∀ n, measured (xray_call (λ x, get_stats x n b)) w) as Hs
    by (intros n; apply measured_xray; intros; apply get_stats_users).
  destruct k as [[]| |]; try apply Hs. apply measured_xray. intros. apply get_stats_online_users.
Qed.
Lemma rg_join3 I (G : W → W → Prop) `{!PreOrder G} {A B C} (p : Agent A) (q : Agent B)
    (r : Agent C) Q R S w :
  (∀ w, I w → I (svc_turn w).1 ∧ G w (svc_turn w).1) →
  rg I G p Q w → rg I G q R w → rg I G r S w →
  rg I G (join3 p q r) (λ x w, Q x.1.1 w ∧ R x.1.2 w ∧ S x.2 w) w.
Proof.
  intros Hturn Hp Hq Hr. eapply (rg_bind I G).
  { apply (rg_join2 svc_turn I G Hturn _ _ Q (λ x w, R x.1 w ∧ S x.2 w)); [exact Hp|].
    by apply (rg_join2 svc_turn I G Hturn). }
  intros [a [b c]] w1 _ _ HQ. exact HQ.
Qed.
Lemma measured_join3 {A B C} (p : Agent A) (q : Agent B) (r : Agent C) w :
  measured p w → measured q w → measured r w → measured (join3 p q r) w.
Proof.
  intros Hp Hq Hr. eapply (rg_post (λ _, True) node_kept); [|apply (rg_join3 (λ _, True) node_kept);
    [|exact Hp|exact Hq|exact Hr]]; [by intros ? ? _ _ ? _ _|].
  intros w1 _. split; [done|]. split_and!; [by apply samples_same|done|done].
Qed.
Lemma measured_conn p w : measured (conn config p) w.
Proof.
  apply (measured_bind node_kept); [apply measured_join3; apply measured_stat|].
  intros [[] ?] ?. by apply okp_ret.
Qed.
Lemma measured_inbound p w : measured (inbound config p) w.
Proof.
  unfold inbound. destruct (as_tag p); [|exact I].
  apply (measured_bind node_kept); [apply measured_join3; try apply measured_stat|].
  - unfold conn_count. destruct (has_xray config); [|by apply okp_ret].
    apply (measured_bind node_kept); [|by intros; apply okp_ret].
    apply (measured_bind node_kept); [by apply measured_xray|by intros; apply okp_ret].
  - intros [[[] []] []] ?; by apply okp_ret.
Qed.
Lemma measured_read {A} (f : Connections Base → A) w : measured (svc_read f) w.
Proof. by apply okp_act; [intros|intros; apply okp_ret]. Qed.

(** Samples one after the other, under tags that extend the node's. *)
Ltac samples :=
  repeat (apply (measured_bind node_kept); [|intros ? ?]);
  apply (measured_put node_kept); repeat (apply base_insert; [by repeat (left || right)|]); done.

Lemma measured_inbounds w : measured collect_inbound_metrics w.
Proof.
  apply (measured_each node_kept). intros tag w1.
  destruct tag; try (by apply okp_ret);
    (apply (measured_bind node_kept); [apply measured_inbound|]; intros [st|e] w2;
      [cbv zeta; samples|by apply okp_ret]).
Qed.
Lemma measured_users w : measured collect_user_metrics w.
Proof.
  apply (measured_bind node_kept); [apply measured_read|]. intros ids w1.
  apply (measured_each node_kept). intros id w2.
  apply (measured_bind node_kept); [apply measured_conn|].
  intros [st|e] w3; [cbv zeta; samples|by apply okp_ret].
Qed.
Lemma measured_wg w : measured collect_wg_metrics w.
Proof.
  unfold collect_wg_metrics. destruct (has_wg config); [|by apply okp_ret].
  apply (measured_bind node_kept); [apply measured_read|]. intros conns w1.
  apply (measured_each node_kept). intros [id [k|e]] w2; [|by apply okp_ret].
  apply (measured_bind node_kept).
  { apply okp_act; [|by intros; apply okp_ret]. intros w3 _. split; [done|].
    split_and!; [by apply samples_same|done|done]. }
  intros [[ul dl]|e] w3; [cbv zeta; samples|by apply okp_ret].
Qed.

(** Collecting comes to its end. *)
Lemma total_for_each {A} (l : list A) (body : A → Agent unit) :
  (∀ x, total (body x)) → total (for_each l body).
Proof. intros Hb. induction l as [|x l IH]; [done|]. by apply total_bind. Qed.
Ltac tot :=
  repeat match goal with
  | |- total (bind _ _) => apply total_bind; [|intros ?]
  | |- total (for_each _ _) => apply total_for_each; intros ?
  | |- total (join2 _ _ _) => apply total_join2
  | |- total (match ?x with _ => _ end) => destruct x
  | |- total (Ret _) => exact I
  | |- total _ => solve [auto 1 with total nocore]
  | |- total (put _ _ _) => done
  | |- total (Act _ Ret) => done
  | |- total _ => progress cbv zeta
  end.
Lemma total_bandwidth_loop d (t : Tags) l : total (bandwidth_loop (W := W) d t l).
Proof.
  revert t. induction l as [|[i x] l IH]; intros t; [done|]. cbn. intros _ _ _ _. apply IH.
Qed.
#[local] Hint Resolve total_bandwidth_loop : total.
Lemma total_system : total (collect_system (W := W)).
Proof.
  unfold collect_system, heartbeat, bandwidth, cpu_usage, loadavg, memory_metrics, disk_usage,
    sys_ask. tot.
Qed.
Lemma total_stat p k b : total (stat (D := D) config p k b).
Proof. unfold stat, xray_call. tot. Qed.
#[local] Hint Resolve total_stat : total.
Lemma total_conn p : total (conn (D := D) config p).
Proof. unfold conn, join3. tot. Qed.
Lemma total_inbound tag : total (inbound (D := D) config (InboundPrefix tag)).
Proof. unfold inbound, join3, conn_count, conn_count_op, xray_call. cbn [as_tag]. tot. Qed.
#[local] Hint Resolve total_system total_conn total_inbound : total.
Lemma total_collect : total collect_metrics.
Proof.
  unfold collect_metrics, collect_inbound_metrics, collect_user_metrics, collect_user,
    collect_wg_metrics, wg_call, svc_read, reads.
  tot.
Qed.

(** C40: a round of metrics collection comes to its end, whatever Xray, WireGuard
    and the machine answer.  It only adds samples to the buffer, each of which
    names the node and carries the node's own tags unchanged; the table of
    connections and the accounts of Xray are as before. *)
Theorem collect_metrics_spec (w : W) :
  let '(w', r) := run collect_metrics w in
  r = Some tt ∧ svc_mem w' = svc_mem w ∧
  (∀ t e, users (dev_xray (svc_device w')) t e = users (dev_xray (svc_device w)) t e) ∧
  ∃ new, batch (dev_metrics (svc_device w')) = batch (dev_metrics (svc_device w)) ++ new ∧
    ∀ e, e ∈ new → e_node_id e = agent_uuid config ∧
      Node.get_base_tags (agent_node config) ⊆ e_tags e.
Proof.
  assert (measured collect_metrics w) as Hm.
  { unfold collect_metrics. apply (measured_bind node_kept); [apply measured_system, _|].
    intros _ w1. destruct (has_stats config); [|destruct (has_wg config)];
      [|apply measured_wg|by apply okp_ret].
    apply (measured_bind node_kept); [apply measured_inbounds|intros _ w2].
    apply (measured_bind node_kept); [apply measured_users|intros _ w3].
    destruct (has_wg config); [apply measured_wg|by apply okp_ret]. }
  pose proof (rg_run _ _ _ _ w Hm Logic.I) as (_ & Hkept & _).
  destruct Hkept as ((new & Hb & Hl) & Hmem & Hu). destruct (run_total collect_metrics w total_collect) as [[] Hr].
  destruct (run collect_metrics w) as [w' r]. cbn in *. split_and!; [done|done|done|].
  exists new. split; [exact Hb|]. rewrite Forall_forall in Hl. exact Hl.
Qed.

(** ** The counters reported *)

(** What Xray answers for a counter of a prefix; 0 for one it does not have. *)
Definition counter (x : X) (p : Prefix) (k : StatPath.Stat) : Z :=
  match has_stats config, stat_name (base_name p) k with
  | true, Some name =>
    match (match k with
           | StatPath.Conn Kind.Online => get_stats_online x name false
           | _ => get_stats x name false
           end).2 with
    | Ok (Some v) => v
    | _ => 0
    end
  | _, _ => 0
  end.
Definition sample (e : MetricEnvelope (V := f64)) : string * f64 * Tags :=
  (e_name e, e_value e, e_tags e).
Definition user_samples (x : X) (id : Uuid) : list (string * f64 * Tags) :=
  let tags := <["conn_id" := uuid_str id]> (Node.get_base_tags (agent_node config)) in
  let value k := f64_of_int (counter x (ConnPrefix id) (StatPath.Conn k)) in
  [("user.traffic.downlink", value Kind.Downlink, tags);
   ("user.traffic.uplink", value Kind.Uplink, tags);
   ("user.online", value Kind.Online, tags)].

(** Reading counters changes nothing that can be seen. *)
Definition reading (x : X) (w : W) : Prop := dev_xray (svc_device w) = x.
Definition as_before (w w' : W) : Prop :=
  svc_mem w' = svc_mem w ∧ svc_device w' = svc_device w.
#[local] Instance as_before_preorder : PreOrder as_before.
Proof.
  split; [by intros w|]. intros w1 w2 w3 [Hm1 Hd1] [Hm2 Hd2]. split; congruence.
Qed.

Lemma rg_read_xray {A} (f : X → X * A) x (w : W) :
  (f x).1 = x → rg (reading x) as_before (xray_call f) (λ a _, a = (f x).2) w.
Proof.
  intros Hf w' _ HI. cbn. unfold reading in *. rewrite HI.
  destruct (f x) as [x' a]. cbn in *. subst x'.
  assert (as_before w' (set_svc_device (set_dev_xray x (svc_device w')) w')) as Hb.
  { split; [done|]. cbn. subst x. by destruct (svc_device w'). }
  split_and!; [done|done|by intros w'' _ _].
Qed.
Lemma rg_read_stat x p k w :
  rg (reading x) as_before (stat config p k false) (λ r _, value_or_0 r = counter x p k) w.
Proof.
  unfold stat, counter. destruct (has_stats config); [|by intros w' _ _].
  destruct (stat_name _ _) as [name|]; [|by intros w' _ _].
  eapply (rg_bind (reading x) as_before).
  - instantiate (1 := λ r _, r = (match k with
      | StatPath.Conn Kind.Online => get_stats_online x name false
      | _ => get_stats x name false end).2).
    destruct k as [[]| |]; first
      [apply (rg_read_xray (λ x, get_stats x name false)), get_stats_read
      |apply (rg_read_xray (λ x, get_stats_online x name false)), get_stats_online_read].
  - intros r w1 _ HI Hr. rewrite (Hr w1 ltac:(reflexivity) HI). intros w2 _ _.
    by destruct (snd _) as [[]|].
Qed.
Lemma rg_read_conn x p w :
  rg (reading x) as_before (conn config p) (λ r _, r = Ok {|
    downlink := counter x p (StatPath.Conn Kind.Downlink);
    uplink := counter x p (StatPath.Conn Kind.Uplink);
    online := counter x p (StatPath.Conn Kind.Online) |}) w.
Proof.
  assert (∀ w : W, reading x w → reading x (svc_turn w).1 ∧ as_before w (svc_turn w).1) as Hturn
    by by intros w1 Hr.
  unfold conn. eapply (rg_bind (reading x) as_before).
  { apply (rg_join3 (reading x) as_before); [exact Hturn|apply rg_read_stat..]. }
  intros [[a b] c] w1 _ HI HQ. destruct (HQ w1 ltac:(reflexivity) HI) as (Ha & Hb & Hc).
  intros w2 _ _. cbn in *. by rewrite Ha, Hb, Hc.
Qed.

Lemma run_conn p (w : W) :
  let x := dev_xray (svc_device w) in
  let '(w', r) := run (conn config p) w in
  as_before w w' ∧ r = Some (Ok {|
    downlink := counter x p (StatPath.Conn Kind.Downlink);
    uplink := counter x p (StatPath.Conn Kind.Uplink);
    online := counter x p (StatPath.Conn Kind.Online) |}).
Proof.
  cbv zeta. destruct (run_total (conn config p) w (total_conn p)) as [a Ha].
  pose proof (rg_run _ _ _ _ w (rg_read_conn (dev_xray (svc_device w)) p w) eq_refl) as (HI & Hb & Hq).
  destruct (run (conn config p) w) as [w' r]. cbn in *. subst r. split; [done|].
  f_equal. by apply (Hq w').
Qed.

Lemma run_put metric value tags (w : W) :
  let '(w', r) := run (put metric value tags) w in
  r = Some tt ∧ svc_mem w' = svc_mem w ∧ dev_xray (svc_device w') = dev_xray (svc_device w) ∧
  sample <$> batch (dev_metrics (svc_device w')) =
    (sample <$> batch (dev_metrics (svc_device w))) ++ [(metric, value, tags)].
Proof. cbn. split_and!; [done..|]. unfold write. by rewrite fmap_app. Qed.

Lemma run_put_then {B} metric value tags (k : Agent B) (w : W) :
  run (put metric value tags;; k) w = run k (run (put metric value tags) w).1.
Proof. done. Qed.

Lemma run_collect_user id (w : W) :
  let '(w', r) := run (collect_user id) w in
  r = Some tt ∧ svc_mem w' = svc_mem w ∧ dev_xray (svc_device w') = dev_xray (svc_device w) ∧
  sample <$> batch (dev_metrics (svc_device w')) =
    (sample <$> batch (dev_metrics (svc_device w))) ++ user_samples (dev_xray (svc_device w)) id.
Proof.
  unfold collect_user. rewrite run_bind. pose proof (run_conn (ConnPrefix id) w) as Hc.
  destruct (run (conn config _) w) as [w1 r1]. destruct Hc as [[Hm1 Hd1] ->].
  cbv zeta. rewrite !run_put_then, <- Hm1, <- Hd1.
  match goal with |- context [run (put ?m1 ?v1 ?t) w1] => pose proof (run_put m1 v1 t w1) as H1' end.
  destruct (run (put _ _ _) w1) as [w2 r2]. destruct H1' as (_ & Hm2 & Hx2 & Hb2). cbn [fst].
  match goal with |- context [run (put ?m1 ?v1 ?t) w2] => pose proof (run_put m1 v1 t w2) as H2' end.
  destruct (run (put _ _ _) w2) as [w3 r3]. destruct H2' as (_ & Hm3 & Hx3 & Hb3). cbn [fst].
  match goal with |- context [run (put ?m1 ?v1 ?t) w3] => pose proof (run_put m1 v1 t w3) as H3' end.
  destruct (run (put _ _ _) w3) as [w4 r4]. destruct H3' as (-> & Hm4 & Hx4 & Hb4).
  split_and!; [done|congruence|congruence|].
  by rewrite Hb4, Hb3, Hb2, <- !(assoc app).
Qed.

Lemma run_collect_users ids (w : W) :
  let '(w', r) := run (for_each ids collect_user) w in
  r = Some tt ∧ svc_mem w' = svc_mem w ∧ dev_xray (svc_device w') = dev_xray (svc_device w) ∧
  sample <$> batch (dev_metrics (svc_device w')) =
    (sample <$> batch (dev_metrics (svc_device w))) ++
    (ids ≫= user_samples (dev_xray (svc_device w))).
Proof.
  revert w. induction ids as [|id ids IH]; intros w; [by cbn; rewrite app_nil_r|].
  cbn [for_each]. rewrite run_bind. pose proof (run_collect_user id w) as Hu.
  destruct (run (collect_user id) w) as [w1 r1]. destruct Hu as (-> & Hm1 & Hx1 & Hb1).
  specialize (IH w1). destruct (run (for_each ids collect_user) w1) as [w2 r2].
  destruct IH as (-> & Hm2 & Hx2 & Hb2). split_and!; [done|congruence|congruence|].
  by rewrite Hb2, Hb1, Hx1, <- (assoc app).
Qed.

(** What is reported of the users.  For every connection of the table, in
    the table's order, three samples, tagged with its id: its counters as Xray
    answers them at that moment, 0 for one that Xray does not have.  Nothing
    is reset, and nothing else is reported. *)
Theorem collect_users_spec (w : W) :
  let '(w', r) := run collect_user_metrics w in
  r = Some tt ∧ svc_mem w' = svc_mem w ∧ dev_xray (svc_device w') = dev_xray (svc_device w) ∧
  sample <$> batch (dev_metrics (svc_device w')) =
    (sample <$> batch (dev_metrics (svc_device w))) ++
    ((hiter (svc_mem w)).*1 ≫= user_samples (dev_xray (svc_device w))).
Proof. exact (run_collect_users (hiter (svc_mem w)).*1 w). Qed.
End node_metrics.
