(* ===== verification/Startup.v ===== *)
(** * Starting the node and the authentication service

    [bin/node/node.rs] and [bin/auth/service.rs]: the snapshot loaded and
    restored, the topics subscribed, the node registered and the connections
    asked for; and what the services then hear ([zmq/subscriber.rs]). *)
From S2P Require Import Prelude Task Foreign Naming Wireguard Connection ConnStore Subscription.
From S2P Require Import Key Inbound Node Link Metrics Db World Trials Sync Consistency SyncSafe.
From S2P Require Import Reload SyncSpec Background Http ApiConn ApiSub ApiKey ApiTrial ApiNode.
From S2P Require Import Api Service Client Auth Xray Agent.
Local Open Scope Z_scope.
Local Open Scope prog_scope.

(** ** What a subscriber hears *)
Section hearing.
Context `{!UuidText}.

(** [Subscriber::new] -- zmq/subscriber.rs:14-37

    A subscription is a prefix of what it delivers. *)
Definition delivers (topics : list Topic) (topic_str : string) : bool :=
  existsb (λ topic, Str.starts_with (Topic.as_str topic) topic_str) topics.

(** [run] -- bin/auth/service.rs:95-100 *)
Definition auth_topics (node_uuid : Uuid) : list Topic := [Topic.Init node_uuid; Topic.Auth].
(** [run] -- bin/node/node.rs:176-179 *)
Definition node_topics (node : Node) : list Topic :=
  [Topic.Init (Node.uuid node); Topic.Updates (Node.env node)].

(** What of the bus reaches a service. *)
Definition heard (topics : list Topic) (l : list (Topic * list Message)) : list Frame :=
  (λ p, (Topic.as_str p.1, Some p.2)) <$>
    base.filter (λ p, delivers topics (Topic.as_str p.1) = true) l.
End hearing.

Section loops.
Context {W : Type}.
Notation M A := (Prog W A).

(** A call repeated until it succeeds, at most [n] times. *)
Fixpoint until_ok (n : nat) (p : M (result unit Error)) : M bool :=
  match n with
  | O => Ret false
  | S n => r <- p;; match r with Ok _ => Ret true | Err _ => until_ok n p end
  end.
(** The first [n] rounds of an endless loop. *)
Fixpoint rounds (n : nat) (round : M unit) : M unit :=
  match n with O => Ret tt | S n => round;; rounds n round end.
End loops.

Section startup.
Context `{!Oracle, !Postgres, !Ipv6Text, !UuidText, !IterOrder, !Chrono, !WgCrypto, !UrlLib,
  !Base32, !Hmac, !SeriesHash, !Rfc3339, !HttpText, !F64}.
Context {V : Type} (metrics : MetricStorage (V := V)) (config : ServiceConfig).

(** [run] -- bin/auth/service.rs:146-165

    The snapshot task. *)
Definition snapshot_task {D} (n : nat) : Prog (Svc D) unit :=
  rounds n (create_snapshot;; Ret tt).

(** ** The authentication service *)

(** [run] -- bin/auth/service.rs:115-144 *)
Definition auth_load : Prog AuthWorld (option Z) :=
  exists_file <- reads (λ w, is_some (svc_file w));;
  if exists_file : bool then
    r <- load_snapshot;;
    match r with
    | Ok (Some timestamp) => Ret (Some timestamp)
    | Ok None => Panic
    | Err _ => Ret None
    end
  else Ret None.

(** [run] -- bin/auth/service.rs:88-211

    Up to the answer to the first request for connections; [false] while it
    keeps retrying. *)
Definition auth_start (node : Node) (endpoint token : string) (n : nat) :
    Prog (Net _) bool :=
  snapshot_timestamp <- at_service auth_load;;
  until_ok n (get_connections metrics config node endpoint token ProtoTag.Hysteria2
    snapshot_timestamp).

(** ** The node *)
Section node.
Context {D X : Type} `{!KernelIface D, !XrayService X}.
Context (agent : AgentConfig).
Notation W := (Svc (Devices D X)).

(** [run] -- bin/node/node.rs:202-241

    With the tasks that restoring spawns. *)
Definition node_load : Prog W (option Z * list (Prog W unit)) :=
  exists_file <- reads (λ w, is_some (svc_file w));;
  if exists_file : bool then
    r <- load_snapshot;;
    match r with
    | Ok (Some timestamp) =>
      wg <- restore_wg_connections agent;;
      xray <- restore_xray_connections agent;;
      Ret (Some timestamp, default [] (result_ok wg) ++ default [] (result_ok xray))
    | Ok None => Ret (None, [])
    | Err _ => Ret (None, [])
    end
  else Ret (None, []).

(** [run] -- bin/node/node.rs:293-299 *)
Definition synced_tags : list ProtoTag :=
  base.filter (λ k, k ≠ ProtoTag.Mtproto)
    (base.filter (λ k, k ≠ ProtoTag.Hysteria2) (hiter (Node.inbounds (agent_node agent))).*1).

(** [run] -- bin/node/node.rs:301-309

    The first error ends it. *)
Definition sync_tags (endpoint token : string) (last_update : option Z) :
    list ProtoTag → Prog (Net (Devices D X)) (result unit Error) :=
  fix go tags := match tags with
  | [] => Ret (Ok tt)
  | tag :: tags =>
    _ <-? sync_connections metrics config (agent_node agent) endpoint token tag last_update;;
    go tags
  end.

(** [run] -- bin/node/node.rs:283-317

    Registering is retried, asking for the connections is not: its error is
    the process's.  [None] while it keeps retrying. *)
Definition node_join (endpoint token : string) (n : nat) (last_update : option Z) :
    Prog (Net (Devices D X)) (option (result unit Error)) :=
  registered <- until_ok n (register_node metrics config (agent_node agent) endpoint token);;
  if registered : bool then
    r <- sync_tags endpoint token last_update synced_tags;;
    Ret (Some r)
  else Ret None.
End node.
End startup.
