(* ===== verification/Config.v ===== *)
(** * Files of settings

    The [Settings] trait ([config/settings.rs]): a file's text becomes a document
    by the TOML crate, a parameter; what serde's derived readers take from a
    document is written out, field by field.  A struct written as an array of
    its fields, which they also read, is not modelled. *)
From S2P Require Import Prelude Task Foreign Naming Wireguard Connection ConnStore Subscription.
From S2P Require Import Key Inbound Node.
Local Open Scope Z_scope.

(** ** Documents *)

Inductive Toml : Set :=
| TStr (s : string)
| TInt (z : Z)
| TBool (b : bool)
| TArr (l : list Toml)
| TTable (t : list (string * Toml))
| TOther.
Notation Table := (list (string * Toml)).

(** The files and the TOML crate; [toml_message] is the text of a reader's
    error, and [key_borrowed] whether a table's keys can be read as [&str]. *)
Class ConfigFiles := {
  config_text : string → result string string;
  toml_parse : string → result Table string;
  toml_message : string → string;
  key_borrowed : bool;
}.

Fixpoint get (k : string) (t : Table) : option Toml :=
  match t with
  | [] => None
  | (k', v) :: t => if decide (k = k') then Some v else get k t
  end.

Section readers.
Context `{!ConfigFiles, !Ipv6Text, !UuidText}.

(** A field that must be there, that has a default, that is an [Option]. *)
Definition field {A} (read : Toml → option A) (k : string) (t : Table) : option A :=
  get k t ≫= read.
Definition field_or {A} (d : A) (read : Toml → option A) (k : string) (t : Table) : option A :=
  match get k t with Some v => read v | None => Some d end.
Definition field_opt {A} (read : Toml → option A) (k : string) (t : Table) : option (option A) :=
  match get k t with Some v => Some <$> read v | None => Some None end.

Definition text (v : Toml) : option string := match v with TStr s => Some s | _ => None end.
Definition boolean (v : Toml) : option bool := match v with TBool b => Some b | _ => None end.
Definition int (lo hi : Z) (v : Toml) : option Z :=
  match v with TInt z => if decide (lo <= z <= hi) then Some z else None | _ => None end.
Definition u8 := int 0 255.
Definition u16 := int 0 65535.
Definition u64 := int 0 U64_MAX.
Definition i64 := int I64_MIN I64_MAX.
Definition seq {A} (read : Toml → option A) (v : Toml) : option (list A) :=
  match v with TArr l => mapM read l | _ => None end.
Definition ipv4 (v : Toml) : option Ipv4Addr := text v ≫= ipv4_parse.
Definition uuid (v : Toml) : option Uuid := text v ≫= uuid_parse.
Definition env (v : Toml) : option Env := Env.deserialize <$> text v.
Definition tag (v : Toml) : option ProtoTag := text v ≫= ProtoTag.from_str.
Definition struct {A} (read : Table → option A) (v : Toml) : option A :=
  match v with TTable t => read t | _ => None end.
Definition as_value (v : Toml) : Value :=
  match v with TStr s => VStr s | TInt z => VNum z | _ => VOther end.
Definition mask (v : Toml) : option IpAddrMask :=
  match v with
  | TStr s => mask_deserialize (inl s)
  | TTable t => if key_borrowed then mask_deserialize (inr (prod_map id as_value <$> t)) else None
  | _ => None
  end.

(** [Settings::read_config] -- config/settings.rs:78-82 *)
Definition read_config {A} (read : Table → option A) (config_file : string) : result A Error :=
  match config_text config_file with
  | Err e => Err (Error.Io e)
  | Ok config_str =>
    match toml_parse config_str with
    | Err e => Err (Error.TomlDeError e)
    | Ok t =>
      match read t with
      | Some settings => Ok settings
      | None => Err (Error.TomlDeError (toml_message config_str))
      end
    end
  end.

(** [Settings::from_file] -- config/settings.rs:84-92

    [None]: it panics. *)
Definition from_file {A} (read : Table → option A) (config_file : string) : option A :=
  match read_config read config_file with Ok settings => Some settings | Err _ => None end.
End readers.
