(* ===== verification/NodeInit.v ===== *)
(** * What a node is made of

    The first part of [bin/node/node.rs]'s [run]: from the service's settings
    and the files they name to the node's description and the clients of its
    devices.  The files are parsed by serde's crates, which are arguments here;
    what the code makes of them is [Inbound]'s and [Node]'s. *)
From S2P Require Import Prelude Task Foreign Naming Wireguard Connection ConnStore Subscription.
From S2P Require Import Key Inbound Node Link Metrics Db World Trials Sync Consistency SyncSafe.
From S2P Require Import Reload SyncSpec Background Http ApiConn ApiSub ApiKey ApiTrial ApiNode.
From S2P Require Import Api Service Client Xray Agent Batch Auth Startup Config.
Local Open Scope Z_scope.

(** [XrayConfig], [H2Config], [WgConfig], [MtprotoConfig] -- bin/node/config.rs:46-77 *)
Record PartConfig : Set := { enabled : bool; path : string }.
(** [ServiceSettings] -- bin/node/config.rs:14-32

    The parts that say what the node is made of. *)
Record NodeSettings : Set := {
  set_xray : PartConfig;
  set_wg : PartConfig;
  set_h2 : PartConfig;
  set_mtproto : PartConfig;
  set_node : NodeConfigRaw;
}.

(** The parsers of the files ([serde_json::from_str], [serde_yaml::from_str]),
    the system and the devices. *)
Class Surroundings (D : Type) := {
  json_settings : string → result XraySettings string;
  yaml_settings : string → result Hysteria2Settings string;
  xray_stats : string → result unit Error;
  xray_handler : string → result unit Error;
  wg_open : string → result D Error;
  num_cpus : result Z string;
  host_var : option string;
}.

(** A function that may fail or panic. *)
Definition Outcome (A : Type) : Type := option (result A Error).
Definition ok {A} (a : A) : Outcome A := Some (Ok a).
Definition obind {A B} (x : Outcome A) (f : A → Outcome B) : Outcome B :=
  match x with
  | Some (Ok a) => f a
  | Some (Err e) => Some (Err e)
  | None => None
  end.
Notation "'let!' x := e 'in' k" := (obind e (λ x, k))
  (at level 10, x pattern, e at level 100, k at level 200) : pony_scope.
Local Open Scope pony_scope.
Definition or_panic {A} (r : result A Error) : Outcome A :=
  match r with Ok a => ok a | Err _ => None end.

Lemma obind_ok {A B} (x : Outcome A) (f : A → Outcome B) b :
  obind x f = ok b → ∃ a, x = ok a ∧ f a = ok b.
Proof. destruct x as [[a|e]|]; cbn; try done. intros Hf. by exists a. Qed.
Lemma or_panic_ok {A} (r : result A Error) a : or_panic r = ok a → r = Ok a.
Proof. destruct r; cbn; [by intros [= <-]|done]. Qed.
Ltac o_inv H :=
  lazymatch type of H with
  | obind _ _ = ok _ => let a := fresh "a" in let H1 := fresh "Hs" in
      apply obind_ok in H as (a & H1 & H); o_inv H
  | (let _ := _ in _) = ok _ => cbv zeta in H; o_inv H
  | _ => idtac
  end.

Section init.
Context {D : Type} `{!KernelIface D, !Ipv6Text, !ConfigFiles, !Surroundings D}.

(** [Settings::from_file] -- config/inbound.rs:153-162 *)
Definition xray_from_file (file_path : string) : result XraySettings Error :=
  match config_text file_path with
  | Err e => Err (Error.Io e)
  | Ok contents =>
    match json_settings contents with
    | Err e => Err (Error.Json e)
    | Ok settings => Ok settings
    end
  end.

(** [Hysteria2Settings::from_file] -- config/h2.rs:17-24 *)
Definition h2_from_file (path : string) : result Hysteria2Settings Error :=
  match config_text path with
  | Err e => Err (Error.Io e)
  | Ok contents =>
    match yaml_settings contents with
    | Err e => Err (Error.Yaml e)
    | Ok config => Ok config
    end
  end.

(** [Deserialize (SecretEntry)] -- config/mtproto.rs:5-9 *)
Definition read_secret_entry (t : Table) : option SecretEntry :=
  key ← field text "key" t;
  label ← field text "label" t;
  Some {| secret_key := key; secret_label := label |}.
(** [Deserialize (MtprotoSettings)] -- config/mtproto.rs:11-15 *)
Definition read_mtproto (t : Table) : option MtprotoSettings :=
  port ← field u16 "port" t;
  secrets ← field (Config.seq (struct read_secret_entry)) "secret" t;
  Some {| mt_port := port; secret := secrets |}.

(** [run] -- bin/node/node.rs:81-111 *)
Definition init_xray (s : PartConfig) : Outcome (option XraySettings) :=
  if enabled s then
    let! config := or_panic (xray_from_file (path s)) in
    let! _ := or_panic (xray_validate config) in
    let endpoint := "http://" +:+ api_listen config in
    let! _ := Some (xray_stats endpoint) in
    let! _ := Some (xray_handler endpoint) in
    ok (Some config)
  else ok None.

(** [run] -- bin/node/node.rs:113-129 *)
Definition init_wg (s : PartConfig) : Outcome (option (D * WireguardSettings)) :=
  if enabled s then
    let! row_config := Some (wg_from_file (path s) (config_text (path s))) in
    let! wg := Some (wg_try_from row_config) in
    let! client := or_panic (wg_open (interface wg)) in
    let! _ := or_panic (WgApi_validate client) in
    ok (Some (client, wg))
  else ok None.

(** [run] -- bin/node/node.rs:131-155 *)
Definition init_h2 (s : PartConfig) : Outcome (option H2Settings) :=
  if enabled s then
    let! cfg := or_panic (h2_from_file (path s)) in
    let! _ := or_panic (h2_validate cfg) in
    let! settings := or_panic (h2_try_from cfg) in
    ok (Some settings)
  else ok None.

(** [run] -- bin/node/node.rs:157-162 *)
Definition init_mtproto (s : PartConfig) : Outcome (option MtprotoSettings) :=
  if enabled s then
    match from_file read_mtproto (path s) with Some config => ok (Some config) | None => None end
  else ok None.

(** [run] -- bin/node/node.rs:77-174

    The node, which of its devices it drives, and its WireGuard interface. *)
Definition node_init (now : DateTime) (s : NodeSettings) : Outcome (AgentConfig * option D) :=
  let! xray_config := init_xray (set_xray s) in
  let! wg := init_wg (set_wg s) in
  let! h2_config := init_h2 (set_h2 s) in
  let! mtproto_config := init_mtproto (set_mtproto s) in
  let! node_config := Some (from_raw num_cpus host_var (set_node s)) in
  match Node.new now node_config xray_config (snd <$> wg) h2_config mtproto_config with
  | None => None
  | Some node => ok
    ({| has_wg := is_some wg; has_xray := is_some xray_config; has_stats := is_some xray_config;
        agent_node := node |}, fst <$> wg)
  end.

(** ** What a node that starts is *)

(** The tags under which the parts of a configuration are served. *)
Definition serves_tag (x : option XraySettings) (wg : bool) (h2 : bool) (mt : bool)
    (t : ProtoTag) : Prop :=
  (∃ c i, x = Some c ∧ i ∈ xray_inbounds c ∧ Inbound.tag i = t) ∨
  (wg = true ∧ t = ProtoTag.Wireguard) ∨ (h2 = true ∧ t = ProtoTag.Hysteria2) ∨
  (mt = true ∧ t = ProtoTag.Mtproto).
Definition tags_agree (m : gmap ProtoTag Inbound) : Prop :=
  ∀ t i, m !! t = Some i → Inbound.tag i = t.

Lemma fold_inbounds (l : list Inbound) (m : gmap ProtoTag Inbound) :
  tags_agree m →
  tags_agree (foldl (λ m i, <[Inbound.tag i := i]> m) m l) ∧
  ∀ t, is_Some (foldl (λ m i, <[Inbound.tag i := i]> m) m l !! t) ↔
    is_Some (m !! t) ∨ ∃ i, i ∈ l ∧ Inbound.tag i = t.
Proof.
  revert m. induction l as [|i l IH]; intros m Hm; cbn [foldl].
  - split; [done|]. intros t. split; [by left|]. intros [|(i & Hi & _)]; [done|].
    by apply not_elem_of_nil in Hi.
  - destruct (IH (<[Inbound.tag i := i]> m)) as [Ha Hd].
    + intros t j [[<- <-]|[_ Hj]]%lookup_insert_Some; [done|by apply Hm].
    + split; [done|]. intros t. rewrite Hd, lookup_insert_is_Some'. setoid_rewrite elem_of_cons.
      naive_solver.
Qed.

Lemma tags_agree_insert m t i : Inbound.tag i = t → tags_agree m → tags_agree (<[t := i]> m).
Proof. intros Ht Hm t' j [[<- <-]|[_ Hj]]%lookup_insert_Some; [done|by apply Hm]. Qed.

Lemma new_tags now cfg x wg h2 mt n :
  Node.new now cfg x wg h2 mt = Some n →
  tags_agree (Node.inbounds n) ∧ ∀ t, is_Some (Node.inbounds n !! t) ↔
    serves_tag x (is_some wg) (is_some h2) (is_some mt) t.
Proof.
  unfold Node.new. set (m0 := match x with Some _ => _ | None => _ end).
  assert (tags_agree m0 ∧ ∀ t, is_Some (m0 !! t) ↔
    ∃ c i, x = Some c ∧ i ∈ xray_inbounds c ∧ Inbound.tag i = t) as [Ha0 Hd0].
  { subst m0. destruct x as [c|].
    - destruct (fold_inbounds (xray_inbounds c) ∅) as [Ha Hd]; [intros t i; by rewrite lookup_empty|].
      rewrite (right_id_L ∅ (∪)). split; [done|]. intros t. rewrite Hd, lookup_empty.
      split; [intros [[]%is_Some_None|(i & Hi & Ht)]; by exists c, i|].
      intros (c' & i & [= <-] & Hi & Ht). right. by exists i.
    - split; [intros t i; by rewrite lookup_empty|]. intros t. rewrite lookup_empty.
      split; [intros []%is_Some_None|]. by intros (c & i & ? & _). }
  intros Hn.
  assert (∀ ms, mt = ms → is_Some (Some n) → tags_agree (Node.inbounds n) ∧
    ∀ t, is_Some (Node.inbounds n !! t) ↔ is_Some (m0 !! t) ∨
      (is_some wg = true ∧ t = ProtoTag.Wireguard) ∨ (is_some h2 = true ∧ t = ProtoTag.Hysteria2) ∨
      (is_some mt = true ∧ t = ProtoTag.Mtproto)) as Hall.
  { intros ms <- _. destruct wg as [w|], mt as [[p [|e l]]|], h2 as [h|]; cbn in Hn; try done;
      injection Hn as <-; cbn;
      (split; [repeat (apply tags_agree_insert; [done|]); done|]);
      intros t; rewrite ?lookup_insert_is_Some'; naive_solver. }
  destruct (Hall mt eq_refl ltac:(by eexists)) as [Ha Hd]. split; [done|]. intros t.
  rewrite Hd, Hd0. done.
Qed.

Lemma init_xray_ok s x :
  init_xray s = ok x → x = (if enabled s then result_ok (xray_from_file (path s)) else None) ∧
  is_some x = enabled s.
Proof.
  unfold init_xray. destruct (enabled s); [|by intros [= <-]]. intros Hx. o_inv Hx.
  apply or_panic_ok in Hs. rewrite Hs. injection Hx as <-. done.
Qed.
Lemma init_wg_ok s x :
  init_wg s = ok x → is_some x = enabled s ∧
  ∀ d w, x = Some (d, w) → ∃ peers, read_interface_data d = Ok peers.
Proof.
  unfold init_wg. destruct (enabled s); [|by intros [= <-]]. intros Hx. o_inv Hx.
  injection Hx as <-. split; [done|]. intros d w [= <- <-]. apply or_panic_ok in Hs2.
  unfold WgApi_validate in Hs2. destruct (read_interface_data _); [by eexists|done].
Qed.
Lemma init_h2_ok s x : init_h2 s = ok x → is_some x = enabled s.
Proof.
  unfold init_h2. destruct (enabled s); [|by intros [= <-]]. intros Hx. o_inv Hx. by injection Hx as <-.
Qed.
Lemma init_mtproto_ok s x : init_mtproto s = ok x → is_some x = enabled s.
Proof.
  unfold init_mtproto. destruct (enabled s); [|by intros [= <-]].
  by destruct (from_file _ _); [intros [= <-]|].
Qed.

Lemma synced_tags_spec `{!IterOrder} (config : AgentConfig) t :
  t ∈ synced_tags config ↔ is_Some (Node.inbounds (agent_node config) !! t) ∧
    t ≠ ProtoTag.Hysteria2 ∧ t ≠ ProtoTag.Mtproto.
Proof.
  unfold synced_tags. rewrite !list_elem_of_filter, list_elem_of_fmap. split.
  - intros (Hm & Hh & (t' & i) & -> & Hi%elem_of_hiter). split_and!; [by eexists|done..].
  - intros ([i Hi] & Hh & Hm). split_and!; [done..|]. exists (t, i). split; [done|].
    by apply elem_of_hiter.
Qed.
End init.

(** C35: a node that starts is well formed.  Every inbound is filed under its own
    tag, and the tags are those of the Xray file and of the enabled parts; the
    agent drives Xray and WireGuard exactly when they are enabled, and then the
    interface can be read; and the connections it asks the server for are those
    of its tags but the two whose users are not its own. *)
Theorem node_init_wf {D} `{!KernelIface D, !Ipv6Text, !ConfigFiles, !Surroundings D, !IterOrder} (now : DateTime)
    (s : NodeSettings) (config : AgentConfig) (wg : option D)
    (Hinit : node_init now s = ok (config, wg)) :
  let inbounds := Node.inbounds (agent_node config) in
  tags_agree inbounds ∧
  (∀ t, is_Some (inbounds !! t) ↔
    serves_tag (if enabled (set_xray s) then result_ok (xray_from_file (path (set_xray s))) else None)
      (enabled (set_wg s)) (enabled (set_h2 s)) (enabled (set_mtproto s)) t) ∧
  has_xray config = enabled (set_xray s) ∧ has_stats config = enabled (set_xray s) ∧
  has_wg config = enabled (set_wg s) ∧ is_some wg = enabled (set_wg s) ∧
  (∀ d, wg = Some d → ∃ peers, read_interface_data d = Ok peers) ∧
  ∀ t, t ∈ synced_tags config ↔ is_Some (inbounds !! t) ∧ t ≠ ProtoTag.Hysteria2 ∧ t ≠ ProtoTag.Mtproto.
Proof.
  cbv zeta. unfold node_init in Hinit. o_inv Hinit.
  apply init_xray_ok in Hs as [Hx Hxe]. apply init_wg_ok in Hs0 as [Hwe Hw].
  apply init_h2_ok in Hs1. apply init_mtproto_ok in Hs2.
  destruct (Node.new _ _ _ _ _ _) as [n|] eqn:Hn; [|done]. injection Hinit as <- <-. cbn.
  apply new_tags in Hn as [Ha Hd].
  assert (is_some (snd <$> a0) = is_some a0) as Hsnd by (by destruct a0).
  split_and!; [done| |by rewrite Hxe|by rewrite Hxe|done|by destruct a0| |by intros; apply synced_tags_spec].
  - intros t. by rewrite Hd, Hsnd, Hwe, Hs1, Hs2, Hx.
  - intros d Hd'. destruct a0 as [[d0 w]|]; [|done]. injection Hd' as <-. by eapply Hw.
Qed.

(** ** A start *)

Definition line_feed : string := String (ascii_of_nat 10) EmptyString.
Definition wg_text : string :=
  "[Interface]" +:+ line_feed +:+ "PrivateKey = abc=" +:+ line_feed +:+
  "Address = 10.0.0.1/24" +:+ line_feed +:+ "ListenPort = 51820".
Definition mtproto_doc : Table := [("port", TInt 8443);
  ("secret", TArr [TTable [("key", TStr "s"); ("label", TStr "l")]])].
#[local] Instance example_files : ConfigFiles := {|
  config_text _ := Ok wg_text; toml_parse _ := Ok mtproto_doc; toml_message _ := "missing field";
  key_borrowed := true |}.
#[local] Instance example_surroundings : Surroundings (gmap (list Z) Peer) := {|
  json_settings _ :=
    Ok {| xray_inbounds := [no_settings ProtoTag.Vmess 443]; api_listen := "127.0.0.1:1" |};
  yaml_settings _ := Err "no document";
  xray_stats _ := Ok tt;
  xray_handler _ := Ok tt;
  wg_open _ := Ok ∅;
  num_cpus := Ok 2;
  host_var := Some "h";
|}.
Definition example_settings : NodeSettings := {|
  set_xray := {| enabled := true; path := "xray.json" |};
  set_wg := {| enabled := true; path := "/etc/wireguard/wg0.conf" |};
  set_h2 := {| enabled := false; path := "" |};
  set_mtproto := {| enabled := true; path := "mt.toml" |};
  set_node := {| raw_env := Env.Dev; raw_hostname := None; raw_default_interface := "eth0";
    raw_address := 1; raw_uuid := 9%N; raw_label := "l"; raw_max_bandwidth_bps := 1;
    raw_country := "DE"; raw_type := "common" |};
|}.

Lemma node_init_wf_witness : ∃ config wg,
  node_init 0 example_settings = ok (config, wg) ∧
  tags_agree (Node.inbounds (agent_node config)) ∧ has_wg config = true ∧
  is_Some (Node.inbounds (agent_node config) !! ProtoTag.Vmess) ∧
  (∃ d peers, wg = Some d ∧ read_interface_data d = Ok peers).
Proof.
  destruct (node_init 0 example_settings) as [[[config wg]|e]|] eqn:Hi;
    [|vm_compute in Hi; discriminate Hi..].
  exists config, wg. split; [reflexivity|].
  destruct (node_init_wf 0 example_settings config wg Hi) as (Ha & Hd & _ & _ & Hw & Hs & Hr & _).
  split; [exact Ha|]. split; [exact Hw|]. split.
  - apply Hd. left. eexists _, (no_settings ProtoTag.Vmess 443). split; [reflexivity|].
    split; [left|reflexivity].
  - destruct wg as [d|]; [|discriminate Hs]. destruct (Hr d eq_refl) as [peers Hp].
    exists d, peers. split; [reflexivity|exact Hp].
Defined.
