(* ===== verification/Settings.v ===== *)
(** * The configuration files

    The settings of the three services ([bin/api/config.rs],
    [bin/node/config.rs], [bin/auth/config.rs]): which fields a file must have,
    what the others default to, and what the services make of them when they
    start. *)
From S2P Require Import Prelude Task Foreign Naming Wireguard Connection ConnStore Subscription.
From S2P Require Import Key Inbound Node Link Metrics Db World Pool Trials Sync Consistency SyncSafe.
From S2P Require Import Reload SyncSpec Background Http ApiConn ApiSub ApiKey ApiTrial ApiNode.
From S2P Require Import Api Service Client Xray Agent Batch Auth Startup Config NodeInit.
Local Open Scope Z_scope.

(** ** The API server *)
Section defaults.
Context `{!Ipv6Text}.

(** [default_cors_origins] -- bin/api/config.rs:21-26 *)
Definition default_cors_origins : list string := ["http://localhost:3000"; "http://localhost:3001"].
(** [default_wg_network] -- bin/api/config.rs:28-30

    [None]: it panics. *)
Definition default_wg_network : option IpAddrMask := mask_from_str "10.0.0.0/8".
(** [default_listen_address] -- bin/api/config.rs:32-34 *)
Definition default_listen_address : option Ipv4Addr := ipv4_parse "127.0.0.1".
(** [default_log_level] -- bin/api/config.rs:36-38 *)
Definition default_log_level : string := "debug".
(** [default_company_website] -- bin/api/config.rs:86-88 *)
Definition default_company_website : string := "http://localhost:8080".
End defaults.

(** [ServiceConfig] -- bin/api/config.rs:40-61

    All of it; [Api.ServiceConfig] is what reaches the handlers. *)
Record ApiService : Set := {
  as_listen : Ipv4Addr;
  as_port : Z;
  as_token : string;
  as_key_sign_token : list Z;
  as_bonus_days : Z;
  as_system_refer_codes : list string;
  as_cors_origins : list string;
  as_wireguard_network : IpAddrMask;
  as_log_level : string;
  as_updates_endpoint_zmq : string;
  as_enabled_envs : list Env;
  as_enabled_tags : list ProtoTag;
  as_trial_limit_days : Z;
  as_trial_limit_bytes : Z;
  as_subscription_title : string;
}.
(** [TasksConfig] -- bin/api/config.rs:72-77 *)
Record TasksConfig : Set := {
  db_sync_interval_sec : Z;
  subscription_restore_interval : Z;
  subscription_expire_interval : Z;
}.
(** [MetricsRxConfig] -- bin/api/config.rs:79-84 *)
Record MetricsRxConfig : Set := {
  reciever : string;
  rx_max_points : Z;
  rx_retention_seconds : Z;
}.
(** [SmtpConfig] -- bin/api/config.rs:89-103 *)
Record SmtpConfig : Set := {
  smtp_server : string;
  smtp_username : string;
  smtp_password : string;
  smtp_port : Z;
  smtp_from : string;
  smtp_title : string;
  smtp_company_name : string;
  smtp_support : string;
  smtp_email_file : string;
  smtp_email_sign_token : list Z;
  smtp_company_website : string;
}.
(** [ServiceSettings] -- bin/api/config.rs:6-19 *)
Record ApiSettings : Set := {
  api_service : ApiService;
  api_pg : PostgresConfig;
  api_metrics : MetricsRxConfig;
  api_tasks : TasksConfig;
  api_smtp : SmtpConfig;
}.

Section api.
Context `{!ConfigFiles, !Ipv6Text, !UuidText}.

(** a default that is computed, and may panic, only when the field is missing:
    [None] stands for both failures *)
Definition field_else {A} (d : option A) (read : Toml → option A) (k : string) (t : Table) :
    option A :=
  match get k t with Some v => read v | None => d end.

(** [Deserialize] -- bin/api/config.rs:40-61 *)
Definition read_api_service (t : Table) : option ApiService :=
  listen ← field_else default_listen_address ipv4 "listen" t;
  port ← field u16 "port" t;
  token ← field text "token" t;
  key_sign_token ← field (seq u8) "key_sign_token" t;
  bonus_days ← field i64 "bonus_days" t;
  system_refer_codes ← field (seq text) "system_refer_codes" t;
  cors_origins ← field_or default_cors_origins (seq text) "cors_origins" t;
  wireguard_network ← field_else default_wg_network mask "wireguard_network" t;
  log_level ← field_or default_log_level text "log_level" t;
  updates_endpoint_zmq ← field text "updates_endpoint_zmq" t;
  enabled_envs ← field (seq env) "enabled_envs" t;
  enabled_tags ← field (seq tag) "enabled_tags" t;
  trial_limit_days ← field i64 "trial_limit_days" t;
  trial_limit_bytes ← field i64 "trial_limit_bytes" t;
  subscription_title ← field text "subscription_title" t;
  Some {| as_listen := listen; as_port := port; as_token := token;
    as_key_sign_token := key_sign_token; as_bonus_days := bonus_days;
    as_system_refer_codes := system_refer_codes; as_cors_origins := cors_origins;
    as_wireguard_network := wireguard_network; as_log_level := log_level;
    as_updates_endpoint_zmq := updates_endpoint_zmq; as_enabled_envs := enabled_envs;
    as_enabled_tags := enabled_tags; as_trial_limit_days := trial_limit_days;
    as_trial_limit_bytes := trial_limit_bytes; as_subscription_title := subscription_title |}.

(** [Deserialize] -- bin/api/config.rs:63-70 *)
Definition read_pg (t : Table) : option PostgresConfig :=
  host ← field text "host" t; port ← field u16 "port" t; db ← field text "db" t;
  username ← field text "username" t; password ← field text "password" t;
  Some {| pg_host := host; pg_port := port; pg_name := db; pg_username := username;
    pg_password := password |}.

(** [Deserialize] -- bin/api/config.rs:72-77 *)
Definition read_tasks (t : Table) : option TasksConfig :=
  sync ← field u64 "db_sync_interval_sec" t;
  restore ← field u64 "subscription_restore_interval" t;
  expire ← field u64 "subscription_expire_interval" t;
  Some {| db_sync_interval_sec := sync; subscription_restore_interval := restore;
    subscription_expire_interval := expire |}.

(** [Deserialize] -- bin/api/config.rs:79-84 *)
Definition read_metrics_rx (t : Table) : option MetricsRxConfig :=
  receiver ← field text "reciever" t; max ← field u64 "max_points" t;
  retention ← field i64 "retention_seconds" t;
  Some {| reciever := receiver; rx_max_points := max; rx_retention_seconds := retention |}.

(** [Deserialize] -- bin/api/config.rs:89-103 *)
Definition read_smtp (t : Table) : option SmtpConfig :=
  server ← field text "server" t; username ← field text "username" t;
  password ← field text "password" t; port ← field u16 "port" t; from ← field text "from" t;
  title ← field text "title" t; company_name ← field text "company_name" t;
  support ← field text "support" t; email_file ← field text "email_file" t;
  email_sign_token ← field (seq u8) "email_sign_token" t;
  company_website ← field_or default_company_website text "company_website" t;
  Some {| smtp_server := server; smtp_username := username; smtp_password := password;
    smtp_port := port; smtp_from := from; smtp_title := title;
    smtp_company_name := company_name; smtp_support := support; smtp_email_file := email_file;
    smtp_email_sign_token := email_sign_token; smtp_company_website := company_website |}.

(** [Deserialize] -- bin/api/config.rs:6-13 *)
Definition read_api (t : Table) : option ApiSettings :=
  service ← field (struct read_api_service) "service" t;
  pg ← field (struct read_pg) "pg" t;
  metrics ← field (struct read_metrics_rx) "metrics" t;
  tasks ← field (struct read_tasks) "tasks" t;
  smtp ← field (struct read_smtp) "smtp" t;
  Some {| api_service := service; api_pg := pg; api_metrics := metrics; api_tasks := tasks;
    api_smtp := smtp |}.

(** [ServiceSettings::validate] -- bin/api/config.rs:15-19 *)
Definition validate_api (_ : ApiSettings) : result unit Error := Ok tt.

(** What the settings are to the handlers. *)
Definition handler_config (s : ApiSettings) : ServiceConfig := {|
  token := as_token (api_service s);
  key_sign_token := as_key_sign_token (api_service s);
  bonus_days := as_bonus_days (api_service s);
  system_refer_codes := as_system_refer_codes (api_service s);
  wireguard_network := as_wireguard_network (api_service s);
  enabled_envs := as_enabled_envs (api_service s);
  enabled_tags := as_enabled_tags (api_service s);
  trial_limit_days := as_trial_limit_days (api_service s);
  trial_limit_bytes := as_trial_limit_bytes (api_service s);
  subscription_title := as_subscription_title (api_service s);
  email_sign_token := smtp_email_sign_token (api_smtp s) |}.
End api.

(** ** The node and the authentication service *)

(** [ApiAccessConfig] -- config/settings.rs:10-14 *)
Record ApiAccessConfig : Set := { access_endpoint : string; access_token : string }.
(** [MetricsTxConfig] -- config/settings.rs:16-20 *)
Record MetricsTxConfig : Set := { tx_publisher : string; tx_interval : Z }.
(** [ServiceConfig] -- bin/node/config.rs:40-47 *)
Record NodeService : Set := {
  ns_log_level : string;
  ns_snapshot_interval : Z;
  ns_snapshot_path : string;
  ns_updates_endpoint_zmq : string;
}.
(** [ServiceSettings] -- bin/node/config.rs:13-32 *)
Record NodeFile : Set := {
  nf_service : NodeService;
  nf_parts : NodeSettings;
  nf_api : ApiAccessConfig;
  nf_metrics : MetricsTxConfig;
}.
(** [ServiceConfig] -- bin/auth/config.rs:32-44 *)
Record AuthService : Set := {
  au_log_level : string;
  au_listen : Ipv4Addr;
  au_port : Z;
  au_snapshot_interval : Z;
  au_snapshot_path : string;
  au_origin : string;
  au_updates_endpoint_zmq : string;
}.
(** [ServiceSettings] -- bin/auth/config.rs:6-12 *)
Record AuthFile : Set := {
  af_service : AuthService;
  af_node : NodeConfigRaw;
  af_api : ApiAccessConfig;
  af_metrics : MetricsTxConfig;
}.

Section services.
Context `{!ConfigFiles, !Ipv6Text, !UuidText}.

(** [default_disabled] -- bin/node/config.rs:5-7 *)
Definition default_disabled : bool := false.
(** [default_log_level] -- bin/node/config.rs:9-11 *)
Definition node_log_level : string := "debug".
(** [default_listen_port] -- bin/auth/config.rs:24-26 *)
Definition default_listen_port : Z := 3000.
(** [default_listen_address] -- bin/auth/config.rs:20-22 *)
Definition auth_listen_address : option Ipv4Addr := ipv4_parse "127.0.0.1".
(** [default_cors_origin] -- bin/auth/config.rs:28-30 *)
Definition default_cors_origin : string := "http://localhost:8080".

(** [Default] -- bin/node/config.rs:40-77

    A table that is not there at all: not the fields' own defaults, but the
    types'. *)
Definition no_service : NodeService := {|
  ns_log_level := ""; ns_snapshot_interval := 0; ns_snapshot_path := "";
  ns_updates_endpoint_zmq := "" |}.
Definition no_part : PartConfig := {| enabled := false; path := "" |}.
(** [Default] -- config/settings.rs:10-20 *)
Definition no_access : ApiAccessConfig := {| access_endpoint := ""; access_token := "" |}.
Definition no_metrics_tx : MetricsTxConfig := {| tx_publisher := ""; tx_interval := 0 |}.

(** [Deserialize] -- bin/node/config.rs:40-47 *)
Definition read_node_service (t : Table) : option NodeService :=
  log_level ← field_or node_log_level text "log_level" t;
  snapshot_interval ← field u64 "snapshot_interval" t;
  snapshot_path ← field text "snapshot_path" t;
  updates ← field text "updates_endpoint_zmq" t;
  Some {| ns_log_level := log_level; ns_snapshot_interval := snapshot_interval;
    ns_snapshot_path := snapshot_path; ns_updates_endpoint_zmq := updates |}.
(** [Deserialize] -- bin/node/config.rs:49-77

    Of [XrayConfig], [H2Config], [WgConfig] and [MtprotoConfig]. *)
Definition read_part (t : Table) : option PartConfig :=
  enabled ← field_or default_disabled boolean "enabled" t;
  path ← field text "path" t;
  Some {| enabled := enabled; path := path |}.
(** [Deserialize] -- config/settings.rs:36-47 *)
Definition read_node_raw (t : Table) : option NodeConfigRaw :=
  env ← field env "env" t; hostname ← field_opt text "hostname" t;
  interface ← field text "default_interface" t; address ← field ipv4 "address" t;
  uuid ← field uuid "uuid" t; label ← field text "label" t;
  bandwidth ← field i64 "max_bandwidth_bps" t; country ← field text "country" t;
  ty ← field text "type" t;
  Some {| raw_env := env; raw_hostname := hostname; raw_default_interface := interface;
    raw_address := address; raw_uuid := uuid; raw_label := label;
    raw_max_bandwidth_bps := bandwidth; raw_country := country; raw_type := ty |}.
(** [Deserialize] -- config/settings.rs:10-20 *)
Definition read_access (t : Table) : option ApiAccessConfig :=
  endpoint ← field text "endpoint" t; token ← field text "token" t;
  Some {| access_endpoint := endpoint; access_token := token |}.
Definition read_metrics_tx (t : Table) : option MetricsTxConfig :=
  publisher ← field text "publisher" t; interval ← field u64 "interval" t;
  Some {| tx_publisher := publisher; tx_interval := interval |}.

(** [Deserialize] -- bin/node/config.rs:13-32 *)
Definition read_node (t : Table) : option NodeFile :=
  service ← field_or no_service (struct read_node_service) "service" t;
  xray ← field_or no_part (struct read_part) "xray" t;
  wg ← field_or no_part (struct read_part) "wg" t;
  h2 ← field_or no_part (struct read_part) "h2" t;
  mtproto ← field_or no_part (struct read_part) "mtproto" t;
  node ← field (struct read_node_raw) "node" t;
  api ← field_or no_access (struct read_access) "api" t;
  metrics ← field_or no_metrics_tx (struct read_metrics_tx) "metrics" t;
  Some {| nf_service := service; nf_api := api; nf_metrics := metrics;
    nf_parts := {| set_xray := xray; set_wg := wg; set_h2 := h2; set_mtproto := mtproto;
      set_node := node |} |}.

(** [Deserialize] -- bin/auth/config.rs:32-44 *)
Definition read_auth_service (t : Table) : option AuthService :=
  log_level ← field text "log_level" t;
  listen ← field_else auth_listen_address ipv4 "listen" t;
  port ← field_or default_listen_port u16 "port" t;
  snapshot_interval ← field u64 "snapshot_interval" t;
  snapshot_path ← field text "snapshot_path" t;
  origin ← field_or default_cors_origin text "origin" t;
  updates ← field text "updates_endpoint_zmq" t;
  Some {| au_log_level := log_level; au_listen := listen; au_port := port;
    au_snapshot_interval := snapshot_interval; au_snapshot_path := snapshot_path;
    au_origin := origin; au_updates_endpoint_zmq := updates |}.
(** [Deserialize] -- bin/auth/config.rs:6-12 *)
Definition read_auth (t : Table) : option AuthFile :=
  service ← field (struct read_auth_service) "service" t;
  node ← field (struct read_node_raw) "node" t;
  api ← field (struct read_access) "api" t;
  metrics ← field (struct read_metrics_tx) "metrics" t;
  Some {| af_service := service; af_node := node; af_api := api; af_metrics := metrics |}.

(** [main] -- bin/node/main.rs:32-36

    And the same of [bin/auth/main.rs]: the threads of the runtime. *)
Definition worker_threads (num_cpus : Z) : Z :=
  if decide (num_cpus <= 1) then 1 else num_cpus * 2.
End services.

(** ** What is spawned *)

(** [tokio::time::interval], which panics on a zero period, before a task's
    loop. *)
Definition ticking {W} (period : Z) (task : Prog W unit) : Prog W unit :=
  if decide (period = 0) then Panic else task.

Section spawned.
Context `{!Oracle, !Postgres, !Ipv6Text, !UuidText, !IterOrder, !Chrono}.

(** [main] -- bin/api/main.rs:80-144

    The tasks on the shared state, each with the start of its function in
    [bin/api/tasks.rs]. *)
Definition api_spawned (s : ApiSettings) (n : nat) : list (IO unit) := [
  periodic_db_sync n;
  ticking 60 (cleanup_expired_connections n);
  ticking (subscription_expire_interval (api_tasks s)) (cleanup_expired_subscriptions n);
  ticking (subscription_restore_interval (api_tasks s)) (restore_subscriptions n)].
End spawned.

(** ** What a file that loads guarantees *)

Section loaded.
Context `{!ConfigFiles, !Ipv6Text, !UuidText}.

Lemma field_some {A} (read : Toml → option A) k t a :
  field read k t = Some a → ∃ v, get k t = Some v ∧ read v = Some a.
Proof. unfold field. destruct (get k t); [by eauto|done]. Qed.
Lemma field_else_some {A} d (read : Toml → option A) k t a :
  field_else d read k t = Some a →
  (get k t = None ∧ d = Some a) ∨ ∃ v, get k t = Some v ∧ read v = Some a.
Proof. unfold field_else. destruct (get k t); eauto. Qed.
Lemma int_some lo hi v z : int lo hi v = Some z → lo <= z <= hi.
Proof. destruct v; try done. cbn. case_decide; [|done]. by intros [= <-]. Qed.
Lemma field_int lo hi k t z : field (int lo hi) k t = Some z → lo <= z <= hi.
Proof. intros (v & _ & Hv)%field_some. by eapply int_some. Qed.
Lemma field_bytes k t l : field (seq u8) k t = Some l → bytes_ok l.
Proof.
  intros (v & _ & Hv)%field_some. destruct v as [| | |vs| |]; try done. cbn in Hv.
  apply mapM_Some in Hv. clear -Hv.
  induction Hv as [|v b vs l Hb _ IH]; constructor; [|done]. apply int_some in Hb. unfold byte_ok. lia.
Qed.

(** The network is written as text, or left out. *)
Definition network_as_text (t : Table) : Prop :=
  ∀ service m, get "service" t = Some (TTable service) →
    get "wireguard_network" service ≠ Some (TTable m).

Lemma visit_entries_ok (map : list (string * Value)) a c a' c' :
  (∀ x, a = Some x → addr_ok x) → (∀ x, c = Some x → 0 <= x <= 255) →
  visit_entries map a c = Some (a', c') →
  (∀ x, a' = Some x → addr_ok x) ∧ (∀ x, c' = Some x → 0 <= x <= 255).
Proof.
  revert a c. induction map as [|[k v] map IH]; intros a c Ha Hc; cbn; [by intros [= <- <-]|].
  repeat case_decide; [| |by apply IH].
  - destruct v as [s| |]; try done. destruct (ip_parse s) as [ip|] eqn:Hip; [|done].
    apply IH; [|done]. intros x [= <-]. by eapply ip_parse_ok.
  - destruct v as [|n|]; try done. case_decide; [|done]. apply IH; [done|]. by intros x [= <-].
Qed.

Lemma mask_ok_cidr m : mask_ok m → 0 <= cidr m <= 255.
Proof. intros [_ Hc]. revert Hc. destruct (address m); lia. Qed.
Lemma mask_some v m :
  mask v = Some m →
  addr_ok (address m) ∧ 0 <= cidr m <= 255 ∧ ((∀ t, v ≠ TTable t) → mask_ok m).
Proof.
  intros Hm. destruct v as [str| | | |t|]; try done; cbn in Hm.
  - apply mask_from_str_ok in Hm. pose proof (mask_ok_cidr m Hm). by destruct Hm.
  - destruct key_borrowed; [|done]. unfold visit_map in Hm.
    destruct (visit_entries _ None None) as [[[a|] [c|]]|] eqn:Hv; try done. injection Hm as <-.
    destruct (visit_entries_ok _ None None _ _ ltac:(done) ltac:(done) Hv) as [Ha Hc]. cbn.
    split_and!; [by apply Ha|by apply Hc..|]. intros Hno. by destruct (Hno t).
Qed.

(** Takes a reader apart. *)
Ltac reads H :=
  match type of H with
  | _ ≫= _ = Some _ => let H1 := fresh "Hr" in apply bind_Some in H as (? & H1 & H); reads H
  | Some _ = Some _ => injection H as <-
  end.

#[local] Hint Resolve field_int field_bytes : core.
Lemma field_struct {A} (read : Table → option A) k t a :
  field (struct read) k t = Some a → ∃ t', get k t = Some (TTable t') ∧ read t' = Some a.
Proof. intros ([| | | |t'|] & Hg & Hr)%field_some; try done. by eauto. Qed.

Ltac int_fields :=
  repeat match goal with
    | H : field _ _ _ = Some _ |- _ => apply field_int in H as [? ?]
    end.

Lemma read_api_service_ok t a :
  read_api_service t = Some a →
  0 <= as_port a <= 65535 ∧ bytes_ok (as_key_sign_token a) ∧ i64_ok (as_bonus_days a) ∧
  i64_ok (as_trial_limit_days a) ∧ i64_ok (as_trial_limit_bytes a) ∧
  addr_ok (address (as_wireguard_network a)) ∧ 0 <= cidr (as_wireguard_network a) <= 255 ∧
  ((∀ m, get "wireguard_network" t ≠ Some (TTable m)) → mask_ok (as_wireguard_network a)).
Proof.
  unfold read_api_service. intros Hr. reads Hr. cbn.
  match goal with H : field u16 _ _ = Some _ |- _ => apply field_int in H as [??] end.
  split_and!; try done; try by unfold i64_ok; eauto.
  all: match goal with H : field_else _ mask _ _ = Some _ |- _ =>
         apply field_else_some in H as [[Hn Hd]|(v & Hg & Hm)] end.
  all: first [apply mask_from_str_ok in Hd; pose proof (mask_ok_cidr _ Hd)
             |apply mask_some in Hm as (Ha & Hc & Ho)].
  all: try done; try lia; try (by destruct Hd); try (intros _; exact Hd).
  - intros Ht. apply Ho. intros m ->. by destruct (Ht m).
Qed.
Lemma read_pg_ok t a : read_pg t = Some a → 0 <= pg_port a <= 65535.
Proof. unfold read_pg. intros Hr. reads Hr. cbn. eauto. Qed.
Lemma read_metrics_rx_ok t a :
  read_metrics_rx t = Some a → 0 <= rx_max_points a <= U64_MAX ∧ i64_ok (rx_retention_seconds a).
Proof. unfold read_metrics_rx. intros Hr. reads Hr. cbn. split; unfold i64_ok; eauto. Qed.
Lemma read_tasks_ok t a :
  read_tasks t = Some a →
  0 <= db_sync_interval_sec a <= U64_MAX ∧ 0 <= subscription_expire_interval a <= U64_MAX ∧
  0 <= subscription_restore_interval a <= U64_MAX.
Proof. unfold read_tasks. intros Hr. reads Hr. cbn. int_fields. by split_and!. Qed.
Lemma read_smtp_ok t a :
  read_smtp t = Some a → 0 <= smtp_port a <= 65535 ∧ bytes_ok (smtp_email_sign_token a).
Proof. unfold read_smtp. intros Hr. reads Hr. cbn. split; eauto. Qed.

Lemma from_file_some {A} (read : Table → option A) file a :
  from_file read file = Some a →
  ∃ text t, config_text file = Ok text ∧ toml_parse text = Ok t ∧ read t = Some a.
Proof.
  unfold from_file, read_config. destruct (config_text file) as [text|]; [|done].
  destruct (toml_parse text) as [t|] eqn:Ht; [|done]. destruct (read t) eqn:Hr; [|done].
  intros [= ->]. eauto.
Qed.
Lemma read_api_ok t s :
  read_api t = Some s →
  ∃ service pg rx tasks smtp, get "service" t = Some (TTable service) ∧
    read_api_service service = Some (api_service s) ∧ read_pg pg = Some (api_pg s) ∧
    read_metrics_rx rx = Some (api_metrics s) ∧ read_tasks tasks = Some (api_tasks s) ∧
    read_smtp smtp = Some (api_smtp s).
Proof.
  unfold read_api. intros Hs. reads Hs.
  repeat match goal with H : field (struct _) _ _ = Some _ |- _ => apply field_struct in H as (? & ? & ?) end.
  do 5 eexists. split_and!; eassumption.
Qed.
Lemma loaded_network file s :
  from_file read_api file = Some s →
  (∀ text t, config_text file = Ok text → toml_parse text = Ok t → network_as_text t) →
  mask_ok (as_wireguard_network (api_service s)).
Proof.
  intros (txt & t & Hf & Hp & Hr)%from_file_some Ht.
  apply read_api_ok in Hr as (service & _ & _ & _ & _ & Hg & Hs & _).
  apply read_api_service_ok in Hs. destruct_and?.
  match goal with H : _ → mask_ok _ |- _ => apply H end. intros m. by eapply Ht.
Qed.

(** C15: Whatever the file, the settings the API server starts with are of their
    types: the ports are ports, the signing keys bytes, the amounts [i64], the
    intervals and the number of points [u64]; and unless the file writes the
    WireGuard network as a table, its mask is one, as the invariants of the
    server need: in a table the length is any byte. *)
Theorem api_settings_typed (file : string) (s : ApiSettings) :
  from_file read_api file = Some s →
  0 <= as_port (api_service s) <= 65535 ∧ 0 <= pg_port (api_pg s) <= 65535 ∧
  0 <= smtp_port (api_smtp s) <= 65535 ∧
  bytes_ok (as_key_sign_token (api_service s)) ∧ bytes_ok (smtp_email_sign_token (api_smtp s)) ∧
  i64_ok (as_bonus_days (api_service s)) ∧ i64_ok (as_trial_limit_days (api_service s)) ∧
  i64_ok (as_trial_limit_bytes (api_service s)) ∧
  i64_ok (rx_retention_seconds (api_metrics s)) ∧
  0 <= rx_max_points (api_metrics s) <= U64_MAX ∧
  0 <= db_sync_interval_sec (api_tasks s) <= U64_MAX ∧
  0 <= subscription_expire_interval (api_tasks s) <= U64_MAX ∧
  0 <= subscription_restore_interval (api_tasks s) <= U64_MAX ∧
  let network := as_wireguard_network (api_service s) in
  addr_ok (address network) ∧ 0 <= cidr network <= 255 ∧
  ∀ text t, config_text file = Ok text → toml_parse text = Ok t → network_as_text t →
    mask_ok network.
Proof.
  intros Hs. pose proof (loaded_network file s Hs) as Hn.
  apply from_file_some in Hs as (txt & t & Hf & Hp & Hr).
  apply read_api_ok in Hr as (? & ? & ? & ? & ? & _ & Hr1 & Hr2 & Hr3 & Hr4 & Hr5).
  apply read_api_service_ok in Hr1. apply read_pg_ok in Hr2. apply read_metrics_rx_ok in Hr3.
  apply read_tasks_ok in Hr4. apply read_smtp_ok in Hr5. cbv zeta. destruct_and?.
  split_and!; try done. intros text t' Hf' Hp' Ht. apply Hn. intros text2 t2 Hf2 Hp2.
  assert (text2 = text) as -> by congruence. by assert (t2 = t') as -> by congruence.
Qed.
End loaded.

Section configured.
Context `{!ConfigFiles, !Oracle, !Postgres, !Ipv6Text, !UuidText, !IterOrder, !Chrono, !WgCrypto,
  !UrlLib, !Base32, !Hmac, !SeriesHash, !Rfc3339}.
Context {V : Type} (metrics : MetricStorage (V := V)).

(** The settings are validated without a look at them, and an interval of
    zero in the file is accepted and then fatal: of the tasks that the server
    spawns, one panics at its first poll, before it has done anything, exactly
    when one of the two intervals of subscriptions is zero. *)
Theorem zero_interval_aborts (file : string) (s : ApiSettings) (n : nat) :
  from_file read_api file = Some s →
  validate_api s = Ok tt ∧
  (Panic ∈ api_spawned s n ↔
   subscription_expire_interval (api_tasks s) = 0 ∨ subscription_restore_interval (api_tasks s) = 0).
Proof.
  intros _. split; [done|]. unfold api_spawned, ticking.
  rewrite !elem_of_cons. rewrite (decide_False (P := 60 = 0)) by done.
  assert (Panic ≠ periodic_db_sync n ∧ Panic ≠ cleanup_expired_connections n ∧
    Panic ≠ cleanup_expired_subscriptions n ∧ Panic ≠ restore_subscriptions n) as (? & ? & ? & ?).
  { by destruct n. }
  repeat case_decide; split; try (by intros [?|[?|[?|[?|?%not_elem_of_nil]]]]); intros; tauto.
Qed.
End configured.

(** ** A file *)

(** A file of the server with every field that has no default, and an interval
    of zero. *)
Definition example_doc (network : list (string * Toml)) : Table := [
  ("service", TTable (network ++ [("port", TInt 3005); ("token", TStr "t");
    ("key_sign_token", TArr [TInt 1; TInt 2]); ("bonus_days", TInt 7);
    ("system_refer_codes", TArr [TStr "WEB"]); ("updates_endpoint_zmq", TStr "tcp://*:3000");
    ("enabled_envs", TArr [TStr "dev"; TStr "seoul"]); ("enabled_tags", TArr [TStr "Wireguard"]);
    ("trial_limit_days", TInt 1); ("trial_limit_bytes", TInt 0);
    ("subscription_title", TStr "title")]));
  ("pg", TTable [("host", TStr "localhost"); ("port", TInt 5432); ("db", TStr "pony");
    ("username", TStr "pony"); ("password", TStr "secret")]);
  ("metrics", TTable [("reciever", TStr "tcp://*:3001"); ("max_points", TInt 10);
    ("retention_seconds", TInt 60)]);
  ("tasks", TTable [("db_sync_interval_sec", TInt 300); ("subscription_restore_interval", TInt 60);
    ("subscription_expire_interval", TInt 0)]);
  ("smtp", TTable [("server", TStr "localhost"); ("username", TStr "u"); ("password", TStr "p");
    ("port", TInt 587); ("from", TStr "f"); ("title", TStr "t"); ("company_name", TStr "c");
    ("support", TStr "s"); ("email_file", TStr "trials.csv");
    ("email_sign_token", TArr [TInt 3])])].
(** Two files: one without the network and one with it as a table. *)
#[local] Instance example_files : ConfigFiles := {|
  config_text file := if decide (file = "api.toml") then Ok "plain" else Ok "table";
  toml_parse s := Ok (if decide (s = "plain") then example_doc [] else
    example_doc [("wireguard_network",
      TTable [("address", TStr "10.0.0.0"); ("cidr", TInt 255)])]);
  toml_message _ := "missing field";
  key_borrowed := true |}.

Definition loaded_example : ApiSettings :=
  match from_file read_api "api.toml" with
  | Some s => s
  | None => {| api_service := {| as_listen := 0; as_port := 0; as_token := "";
      as_key_sign_token := []; as_bonus_days := 0; as_system_refer_codes := [];
      as_cors_origins := []; as_wireguard_network := {| address := V4 0; cidr := 0 |};
      as_log_level := ""; as_updates_endpoint_zmq := ""; as_enabled_envs := [];
      as_enabled_tags := []; as_trial_limit_days := 0; as_trial_limit_bytes := 0;
      as_subscription_title := "" |};
      api_pg := pg_config_example; api_metrics := {| reciever := ""; rx_max_points := 0;
        rx_retention_seconds := 0 |};
      api_tasks := {| db_sync_interval_sec := 0; subscription_restore_interval := 0;
        subscription_expire_interval := 0 |};
      api_smtp := {| smtp_server := ""; smtp_username := ""; smtp_password := ""; smtp_port := 0;
        smtp_from := ""; smtp_title := ""; smtp_company_name := ""; smtp_support := "";
        smtp_email_file := ""; smtp_email_sign_token := []; smtp_company_website := "" |} |}
  end.
Lemma loaded_example_eq : from_file read_api "api.toml" = Some loaded_example.
Proof. vm_compute. reflexivity. Qed.

(** Left out, the network is the default. *)
Example defaults_loaded :
  as_wireguard_network (api_service loaded_example) = {| address := V4 167772160; cidr := 8 |} ∧
  as_cors_origins (api_service loaded_example) = default_cors_origins ∧
  as_log_level (api_service loaded_example) = "debug" ∧
  as_enabled_envs (api_service loaded_example) = [Env.Dev; Env.Custom "seoul"].
Proof. vm_compute. split_and!; reflexivity. Qed.

Lemma plain_network text t :
  config_text "api.toml" = Ok text → toml_parse text = Ok t → network_as_text t.
Proof.
  intros [= <-] [= <-] service m [= <-]. by vm_compute.
Qed.

Lemma api_settings_typed_witness :
  from_file read_api "api.toml" = Some loaded_example ∧
  mask_ok (as_wireguard_network (api_service loaded_example)).
Proof.
  pose proof (api_settings_typed "api.toml" loaded_example loaded_example_eq) as H.
  split; [exact loaded_example_eq|].
  destruct H as (_ & _ & _ & _ & _ & _ & _ & _ & _ & _ & _ & _ & _ & _ & _ & H).
  exact (H _ _ eq_refl eq_refl (plain_network _ _ eq_refl eq_refl)).
Defined.

(** In a table, the length of the network is not looked at. *)
Example table_network :
  (λ s, cidr (as_wireguard_network (api_service s))) <$> from_file read_api "table.toml" = Some 255.
Proof. vm_compute. reflexivity. Qed.

Lemma zero_interval_aborts_witness :
  from_file read_api "api.toml" = Some loaded_example ∧ Panic ∈ api_spawned loaded_example 1.
Proof.
  split; [exact loaded_example_eq|].
  apply (zero_interval_aborts "api.toml" loaded_example 1 loaded_example_eq).
  left. vm_compute. reflexivity.
Defined.
