(* ===== verification/Tables.v ===== *)
(** * What enters a service's table

    What the authentication service and the node's agent keep of connections:
    their table and the snapshot behind it.  A property of the messages that a
    service is sent is a property of its table and of its snapshots, whatever
    else the service does and however its tasks interleave: that is what is
    proved here of each of its operations. *)
From S2P Require Import Prelude Task Foreign Naming Wireguard Connection ConnStore Node World.
From S2P Require Import Inbound Link Metrics Db Sync Consistency SyncSafe Reload SyncSpec Background.
From S2P Require Import Http ApiConn Service Client Auth Xray Agent Collect Startup.
Local Open Scope Z_scope.
Local Open Scope prog_scope.

(** Any move at all. *)
Definition anyhow {W : Type} (_ _ : W) : Prop := True.
#[export] Instance anyhow_preorder {W : Type} : PreOrder (@anyhow W).
Proof. by split. Qed.

Section tables.
Context `{!Oracle} {D : Type} (P : Uuid → Base → Prop).
Notation W := (Svc D).
Implicit Type w : W.

(** Every connection of the table, and of the snapshot, has the property. *)
Record tabled w : Prop := {
  tabled_mem : map_Forall P (svc_mem w);
  tabled_file : ∀ s, svc_file w = Some s → map_Forall P (snap_memory s);
}.

(** What of a service's state this is about. *)
Definition kept_of w : Connections Base * option SnapshotData := (svc_mem w, svc_file w).

Notation tables p w := (okp tabled anyhow p w).
Notation tables_with p Q w := (rg tabled anyhow p Q w).

Lemma tabled_same w w' : kept_of w' = kept_of w → tabled w → tabled w'.
Proof. intros [= Hm Hf] [Ht Hs]. split; by rewrite ?Hm, ?Hf. Qed.

(** A task that looks at nothing but its devices. *)
Lemma tables_spares {A} (p : Prog W A) w : spares kept_of p → tables p w.
Proof.
  revert w; induction p as [a| |X f k IH]; intros w; [by intros _ ? _ _|done|].
  intros [Hf Hk]. apply okp_act; [|auto]. intros w' Ht. split; [|done].
  exact (tabled_same _ _ (Hf w') Ht).
Qed.

Lemma tables_bind {A B} (p : Prog W A) (h : A → Prog W B) w :
  tables p w → (∀ a w', tables (h a) w') → tables (bind p h) w.
Proof. apply (okp_bind tabled anyhow). Qed.

Lemma tables_atomic {A} (p : Prog W A) w : (∀ w', tables p w') → tables (atomic p) w.
Proof.
  intros Hp. apply okp_atomic. intros w' Ht. split; [|done].
  exact (proj1 (rg_run tabled anyhow p (λ _ _, True) w' (Hp w') Ht)).
Qed.

(** The table changed under its lock. *)
Lemma tables_update {A} (f : Connections Base → Connections Base * A) w :
  (∀ m, map_Forall P m → map_Forall P (f m).1) → tables (svc_update f) w.
Proof.
  intros Hf. apply okp_act; [|by intros; apply okp_ret]. intros w' [Ht Hs]. split; [|done].
  specialize (Hf _ Ht). destruct (f (svc_mem w')) as [m a]. by split.
Qed.
Lemma tables_add id b w : P id b → tables (svc_update (λ m, add m id b)) w.
Proof.
  intros Hb. apply tables_update. intros m Hm. unfold add. destruct (m !! id); cbn; [done|].
  by apply map_Forall_insert_2.
Qed.
Lemma tables_remove id w : tables (svc_update (λ m, remove m id)) w.
Proof. apply tables_update. intros m Hm. cbn. by apply map_Forall_delete. Qed.

Lemma tables_try_each {A} (l : list A) (body : A → Prog W (result unit Error)) w :
  (∀ x w', x ∈ l → tables (body x) w') → tables (try_each l body) w.
Proof.
  revert w; induction l as [|x l IH]; intros w Hb; cbn [try_each]; [by apply okp_ret|].
  apply tables_bind; [apply Hb; left|]. intros [[]|e] w'; [|by apply okp_ret].
  apply IH. intros y w'' Hy. apply Hb. by right.
Qed.

Lemma tables_receive `{!UuidText} accepts handle topic_str payload w :
  (∀ msgs w', payload = Some msgs → tables (handle msgs) w') →
  tables (receive accepts handle (topic_str, payload)) w.
Proof.
  intros Hh. unfold receive. destruct (Topic.from_str topic_str); [|by apply okp_ret].
  destruct (accepts _); [|by apply okp_ret]. destruct payload as [msgs|]; [|by apply okp_ret].
  apply tables_bind; [by apply Hh|]. intros. by apply okp_ret.
Qed.

(** *** Snapshots *)
Lemma spares_ask {A} (f : nat → A) : spares kept_of (svc_ask f).
Proof. done. Qed.
Lemma spares_svc_read {A} (f : Connections Base → A) : spares kept_of (svc_read f).
Proof. done. Qed.
Lemma spares_file_step : spares kept_of (file_step id).
Proof. split; [|done]. intros w. by destruct (file_fault _). Qed.

(** A file that holds such connections replaces the one there was, or not. *)
Lemma tables_store s w : map_Forall P (snap_memory s) → tables (file_step (set_svc_file (Some s))) w.
Proof.
  intros Hs. apply okp_act; [|by intros; apply okp_ret]. intros w' [Ht Hf]. split; [|done].
  destruct (file_fault _); split; try done. by intros ? [= <-].
Qed.

Lemma tables_create_snapshot w : tables create_snapshot w.
Proof.
  unfold create_snapshot.
  eapply (rg_bind tabled anyhow _ _ (λ s _, map_Forall P (snap_memory s))).
  - intros w1 _ Ht. split; [by apply (tabled_same w1)|]. split; [done|]. intros w2 _ _. exact (tabled_mem _ Ht).
  - intros s w1 _ _ Hs. apply (rg_delay tabled anyhow). intros w1' Hg Ht. specialize (Hs w1' Hg Ht).
    apply tables_bind; [by apply tables_spares|]. intros [e|] w2; [by apply okp_ret|].
    apply tables_bind; [apply tables_spares, spares_file_step|].
    intros [[]|e] w3; [by apply tables_store|by apply okp_ret].
Qed.

Lemma tables_load_snapshot w : tables load_snapshot w.
Proof.
  unfold load_snapshot.
  eapply (rg_bind tabled anyhow _ _
    (λ file _, ∀ s, file = Some s → map_Forall P (snap_memory s))).
  - intros w1 _ Ht. split; [exact Ht|]. split; [done|]. intros w2 _ _. exact (tabled_file _ Ht).
  - intros [s|] w1 _ _ Hs; [|by apply okp_ret]. apply (rg_delay tabled anyhow).
    intros w1' Hg Ht. specialize (Hs w1' Hg Ht s eq_refl).
    apply tables_bind; [apply tables_spares, spares_file_step|].
    intros [[]|e] w2; [|by apply okp_ret].
    apply tables_bind; [by apply tables_update|]. intros. by apply okp_ret.
Qed.
End tables.

#[export] Hint Resolve spares_ask spares_svc_read spares_file_step : spares.
Notation tables P p w := (okp (tabled P) anyhow p w).
(** ** The authentication service *)
Section auth.
Context `{!Oracle, !UuidText, !IterOrder, !Chrono, !F64} (P : Uuid → Base → Prop).
Notation tables p w := (okp (tabled P) anyhow p w).

(** What a message would put in the table has the property. *)
Definition granted (m : Message) : Prop :=
  ∀ t tok b, Message.token m = Some tok → message_conn t (Proto.new_hysteria2 tok) m = Some b →
  P (Message.conn_id m) b.

Lemma tables_auth_message m (w : AuthWorld) : granted m → tables (auth_message m) w.
Proof.
  intros Hg. unfold auth_message. cbv zeta. destruct (Message.action m).
  3:{ apply tables_bind; [apply tables_remove|]. intros. by apply okp_ret. }
  3:{ by apply okp_ret. }
  all: destruct (Message.token m) as [tok|] eqn:Htok; [|by apply okp_ret].
  all: apply tables_bind; [by apply tables_spares|]; intros t w1.
  all: destruct (message_conn _ _ m) as [b|] eqn:Hc; [|done].
  all: apply tables_bind; [by eapply tables_add, Hg|]; intros; by apply okp_ret.
Qed.

Lemma tables_auth_receive node_uuid topic_str payload (w : AuthWorld) :
  (∀ msgs m, payload = Some msgs → m ∈ msgs → granted m) →
  tables (auth_receive node_uuid (topic_str, payload)) w.
Proof.
  intros Hg. apply tables_receive. intros msgs w1 Hp. apply tables_atomic. intros w2.
  apply tables_try_each. intros m w3 Hm. by eapply tables_auth_message, Hg.
Qed.

Lemma spares_auth_handler tok : spares kept_of (auth_handler tok).
Proof. unfold auth_handler. spare. Qed.

Lemma tables_auth_load (w : AuthWorld) : tables auth_load w.
Proof.
  unfold auth_load. apply tables_bind; [by apply tables_spares|]. intros [] w1; [|by apply okp_ret].
  apply tables_bind; [apply tables_load_snapshot|]. intros [[ts|]|e] w2; [by apply okp_ret|done|].
  by apply okp_ret.
Qed.
End auth.

Lemma tables_rounds {D} (P : Uuid → Base → Prop) n (round : Prog (Svc D) unit) w :
  (∀ w, tables P round w) → tables P (rounds n round) w.
Proof.
  intros Hr. revert w; induction n as [|n IH]; intros w; cbn [rounds]; [by apply okp_ret|].
  by apply tables_bind.
Qed.
Lemma tables_snapshot_task `{!Oracle} {D} (P : Uuid → Base → Prop) n (w : Svc D) :
  tables P (snapshot_task n) w.
Proof.
  apply tables_rounds. intros w1. apply tables_bind; [apply tables_create_snapshot|].
  intros. by apply okp_ret.
Qed.

(** ** The node's agent *)
Section agent.
Context `{!Oracle, !UuidText, !Ipv6Text, !IterOrder, !Chrono, !WgCrypto, !F64, !Tonic}.
Context {D X : Type} `{!KernelIface D, !XrayService X} (agent : AgentConfig).
Context (P : Uuid → Base → Prop).
Notation W := (Svc (Devices D X)).
Notation tables p w := (okp (tabled P) anyhow p w).
Implicit Type w : W.

Lemma spares_xray {A} (f : X → X * A) : spares (kept_of (D := Devices D X)) (xray_call f).
Proof. split; [|done]. intros w. by destruct (f _). Qed.
Lemma spares_wg {A} (f : D → D * A) : spares (kept_of (D := Devices D X)) (wg_call f).
Proof. split; [|done]. intros w. by destruct (f _). Qed.
Hint Resolve spares_xray spares_wg : spares.

Lemma spares_conn_create {Q} `{!ProtocolConn Q} (p : Q) :
  spares (kept_of (D := Devices D X)) (conn_create p).
Proof. unfold conn_create. spare. Qed.
Lemma spares_conn_remove {Q} `{!ProtocolConn Q} (p : Q) :
  spares (kept_of (D := Devices D X)) (conn_remove p).
Proof. unfold conn_remove. spare. Qed.
Hint Resolve spares_conn_create spares_conn_remove : spares.
Lemma spares_xray_create id tag pw : spares (kept_of (D := Devices D X)) (xray_create id tag pw).
Proof. unfold xray_create. spare. Qed.
Lemma spares_xray_remove id tag pw : spares (kept_of (D := Devices D X)) (xray_remove id tag pw).
Proof. unfold xray_remove. spare. Qed.
Lemma spares_stat p k b : spares (kept_of (D := Devices D X)) (stat agent p k b).
Proof. unfold stat. spare. Qed.
Hint Resolve spares_xray_create spares_xray_remove spares_stat : spares.
Lemma spares_turn w : kept_of (svc_turn w).1 = kept_of w.
Proof. done. Qed.
Lemma spares_join3 {A B C} (p : Prog W A) (q : Prog W B) (r : Prog W C) :
  spares kept_of p → spares kept_of q → spares kept_of r → spares kept_of (join3 p q r).
Proof.
  intros Hp Hq Hr. apply spares_bind; [|by intros [? []]].
  by apply spares_join2; [done..|apply spares_join2].
Qed.
Lemma spares_reset id : spares (kept_of (D := Devices D X)) (reset agent id).
Proof. unfold reset. apply spares_bind; [apply spares_join3; apply spares_stat|]. done. Qed.
Hint Resolve spares_reset : spares.

(** *** Messages *)
Definition carried (m : Message) : Prop :=
  creates m → ∀ b, carries m b → P (Message.conn_id m) b.

Lemma tables_memory_add id b prefix w : P id b → tables (memory_add id b prefix) w.
Proof. intros Hb. apply tables_bind; [by apply tables_add|]. intros. by apply okp_ret. Qed.

Lemma tables_create_wg m w : creates m → carried m → Message.tag m = ProtoTag.Wireguard →
  tables (create_wg agent m) w.
Proof.
  intros Hc Hp Ht. unfold create_wg. destruct (Message.wg m) as [wg|] eqn:Hwg; [|by apply okp_ret].
  apply tables_bind; [by apply tables_spares|]. intros t w1.
  destruct (message_conn _ _ m) as [b|] eqn:Hb; [|done].
  apply tables_bind.
  - apply tables_memory_add, Hp; [done|]. exists t, (Proto.new_wg wg). split; [|done].
    unfold message_proto. by rewrite Ht, Hwg.
  - intros [[]|e] w2; [|by apply okp_ret]. apply tables_spares. spare.
Qed.

Lemma tables_create_on_xray m p pw w : creates m → carried m → message_proto m = Some p →
  tables (create_on_xray agent m p pw) w.
Proof.
  intros Hc Hp Hm. unfold create_on_xray. apply tables_bind; [by apply tables_spares|].
  intros t w1. destruct (message_conn t p m) as [b|] eqn:Hb; [|done].
  destruct (negb _); [by apply okp_ret|].
  apply tables_bind; [apply tables_spares, spares_xray_create|]. intros r w2.
  destruct (context_err _ r); [|by apply okp_ret]. apply tables_memory_add, Hp; [done|].
  by exists t, p.
Qed.

Lemma tables_message_create m w : creates m → carried m → tables (message_create agent m) w.
Proof.
  intros Hc Hp. unfold message_create.
  assert (∀ p pw, message_proto m = Some p → tables (create_on_xray agent m p pw) w) as Hx
    by (intros; by apply tables_create_on_xray).
  unfold message_proto in Hx. destruct (Message.tag m) eqn:Ht; try (by apply okp_ret);
    try (by apply Hx); try (by apply tables_create_wg).
  destruct (Message.password m); [by apply Hx|by apply okp_ret].
Qed.

(** A deletion takes from the table, if anything. *)
Lemma tables_message_delete m w : tables (message_delete agent m) w.
Proof.
  assert (∀ (r : result unit Error) w, tables (match r with
    | Err e => Ret (Err e)
    | Ok _ => svc_update (λ m', remove m' (Message.conn_id m));; Ret (Ok tt) end) w) as Hr.
  { intros [[]|e] w1; [|by apply okp_ret].
    apply tables_bind; [apply tables_remove|]. intros. by apply okp_ret. }
  unfold message_delete. cbv zeta. destruct (Message.tag m); try (by apply okp_ret);
    (destruct (negb _); [by apply okp_ret|]);
    try (apply tables_bind; [apply tables_spares, spares_xray_remove|intros r w1; apply (Hr (context_err _ r))]).
  destruct (Message.wg m) as [wg|]; [|by apply okp_ret].
  destruct (pubkey _) as [k|]; [|by apply okp_ret].
  apply tables_bind; [apply tables_spares, spares_wg|]. intros r w1. apply (Hr (context_err _ r)).
Qed.

Lemma tables_handle_message m w : carried m → tables (handle_message agent m) w.
Proof.
  intros Hp. unfold handle_message. destruct (Message.action m) eqn:Ha.
  1, 2: by apply tables_message_create; [unfold creates; rewrite Ha; tauto|].
  - apply tables_message_delete.
  - apply tables_spares. spare.
Qed.

Lemma tables_agent_receive topic_str payload w :
  (∀ msgs m, payload = Some msgs → m ∈ msgs → carried m) →
  tables (agent_receive agent (topic_str, payload)) w.
Proof.
  intros Hp. apply tables_receive. intros msgs w1 Hm.
  apply tables_bind; [|intros; by apply okp_ret].
  apply (okp_try_join_all svc_turn (tabled P) anyhow).
  - intros w2 Ht. split; [|done]. by apply (tabled_same P w2).
  - intros p (m & -> & Hin)%list_elem_of_fmap. by eapply tables_handle_message, Hp.
Qed.

(** *** The start and the other tasks *)
Lemma tables_node_load w : tables (node_load agent) w.
Proof.
  unfold node_load. apply tables_bind; [by apply tables_spares|]. intros [] w1; [|by apply okp_ret].
  apply tables_bind; [apply tables_load_snapshot|]. intros [[ts|]|e] w2; [|by apply okp_ret..].
  apply tables_spares. unfold restore_wg_connections, restore_xray_connections. spare.
Qed.

(** What restoring spawns touches the devices only. *)
Lemma restored_spares w ts p :
  (run (node_load agent) w).2 = Some ts → p ∈ ts.2 → spares kept_of p.
Proof.
  assert (∀ w' l, (run (restore_wg_connections agent) w').2 = Some l →
    p ∈ default [] (result_ok l) → spares kept_of p) as Hwg.
  { intros w' l. unfold restore_wg_connections. rewrite run_bind. cbn [svc_read reads run].
    destruct (is_empty _); intros [= <-]; cbn [result_ok from_option id];
      [by intros []%not_elem_of_nil|].
    intros ([id b] & -> & _)%list_elem_of_fmap. spare.
    split; [|done]. intros w0. by destruct (WgApi_create _ _ _). }
  assert (∀ w' l, (run (restore_xray_connections agent) w').2 = Some l →
    p ∈ default [] (result_ok l) → spares kept_of p) as Hxray.
  { intros w' l. unfold restore_xray_connections. rewrite run_bind. cbn [svc_read reads run].
    destruct (is_empty _); intros [= <-]; cbn [result_ok from_option id];
      [by intros []%not_elem_of_nil|].
    intros ([id b] & -> & _)%list_elem_of_fmap. spare. }
  unfold node_load. rewrite run_bind. destruct (run (reads _) w) as [w1 [[]|]]; [| |done].
  2:{ intros [= <-]. by intros []%not_elem_of_nil. }
  rewrite run_bind. destruct (run load_snapshot w1) as [w2 [[[t|]|e]|]]; [| | |done].
  2, 3: intros [= <-]; by intros []%not_elem_of_nil.
  rewrite run_bind. specialize (Hwg w2). destruct (run (restore_wg_connections agent) w2) as [w3 [l|]];
    [|done]. rewrite run_bind. specialize (Hxray w3).
  destruct (run (restore_xray_connections agent) w3) as [w4 [l'|]]; [|done].
  intros [= <-] [Hp|Hp]%elem_of_app; eauto.
Qed.
End agent.

(** ** Metrics *)
Section metrics.
Context `{!Oracle, !F64, !SysInfo} {W V : Type} `{!HasMetrics W} (view : W → V).
Context (Hconsult : ∀ w, view (consult w).1 = view w) (Hset : ∀ m w, view (set_metrics m w) = view w).

Lemma spares_sys_ask {A} (f : nat → A) : spares view (sys_ask f).
Proof using Hconsult. split; [|done]. intros w. specialize (Hconsult w). by destruct (consult w). Qed.
Lemma spares_put metric value tags : spares view (put metric value tags).
Proof using Hconsult Hset.
  split; [|done]. intros w. specialize (Hconsult w). destruct (consult w) as [w1 n]. cbn in *.
  by rewrite Hset.
Qed.
Hint Resolve spares_sys_ask spares_put : spares.
Lemma spares_bandwidth_loop default_if tags l : spares view (bandwidth_loop default_if tags l).
Proof using Hconsult Hset.
  revert tags. induction l as [|[i d] l IH]; intros tags; cbn [bandwidth_loop]; spare.
Qed.
Hint Resolve spares_bandwidth_loop : spares.
Lemma spares_collect_system : spares view collect_system.
Proof using Hconsult Hset.
  unfold collect_system, heartbeat, bandwidth, cpu_usage, loadavg, memory_metrics, disk_usage.
  split; [intros w; apply Hset|]. intros z. spare.
Qed.
Lemma spares_flush : spares view flush.
Proof using Hconsult Hset.
  unfold flush. split; [intros w; destruct (flush_to_zmq _); apply Hset|]. intros o. spare.
Qed.
End metrics.
#[export] Hint Resolve spares_collect_system spares_flush : spares.

Section services.
Context `{!Oracle, !UuidText, !Ipv6Text, !IterOrder, !WgCrypto, !F64, !Tonic, !SysInfo}.

Lemma spares_auth_system node :
  spares kept_of (collect_system (HasMetrics0 := auth_metrics node)).
Proof. by apply spares_collect_system. Qed.
Lemma spares_auth_flush node : spares kept_of (flush (HasMetrics0 := auth_metrics node)).
Proof. by apply spares_flush. Qed.

Context {D X : Type} `{!KernelIface D, !XrayService X} (agent : AgentConfig).
Notation view := (kept_of (D := Devices D X)).

Lemma spares_node_put metric value tags :
  spares view (put (HasMetrics0 := node_metrics agent) metric value tags).
Proof. by apply spares_put. Qed.
Hint Resolve spares_node_put spares_xray spares_wg spares_stat : spares.
Lemma spares_conn_count tag : spares view (conn_count agent tag).
Proof. unfold conn_count, conn_count_op. spare. Qed.
Lemma spares_conn id : spares view (conn agent id).
Proof. unfold conn. apply spares_bind; [apply spares_join3; apply spares_stat|]. by intros [[]]. Qed.
Lemma spares_inbound p : spares view (inbound agent p).
Proof.
  unfold inbound. destruct (as_tag p); [|done].
  apply spares_bind; [apply spares_join3; [apply spares_stat..|apply spares_conn_count]|].
  intros [[[] []] []]; done.
Qed.
Hint Resolve spares_conn spares_inbound : spares.
Lemma spares_node_flush : spares view (flush (HasMetrics0 := node_metrics agent)).
Proof. by apply spares_flush. Qed.
Lemma spares_collect_metrics : spares view (collect_metrics agent).
Proof.
  unfold collect_metrics, collect_inbound_metrics, collect_user_metrics, collect_wg_metrics,
    collect_user.
  apply spares_bind; [by apply spares_collect_system|]. intros []. spare.
Qed.
End services.
