(* ===== verification/Mirror.v ===== *)
(** * The authentication service against the API server

    What the proxies are told ([bin/auth]) compared with what the server's
    cache holds: the tokens of its live Hysteria2 connections. *)
From S2P Require Import Prelude Task Foreign Naming Wireguard Connection ConnStore Subscription.
From S2P Require Import Key Inbound Node Link Metrics Db World Trials Sync Consistency SyncSafe.
From S2P Require Import Reload SyncSpec Background Http ApiConn ApiSub ApiKey ApiTrial ApiNode.
From S2P Require Import Api Service Client Auth Xray Agent Startup.
Local Open Scope Z_scope.
Local Open Scope prog_scope.

Section mirror.
Context `{!Oracle, !Postgres, !Ipv6Text, !UuidText, !IterOrder, !Chrono, !WgCrypto, !UrlLib,
  !Base32, !Hmac, !SeriesHash, !Rfc3339, !HttpText, !F64}.
Context {V : Type} (metrics : MetricStorage (V := V)) (config : ServiceConfig).

(** The token the server's cache holds for an id, if its connection is a live
    one of Hysteria2. *)
Definition live_token (m : Cache) (id : Uuid) : option (option Uuid) :=
  match connections m !! id with
  | Some c =>
    if Conn.is_deleted c then None
    else match Conn.proto c with Proto.Hysteria2 tok => Some (Some tok) | _ => None end
  | None => None
  end.
Definition mirrors (m : Cache) (a : AuthWorld) : Prop :=
  ∀ id, token_at id a = live_token m id.

(** The service takes in what it hears of the bus. *)
Definition auth_hear (node_uuid : Uuid) (l : list (Topic * list Message)) (a : AuthWorld) :
    AuthWorld :=
  foldl (λ a f, (run (auth_receive node_uuid f) a).1) a (heard (auth_topics node_uuid) l).

Definition sync_batch (req : ConnType) (m : Cache) : list Message :=
  (λ '(conn_id, conn), as_create_message conn conn_id) <$>
    keep (λ '(_, conn), wanted req conn) (hiter (connections m)).

(** What the server makes of a request for connections. *)
Lemma run_serve_sync header req w :
  let '(w', r) := run (serve metrics config header (PostConnectionsSync req)) w in
  memory w' = memory w ∧ ∃ news, bus w' = bus w ++ news ∧
    (news = [] ∨ news = [(ct_topic req, sync_batch req (memory w))]) ∧
    ∀ a, r = Some a → sync_answer (Ok a) = Ok tt →
      sync_batch req (memory w) = [] ∨ news = [(ct_topic req, sync_batch req (memory w))].
Proof.
  assert (∀ r, (∀ a, r = Some a → sync_answer (Ok a) = Ok tt → sync_batch req (memory w) = []) →
    memory w = memory w ∧ ∃ news, bus w = bus w ++ news ∧
    (news = [] ∨ news = [(ct_topic req, sync_batch req (memory w))]) ∧
    ∀ a, r = Some a → sync_answer (Ok a) = Ok tt →
      sync_batch req (memory w) = [] ∨ news = [(ct_topic req, sync_batch req (memory w))]) as Hnone.
  { intros r Hr. split; [done|]. exists []. rewrite app_nil_r. split_and!; [done|by left|].
    intros a Ha Hok. left. by eapply Hr. }
  unfold serve. cbn [guarded]. destruct header as [h|]; [|apply Hnone; by intros a [= <-]].
  destruct (auth _ _); [|apply Hnone; by intros a [= <-]].
  cbn [handler_of]. unfold get_connections_handler. cbn. unfold sync_batch in *.
  destruct (keep _ _) as [|x l] eqn:Hk; cbn; [apply Hnone; by intros a _ _|].
  destruct (rkyv_fault _); cbn.
  { apply Hnone. by intros a [= <-]. }
  destruct (zmq_fault _); cbn.
  { apply Hnone. by intros a [= <-]. }
  split; [done|]. eexists. split; [reflexivity|]. split; [by right|]. intros a _ _. by right.
Qed.

(** ** One attempt, and all of them *)
Section attempts.
Context (node : Node) (m : Cache).
Notation req := {| ct_proto := ProtoTag.Hysteria2; ct_last_update := None;
  ct_env := Node.env node; ct_topic := Topic.Init (Node.uuid node) |}.
Notation batch := (sync_batch req m).
Notation item := (Topic.Init (Node.uuid node), batch).

(** The service's table and the server's cache stand still; what is published
    is the batch, some number of times. *)
Record attempted (s s' : Net (MetricBuffer (V := f64))) (done : bool) : Prop := {
  att_table : svc_mem (net_svc s') = svc_mem (net_svc s);
  att_memory : memory (net_api s') = m;
  att_news : ∃ news, bus (net_api s') = bus (net_api s) ++ news ∧ Forall (eq item) news ∧
    (done = true → batch = [] ∨ news ≠ []);
}.

Lemma attempted_none s s' :
  svc_mem (net_svc s') = svc_mem (net_svc s) → net_api s' = net_api s →
  memory (net_api s) = m → attempted s s' false.
Proof.
  intros Ht Ha Hm. split; [done|by rewrite Ha|]. exists []. rewrite Ha, app_nil_r.
  by split_and!.
Qed.

Lemma run_attempt endpoint token s :
  memory (net_api s) = m →
  let '(s', r) := run (get_connections metrics config node endpoint token ProtoTag.Hysteria2 None) s in
  match r with
  | Some r => attempted s s' (is_some (result_ok r))
  | None => False
  end.
Proof.
  intros Hm. unfold get_connections. destruct (endpoint_url _ _ _); [|by apply attempted_none].
  rewrite run_bind. unfold http_post. destruct (header_value _) as [h|]; [|by apply attempted_none].
  rewrite run_bind, run_at_service. cbn -[serve].
  destruct (http_fault _); [by apply attempted_none|].
  set (s1 := set_net_svc _ s). rewrite run_bind, run_at_server.
  pose proof (run_serve_sync (Some h) req (net_api s1)) as Hs.
  destruct (run (serve _ _ _ _) _) as [w1 ans]. destruct Hs as (Hm1 & news & Hb & Hn & Hok).
  change (net_api s1) with (net_api s) in *. rewrite Hm in *. cbn -[serve].
  assert (∀ s' d, svc_mem (net_svc s') = svc_mem (net_svc s) → net_api s' = w1 →
    (d = true → batch = [] ∨ news = [item]) → attempted s s' d) as Hatt.
  { intros s' d Ht Ha Hd. split; [done|by rewrite Ha|]. exists news. rewrite Ha.
    split_and!; [done|by destruct Hn as [-> | ->]; repeat constructor|].
    intros [?| ->]%Hd; [by left|by right]. }
  destruct (http_fault _); [by apply Hatt|]. destruct ans as [ans|]; [|by apply Hatt].
  cbn -[sync_answer]. destruct (http_fault _); [by apply Hatt|]. cbn -[sync_answer].
  apply Hatt; [done|done|]. intros Hd. apply (Hok ans eq_refl).
  by destruct (sync_answer (Ok ans)) as [[]|].
Qed.

Lemma run_attempts endpoint token n s :
  memory (net_api s) = m →
  let '(s', r) := run (until_ok n (get_connections metrics config node endpoint token
    ProtoTag.Hysteria2 None)) s in
  match r with Some d => attempted s s' d | None => False end.
Proof.
  revert s. induction n as [|n IH]; intros s Hm; [by apply attempted_none|].
  cbn [until_ok]. rewrite run_bind. pose proof (run_attempt endpoint token s Hm) as Ha.
  destruct (run (get_connections _ _ _ _ _ _ _) s) as [s1 [[[]|e]|]]; [exact Ha| |done].
  destruct Ha as [Ht1 Hm1 (n1 & Hb1 & Hn1 & _)]. specialize (IH s1 Hm1).
  destruct (run (until_ok n _) s1) as [s2 [d|]]; [|done].
  destruct IH as [Ht2 Hm2 (n2 & Hb2 & Hn2 & Hd)]. split; [congruence|done|].
  exists (n1 ++ n2). split_and!; [by rewrite Hb2, Hb1, (assoc app)|by apply Forall_app|].
  intros Hdone. destruct (Hd Hdone) as [?|Hne]; [by left|right]. by destruct n1.
Qed.

(** ** What the batch says *)

Lemma register_others id (msgs : list Message) o :
  (∀ x, x ∈ msgs → Message.conn_id x ≠ id) → foldl (register id) o msgs = o.
Proof.
  induction msgs as [|x msgs IH]; intros Hno; [done|]. cbn [foldl].
  unfold register at 2. rewrite decide_False by (apply Hno; left).
  apply IH. intros y Hy. apply Hno. by right.
Qed.

Lemma in_batch x :
  x ∈ batch ↔ ∃ id c, x = conn_create_message c id ∧ connections m !! id = Some c ∧
    Conn.is_deleted c = false ∧ Proto.proto (Conn.proto c) = ProtoTag.Hysteria2.
Proof.
  assert (∀ c, wanted req c = true ↔
    Conn.is_deleted c = false ∧ Proto.proto (Conn.proto c) = ProtoTag.Hysteria2) as Hw.
  { intros c. unfold wanted. cbn. rewrite !andb_true_iff, negb_true_iff, bool_decide_eq_true.
    rewrite (bool_decide_true (ProtoTag.Hysteria2 = _)) by done. naive_solver. }
  unfold sync_batch. rewrite list_elem_of_fmap. split.
  - intros ([id c] & -> & [Hin Hwc]%elem_of_keep). apply elem_of_hiter in Hin.
    apply Hw in Hwc as [Hd Ht]. by exists id, c.
  - intros (id & c & -> & Hc & Hd & Ht). exists (id, c). split; [done|].
    apply elem_of_keep. split; [by apply elem_of_hiter|]. by apply Hw.
Qed.

Lemma live_token_Some id t :
  live_token m id = Some t ↔ ∃ c tok, connections m !! id = Some c ∧
    Conn.is_deleted c = false ∧ Conn.proto c = Proto.Hysteria2 tok ∧ t = Some tok.
Proof.
  unfold live_token. destruct (connections m !! id) as [c|]; [|naive_solver].
  destruct (Conn.is_deleted c) eqn:Hd; [naive_solver congruence|].
  destruct (Conn.proto c) eqn:Hp; naive_solver congruence.
Qed.

Lemma register_batch id o :
  o = None ∨ o = live_token m id → foldl (register id) o batch = live_token m id.
Proof.
  intros Ho. destruct (live_token m id) as [t|] eqn:Hl.
  - apply live_token_Some in Hl as (c & tok & Hc & Hd & Hp & ->).
    assert (∀ x, x ∈ batch → ¬ deletes id x) as Hnd
      by (intros x (i & c' & -> & _)%in_batch [_ Ha]; discriminate Ha).
    destruct Ho as [->| ->]; [|by apply register_present].
    assert (conn_create_message c id ∈ batch) as Hin
      by (apply in_batch; exists id, c; by rewrite Hp).
    apply list_elem_of_split_l in Hin as (l1 & l2 & Heq & Hno).
    rewrite Heq, foldl_app. cbn [foldl]. rewrite (register_others id l1).
    + unfold register at 2. rewrite decide_True by done. cbn. rewrite Hp.
      apply register_present. intros x Hx. apply Hnd. rewrite Heq. set_solver.
    + intros x Hx Hid. apply Hno. assert (x ∈ batch) as Hxb by (rewrite Heq; set_solver).
      apply in_batch in Hxb as (i & c' & -> & Hc' & _). cbn in Hid. subst i.
      rewrite Hc in Hc'. by injection Hc' as <-.
  - assert (o = None) as -> by (by destruct Ho). apply register_absent.
    intros x tok (i & c & -> & Hc & Hd & Hp)%in_batch (Hid & _ & Ht). cbn in Hid, Ht. subst i.
    assert (live_token m id = Some (Some tok)) as Hl'; [|congruence].
    apply live_token_Some. exists c, tok. split_and!; [done..| |done].
    by destruct (Conn.proto c); try discriminate Ht; injection Ht as ->.
Qed.

(** ** Hearing it *)
Context (Hnode : uuid_ok (Node.uuid node)).
Context (Hdates : ∀ id c t, connections m !! id = Some c → Conn.expires_at c = Some t → dt_ok t).

Lemma hear_item a :
  (∀ id, token_at id a = None ∨ token_at id a = live_token m id) →
  mirrors m (run (auth_receive (Node.uuid node)
    (Topic.as_str (Topic.Init (Node.uuid node)), Some batch)) a).1.
Proof.
  intros Ha id. unfold auth_receive, receive.
  assert (Topic.from_str (Topic.as_str (Topic.Init (Node.uuid node))) =
    Ok (Topic.Init (Node.uuid node))) as -> by exact (Topic.from_str_norm (Topic.Init _) Hnode).
  cbn [auth_accepts]. rewrite bool_decide_true by done. rewrite run_bind.
  pose proof (run_auth_batch batch a) as Hb.
  destruct (run (auth_batch batch) a) as [a' [[[]|e]|]]; [|done|].
  - cbn. by rewrite Hb, register_batch.
  - destruct Hb as (x & e & (i & c & -> & Hc & _)%in_batch & He & Hbad). cbn in He.
    destruct (Conn.expires_at c) as [t|] eqn:Ht; [|done]. injection He as <-.
    rewrite of_to_rkyv in Hbad by by eapply Hdates. done.
Qed.

Lemma hear_news news a :
  Forall (eq item) news → (∀ id, token_at id a = None ∨ token_at id a = live_token m id) →
  (news = [] → mirrors m a) → mirrors m (auth_hear (Node.uuid node) news a).
Proof.
  unfold auth_hear, heard. revert a. induction news as [|x news IH]; intros a Hn Ha Hnil; [by apply Hnil|].
  apply Forall_cons in Hn as [<- Hn]. rewrite filter_cons, decide_True.
  2:{ cbn [delivers auth_topics existsb fst]. apply orb_true_iff. left.
      pose proof (StrFacts.starts_with_app (Topic.as_str (Topic.Init (Node.uuid node))) "") as Hs.
      by rewrite StrFacts.app_nil_r in Hs. }
  cbn [fmap list_fmap foldl]. pose proof (hear_item a Ha) as Hm.
  apply IH; [done|intros id; right; apply Hm|done].
Qed.
End attempts.

(** The proxy's question, of a table that mirrors the cache.  The connection
    [id] of the cache [m] is live and its token is [tok]. *)
Definition live_with (m : Cache) (tok id : Uuid) : Prop :=
  ∃ c, connections m !! id = Some c ∧ Conn.is_deleted c = false ∧ Conn.proto c = Proto.Hysteria2 tok.
Lemma mirrors_accepts m a tok :
  mirrors m a →
  ∃ answer, (run (auth_handler tok) a).2 = Some answer ∧
    match auth_id answer with
    | Some text => auth_ok answer = true ∧ ∃ id, text = uuid_str id ∧ live_with m tok id
    | None => auth_ok answer = false ∧ ∀ id, ¬ live_with m tok id
    end.
Proof.
  intros Hm.
  assert (∀ id, token_at id a = Some (Some tok) ↔ ∃ c, svc_mem a !! id = Some c ∧
    Base.proto c = Proto.Hysteria2 tok) as Hat.
  { intros id. unfold token_at. destruct (svc_mem a !! id) as [c|]; cbn; [|naive_solver].
    unfold get_token. cbn. split.
    - intros [= Ht]. exists c. split; [done|]. destruct (Base.proto c); try done. congruence.
    - intros (c' & [= <-] & Hp). by rewrite Hp. }
  unfold auth_handler. cbn. eexists. split; [reflexivity|].
  destruct (validate_token (svc_mem a) tok) as [id|] eqn:Hv; cbn; (split; [done|]).
  - exists id. split; [done|]. apply validate_token_Some in Hv as (c & Hc & Hp).
    assert (token_at id a = Some (Some tok)) as Ht by (apply Hat; by exists c).
    rewrite Hm in Ht. apply live_token_Some in Ht as (c' & tok' & ? & ? & ? & [= <-]). by exists c'.
  - intros id (c & Hc & Hd & Hp).
    assert (token_at id a = Some (Some tok)) as (c' & Hc' & Hp')%Hat
      by (rewrite Hm; apply live_token_Some; eauto 10).
    pose proof (proj1 (validate_token_None _ _) Hv id c' Hc'). done.
Qed.

(** C7: the proxies are told what the server holds.  Take an authentication
    service that starts with no snapshot, whose request for connections is
    answered at last, after any number of failures on either side, and that takes
    in what it heard of the bus meanwhile; nothing else reaches the server in
    that time, so its cache stands still; the node's id is 128 bits wide and the
    expiries in the cache are dates that chrono represents.  Asked about a token,
    the service then says yes with an id exactly when the id is that of a live
    Hysteria2 connection of the server's cache with this token, and says no,
    with no id, exactly when there is none. *)
Theorem fresh_auth_mirrors (node : Node) (endpoint token : string) (n : nat)
    (s : Net (MetricBuffer (V := f64))) (Hnode : uuid_ok (Node.uuid node))
    (Hfresh : svc_mem (net_svc s) = ∅ ∧ svc_file (net_svc s) = None)
    (Hdates : ∀ id c t, connections (memory (net_api s)) !! id = Some c →
      Conn.expires_at c = Some t → dt_ok t) :
  let m := memory (net_api s) in
  let '(s', r) := run (auth_start metrics config node endpoint token n) s in
  if decide (r = Some true) then
    memory (net_api s') = m ∧ ∃ news, bus (net_api s') = bus (net_api s) ++ news ∧
      let a := auth_hear (Node.uuid node) news (net_svc s') in
      mirrors m a ∧ ∀ tok, ∃ answer, (run (auth_handler tok) a).2 = Some answer ∧
        match auth_id answer with
        | Some text => auth_ok answer = true ∧ ∃ id, text = uuid_str id ∧
            ∃ c, connections m !! id = Some c ∧ Conn.is_deleted c = false ∧
              Conn.proto c = Proto.Hysteria2 tok
        | None => auth_ok answer = false ∧ ∀ id, ¬ ∃ c, connections m !! id = Some c ∧
            Conn.is_deleted c = false ∧ Conn.proto c = Proto.Hysteria2 tok
        end
  else True.
Proof.
  cbv zeta. set (m := memory (net_api s)) in *. destruct Hfresh as [Hmem Hfile].
  unfold auth_start. rewrite run_bind, run_at_service. unfold auth_load. cbn -[until_ok].
  rewrite Hfile. cbn -[until_ok]. set (s1 := set_net_svc _ s).
  pose proof (run_attempts node m endpoint token n s1 eq_refl) as Ha.
  destruct (run (until_ok n _) s1) as [s' [d|]]; [|done]. destruct (decide _) as [[= ->]|]; [|done].
  destruct Ha as [Ht Hm (news & Hb & Hn & Hd)]. split; [done|]. exists news. split; [done|].
  assert (∀ id, token_at id (net_svc s') = None) as Hnone
    by (intros id; unfold token_at; rewrite Ht; cbn; by rewrite Hmem, lookup_empty).
  assert (mirrors m (auth_hear (Node.uuid node) news (net_svc s'))) as Hmir.
  { apply hear_news; [done|done|done|by left; apply Hnone|]. intros -> id. rewrite Hnone.
    destruct (Hd eq_refl) as [Hnil|]; [|done].
    pose proof (register_batch node m id None (or_introl eq_refl)) as Hr. by rewrite Hnil in Hr. }
  split; [done|]. intros tok. by apply mirrors_accepts.
Qed.

(** ** Announcements, one by one *)

(** One message on the topic of its connection: the service hears it when the
    connection has a token, and no other service's messages. *)
Lemma hear_auth node_uuid msg a :
  (∀ e, Message.expires_at msg = Some e → of_rkyv e ≠ None) →
  ∀ id, token_at id (auth_hear node_uuid [(Topic.Auth, [msg])] a) = register id (token_at id a) msg.
Proof.
  intros Hd id. unfold auth_hear, heard. cbn [base.filter list_filter fmap list_fmap].
  rewrite decide_True by (cbn; by rewrite orb_true_r). cbn [fmap list_fmap foldl fst snd].
  unfold auth_receive, receive. cbn [Topic.as_str]. change (Topic.from_str "auth") with (Ok Topic.Auth : result Topic Error).
  cbn [auth_accepts]. rewrite run_bind. pose proof (run_auth_batch [msg] a) as Hb.
  destruct (run (auth_batch [msg]) a) as [a' [[[]|e]|]]; [|done|].
  - cbn. by rewrite Hb.
  - destruct Hb as (m & e & ->%list_elem_of_singleton & He & Hbad). by destruct (Hd e He).
Qed.
Lemma hear_updates node_uuid env msgs a : auth_hear node_uuid [(Topic.Updates env, msgs)] a = a.
Proof. done. Qed.

Lemma live_token_same m m' id :
  connections m' !! id = connections m !! id → live_token m' id = live_token m id.
Proof. intros Hc. unfold live_token. by rewrite Hc. Qed.

(** C29: a deletion keeps the services together, however it ends.  When the
    server is asked to delete a connection of its cache, and the service takes
    in what is announced, it goes on accepting exactly the live tokens: the
    deleted one no more when the deletion succeeded, still when it failed. *)
Theorem delete_keeps_mirror (node_uuid id : Uuid) (conn : Conn) (w : World) (a : AuthWorld)
    (Hmir : mirrors (memory w) a) (Hconn : connections (memory w) !! id = Some conn)
    (Hdates : ∀ t, Conn.expires_at conn = Some t → dt_ok t) :
  let '(w', r) := run (delete_connection id conn) w in
  ∃ news, bus w' = bus w ++ news ∧ mirrors (memory w') (auth_hear node_uuid news a) ∧
    match r with
    | Some (Ok _) => live_token (memory w') id = None
    | Some (Err _) => news = []
    | None => False
    end.
Proof.
  pose proof (delete_connection_run id conn w) as Hd.
  destruct (run (delete_connection id conn) w) as [w' r]. rewrite Hconn in Hd.
  assert (∀ w', memory w' = memory w → bus w' = bus w →
    bus w' = bus w ++ [] ∧ mirrors (memory w') (auth_hear node_uuid [] a)) as Hsame.
  { intros w1 Hm Hb. rewrite app_nil_r. split; [done|]. unfold auth_hear. by rewrite Hm. }
  destruct (Conn.is_deleted conn) eqn:Hdel.
  { destruct Hd as [-> ->]. exists []. destruct (Hsame w eq_refl eq_refl). split_and!; [done..|].
    unfold live_token. by rewrite Hconn, Hdel. }
  destruct r as [[st|e]|]; [| |done].
  2:{ exists []. destruct e; try done; destruct Hd as (Hm & Hb & _);
      destruct (Hsame w' Hm Hb); by split_and!. }
  destruct Hd as (_ & [t Hm] & _ & Hb). eexists. split; [exact Hb|].
  assert (∀ i, live_token (memory w') i = if decide (i = id) then None else live_token (memory w) i)
    as Hl.
  { intros i. unfold live_token. rewrite Hm. cbn. case_decide as Hi.
    - subst i. rewrite lookup_alter_eq, Hconn. done.
    - by rewrite lookup_alter_ne. }
  split; [|rewrite Hl; by rewrite decide_True]. intros i. rewrite Hl. unfold conn_topic.
  destruct (is_some (get_token conn)) eqn:Ht.
  - rewrite hear_auth.
    2:{ cbn. intros e He. destruct (Conn.expires_at conn) as [t'|] eqn:Hx; [|done].
        injection He as <-. by rewrite of_to_rkyv by by apply Hdates. }
    unfold register. cbn. case_decide as Hi; [subst i; by rewrite decide_True|].
    rewrite decide_False by done. apply Hmir.
  - rewrite hear_updates. case_decide as Hi; [|apply Hmir]. subst i. rewrite Hmir.
    unfold live_token. rewrite Hconn, Hdel. unfold get_token in Ht. cbn in Ht.
    by destruct (Conn.proto conn).
Qed.

(** A creation that was announced keeps them together too: the new token is
    accepted as soon as the service has heard. *)
Theorem create_keeps_mirror (node_uuid : Uuid) (req : ConnCreateRequest) (network : IpAddrMask)
    (w : World) (a : AuthWorld) (Hmir : mirrors (memory w) a) (Hbus : ∀ n, zmq_fault n = None) :
  let '(w', r) := run (create_connection_handler req network) w in
  match r with
  | Some (Ok (Json 200 _ (Some (id, Instances.Connection conn)))) =>
    connections (memory w) !! id = None → (∀ t, Conn.expires_at conn = Some t → dt_ok t) →
    ∃ news, bus w' = bus w ++ news ∧ mirrors (memory w') (auth_hear node_uuid news a) ∧
      ∀ tok, Conn.proto conn = Proto.Hysteria2 tok →
        token_at id (auth_hear node_uuid news a) = Some (Some tok)
  | _ => True
  end.
Proof.
  pose proof (create_connection_run req network w) as Hc.
  destruct (run (create_connection_handler req network) w) as [w' r].
  destruct r as [[[st msg [[id [conn| | | | | | |]]|]| | | | | | | |]|]|];
    repeat (try done; match goal with |- match ?x with _ => _ end => destruct x end); try done.
  destruct Hc as (_ & _ & _ & Hdel & _ & _ & _ & _ & Hins & Hb). intros Hnew Hd.
  rewrite Hnew in Hins.
  assert (∀ i, live_token (memory w') i = if decide (i = id)
    then (match Conn.proto conn with Proto.Hysteria2 tok => Some (Some tok) | _ => None end)
    else live_token (memory w) i) as Hl.
  { intros i. unfold live_token. rewrite Hins. case_decide as Hi.
    - subst i. by rewrite lookup_insert_eq, Hdel.
    - by rewrite lookup_insert_ne. }
  assert (live_token (memory w) id = None) as Hnone by (unfold live_token; by rewrite Hnew).
  assert (∃ news, bus w' = bus w ++ news ∧ mirrors (memory w') (auth_hear node_uuid news a))
    as (news & Hbn & Hm).
  2:{ exists news. split_and!; [done..|]. intros tok Ht. rewrite (Hm id), Hl, decide_True by done.
      by rewrite Ht. }
  destruct (create_topic conn) as [topic|] eqn:Ht; unfold create_topic, get_token in Ht; cbn in Ht.
  2:{ exists []. rewrite app_nil_r. split; [done|]. intros i.
      change (token_at i a = live_token (memory w') i).
      rewrite Hl, Hmir. case_decide as Hi; [|done]. subst i. rewrite Hnone.
      by destruct (Conn.proto conn). }
  destruct Hb as (n & _ & Hb). rewrite Hbus in Hb.
  - eexists. split; [exact Hb|]. intros i. rewrite Hl.
    destruct (Conn.proto conn) as [p|p|p|tok|p] eqn:Hp; cbn in Ht; try done; injection Ht as <-;
      try (rewrite hear_updates, Hmir; case_decide as Hi; [by subst i|done]).
    rewrite hear_auth.
    2:{ cbn. intros e He. destruct (Conn.expires_at conn) as [t'|] eqn:Hx; [|done].
        injection He as <-. by rewrite of_to_rkyv by by apply Hd. }
    unfold register. cbn. rewrite Hp, Hmir. case_decide as Hi.
    + subst i. rewrite decide_True by done. by rewrite Hnone.
    + by rewrite decide_False.
Qed.
End mirror.

(** ** A run *)

Definition h2_conn : Conn := Conn.new 0 Env.Dev None (Proto.Hysteria2 42%N) None.
Definition serving : World := set_memory (cache_conns (λ _, {[ 5%N := h2_conn ]}) Cache_new) world_new.
Definition idle : AuthWorld := {| svc_mem := ∅; svc_file := None;
  svc_device := {| batch := []; beat_index := 0 |}; svc_tick := 0 |}.
Definition both : Net (MetricBuffer (V := f64)) := {| net_api := serving; net_svc := idle |}.

Lemma serving_dates id c t :
  connections (memory serving) !! id = Some c → Conn.expires_at c = Some t → dt_ok t.
Proof. cbn. intros [_ <-]%lookup_singleton_Some [= ]. Qed.

Lemma fresh_auth_mirrors_witness :
  uuid_ok (Node.uuid example_node) ∧ (svc_mem (net_svc both) = ∅ ∧ svc_file (net_svc both) = None) ∧
  ∃ news, live_token (memory serving) 5%N = Some (Some 42%N) ∧
    mirrors (memory serving) (auth_hear (Node.uuid example_node) news (net_svc (run (auth_start
      no_metrics example_config example_node "http://api" "t" 1) both).1)).
Proof.
  assert (uuid_ok (Node.uuid example_node)) as Hn by (unfold uuid_ok; cbn; lia).
  assert (svc_mem (net_svc both) = ∅ ∧ svc_file (net_svc both) = None) as Hf by (split; reflexivity).
  split; [exact Hn|]. split; [exact Hf|].
  pose proof (fresh_auth_mirrors no_metrics example_config example_node "http://api" "t" 1 both Hn Hf
    serving_dates) as Hm. cbv zeta in Hm.
  assert ((run (auth_start no_metrics example_config example_node "http://api" "t" 1) both).2 = Some true)
    as Hr by (vm_compute; reflexivity).
  destruct (run (auth_start _ _ _ _ _ _) both) as [s' r]. cbn [fst snd] in *. subst r.
  destruct (decide (Some true = Some true)) as [_|Hno]; [|destruct (Hno eq_refl)].
  destruct Hm as (_ & news & _ & Hm & _). exists news. split; [vm_compute; reflexivity|exact Hm].
Defined.

(** The table after hearing of it. *)
Definition told : AuthWorld := auth_hear 9%N
  [(Topic.Auth, [conn_create_message h2_conn 5%N])] idle.
Lemma told_mirrors : mirrors (memory serving) told.
Proof.
  intros id. unfold told. rewrite hear_auth by done.
  assert (token_at id idle = None) as -> by (unfold token_at; cbn; by rewrite lookup_empty).
  unfold live_token, register. cbn. case_decide as Hne.
  - subst id. by rewrite lookup_singleton_eq.
  - by rewrite lookup_singleton_ne.
Qed.

Lemma delete_keeps_mirror_witness :
  mirrors (memory serving) told ∧ connections (memory serving) !! 5%N = Some h2_conn ∧
  ∃ news, mirrors (memory (run (delete_connection 5%N h2_conn) serving).1) (auth_hear 9%N news told).
Proof.
  assert (connections (memory serving) !! 5%N = Some h2_conn) as Hc by (vm_compute; reflexivity).
  split; [exact told_mirrors|]. split; [exact Hc|].
  pose proof (delete_keeps_mirror 9%N 5%N h2_conn serving told told_mirrors Hc
    ltac:(intros t Ht; discriminate Ht)) as Hd.
  destruct (run (delete_connection 5%N h2_conn) serving) as [w' r].
  destruct Hd as (news & _ & Hm & _). exists news. exact Hm.
Defined.

Lemma create_keeps_mirror_witness :
  mirrors (memory serving) told ∧ (∀ n, zmq_fault n = None) ∧
  match run (create_connection_handler {| cc_env := Env.Dev; cc_subscription_id := None;
    cc_proto := ProtoTag.Hysteria2; cc_days := None |} (wireguard_network example_config)) serving with
  | (w', Some (Ok (Json 200 _ (Some (id, Instances.Connection conn))))) =>
    ∃ news, mirrors (memory w') (auth_hear 9%N news told)
  | _ => False
  end.
Proof.
  assert (∀ n, zmq_fault n = None) as Hz by (intros n; reflexivity).
  split; [exact told_mirrors|]. split; [exact Hz|].
  pose proof (create_keeps_mirror 9%N {| cc_env := Env.Dev; cc_subscription_id := None;
    cc_proto := ProtoTag.Hysteria2; cc_days := None |} (wireguard_network example_config) serving told
    told_mirrors Hz) as Hc.
  assert (match run (create_connection_handler {| cc_env := Env.Dev; cc_subscription_id := None;
    cc_proto := ProtoTag.Hysteria2; cc_days := None |} (wireguard_network example_config)) serving with
  | (w', Some (Ok (Json 200 _ (Some (id, Instances.Connection conn))))) =>
    connections (memory serving) !! id = None ∧ Conn.expires_at conn = None
  | _ => False end) as Hr by (vm_compute; split; reflexivity).
  destruct (run (create_connection_handler _ _) serving) as [w' r].
  destruct r as [[[st msg [[id [conn| | | | | | |]]|]| | | | | | | |]|]|];
    repeat (try (destruct Hr; fail); match goal with |- match ?x with _ => _ end => destruct x end);
    try (destruct Hr; fail).
  destruct Hr as [Hnew He].
  destruct (Hc Hnew) as (news & _ & Hm & _); [intros t Ht; rewrite He in Ht; discriminate Ht|].
  exists news. exact Hm.
Defined.
