(* ===== verification/Deliver.v ===== *)
(** * From a request to the nodes

    A connection that the API server creates, on the nodes of its environment
    and on the others. *)
From S2P Require Import Prelude Task Foreign Naming Wireguard Connection ConnStore Subscription.
From S2P Require Import Key Inbound Node Link Metrics Db World Trials Sync Consistency SyncSafe.
From S2P Require Import Reload SyncSpec Background Http ApiConn ApiSub ApiKey ApiTrial ApiNode.
From S2P Require Import Api Service Client Xray Agent Batch Auth Startup.
Local Open Scope Z_scope.
Local Open Scope prog_scope.

Section deliver.
Context `{!Oracle, !Postgres, !Ipv6Text, !UuidText, !IterOrder, !Chrono, !WgCrypto, !F64, !Tonic}.
Context {D X : Type} `{!KernelIface D, !XrayService X}.
Notation W := (Svc (Devices D X)).

(** The agent takes in what it hears of the bus. *)
Definition agent_hear (agent : AgentConfig) (l : list (Topic * list Message)) (a : W) : W :=
  foldl (λ a f, (run (agent_receive agent f) a).1) a (heard (node_topics (agent_node agent)) l).

Lemma hear_nothing agent a : agent_hear agent [] a = a.
Proof. done. Qed.

(** A topic is lower case once parsed, so no node of the lower-case name hears
    the topic of another spelling: it would be a longer prefix of itself. *)
Lemma lower_unheard node env :
  Node.env node = Env.norm env → Env.norm env ≠ env →
  delivers (node_topics node) (Topic.as_str (Topic.Updates env)) = false.
Proof.
  intros Hn Hne. unfold delivers, node_topics. cbn [existsb]. rewrite Hn, orb_false_r.
  apply orb_false_iff. split; [done|]. destruct env as [| | | | |name]; try done.
  destruct (Str.starts_with _ _) eqn:Hs; [|done]. exfalso. revert Hs. unfold Str.starts_with.
  destruct (Str.strip_prefix _ _) as [t|] eqn:Hp; [|done]. intros _.
  apply StrFacts.strip_prefix_Some in Hp. cbn in Hp. injection Hp as Hp.
  pose proof (f_equal String.length Hp) as Hlen. rewrite StrFacts.length_app in Hlen.
  unfold Str.to_lowercase in Hlen. rewrite StrFacts.length_map in Hlen.
  destruct t as [|c t]; [|cbn in Hlen; lia]. rewrite StrFacts.app_nil_r in Hp.
  apply Hne. cbn. by rewrite <- Hp.
Qed.

(** Announcements for an environment, to a node of it and to a node of another. *)
Lemma hear_env agent env msgs a :
  agent_hear agent [(Topic.Updates env, msgs)] a =
  if decide (agent_env agent = env ∧ Env.norm env = env)
  then (run (handle_messages_batch agent msgs) a).1 else a.
Proof.
  unfold agent_hear, heard. rewrite filter_cons.
  assert (∀ l, (foldl (λ a f, (run (agent_receive agent f) a).1) a ((λ p, (Topic.as_str p.1, Some p.2)) <$> l : list Frame) : W) =
    (foldl (λ a p, (run (agent_receive agent (Topic.as_str p.1, Some p.2)) a).1) a l)) as Hmap.
  { intros l. revert a. induction l as [|p l IH]; intros a'; [done|]. cbn. apply IH. }
  rewrite Hmap. clear Hmap.
  assert (agent_receive agent (Topic.as_str (Topic.Updates env), Some msgs) =
    if decide (agent_env agent = Env.norm env) then handle_messages_batch agent msgs;; Ret tt
    else Ret tt) as Hr.
  { unfold agent_receive, receive.
    change (Topic.as_str (Topic.Updates env)) with (Topic.fmt (Topic.Updates env)).
    rewrite (Topic.from_str_norm (Topic.Updates env) I). cbn.
    case_bool_decide as He; case_decide as Hd; congruence. }
  destruct (decide (delivers _ _ = true)) as [Hd|Hd].
  - cbn [base.filter list_filter foldl fst snd]. rewrite Hr.
    destruct (decide (Env.norm env = env)) as [Hcan|Hcan].
    + rewrite Hcan. destruct (decide (agent_env agent = env)) as [He|He].
      * rewrite decide_True by done. rewrite run_bind.
        by destruct (run (handle_messages_batch agent msgs) a) as [a' [r|]].
      * rewrite decide_False; [done|by intros [? _]].
    + rewrite (decide_False (P := _ ∧ _)) by (by intros [_ ?]).
      destruct (decide (agent_env agent = Env.norm env)) as [He|He]; [|done].
      pose proof (lower_unheard (agent_node agent) env He Hcan) as Hl. cbn [fst] in Hd. congruence.
  - cbn [base.filter list_filter foldl].
    destruct (decide (agent_env agent = env ∧ Env.norm env = env)) as [[<- _]|]; [|done]. destruct Hd. cbn [delivers node_topics existsb fst]. rewrite orb_false_r.
    apply orb_true_iff. right.
    pose proof (StrFacts.starts_with_app (Topic.as_str (Topic.Updates (agent_env agent))) "") as Hs.
    by rewrite StrFacts.app_nil_r in Hs.
Qed.

(** C8: a connection that the server creates comes up on the nodes of its
    environment, and on no other.  Take a creation that the server answers
    with success, whose protocol is one of Xray's and whose expiry is a date
    that chrono represents, while the bus does not fail; and any node with an
    Xray that hears the announcement.  If the node is of the connection's
    environment and has no connection under its id yet, and its Xray accepts the
    account, the agent's table has the connection with its protocol, expiry and
    subscription, and nothing else new, and the account is there; a node of
    another environment does nothing.  A custom environment whose name is not
    in lower case is one that no node is of: the name is folded when the topic is
    parsed, and every node, even one configured with the very same name, does
    nothing. *)
Theorem created_on_nodes (agent : AgentConfig) (req : ConnCreateRequest) (network : IpAddrMask)
    (w : World) (a : W) (Hhas : has_xray agent = true) (Hbus : ∀ n, zmq_fault n = None) :
  let '(w', r) := run (create_connection_handler req network) w in
  match r with
  | Some (Ok (Json 200 _ (Some (id, Instances.Connection conn)))) =>
    ∀ u, account_of id (Conn.proto conn) = Some u →
    (∀ t, Conn.expires_at conn = Some t → dt_ok t) →
    ∃ news, bus w' = bus w ++ news ∧
      let a' := agent_hear agent news a in
      if decide (agent_env agent = cc_env req ∧ Env.norm (cc_env req) = cc_env req) then
        svc_mem a !! id = None →
        (add_user (dev_xray (svc_device a)) (ProtoTag.fmt (cc_proto req)) u).2 = Ok tt →
        (∃ c, content c = content (Base.from conn) ∧ svc_mem a' = <[id := c]> (svc_mem a)) ∧
        users (dev_xray (svc_device a')) (ProtoTag.fmt (cc_proto req)) (email_of id) = Some u
      else a' = a
  | _ => True
  end.
Proof.
  pose proof (create_connection_run req network w) as Hc.
  destruct (run (create_connection_handler req network) w) as [w' r].
  destruct r as [[[st msg [[id [conn| | | | | | |]]|]| | | | | | | |]|]|];
    repeat (try done; match goal with |- match ?x with _ => _ end => destruct x end); try done.
  destruct Hc as (Hproto & Henv & _ & Hdel & _ & _ & _ & _ & _ & Hb). intros u Hu Hdates.
  assert (Proto.token (Conn.proto conn) = None ∧ Proto.is_mtproto (Conn.proto conn) = false) as [Htok Hmt]
    by (by destruct (Conn.proto conn)).
  assert (create_topic conn = Some (Topic.Updates (cc_env req))) as Ht.
  { unfold create_topic, get_token. cbn. rewrite <- Henv. by destruct (Conn.proto conn). }
  rewrite Ht in Hb. destruct Hb as (n & _ & Hb). rewrite Hbus in Hb. eexists. split; [exact Hb|].
  rewrite hear_env. cbv zeta. case_decide as He; [|done]. intros Hnew Hok.
  assert (message_proto (conn_create_message conn id) = Some (Conn.proto conn)) as Hmp.
  { unfold message_proto. cbn. unfold account_of in Hu. by destruct (Conn.proto conn) as [?|?|[]|?|?]. }
  pose proof (run_accepted agent (conn_create_message conn id) (Conn.proto conn) u a (or_introl eq_refl)
    Hmp) as Hr.
  cbn [Message.tag Message.conn_id conn_create_message] in Hr. rewrite Hproto in Hr.
  assert (∀ e, Message.expires_at (conn_create_message conn id) = Some e → of_rkyv e ≠ None) as Hd.
  { cbn. intros e' He'. destruct (Conn.expires_at conn) as [t|] eqn:Hx; [|done].
    injection He' as <-. by rewrite of_to_rkyv by by apply Hdates. }
  specialize (Hr Hd Hhas Hu Hok).
  change (as_create_message conn id) with (conn_create_message conn id).
  destruct (run (handle_messages_batch agent [conn_create_message conn id]) a) as [a' r'].
  destruct Hr as (_ & (c & Hcar & Hm) & Hus). split; [|done]. exists c. split.
  - destruct Hcar as (t & p & Hp & Hconn). rewrite Hmp in Hp. injection Hp as <-.
    unfold message_conn in Hconn. cbn in Hconn. unfold content, Base.from. cbn.
    destruct (Conn.expires_at conn) as [x|] eqn:Hx; cbn in Hconn.
    + rewrite of_to_rkyv in Hconn by by apply Hdates. injection Hconn as <-. cbn. by rewrite Hdel.
    + injection Hconn as <-. cbn. by rewrite Hdel.
  - cbn [fst]. rewrite Hm. unfold add. by rewrite Hnew.
Qed.
End deliver.

Definition ask_dev_vmess : ConnCreateRequest := {| cc_env := Env.Dev; cc_subscription_id := None;
  cc_proto := ProtoTag.Vmess; cc_days := None |}.

Lemma created_on_nodes_witness :
  (∀ n, zmq_fault n = None) ∧
  match run (create_connection_handler ask_dev_vmess (wireguard_network example_config)) world_new with
  | (w', Some (Ok (Json 200 _ (Some (id, Instances.Connection conn))))) =>
    ∃ news, bus w' = bus world_new ++ news ∧
      is_Some (svc_mem (agent_hear batch_agent news idle_agent) !! id)
  | _ => False
  end.
Proof.
  assert (∀ n, zmq_fault n = None) as Hz by (intros n; reflexivity).
  split; [exact Hz|].
  pose proof (created_on_nodes batch_agent ask_dev_vmess (wireguard_network example_config) world_new
    idle_agent eq_refl Hz) as Hc.
  assert (match run (create_connection_handler ask_dev_vmess (wireguard_network example_config))
    world_new with
  | (w', Some (Ok (Json 200 _ (Some (id, Instances.Connection conn))))) =>
    Conn.expires_at conn = None ∧ ∃ u, account_of id (Conn.proto conn) = Some u
  | _ => False end) as Hr by (vm_compute; split; [reflexivity|eexists; reflexivity]).
  destruct (run (create_connection_handler _ _) world_new) as [w' r].
  destruct r as [[[st msg [[id [conn| | | | | | |]]|]| | | | | | | |]|]|];
    repeat (try (destruct Hr; fail); match goal with |- match ?x with _ => _ end => destruct x end);
    try (destruct Hr; fail).
  destruct Hr as [He (u & Hu)].
  destruct (Hc u Hu) as (news & Hb & Hm); [intros t Ht; rewrite He in Ht; discriminate Ht|].
  exists news. split; [exact Hb|]. cbv zeta in Hm.
  destruct (decide (agent_env batch_agent = cc_env ask_dev_vmess ∧ _)) as [_|Hno];
    [|destruct (Hno (conj eq_refl eq_refl))].
  destruct Hm as [(c & _ & Hm) _]; [reflexivity|reflexivity|].
  rewrite Hm, lookup_insert_eq. eexists. reflexivity.
Defined.
