(* ===== verification/Listen.v ===== *)
(** * The subscribers' loop, on the bytes of its socket

    [zmq/subscriber.rs], [zmq/publisher.rs] and the loop of [run_subscriber]
    ([bin/node/tasks.rs], [bin/auth/tasks.rs]): the parts of messages as the
    socket hands them out, the check of the topic's text, and the one way out of
    the loop. *)
From S2P Require Import Prelude Task Foreign Naming Wireguard Connection ConnStore Subscription.
From S2P Require Import Key Inbound Node Link Metrics Db World Trials Sync Consistency SyncSafe.
From S2P Require Import Reload SyncSpec Background Http ApiConn ApiSub ApiKey ApiTrial ApiNode.
From S2P Require Import Api Service Client Auth Xray Agent Startup Mirror.
Local Open Scope Z_scope.
Local Open Scope prog_scope.

(** ** The text of a topic *)

(** Is the byte between the two? *)
Definition byte_in (first last : N) (c : ascii) : bool :=
  ((first <=? N_of_ascii c) && (N_of_ascii c <=? last))%N.
Notation tail := (byte_in 128 191).

(** [std::str::from_utf8], as far as the loop asks: whether there is a text.
    Neither overlong forms, nor surrogates, nor what is past U+10FFFF. *)
Fixpoint from_utf8 (s : string) : bool :=
  match s with
  | EmptyString => true
  | String b0 s =>
    if byte_in 0 127 b0 then from_utf8 s else
    match s with
    | EmptyString => false
    | String b1 s =>
      if byte_in 194 223 b0 then tail b1 && from_utf8 s else
      match s with
      | EmptyString => false
      | String b2 s =>
        if byte_in 224 239 b0 then
          byte_in (if byte_in 224 224 b0 then 160 else 128)
            (if byte_in 237 237 b0 then 159 else 191) b1 && tail b2 && from_utf8 s
        else
          match s with
          | EmptyString => false
          | String b3 s =>
            byte_in 240 244 b0 &&
            byte_in (if byte_in 240 240 b0 then 144 else 128)
              (if byte_in 244 244 b0 then 143 else 191) b1 && tail b2 && tail b3 && from_utf8 s
          end
      end
    end
  end.

Lemma from_utf8_ascii s : Str.all (λ c, N_of_ascii c <= 127)%N s → from_utf8 s = true.
Proof.
  unfold Str.all. induction s as [|c s IH]; [done|]. cbn [String.list_ascii_of_string].
  intros [Hc Hs]%Forall_cons. cbn [from_utf8]. unfold byte_in at 1.
  rewrite (proj2 (N.leb_le 0 (N_of_ascii c)) (N.le_0_l _)), (proj2 (N.leb_le _ _) Hc). by apply IH.
Qed.

Lemma from_utf8_app s t : from_utf8 s = true → from_utf8 (s +:+ t) = from_utf8 t.
Proof.
  remember (String.length s) as n eqn:Hn. revert s Hn. induction (lt_wf n) as [n _ IH].
  intros s -> Hs. destruct s as [|b0 s]; [done|]. cbn -[byte_in] in Hs |- *.
  destruct (byte_in 0 127 b0); [eapply IH; [|done..]; cbn; lia|].
  destruct s as [|b1 s]; [done|]. cbn -[byte_in] in Hs |- *. destruct (byte_in 194 223 b0).
  { apply andb_true_iff in Hs as [-> Hs]. eapply IH; [|done..]; cbn; lia. }
  destruct s as [|b2 s]; [done|]. cbn -[byte_in] in Hs |- *. destruct (byte_in 224 239 b0).
  { apply andb_true_iff in Hs as [-> Hs]. eapply IH; [|done..]; cbn; lia. }
  destruct s as [|b3 s]; [done|]. cbn -[byte_in] in Hs |- *.
  apply andb_true_iff in Hs as [-> Hs]. eapply IH; [|done..]; cbn; lia.
Qed.

(** ** The socket *)

(** What [recv_bytes] answers, time after time: a part of a message, or an
    error. *)
Notation Socket := (list (result string string)).

(** [Subscriber::recv] -- zmq/subscriber.rs:39-75

    Two parts, whatever messages they are parts of; [None] when there is
    nothing to receive, and the call waits. *)
Definition recv (socket : Socket) : option (option (string * string) * Socket) :=
  match socket with
  | [] => None
  | Err _ :: socket => Some (None, socket)
  | Ok topic :: socket =>
    match socket with
    | [] => None
    | Err _ :: socket => Some (None, socket)
    | Ok payload :: socket => Some (Some (topic, payload), socket)
    end
  end.

(** [Subscriber::recv] again and again, until it waits *)
Fixpoint recvs (socket : Socket) : list (option (string * string)) :=
  match socket with
  | [] => []
  | Err _ :: socket => None :: recvs socket
  | Ok topic :: socket =>
    match socket with
    | [] => []
    | Err _ :: socket => None :: recvs socket
    | Ok payload :: socket => Some (topic, payload) :: recvs socket
    end
  end.

Lemma recvs_recv socket :
  recvs socket = match recv socket with Some (x, rest) => x :: recvs rest | None => [] end.
Proof. by destruct socket as [|[] [|[]]]. Qed.

(** Setting up a publisher: [setup] is one attempt to bind or connect; five
    retries, and then a panic. *)
Section publisher.
Context {W : Type} (set_sndhwm setup : Prog W (result unit string)).

Fixpoint init_loop (retries : nat) : Prog W unit :=
  r <- setup;;
  match r with
  | Ok _ => Ret tt
  | Err _ => match retries with O => Panic | S retries => init_loop retries end
  end.
Definition publisher_init : Prog W (result unit string) :=
  _ <-? set_sndhwm;;
  init_loop 5;;
  Ret (Ok tt).
End publisher.

(** A publisher is set up by the first of six attempts that succeeds, and
    panics after the sixth. *)
Lemma publisher_init_run (answer : nat → result unit string) :
  let setup : Prog nat _ := Act (λ n, (S n, answer n)) Ret in
  let '(n, r) := run (publisher_init (Ret (Ok tt)) setup) 0%nat in
  (n <= 6)%nat ∧
  match r with
  | Some a => a = Ok tt ∧ ∃ k, n = S k ∧ answer k = Ok tt ∧ ∀ j, (j < k)%nat → answer j ≠ Ok tt
  | None => n = 6%nat ∧ ∀ j, (j < 6)%nat → answer j ≠ Ok tt
  end.
Proof.
  cbn zeta.
  assert (∀ retries i, (∀ j, (j < i)%nat → answer j ≠ Ok tt) →
    let '(n, r) := run (init_loop (Act (λ n, (S n, answer n)) Ret) retries) i in
    (n <= S (i + retries))%nat ∧
    match r with
    | Some _ => ∃ k, n = S k ∧ answer k = Ok tt ∧ ∀ j, (j < k)%nat → answer j ≠ Ok tt
    | None => n = S (i + retries) ∧ ∀ j, (j < n)%nat → answer j ≠ Ok tt
    end) as Hloop.
  { induction retries as [|n IH]; intros i Hi; cbn [init_loop]; rewrite run_bind; cbn [run];
      (destruct (answer i) as [[]|e] eqn:Ha; cbn [run]; [split; [lia|by exists i]|]);
      (assert (∀ j, (j < S i)%nat → answer j ≠ Ok tt) as Hi'
        by (intros j Hj; destruct (decide (j = i)) as [->|]; [congruence|apply Hi; lia])).
    - split; [lia|]. split; [lia|]. exact Hi'.
    - specialize (IH (S i) Hi'). destruct (run (init_loop _ n) (S i)) as [m r].
      by replace (S (i + S n)) with (S (S i + n)) by lia. }
  specialize (Hloop 5%nat 0%nat ltac:(lia)). unfold publisher_init. cbn [bind]. rewrite run_bind.
  destruct (run (init_loop _ 5) 0%nat) as [n [[]|]]; destruct Hloop as [Hn Hl]; cbn [run].
  - by split.
  - split; [done|]. destruct Hl as [-> Hl]. by split.
Qed.

(** [Publisher::send_binary] -- zmq/publisher.rs:68-76

    The parts of one message. *)
Definition parts_of (p : string * string) : Socket := [Ok p.1; Ok p.2].

Lemma recvs_message p socket : recvs (parts_of p ++ socket) = Some p :: recvs socket.
Proof. by destruct p. Qed.

Section subscriber.
Context {D : Type} `{!UuidText} (unpack : string → option (list Message)).
Context (accepts : Topic → bool) (handle : list Message → Prog (Svc D) (result unit Error)).
Notation M A := (Prog (Svc D) A).

(** The payload's messages, [unpack] being [rkyv]'s checked reading. *)
Definition payload_messages (payload_bytes : string) : option (list Message) :=
  match payload_bytes with EmptyString => None | _ => unpack payload_bytes end.

(** one turn of the loop; [Some] is what [run_subscriber] returns with *)
Definition turn (received : option (string * string)) : M (option Error) :=
  match received with
  | None => Ret None
  | Some (topic_bytes, payload_bytes) =>
    if from_utf8 topic_bytes then
      receive accepts handle (topic_bytes, payload_messages payload_bytes);;
      Ret None
    else Ret (Some (Error.Custom "Invalid UTF8 topic"))
  end.

(** [run_subscriber] -- bin/auth/tasks.rs:27-96

    As far as the socket goes: [None] is a loop that waits for more. *)
Definition run_subscriber (socket : Socket) : M (option Error) := for_until (recvs socket) turn.

(** The frames that were received, unless one has no text. *)
Definition frames (l : list (option (string * string))) : list Frame :=
  omap (fmap (λ p, (p.1, payload_messages p.2))) l.
Definition spoken (r : option (string * string)) : Prop :=
  match r with Some p => from_utf8 p.1 = true | None => True end.

Lemma run_turns l rest w :
  Forall spoken l →
  run (for_until (l ++ rest) turn) w =
  run (for_each (frames l) (receive accepts handle);; for_until rest turn) w.
Proof.
  intros Hl. revert w. induction Hl as [|[[topic payload]|] l Hx _ IH]; intros w; [done| |apply IH].
  cbn [app for_until frames omap list_omap fmap option_fmap option_map fst snd for_each] in *.
  unfold turn at 1. cbn [spoken fst] in Hx. rewrite Hx, !run_bind.
  destruct (run (receive _ _ _) w) as [w1 [[]|]]; [|done]. cbn [run]. rewrite IH.
  rewrite run_bind. unfold frames at 1. done.
Qed.
(** ** What is published, on its way to the loop *)
Context (topics : list Topic) (pack : list Message → string).
Notation Announcement := (Topic * list Message)%type.

(** An announcement as the socket hands it out, if it is subscribed to, or a
    call of [recv_bytes] that fails between two. *)
Definition wire (x : result Announcement string) : Socket :=
  match x with
  | Ok (topic, msgs) =>
    if delivers topics (Topic.as_str topic) then parts_of (Topic.as_str topic, pack msgs) else []
  | Err e => [Err e]
  end.
Definition published (l : list (result Announcement string)) : list Announcement := omap result_ok l.
(** A topic's text is one, and the bytes of the messages read back. *)
Definition readable (p : Announcement) : Prop :=
  from_utf8 (Topic.as_str p.1) = true ∧ payload_messages (pack p.2) = Some p.2.
Definition listened (l : list (result Announcement string)) : list Frame :=
  heard topics (published l).

Lemma recvs_wire l rest :
  (∀ p, Ok p ∈ l → readable p) →
  ∃ rs, recvs ((l ≫= wire) ++ rest) = rs ++ recvs rest ∧ Forall spoken rs ∧
    frames rs = listened l.
Proof.
  intros Hl. induction l as [|x l IH]; [by exists []|].
  destruct IH as (rs & Hrs & Hs & Hf); [intros p Hp; apply Hl; by right|].
  assert (∀ y, recvs ((l ≫= wire) ++ rest) = rs ++ recvs rest →
    recvs ((y ++ (l ≫= wire)) ++ rest) = recvs (y ++ (l ≫= wire) ++ rest)) as Happ.
  { intros y _. by rewrite <- app_assoc. }
  cbn [mbind list_bind]. rewrite Happ by done. unfold listened, heard, published in *.
  destruct x as [[topic msgs]|e]; cbn [omap list_omap result_ok].
  - rewrite filter_cons. cbn [fst]. cbn [wire]. destruct (Hl (topic, msgs)) as [Hu Hp]; [by left|].
    destruct (delivers topics (Topic.as_str topic)) eqn:Hd.
    + rewrite decide_True by done. exists (Some (Topic.as_str topic, pack msgs) :: rs).
      rewrite recvs_message, Hrs. split; [done|]. split; [by constructor|].
      cbn in *. rewrite Hp. by f_equal.
    + rewrite decide_False by done. by exists rs.
  - exists (None :: rs). cbn. rewrite Hrs. split_and!; [done|by constructor|done].
Qed.

Lemma run_listened l rest w :
  (∀ p, Ok p ∈ l → readable p) →
  run (run_subscriber ((l ≫= wire) ++ rest)) w =
  run (for_each (listened l) (receive accepts handle);; for_until (recvs rest) turn) w.
Proof.
  intros Hl. destruct (recvs_wire l rest Hl) as (rs & Hrs & Hs & Hf). unfold run_subscriber.
  by rewrite Hrs, run_turns, Hf.
Qed.

Lemma run_frames (body : Frame → M unit) (l : list Frame) w :
  match run (for_each l body) w with
  | (w', Some _) => w' = foldl (λ a f, (run (body f) a).1) w l
  | (_, None) => ∃ pre f post, l = pre ++ f :: post ∧
      (run (body f) (foldl (λ a f, (run (body f) a).1) w pre)).2 = None
  end.
Proof.
  revert w; induction l as [|f l IH]; intros w; [done|]. cbn [for_each]. rewrite run_bind.
  destruct (run (body f) w) as [w1 [[]|]] eqn:Hf.
  - specialize (IH w1). cbn [foldl]. rewrite Hf. destruct (run (for_each l body) w1) as [w2 [[]|]].
    + exact IH.
    + destruct IH as (pre & g & post & -> & Hg). exists (f :: pre), g, post. cbn. by rewrite Hf.
  - exists [], f, l. split; [done|]. cbn. by rewrite Hf.
Qed.

(** C9: the loop of the node and of the authentication service takes in all that
    is published and ends on none of it.  Of announcements whose topics are
    text and whose bytes read back, with any calls of [recv_bytes] that fail
    between two, the loop handles those it is subscribed to, one after the
    other and in their order, whatever the handling answers, and goes on
    waiting; unless handling one of them panics. *)
Theorem subscriber_hears (l : list (result (Topic * list Message) string)) (w : Svc D)
    (Hl : ∀ p, Ok p ∈ l → readable p) :
  match run (run_subscriber (l ≫= wire)) w with
  | (w', Some r) => r = None ∧
      w' = foldl (λ a f, (run (receive accepts handle f) a).1) w (heard topics (published l))
  | (_, None) => ∃ pre f post, heard topics (published l) = pre ++ f :: post ∧
      (run (receive accepts handle f)
        (foldl (λ a f, (run (receive accepts handle f) a).1) w pre)).2 = None
  end.
Proof.
  pose proof (run_listened l [] w Hl) as Hr. rewrite app_nil_r in Hr. rewrite Hr, run_bind.
  pose proof (run_frames (receive accepts handle) (listened l) w) as He.
  by destruct (run (for_each (listened l) _) w) as [w' [[]|]].
Qed.

(** And it ends for good at the first topic that is no text: what the socket
    hands out afterwards is never looked at.  One message of a single part is
    enough, when the bytes of the message after it are no text: the loop takes
    its parts by two, so the topic of that message is taken for a payload and
    its payload for a topic. *)
Theorem subscriber_ends (l : list (result (Topic * list Message) string)) (rest : Socket)
    (w : Svc D) (Hl : ∀ p, Ok p ∈ l → readable p) :
  let ends (fs : list Frame) : M (option Error) :=
    for_each fs (receive accepts handle);; Ret (Some (Error.Custom "Invalid UTF8 topic")) in
  (∀ bad payload, from_utf8 bad = false →
    run (run_subscriber ((l ≫= wire) ++ Ok bad :: Ok payload :: rest)) w =
    run (ends (heard topics (published l))) w) ∧
  (∀ stray next next', from_utf8 stray = true → from_utf8 next.2 = false →
    run (run_subscriber ((l ≫= wire) ++ Ok stray :: parts_of next ++ parts_of next' ++ rest)) w =
    run (ends (heard topics (published l) ++ [(stray, payload_messages next.1)])) w).
Proof.
  cbn zeta. split.
  - intros bad payload Hbad. rewrite run_listened by done. cbn [recvs for_until]. unfold turn at 1.
    rewrite Hbad. cbn [bind]. done.
  - intros stray [t b] [t' b'] Hs Hb. rewrite run_listened by done. cbn in Hb.
    cbn [parts_of app recvs fst snd for_until]. unfold turn at 1 2. rewrite Hs, Hb.
    fold (listened l). generalize (listened l). clear Hl. intros fs. revert w.
    induction fs as [|f fs IH]; intros w; cbn [app for_each bind].
    + rewrite !run_bind. by destruct (run (receive _ _ _) w) as [w' [[]|]].
    + rewrite !run_bind. destruct (run (receive _ _ f) w) as [w' [[]|]]; [|done].
      specialize (IH w'). rewrite !run_bind in IH. exact IH.
Qed.
End subscriber.

(** ** A run

    The authentication service hears of one connection, between calls that are
    interrupted; then a message of one part shifts the parts. *)
Definition announced : list Message := [conn_create_message h2_conn 5%N].
Definition heard_once : list (result (Topic * list Message) string) :=
  [Err "EINTR"; Ok (Topic.Updates Env.Dev, announced); Ok (Topic.Auth, announced); Err "EINTR"].
Definition archive (_ : list Message) : string := String (ascii_of_N 200) "".
Definition unarchive (_ : string) : option (list Message) := Some announced.
Definition auth_loop (socket : Socket) : Prog AuthWorld (option Error) :=
  run_subscriber unarchive (auth_accepts 9%N) auth_batch socket.
Definition auth_wire : result (Topic * list Message) string → Socket :=
  wire (auth_topics 9%N) archive.

Lemma heard_once_readable p : Ok p ∈ heard_once → readable unarchive archive p.
Proof.
  unfold heard_once. intros [[= ]|[[= ->]|[[= ->]|[[= ]|[]%not_elem_of_nil]
    %elem_of_cons]%elem_of_cons]%elem_of_cons]%elem_of_cons; split; reflexivity.
Qed.

Lemma subscriber_hears_witness :
  (∀ p, Ok p ∈ heard_once → readable unarchive archive p) ∧
  match run (auth_loop (heard_once ≫= auth_wire)) idle with
  | (w', r) => r = Some None ∧ token_at 5%N w' = Some (Some 42%N)
  end.
Proof.
  split; [exact heard_once_readable|].
  pose proof (subscriber_hears unarchive (auth_accepts 9%N) auth_batch (auth_topics 9%N) archive
    heard_once idle heard_once_readable) as Hs.
  assert (is_Some (run (auth_loop (heard_once ≫= auth_wire)) idle).2) as [r Hr]
    by (eexists; vm_compute; reflexivity).
  unfold auth_loop, auth_wire in *.
  destruct (run (run_subscriber _ _ _ _) idle) as [w' r']. cbn [snd] in Hr. subst r'.
  destruct Hs as [-> ->]. split; [reflexivity|vm_compute; reflexivity].
Defined.

Lemma subscriber_ends_witness :
  (∀ p, Ok p ∈ heard_once → readable unarchive archive p) ∧
  ∀ rest, (run (auth_loop ((heard_once ≫= auth_wire) ++
      Ok "auth" :: parts_of ("auth", archive announced) ++
      parts_of ("auth", archive announced) ++ rest)) idle).2 =
    Some (Some (Error.Custom "Invalid UTF8 topic")).
Proof.
  split; [exact heard_once_readable|]. intros rest.
  destruct (subscriber_ends unarchive (auth_accepts 9%N) auth_batch (auth_topics 9%N) archive
    heard_once rest idle heard_once_readable) as [_ Hs].
  unfold auth_loop, auth_wire. rewrite Hs by reflexivity. vm_compute. reflexivity.
Defined.
