(* ===== verification/Process.v ===== *)
(** * The end of a process

    [wait_all_tasks_or_ctrlc] ([bin/node/node.rs], [bin/auth/service.rs]): the
    tasks that a service leaves running, the order in which it waits for
    them, and how its process can end. *)
From S2P Require Import Prelude.

(** A task, as far as its end goes: whether its body may end by itself, and
    whether it is in a [select!] with the shutdown channel. *)
Record TaskKind : Set := { may_end : bool; heeds : bool }.

(** [run] -- bin/auth/service.rs:144-260

    The snapshot task, the subscriber, the server, and the metrics'
    collection and flush, in the order of the vector. *)
Definition auth_tasks : list TaskKind :=
  [{| may_end := false; heeds := false |}; {| may_end := true; heeds := true |};
   {| may_end := false; heeds := true |}; {| may_end := false; heeds := true |};
   {| may_end := false; heeds := true |}].
(** [run] -- bin/node/node.rs:264-363

    The subscriber, and the metrics' collection and flush; the snapshot task
    is not waited for. *)
Definition node_tasks : list TaskKind :=
  [{| may_end := true; heeds := true |}; {| may_end := false; heeds := true |};
   {| may_end := false; heeds := true |}].

Inductive TaskState : Set := Running | Completed | Panicked.
#[export] Instance task_state_eq_dec : EqDecision TaskState.
Proof. solve_decision. Defined.

(** Where the main task is: at its [i]th wait, in the five seconds before it
    exits, or past them; or it was aborted, or returned. *)
Inductive Main : Set :=
| Awaiting (i : nat)
| Stopping (code : nat)
| Exited (code : nat)
| Aborted
| Returned.
#[export] Instance main_eq_dec : EqDecision Main.
Proof. solve_decision. Defined.

Record Process : Set := { tasks : list TaskState; shutdown : bool; main : Main }.

(** What happens next: a task ends by itself, by the shutdown or by a panic,
    the main task moves, or the user asks for the end. *)
Inductive Event : Set :=
| Ends (i : nat)
| Heeds (i : nat)
| Panics (i : nat)
| Moves
| CtrlC.

Section process.
Context (abort : bool) (kinds : list TaskKind).

Definition Process_new : Process :=
  {| tasks := replicate (length kinds) Running; shutdown := false; main := Awaiting 0 |}.
Definition set_task (i : nat) (s : TaskState) (p : Process) : Process :=
  {| tasks := <[i := s]> (tasks p); shutdown := shutdown p; main := main p |}.
(** [shutdown_tx.send(())], and the five seconds before [exit] *)
Definition stop (code : nat) (p : Process) : Process :=
  {| tasks := tasks p; shutdown := true; main := Stopping code |}.
Definition set_main (m : Main) (p : Process) : Process :=
  {| tasks := tasks p; shutdown := shutdown p; main := m |}.

Definition alive (p : Process) : bool :=
  match main p with Awaiting _ | Stopping _ => true | Exited _ | Aborted | Returned => false end.
Definition task_runs (i : nat) (p : Process) : bool := bool_decide (tasks p !! i = Some Running).
Definition kind_has (f : TaskKind → bool) (i : nat) : bool :=
  match kinds !! i with Some k => f k | None => false end.

(** [wait_all_tasks_or_ctrlc] -- bin/auth/service.rs:266-291

    A move of the main task: the tasks are waited for one after the other. *)
Definition wait_all_tasks (p : Process) : option Process :=
  match main p with
  | Awaiting i =>
    match tasks p !! i with
    | None => Some (set_main Returned p)
    | Some Completed => Some (set_main (Awaiting (S i)) p)
    | Some Panicked => Some (stop 1 p)
    | Some Running => None
    end
  | Stopping code => Some (set_main (Exited code) p)
  | Exited _ | Aborted | Returned => None
  end.

(** An event, when it can happen.  [abort] is the release profile's answer to
    a panic.  The [select!] listens for the user also while the arm that waits
    is in its five seconds, but not in its own. *)
Definition step (p : Process) (e : Event) : option Process :=
  if alive p then
    match e with
    | Ends i => if task_runs i p && kind_has may_end i then Some (set_task i Completed p) else None
    | Heeds i =>
      if task_runs i p && shutdown p && kind_has heeds i then Some (set_task i Completed p) else None
    | Panics i =>
      if task_runs i p then
        Some (if abort then set_main Aborted p else set_task i Panicked p)
      else None
    | Moves => wait_all_tasks p
    | CtrlC => match main p with Awaiting _ | Stopping 1 => Some (stop 0 p) | _ => None end
    end
  else None.

(** A course of events. *)
Fixpoint course (es : list Event) (p : Process) : option Process :=
  match es with
  | [] => Some p
  | e :: es => match step p e with Some p => course es p | None => None end
  end.

(** ** What has happened *)

(** What a course so far says of the process. *)
Record explained (es : list Event) (p : Process) : Prop := {
  ex_length : length (tasks p) = length kinds;
  ex_running : shutdown p = false → ∀ j, tasks p !! j = Some Completed →
    Ends j ∈ es ∧ kind_has may_end j = true;
  ex_ended : ∀ j, Ends j ∈ es → tasks p !! j = Some Completed;
  ex_panicked : ∀ j, tasks p !! j = Some Panicked → abort = false ∧ Panics j ∈ es;
  ex_main : match main p with
    | Awaiting i => shutdown p = false ∧ ∀ j, (j < i)%nat → tasks p !! j = Some Completed
    | Stopping code | Exited code =>
      (code = 0%nat ∧ CtrlC ∈ es) ∨
      (code = 1%nat ∧ abort = false ∧ ∃ i, Panics i ∈ es ∧
        ∀ j, (j < i)%nat → Ends j ∈ es ∧ kind_has may_end j = true)
    | Aborted => abort = true ∧ ∃ i, Panics i ∈ es
    | Returned => ∀ j, (j < length kinds)%nat → kind_has may_end j = true
    end;
}.

Lemma explained_new : explained [] Process_new.
Proof.
  split; cbn; [apply length_replicate|..].
  - intros _ j [Hj _]%lookup_replicate. discriminate Hj.
  - intros j []%not_elem_of_nil.
  - intros j [Hj _]%lookup_replicate. discriminate Hj.
  - split; [done|lia].
Qed.

(** What is explained stays so, when more happens elsewhere. *)
Lemma explained_main es e p :
  explained es p →
  match main p with
  | Stopping code | Exited code =>
    (code = 0%nat ∧ CtrlC ∈ es ++ [e]) ∨
    (code = 1%nat ∧ abort = false ∧ ∃ i, Panics i ∈ es ++ [e] ∧
      ∀ j, (j < i)%nat → Ends j ∈ es ++ [e] ∧ kind_has may_end j = true)
  | _ => True
  end.
Proof.
  intros [_ _ _ _ Hm]. destruct (main p); try done;
    (destruct Hm as [[-> Hc]|(-> & Ha & i & Hi & Hj)]; [left|right]; split_and!; try done;
     [by apply elem_of_app; left|]; exists i; split; [by apply elem_of_app; left|];
     intros j Hlt; destruct (Hj j Hlt); split; [by apply elem_of_app; left|done]).
Qed.

(** One task changes: it has ended by itself, by the shutdown, or has panicked. *)
Lemma explained_task es e i s p :
  explained es p → tasks p !! i = Some Running → alive p = true →
  (s = Completed ∧ e = Ends i ∧ kind_has may_end i = true ∨
   s = Completed ∧ e = Heeds i ∧ shutdown p = true ∨
   s = Panicked ∧ e = Panics i ∧ abort = false) →
  explained (es ++ [e]) (set_task i s p).
Proof.
  intros Hex Hi Hal Hs. pose proof (explained_main es e p Hex) as Hmain.
  destruct Hex as [Hlen Hrun Hend Hpan Hm].
  assert (i < length (tasks p))%nat as Hlt by by eapply lookup_lt_Some.
  assert (∀ x, x ∈ es → x ∈ es ++ [e]) as Hmore by (intros; by apply elem_of_app; left).
  assert (e ∈ es ++ [e]) as Hnew by (apply elem_of_app; right; left).
  split; cbn [tasks shutdown main set_task].
  - by rewrite length_insert.
  - intros Hsd j [(-> & -> & _)|[Hne Hj]]%list_lookup_insert_Some.
    + destruct Hs as [(_ & -> & ?)|[(_ & _ & ?)|([=] & _)]]; [done|congruence].
    + destruct (Hrun Hsd j Hj). auto.
  - intros j [Hj|<-%list_elem_of_singleton]%elem_of_app.
    + rewrite list_lookup_insert_ne; [by apply Hend|]. intros ->. specialize (Hend _ Hj). congruence.
    + destruct Hs as [(-> & [= ->] & _)|[(_ & [=] & _)|(_ & [=] & _)]].
      by rewrite list_lookup_insert_eq.
  - intros j [(-> & -> & _)|[Hne Hj]]%list_lookup_insert_Some.
    + destruct Hs as [([=] & _)|[([=] & _)|(_ & -> & ?)]]. done.
    + destruct (Hpan j Hj). auto.
  - unfold alive in Hal. destruct (main p) as [k|c|c| |]; try done. destruct Hm as [Hsd Hm].
    split; [done|]. intros j Hj. rewrite list_lookup_insert_ne; [by apply Hm|].
    intros ->. specialize (Hm _ Hj). congruence.
Qed.

(** The main task moves. *)
Lemma explained_moves es e m b p :
  explained es p → (∀ j, e ≠ Ends j) →
  (b = false → shutdown p = false) →
  explained (es ++ [e]) {| tasks := tasks p; shutdown := b; main := m |} ↔
  match m with
  | Awaiting i => b = false ∧ ∀ j, (j < i)%nat → tasks p !! j = Some Completed
  | Stopping code | Exited code =>
    (code = 0%nat ∧ CtrlC ∈ es ++ [e]) ∨
    (code = 1%nat ∧ abort = false ∧ ∃ i, Panics i ∈ es ++ [e] ∧
      ∀ j, (j < i)%nat → Ends j ∈ es ++ [e] ∧ kind_has may_end j = true)
  | Aborted => abort = true ∧ ∃ i, Panics i ∈ es ++ [e]
  | Returned => ∀ j, (j < length kinds)%nat → kind_has may_end j = true
  end.
Proof.
  intros [Hlen Hrun Hend Hpan _] He Hb. split; [by intros [_ _ _ _ Hm]|]. intros Hm.
  assert (∀ x, x ∈ es → x ∈ es ++ [e]) as Hmore by (intros; by apply elem_of_app; left).
  split; cbn [tasks shutdown main]; [done| | | |done].
  - intros Hf j Hj. destruct (Hrun (Hb Hf) j Hj). auto.
  - intros j [Hj|Hj%list_elem_of_singleton]%elem_of_app; [by apply Hend|]. by destruct (He j).
  - intros j Hj. destruct (Hpan j Hj). auto.
Qed.

Lemma explained_step es e p p' :
  explained es p → step p e = Some p' → explained (es ++ [e]) p'.
Proof.
  intros Hex. unfold step. destruct (alive p) eqn:Hal; [|done].
  pose proof (explained_main es e p Hex) as Hmain. pose proof (ex_main _ _ Hex) as Hm.
  assert (∀ m b, (∀ j, e ≠ Ends j) → (b = false → shutdown p = false) → _) as Hmoves
    by (intros m b H1 H2; exact (proj2 (explained_moves es e m b p Hex H1 H2))).
  destruct e as [i|i|i| |].
  - destruct (task_runs i p) eqn:Hr, (kind_has may_end i) eqn:Hk; try done. intros [= <-].
    apply explained_task; [done|by apply bool_decide_eq_true in Hr|done|]. by left.
  - destruct (task_runs i p) eqn:Hr, (shutdown p) eqn:Hsd, (kind_has heeds i); try done.
    intros [= <-]. apply explained_task; [done|by apply bool_decide_eq_true in Hr|done|]. by right; left.
  - destruct (task_runs i p) eqn:Hr; [|done]. destruct abort eqn:Hab; intros [= <-].
    + apply Hmoves; [done..|]. split; [done|]. exists i. apply elem_of_app. right. left.
    + apply explained_task; [done|by apply bool_decide_eq_true in Hr|done|]. by right; right.
  - unfold wait_all_tasks. destruct (main p) as [i|c|c| |] eqn:Hmp; try done.
    2:{ intros [= <-]. by apply Hmoves. }
    destruct Hm as [Hsd Hdone]. destruct (tasks p !! i) as [[]|] eqn:Hi; intros [= <-].
    + apply Hmoves; [done..|]. split; [done|]. intros j Hj.
      destruct (decide (j = i)) as [->|]; [done|apply Hdone; lia].
    + destruct (ex_panicked _ _ Hex i Hi) as [Ha Hp]. apply Hmoves; [done..|]. right.
      split_and!; [done|done|]. exists i. split; [by apply elem_of_app; left|]. intros j Hj.
      destruct (ex_running _ _ Hex Hsd j (Hdone j Hj)). split; [by apply elem_of_app; left|done].
    + apply Hmoves; [done..|]. intros j Hj. apply lookup_ge_None in Hi.
      rewrite (ex_length _ _ Hex) in Hi. apply (ex_running _ _ Hex Hsd j), Hdone. lia.
  - destruct (main p) as [i|[|[|]]|c| |] eqn:Hmp; try done; intros [= <-];
      (apply Hmoves; [done..|]; left; split; [done|]; apply elem_of_app; right; left).
Qed.

Lemma course_explained es es0 p p' :
  explained es0 p → course es p = Some p' → explained (es0 ++ es) p'.
Proof.
  revert es0 p; induction es as [|e es IH]; intros es0 p Hex; cbn [course].
  - intros [= <-]. by rewrite app_nil_r.
  - destruct (step p e) as [p1|] eqn:Hs; [|done]. intros Hc. rewrite cons_middle, app_assoc.
    eapply IH; [|exact Hc]. by eapply explained_step.
Qed.
End process.

Section services.
Context (abort : bool).

Definition service_course (kinds : list TaskKind) (es : list Event) : option Process :=
  course abort kinds es (Process_new kinds).

Lemma service_explained kinds es p :
  service_course kinds es = Some p → explained abort kinds es p.
Proof. exact (course_explained abort kinds es [] _ p (explained_new abort kinds)). Qed.

(** C10: a service whose subscriber has ended lives on without it.  Once the
    subscriber of either service has ended, it stays so, and the process is
    not ended by that: it waits on at its snapshot task, or at its metrics
    task in the node's case, which end only at a shutdown.  The process ends by
    the user's Ctrl-C, with code 0, and by a panic: at once in the release
    profile, and otherwise, with code 1, only if it was the panic of the task it
    waits at, so that of the authentication service's tasks only the snapshot
    task's panic ends it. *)
Theorem deaf_process (kinds : list TaskKind) (sub : nat) (es : list Event) (p : Process)
    (Hkinds : kinds = auth_tasks ∧ sub = 1%nat ∨ kinds = node_tasks ∧ sub = 0%nat)
    (Hcourse : service_course kinds es = Some p) :
  (Ends sub ∈ es → tasks p !! sub = Some Completed) ∧
  match main p with
  | Awaiting i => i = 0%nat ∨ i = 1%nat ∧ sub = 0%nat ∧ Ends sub ∈ es
  | Stopping code | Exited code =>
    (code = 0%nat ∧ CtrlC ∈ es) ∨
    (code = 1%nat ∧ abort = false ∧
      (Panics 0 ∈ es ∨ Panics 1 ∈ es ∧ sub = 0%nat ∧ Ends sub ∈ es))
  | Aborted => abort = true ∧ ∃ i, Panics i ∈ es
  | Returned => False
  end.
Proof.
  pose proof (service_explained kinds es p Hcourse) as [_ Hrun Hend _ Hm]. split; [apply Hend|].
  assert (∀ i, (∀ j, (j < i)%nat → Ends j ∈ es ∧ kind_has kinds may_end j = true) →
    i = 0%nat ∨ i = 1%nat ∧ sub = 0%nat ∧ Ends sub ∈ es) as Hi.
  { intros [|[|i]] Hj; [by left| |].
    - destruct (Hj 0%nat) as [He Hk]; [lia|]. right.
      destruct Hkinds as [[-> ->]|[-> ->]]; [discriminate Hk|by split_and!].
    - destruct (Hj 0%nat) as [_ Hk0]; [lia|]. destruct (Hj 1%nat) as [_ Hk1]; [lia|].
      destruct Hkinds as [[-> _]|[-> _]]; [discriminate Hk0|discriminate Hk1]. }
  assert (∀ code, (code = 0%nat ∧ CtrlC ∈ es) ∨
    (code = 1%nat ∧ abort = false ∧ ∃ i, Panics i ∈ es ∧
      ∀ j, (j < i)%nat → Ends j ∈ es ∧ kind_has kinds may_end j = true) →
    (code = 0%nat ∧ CtrlC ∈ es) ∨ (code = 1%nat ∧ abort = false ∧
      (Panics 0 ∈ es ∨ Panics 1 ∈ es ∧ sub = 0%nat ∧ Ends sub ∈ es))) as Hcode.
  { intros code [?|(? & ? & i & Hp & Hj)]; [by left|right]. split_and!; [done..|].
    destruct (Hi i Hj) as [->|(-> & ? & ?)]; [by left|by right]. }
  destruct (main p) as [i|c|c| |]; [|by apply Hcode|by apply Hcode|done|].
  - destruct Hm as [Hsd Hj]. apply Hi. intros j Hlt. by apply Hrun, Hj.
  - destruct Hkinds as [[-> _]|[-> _]]; [discriminate (Hm 0%nat ltac:(cbn; lia))|].
    discriminate (Hm 1%nat ltac:(cbn; lia)).
Qed.
End services.

(** The subscriber ends, and what panics in a debug build is not noticed. *)
Lemma deaf_process_witness :
  (auth_tasks = auth_tasks ∧ 1%nat = 1%nat) ∧
  match service_course false auth_tasks [Ends 1; Panics 3] with
  | Some p => tasks p !! 1%nat = Some Completed ∧ main p = Awaiting 0
  | None => False
  end.
Proof.
  split; [split; reflexivity|].
  destruct (service_course false auth_tasks [Ends 1; Panics 3]) as [p|] eqn:Hp;
    [|vm_compute in Hp; discriminate Hp].
  destruct (deaf_process false auth_tasks 1 _ p (or_introl (conj eq_refl eq_refl)) Hp) as [He _].
  split; [apply He; left|]. vm_compute in Hp. injection Hp as <-. reflexivity.
Defined.
