(* ===== verification/Contract.v ===== *)
(** * The contract of the bus

    What the API server publishes, in every interleaving ([published]), and
    what the services behind the bus make of it. *)
From S2P Require Import Prelude Task Foreign Naming Wireguard Connection ConnStore Subscription.
From S2P Require Import Key Inbound Node Link Metrics Db World Trials Sync Consistency SyncSafe.
From S2P Require Import Reload SyncSpec Background Http ApiConn ApiSub ApiKey Conduct ApiTrial.
From S2P Require Import ApiNode Api Conducts Service Client Xray Agent.
Local Open Scope Z_scope.
Local Open Scope prog_scope.

Section contract.
Context `{!Oracle, !Postgres, !Ipv6Text, !UuidText, !IterOrder, !Chrono, !WgCrypto, !UrlLib,
  !Base32, !Hmac, !SeriesHash, !Rfc3339,
  !F64, !Tonic}.

Definition contract (w : World) : Prop := ∀ p, p ∈ bus w → published p.


#[local] Instance contract_tolerates : Tolerates contract anything.
Proof.
  split; [apply _| | |].
  - intros w w' (Hb & _) Hc. split; [|done]. unfold contract. by rewrite Hb.
  - intros p w Hp Hc. split; [|done].
    intros q [Hin| ->%list_elem_of_singleton]%elem_of_app; [by apply Hc|done].
  - intros secret who id t rf w. assert (∀ w w', bus w' = bus w → contract w →
      contract w' ∧ anything w w') as Hsame by (intros ?? Hb ?; split; [|done]; unfold contract; by rewrite Hb).
    apply (okp_act contract anything); [by intros; apply Hsame|]. intros [] w1.
    apply (okp_bind contract anything); [by apply okp_act; [intros; apply Hsame|]|].
    intros [e|] w2; [by apply okp_ret|]. apply (okp_act contract anything); [|done].
    intros w3 Hc. apply Hsame; [by destruct (file_fault _)|done].
Qed.

Context {V : Type} (metrics : MetricStorage (V := V)) (config : ServiceConfig).

Lemma published_always (w0 w : World) :
  contract w0 → reachable (api_service metrics config) w0 w → contract w.
Proof. intros H0' Hr. by apply (reachable_conduct contract anything metrics config w0 w). Qed.

(** The contract of the bus.  Whatever the server publishes, in every
    interleaving, is either a batch of creations, on the topic the request
    named, or one message about one connection on the topic of that
    connection: the authentication topic when it has a token, its
    environment's otherwise. *)
Theorem bus_contract (w0 w : World) (Hstart : contract w0)
    (Hreach : reachable (api_service metrics config) w0 w) (topic : Topic) (msgs : list Message)
    (Hin : (topic, msgs) ∈ bus w) :
  (∃ l, msgs = (λ '(i, c), conn_create_message c i) <$> l) ∨
  (∃ i c m, topic = (if is_some (Proto.token (Conn.proto c)) then Topic.Auth
                     else Topic.Updates (Conn.env c)) ∧ msgs = [m] ∧
    (m = conn_create_message c i ∨ m = conn_update_message c i ∨ m = conn_delete_message c i)).
Proof.
  destruct (published_always w0 w Hstart Hreach (topic, msgs) Hin) as [Hl|(i & c & m & Hp & Hm)];
    [by left|right]. exists i, c, m. injection Hp as -> ->. split_and!; [|done|done].
  unfold conn_topic, get_token. cbn. by destruct (Conn.proto c).
Qed.

Lemma published_batch_ok p : published p → batch_ok p.2.
Proof.
  intros [[l ->]|(i & c & m & -> & Hm)]; [left|right; by eexists].
  apply Forall_fmap, Forall_true. intros [i c]. by left.
Qed.

(** ** The node against the server *)
Context {D X : Type} `{!KernelIface D, !XrayService X}.

(** The agent receives announcements one after the other. *)
Definition agent_run (agent : AgentConfig) (l : list (Topic * list Message))
    (a : Svc (Devices D X)) : Svc (Devices D X) :=
  foldl (λ a p, (run (agent_receive agent (Topic.as_str p.1, Some p.2)) a).1) a l.

Lemma receive_served agent topic_str msgs a :
  batch_ok msgs → Forall (λ m, uuid_ok (Message.conn_id m)) msgs → served a →
  served (run (agent_receive agent (topic_str, Some msgs)) a).1.
Proof.
  intros Hb Hids Hs. unfold agent_receive, receive. destruct (Topic.from_str topic_str); [|done].
  destruct (agent_accepts _ _); [|done]. rewrite run_bind.
  pose proof (batch_served agent msgs a Hb Hids Hs) as Hr.
  by destruct (run (handle_messages_batch agent msgs) a) as [a' [r|]].
Qed.

(** C3: the node does what its table says, whatever it hears.  Take any of the
    server's announcements, of any reachable state, in any order, with losses
    and repetitions: an agent that starts with an account in Xray behind every
    Xray connection of its table ends with one, whatever fails on the way, and
    however the messages of one batch overlap. *)
Theorem agent_follows_api (agent : AgentConfig) (w0 w : World) (a : Svc (Devices D X))
    (l : list (Topic * list Message)) (Hstart : contract w0)
    (Hreach : reachable (api_service metrics config) w0 w)
    (Hl : ∀ p, p ∈ l → p ∈ bus w ∧ Forall (λ m, uuid_ok (Message.conn_id m)) p.2)
    (Hs : served a) : served (agent_run agent l a).
Proof.
  pose proof (published_always w0 w Hstart Hreach) as Hc. clear Hreach Hstart.
  revert a Hs. induction l as [|p l IH]; intros a Hs; [done|]. cbn.
  destruct (Hl p) as [Hin Hids]; [by left|]. apply IH.
  - intros q Hq. apply Hl. by right.
  - apply receive_served; [apply published_batch_ok; by apply Hc|done|done].
Qed.
End contract.

(** ** A run of both *)

Definition post_vmess : IO unit :=
  serve no_metrics example_config (Some "Bearer t") (PostConnection {| cc_env := Env.Dev;
    cc_subscription_id := None; cc_proto := ProtoTag.Vmess; cc_days := None |});; Ret tt.
Definition created_vmess : list (IO unit) * World :=
  schedule (replicate 7 0%nat) ([post_vmess], world_new).

Lemma created_vmess_reachable :
  reachable (api_service no_metrics example_config) world_new created_vmess.2.
Proof.
  exists created_vmess.1. rewrite <- surjective_pairing. eapply rtc_l;
    [apply step_spawn; apply (serves_request no_metrics example_config)|].
  apply schedule_steps.
Qed.

Lemma contract_new : contract world_new.
Proof. intros p Hp. by apply not_elem_of_nil in Hp. Qed.

Lemma bus_contract_witness :
  contract world_new ∧ reachable (api_service no_metrics example_config) world_new created_vmess.2 ∧
  ∃ m, bus created_vmess.2 = [(Topic.Updates Env.Dev, [m])] ∧
    ((∃ l, [m] = (λ '(i, c), conn_create_message c i) <$> l) ∨
     (∃ i c m', Topic.Updates Env.Dev = (if is_some (Proto.token (Conn.proto c)) then Topic.Auth
                     else Topic.Updates (Conn.env c)) ∧ [m] = [m'] ∧
      (m' = conn_create_message c i ∨ m' = conn_update_message c i ∨ m' = conn_delete_message c i))).
Proof.
  split; [exact contract_new|]. split; [exact created_vmess_reachable|].
  destruct (bus created_vmess.2) as [|[t msgs] l] eqn:Hb; [discriminate Hb|].
  assert (∃ m, (t, msgs) = (Topic.Updates Env.Dev, [m]) ∧ l = []) as (m & Hp & ->).
  { vm_compute in Hb. injection Hb as <- <- <-. eexists. split; reflexivity. }
  injection Hp as -> ->. exists m. split; [reflexivity|].
  apply (bus_contract no_metrics example_config world_new created_vmess.2 contract_new
    created_vmess_reachable (Topic.Updates Env.Dev) [m]).
  rewrite Hb. left.
Defined.

Definition example_agent : AgentConfig :=
  {| has_wg := true; has_xray := true; has_stats := true; agent_node := example_node |}.
Definition fresh_agent : Svc (Devices (gmap (list Z) Peer) XrayTable) :=
  {| svc_mem := ∅; svc_file := None;
     svc_device := {| dev_wg := ∅; dev_xray := xray_empty; 
       dev_metrics := {| batch := []; beat_index := 0 |} |}; svc_tick := 0 |}.

Lemma fresh_served : served fresh_agent.
Proof. split; cbn; [intros id c Hc|intros id [c Hc]]; by rewrite lookup_empty in Hc. Qed.

Lemma agent_follows_api_witness :
  served fresh_agent ∧
  served (agent_run example_agent (bus created_vmess.2) fresh_agent) ∧
  size (svc_mem (agent_run example_agent (bus created_vmess.2) fresh_agent)) = 1%nat.
Proof.
  split; [exact fresh_served|]. split; [|vm_compute; reflexivity].
  apply (agent_follows_api no_metrics example_config example_agent world_new created_vmess.2
    fresh_agent (bus created_vmess.2) contract_new created_vmess_reachable); [|exact fresh_served].
  intros p Hp. split; [exact Hp|].
  assert (Forall (λ p, Forall (λ m, uuid_ok (Message.conn_id m)) p.2) (bus created_vmess.2)) as Hall.
  { repeat constructor. }
  rewrite Forall_forall in Hall. exact (Hall p Hp).
Defined.
