(* ===== verification/Truth.v ===== *)
(** * What is announced is true

    Every announcement of the API server, in every interleaving, is about a
    connection that the database has, under the same id, with the same
    protocol, secrets, environment, owner and expiry: the handlers announce
    what they read from the cache or have just inserted, and none of that is
    ever taken back ([Consistency.keeps]).  What the services behind the bus
    accept is therefore the server's. *)
From S2P Require Import Prelude Task Foreign Naming Wireguard Connection ConnStore Subscription.
From S2P Require Import Key Inbound Node Link Metrics Db World Trials Sync Consistency SyncSafe.
From S2P Require Import Reload SyncSpec Background Http ApiConn ApiSub ApiKey Conduct ApiTrial.
From S2P Require Import ApiNode Api Service Client Auth Xray Agent Startup Tables Mirror Contract.
Local Open Scope Z_scope.
Local Open Scope prog_scope.

(** ** Programs that announce nothing *)

Notation mute := (spares bus).

Lemma mute_keep_io {A} (f : A → IO bool) (l : list A) : (∀ x, mute (f x)) → mute (keep_io f l).
Proof.
  intros Hf. induction l as [|x l IH]; cbn; [done|]. apply spares_bind; [done|]. intros b.
  by apply spares_bind.
Qed.

Lemma mute_try_join2 `{!Oracle} {A B E} (p : IO (result A E)) (q : IO (result B E)) :
  mute p → mute q → mute (try_join2 turn p q).
Proof. by apply spares_try_join2. Qed.

Section mutes.
Context `{!Oracle}.

Lemma mute_ask {A} (f : nat → A) : mute (ask f).
Proof. done. Qed.
Lemma mute_write_mem f : mute (write_mem f).
Proof. done. Qed.
Lemma mute_to_bytes l : mute (to_bytes l).
Proof. done. Qed.
Lemma mute_update_mem {A} (f : Cache → Cache * A) : mute (update_mem f).
Proof. split; [|done]. intros w. by destruct (f _). Qed.
Lemma mute_db_do {A} (f : DateTime → Db → Db * result A Error) : mute (db_do f).
Proof. split; [|done]. intros w. destruct (f _ _). by destruct (pg_fault _) as [|[]]. Qed.
Lemma mute_db_do_or_panic {A} (f : DateTime → Db → option (Db * result A Error)) :
  mute (db_do_or_panic f).
Proof.
  split; [|by intros []]. intros w. destruct (f _ _) as [[]|]; by destruct (pg_fault _) as [|[]].
Qed.
End mutes.

#[export] Hint Resolve mute_ask mute_write_mem mute_to_bytes mute_update_mem mute_db_do
  mute_db_do_or_panic : spares.
#[export] Hint Extern 1 (mute (read_mem _)) => apply spares_reads : spares.
#[export] Hint Extern 1 (mute (db_get _)) => apply mute_db_do : spares.
#[export] Hint Extern 1 (mute now) => apply mute_ask : spares.
#[export] Hint Extern 1 (mute new_v4) => apply mute_ask : spares.
#[export] Hint Extern 1 (mute (generate_random_password _)) => apply mute_ask : spares.

Ltac hush_step :=
  match goal with
  | |- mute (keep_io _ _) => apply mute_keep_io; intros
  | |- mute (try_join2 _ _ _) => apply mute_try_join2
  | |- _ => spare_step
  end.
Ltac hush := cbv beta zeta; repeat (hush_step; cbv beta iota zeta).

Section silent.
Context `{!Oracle, !Postgres, !Ipv6Text, !UuidText, !IterOrder, !Chrono, !WgCrypto, !UrlLib,
  !Base32, !Hmac, !SeriesHash, !Rfc3339}.

Lemma mute_mark_conn id b : mute (mark_conn id b).
Proof. unfold mark_conn. hush. Qed.
Hint Resolve mute_mark_conn : spares.
Lemma mute_restore_connection id : mute (restore_connection id).
Proof. unfold restore_connection. hush. Qed.
Lemma mute_add_days_or_panic t d : mute (add_days_or_panic t d).
Proof. unfold add_days_or_panic. hush. Qed.
Hint Resolve mute_add_days_or_panic : spares.
Lemma mute_add_conn id c : mute (add_conn id c).
Proof. unfold add_conn. hush. Qed.
Lemma mute_add_sub s : mute (add_sub s).
Proof. unfold add_sub. hush. Qed.
Lemma mute_add_node id n : mute (add_node id n).
Proof. unfold add_node. hush. Qed.
Lemma mute_update_node_status u e st : mute (update_node_status u e st).
Proof. unfold update_node_status. hush. Qed.
Lemma mute_update_sub id req : mute (update_sub id req).
Proof. unfold update_sub, update_entry. hush. Qed.
Lemma mute_extend_entry id d : mute (extend_entry id d).
Proof. unfold extend_entry. hush. Qed.
Lemma mute_find_referrer c : mute (find_referrer c).
Proof. unfold find_referrer. hush. Qed.
Lemma mute_get_state : mute get_state_from_db.
Proof. unfold get_state_from_db. hush. Qed.
Lemma mute_new_proto t n : mute (new_proto t n).
Proof. unfold new_proto. hush. Qed.
Lemma mute_key_get c : mute (key_get c).
Proof. unfold key_get. hush. Qed.
Hint Resolve mute_add_conn mute_add_sub mute_add_node mute_update_node_status mute_update_sub
  mute_new_proto mute_key_get : spares.
Lemma mute_admit req n : mute (admit_connection req n).
Proof. unfold admit_connection, check_subscription. hush. Qed.
Lemma mute_subs_with_activity b : mute (subs_with_activity b).
Proof. unfold subs_with_activity. hush. Qed.
Lemma mute_save_trial secret who id t ref_by : mute (save_trial_hmac secret who id t ref_by).
Proof.
  unfold save_trial_hmac, append_line. split; [done|]. intros []. hush. split; [|done].
  intros w. by destruct (file_fault _).
Qed.
Lemma mute_trial_taken secret who : mute (trial_taken secret who).
Proof. by destruct who. Qed.
Lemma mute_create_subscription req id c b : mute (create_subscription req id c b).
Proof. unfold create_subscription. hush. Qed.
End silent.
#[export] Hint Resolve mute_mark_conn mute_restore_connection mute_add_days_or_panic mute_add_conn
  mute_add_sub mute_add_node mute_update_node_status mute_update_sub mute_extend_entry
  mute_find_referrer mute_get_state mute_new_proto mute_key_get mute_admit
  mute_subs_with_activity mute_save_trial mute_trial_taken mute_create_subscription : spares.

(** ** True announcements *)
Section truth.
Context `{!Oracle, !Postgres, !Ipv6Text, !UuidText, !IterOrder, !Chrono, !WgCrypto, !UrlLib,
  !Base32, !Hmac, !SeriesHash, !Rfc3339}.

(** The database has the connection, but for its deletion mark and its
    modification time. *)
Definition vouched (d : Db) (id : Uuid) (c : Conn) : Prop :=
  ∃ r, t_connections d !! id = Some r ∧ row_fixed r = row_fixed (row_of id c).

(** What the server may announce when [asked] are the batches that requests
    asked for: the creations a request wanted, on the topic it named, or one
    message on the topic of its connection; of connections that the database
    has. *)
Definition announced (asked : ConnType → Prop) (d : Db) (p : Topic * list Message) : Prop :=
  (∃ req l, asked req ∧ l ≠ [] ∧ p = (ct_topic req, (λ '(i, c), as_create_message c i) <$> l) ∧
    ∀ i c, (i, c) ∈ l → wanted req c ∧ vouched d i c) ∨
  (∃ i c m, p = (conn_topic c, [m]) ∧ vouched d i c ∧
    (m = conn_create_message c i ∨ m = conn_update_message c i ∨ m = conn_delete_message c i)).
Definition true_of : Db → Topic * list Message → Prop := announced (λ _, True).
Definition truthful (w : World) : Prop := ∀ p, p ∈ bus w → true_of (db w) p.

Lemma vouched_le d d' i c : db_le d d' → vouched d i c → vouched d' i c.
Proof.
  intros Hle (r & Hr & Hf). destruct (le_conns _ _ Hle _ _ Hr) as (r' & Hr' & Hf').
  exists r'. split; [done|congruence].
Qed.
Lemma announced_le asked d d' p : db_le d d' → announced asked d p → announced asked d' p.
Proof.
  intros Hle [(req & l & Ha & Hne & Hp & Hl)|(i & c & m & Hp & Hv & Hm)]; [left|right].
  - exists req, l. split_and!; [done..|]. intros i c Hi. destruct (Hl i c Hi) as [Hw Hv].
    split; [done|]. by eapply vouched_le.
  - exists i, c, m. split_and!; [done|by eapply vouched_le|done].
Qed.
Lemma true_of_le d d' p : db_le d d' → true_of d p → true_of d' p.
Proof. apply announced_le. Qed.

(** The batches asked for, from here on. *)
Context (asked : ConnType → Prop).
Definition told (w : World) : Prop := ∀ p, p ∈ bus w → announced asked (db w) p.
(** What a step adds to the bus is true. *)
Definition speaks (w w' : World) : Prop := ∀ p, p ∈ bus w' → p ∈ bus w ∨ announced asked (db w') p.

Lemma told_speaks w w' : told w → keeps w w' → speaks w w' → told w'.
Proof.
  intros Ht [Hle _] Hs p Hp. destruct (Hs p Hp) as [Hin|Htrue]; [|done].
  by eapply announced_le, Ht.
Qed.
Lemma speaks_same w w' : bus w' = bus w → speaks w w'.
Proof. intros Hb p Hp. left. by rewrite <- Hb. Qed.

Notation says p w := (attests backed keeps speaks p (λ _ _, True) w).
Notation knows P w := (onward backed keeps P w).

Lemma says_mute {A} (p : IO A) w : mute p → says p w.
Proof.
  revert w; induction p as [a| |X f k IH]; intros w; [by intros _ w' _ _|done|].
  intros [Hf Hk] w' _ _ _ _. split; [by apply speaks_same|]. by apply IH.
Qed.

Lemma says_bind {A B} (p : IO A) (h : A → IO B) w :
  says p w → (∀ a w', says (h a) w') → says (bind p h) w.
Proof. intros Hp Hh. eapply (attests_bind backed keeps speaks); [exact Hp|]. intros. apply Hh. Qed.

(** What a task read of the cache, or did to the database, it knows for good. *)
Lemma says_read {A B} (f : Cache → A) (P : A → Db → Prop) (h : A → IO B) w :
  (∀ m d, mem_ok m d → P (f m) d) → (∀ a d d', db_le d d' → P a d → P a d') →
  (∀ a w', knows (λ w, P a (db w)) w' → says (h a) w') →
  says (bind (read_mem f) h) w.
Proof.
  intros Hp Hst Hh w' _ HI _ _. split; [by apply speaks_same|]. apply Hh.
  intros w'' [Hle _] _. eapply Hst; [exact Hle|]. by apply Hp, HI.
Qed.

Lemma says_send t l w : knows (λ w, announced asked (db w) (t, l)) w → says (send_binary t l) w.
Proof.
  intros Ht w' Hg HI HI' Hg'. split; [|by intros w'' _ _].
  cbn in *. destruct (zmq_fault _); [by apply speaks_same|]. intros p. cbn.
  intros [Hin| ->%list_elem_of_singleton]%elem_of_app; [by left|right]. by apply (Ht w').
Qed.

Lemma says_bytes {B} l (h : result (list Message) string → IO B) w :
  (∀ w', keeps w w' → says (h (Ok l)) w') → (∀ e w', says (h (Err e)) w') →
  says (bind (to_bytes l) h) w.
Proof.
  intros Hok Herr w' Hg HI _ Hg'. split; [by apply speaks_same|]. cbn.
  destruct (rkyv_fault _); [apply Herr|apply Hok]. by etransitivity.
Qed.

Lemma knows_keeps P w w' : keeps w w' → knows P w → knows P w'.
Proof. apply (onward_mono backed keeps). Qed.

Lemma cached_vouched m d id c : mem_ok m d → connections m !! id = Some c → vouched d id c.
Proof. intros Hm Hc. by destruct (mem_conns _ _ Hm _ _ Hc) as [_ Hv]. Qed.

Lemma knows_single id c m w :
  m = conn_create_message c id ∨ m = conn_update_message c id ∨ m = conn_delete_message c id →
  knows (λ w, vouched (db w) id c) w → knows (λ w, announced asked (db w) (conn_topic c, [m])) w.
Proof. intros Hm Hv w' Hg HI. right. exists id, c, m. split_and!; [done|by apply Hv|done]. Qed.

(** *** Operations *)

Lemma says_delete_connection id c w :
  knows (λ w, vouched (db w) id c) w → says (delete_connection id c) w.
Proof.
  intros Hv. unfold delete_connection. eapply (attests_bind backed keeps speaks _ _ (λ _ _, True));
    [by apply says_mute|]. intros [c'|] w1 Hg1 _ _; [|by intros w' _ _].
  destruct (get_deleted c'); [by intros w' _ _|].
  eapply (attests_bind backed keeps speaks _ _ (λ _ _, True)); [apply says_mute, mute_db_do|].
  intros [[]|e] w2 Hg2 _ _; [|by intros w' _ _]. cbv zeta. apply says_bytes; [|by intros e w' w'' _ _].
  intros w3 Hg3. apply says_bind; [|intros [[]|e] w4; apply says_mute; hush].
  apply says_send. apply (knows_single id); [auto|].
  eapply knows_keeps; [|exact Hv]. by do 2 (etransitivity; [done|]).
Qed.

Lemma says_restore_task cc w :
  knows (λ w, vouched (db w) cc.1 cc.2) w → says (restore_task cc) w.
Proof.
  destruct cc as [id c]. intros Hv. unfold restore_task. apply says_bytes; [|by intros e w' w'' _ _].
  intros w1 Hg1. apply says_bind; [|intros [[]|e] w2; apply says_mute; hush].
  apply says_send, (knows_single id); [auto|]. by eapply knows_keeps.
Qed.

(** What [get_by_subscription_id] finds are connections of the cache. *)
Lemma by_subscription_vouched m d sub_id conns i c :
  mem_ok m d → get_by_subscription_id (connections m) sub_id = Some conns → (i, c) ∈ conns →
  vouched d i c.
Proof.
  intros Hm Hc Hi. eapply (elem_of_get_by_subscription_id _ _ _ Hc) in Hi as [Hi _].
  by eapply cached_vouched.
Qed.

(** A list of connections that a task holds, each known to the database. *)
Definition all_vouched (d : Db) (l : list (Uuid * Conn)) : Prop := ∀ i c, (i, c) ∈ l → vouched d i c.
Lemma all_vouched_le l d d' : db_le d d' → all_vouched d l → all_vouched d' l.
Proof. intros Hle Hl i c Hi. by eapply vouched_le, Hl. Qed.
Lemma all_vouched_keep (f : Uuid * Conn → bool) l d : all_vouched d l → all_vouched d (keep f l).
Proof. intros Hl i c [Hi _]%elem_of_keep. by apply Hl. Qed.

Lemma says_restore_by_subscription id w : says (restore_connections_by_subscription id) w.
Proof.
  unfold restore_connections_by_subscription. apply (says_read _ (λ l d, all_vouched d l)).
  - intros m d Hm. destruct (get_by_subscription_id _ _) as [conns|] eqn:Hc;
      [|by intros i c []%not_elem_of_nil]. apply all_vouched_keep. intros i c.
    by eapply by_subscription_vouched.
  - intros l d d'. apply all_vouched_le.
  - intros [|x l] w1 Hl; [by intros w' _ _|]. apply says_bind; [|by intros r w2 w' _ _].
    apply (attests_join_all backed keeps speaks turn); [intros w2; by apply speaks_same|].
    intros [i c] Hi. apply says_restore_task. intros w2 Hg HI. by apply (Hl w2 Hg HI).
Qed.

Lemma says_add_days id d w : says (add_days id d) w.
Proof.
  unfold add_days. apply says_bind; [apply says_mute; hush|]. intros t w1.
  apply says_bind; [apply says_mute; hush|]. intros b w2.
  apply says_bind; [apply says_mute; hush|]. intros [] w3; [|by intros w' _ _].
  apply says_bind; [apply says_mute; hush|]. intros [s|e] w4; [|by intros w' _ _].
  destruct b; [|by intros w' _ _]. apply says_bind; [apply says_restore_by_subscription|].
  by intros r w5 w' _ _.
Qed.

Lemma says_delete_all l w : knows (λ w, all_vouched (db w) l) w → says (delete_all l) w.
Proof.
  intros Hl. apply (attests_for_each backed keeps speaks). intros [i c] w1 Hi Hg.
  apply says_bind; [|by intros r w2 w' _ _]. apply says_delete_connection.
  intros w2 Hg2 HI. apply (Hl w2); [by etransitivity|done|done].
Qed.

(** *** A connection that was inserted and is then announced *)
Lemma insert_vouched id c d d' :
  pg_conn_insert (ConnRow.from id c) d = (d', Ok tt) → vouched d' id c.
Proof.
  unfold pg_conn_insert. cbn [ConnRow.conn_id ConnRow.from].
  repeat case_match; try done; intros [= <-]; eexists; cbn; by rewrite lookup_insert_eq.
Qed.

Lemma add_conn_known id c w :
  attests backed keeps speaks (add_conn id c)
    (λ r w, match r with Ok (Status.Ok _) => vouched (db w) id c | _ => True end) w.
Proof.
  unfold add_conn. cbn [conn_validate]. cbv zeta.
  eapply (attests_bind backed keeps speaks _ _
    (λ (r : result unit Error) w, match r with Ok _ => vouched (db w) id c | Err _ => True end)).
  - intros w1 _ HI _ _. split; [exact (speaks_same _ _ (proj1 (mute_db_do (λ _, pg_conn_insert (ConnRow.from id c))) w1))|]. intros w2 [Hle _] _. revert Hle. cbn.
    destruct (pg_conn_insert (ConnRow.from id c) (db w1)) as [d r] eqn:Hp.
    destruct (pg_fault _) as [|[]]; cbn; [|done..]. destruct r as [[]|]; [|done].
    intros Hle. eapply vouched_le, insert_vouched; [exact Hle|exact Hp].
  - intros [[]|e] w1 _ _ Hv; [|by intros w' _ _].
    eapply (attests_bind backed keeps speaks _ _ (λ _ _, True)); [apply says_mute, mute_update_mem|].
    intros r w2 Hg _ _ w3 Hg3 HI3. specialize (Hv w3 ltac:(by etransitivity) HI3).
    by repeat case_match.
Qed.

(** The end of both handlers that create connections. *)
Lemma says_announced {B} id c (k : result Status SyncError → IO B) (h : Uuid → IO B)
    (err : string → IO B) w :
  (∀ r, match r with Ok (Status.Ok _) => True | _ => mute (k r) end) →
  (∀ i, k (Ok (Status.Ok i)) =
    (b <- to_bytes [as_create_message c id];;
     match b with
     | Err e => err e
     | Ok bytes =>
       match create_topic c with Some topic => send_binary topic bytes;; Ret tt | None => Ret tt end;; h i
     end)) →
  (∀ e, mute (err e)) → (∀ i, mute (h i)) →
  says (r <- add_conn id c;; k r) w.
Proof.
  intros Hk Hok Herr Hh. eapply (attests_bind backed keeps speaks); [apply add_conn_known|].
  intros r w1 _ _ Hv. specialize (Hk r).
  destruct r as [[i|i|i|i|i|i m|i|i]|e]; try (by apply says_mute). rewrite Hok.
  apply says_bytes; [|intros; by apply says_mute]. intros w2 Hg.
  apply says_bind; [|intros; by apply says_mute].
  destruct (create_topic c) as [topic|] eqn:Ht; [|by intros w' _ _].
  apply says_bind; [|by intros ? ? w' _ _]. apply says_send.
  assert (topic = conn_topic c) as ->.
  { unfold create_topic in Ht. unfold conn_topic. destruct (is_some _); [congruence|].
    destruct (Proto.is_mtproto _); congruence. }
  apply (knows_single id); [by left|]. by eapply knows_keeps.
Qed.

(** *** Handlers *)
Lemma says_create_connection req network w : says (create_connection_handler req network) w.
Proof.
  unfold create_connection_handler. cbn [conn_create_validate].
  apply says_bind; [apply says_mute; hush|]. intros ex w1.
  apply says_bind; [apply says_mute; hush|]. intros [p|r] w2; [|by intros w' _ _].
  apply says_bind; [apply says_mute; hush|]. intros t w3. cbv zeta.
  apply says_bind; [apply says_mute; hush|]. intros id w4.
  apply (says_announced id _ _
    (λ i, reply (success_response ("Connection " +:+ uuid_str i +:+ " has been created") (Some i)
      (Instances.Connection (Conn.new t (cc_env req) (cc_subscription_id req) p ex))))
    (λ e, reply (internal_error ("Serialization error: " +:+ e)))); [|done..].
  by intros [[i|i|i|i|i|i m|i|i]|e].
Qed.

Lemma says_trial_connection sub_id network env p w : says (trial_connection sub_id network env p) w.
Proof.
  unfold trial_connection. apply says_bind; [apply says_mute; hush|]. intros [pr|e] w1; [|by intros w' _ _].
  apply says_bind; [apply says_mute; hush|]. intros t w2. cbv zeta.
  apply says_bind; [apply says_mute; hush|]. intros id w3.
  apply (says_announced id _ _ (λ _, Ret None)
    (λ e, Ret (Some (internal_error ("Serialization error: " +:+ e))))); [|done..].
  by intros [[i|i|i|i|i|i m|i|i]|e].
Qed.

Lemma says_for_until {A R} (l : list A) (body : A → IO (option R)) w :
  (∀ x w', says (body x) w') → says (for_until l body) w.
Proof.
  intros Hb. revert w; induction l as [|x l IH]; intros w; cbn; [by intros w' _ _|].
  apply says_bind; [done|]. intros [r|] w'; [by intros w'' _ _|apply IH].
Qed.

Ltac say_step :=
  match goal with
  | |- attests _ _ _ (add_days _ _) _ _ => apply says_add_days
  | |- attests _ _ _ (Ret _) _ _ => by intros ? _ _
  | |- attests _ _ _ Panic _ _ => exact Logic.I
  | |- attests _ _ _ (bind _ _) _ _ => apply says_bind; [|intros ? ?]
  | |- attests _ _ _ (match ?x with _ => _ end) _ _ => destruct x
  | |- attests _ _ _ _ _ _ => apply says_mute; solve [hush]
  end.
Ltac say := cbv beta zeta; repeat (say_step; cbv beta iota zeta).

Lemma says_post_trial req secret network codes envs protos days bonus limit w :
  says (post_trial_handler req secret network codes envs protos days bonus limit) w.
Proof.
  unfold post_trial_handler. say.
  apply says_for_until. intros env w1. apply says_for_until. intros p w2.
  apply says_trial_connection.
Qed.

Lemma says_delete_handler id w : says (delete_connection_handler id) w.
Proof.
  unfold delete_connection_handler. apply (says_read _ (λ o d, ∀ c, o = Some c → vouched d id c)).
  - intros m d Hm c. by apply cached_vouched.
  - intros o d d' Hle Ho c Hc. by eapply vouched_le, Ho.
  - intros [c|] w1 Hv; [|by intros w' _ _]. destruct (get_deleted c); [by intros w' _ _|].
    apply says_bind; [|intros r w2; say]. apply says_delete_connection.
    intros w2 Hg HI. by apply (Hv w2 Hg HI).
Qed.

Lemma says_get_connections req w : asked req → says (get_connections_handler req) w.
Proof.
  intros Ha. unfold get_connections_handler.
  apply (says_read _ (λ l d, ∀ i c, (i, c) ∈ l → wanted req c ∧ vouched d i c)).
  - intros m d Hm i c [Hc%elem_of_hiter Hw]%elem_of_keep. split; [by rewrite Hw|]. by eapply cached_vouched.
  - intros l d d' Hle Hl i c Hi. destruct (Hl i c Hi). split; [done|]. by eapply vouched_le.
  - intros l w1 Hl. assert (l ≠ [] → ∀ w2, keeps w1 w2 → says (send_binary (ct_topic req)
      ((λ '(conn_id, conn), as_create_message conn conn_id) <$> l)) w2) as Hsend.
    { intros Hne w2 Hg. apply says_send. intros w3 Hg3 HI. left. exists req, l. split_and!; [done..|].
      apply (Hl w3); [by etransitivity|done]. }
    destruct l as [|x l]; [by intros w' _ _|]. cbv zeta. apply says_bytes; [|by intros e w' w'' _ _].
    intros w2 Hg. apply says_bind; [by apply Hsend|]. intros r w3. say.
Qed.

Context {V : Type} (metrics : MetricStorage (V := V)) (config : ServiceConfig).

(** The tasks of the service, when the batches asked for are those of [asked]. *)
Inductive asked_service : IO unit → Prop :=
| asked_start : asked_service (get_state_from_db;; Ret tt)
| asked_sync n : asked_service (periodic_db_sync n)
| asked_expire_conns n : asked_service (cleanup_expired_connections n)
| asked_expire_subs n : asked_service (cleanup_expired_subscriptions n)
| asked_restore n : asked_service (restore_subscriptions n)
| asked_request header r : (∀ req, r = PostConnectionsSync req → asked req) →
    asked_service (serve metrics config header r;; Ret tt).
Lemma asked_api p : asked_service p → api_service metrics config p.
Proof. intros []; by constructor. Qed.

Lemma says_handler r w :
  (∀ req, r = PostConnectionsSync req → asked req) → says (handler_of metrics config r) w.
Proof.
  intros Hr. destruct r; cbn [handler_of];
    first [apply says_create_connection|apply says_delete_handler
          |by apply says_get_connections, Hr|apply says_post_trial|idtac];
    unfold healthcheck_handler, get_nodes_handler, get_node_handler, subscription_link_handler,
      get_subscription_info_json, post_subscription_handler, put_subscription_handler,
      get_connection_handler, wireguard_connections_handler, mtproto_connections_handler,
      expired_subscription, get_key_validate_handler, post_key_handler, post_activate_key_handler,
      post_node_handler;
    cbn [conn_info_validate]; say.
Qed.

Lemma says_loop n round w : (∀ w, says round w) → says (loop n round) w.
Proof.
  intros Hr. revert w; induction n as [|n IH]; intros w; cbn; [by intros w' _ _|].
  by apply says_bind.
Qed.

Lemma says_service p w : asked_service p → says p w.
Proof.
  intros [|n|n|n|n|header r Ha]; try (apply says_loop; intros w1).
  - say.
  - say.
  - unfold expire_conns_round. apply says_bind; [apply says_mute; hush|]. intros t w2.
    apply (says_read _ (λ l d, all_vouched d l)).
    + intros m d Hm. apply all_vouched_keep. intros i c Hc%elem_of_hiter. by eapply cached_vouched.
    + intros l d d'. apply all_vouched_le.
    + intros l w3. apply says_delete_all.
  - unfold expire_subs_round. apply says_bind; [apply says_mute; hush|]. intros l w2.
    apply (attests_for_each backed keeps speaks). intros sub w3 _ _.
    apply (says_read _ (λ l d, all_vouched d l)).
    + intros m d Hm. unfold live_conns. destruct (get_by_subscription_id _ _) as [cs|] eqn:Hc;
        [|by intros i c []%not_elem_of_nil]. apply all_vouched_keep. intros i c.
      by eapply by_subscription_vouched.
    + intros l' d d'. apply all_vouched_le.
    + intros l' w4. apply says_delete_all.
  - unfold restore_round. apply says_bind; [apply says_mute; hush|]. intros l w2.
    apply (attests_for_each backed keeps speaks). intros sub w3 _ _.
    apply says_bind; [apply says_restore_by_subscription|]. by intros r w4 w' _ _.
  - unfold serve. destruct (guarded r); [destruct header; [destruct (auth _ _)|]|]; say;
      by apply says_handler.
Qed.

Lemma told_always (w0 w : World) :
  mask_ok (wireguard_network config) → backed w0 → told w0 → reachable asked_service w0 w → told w.
Proof.
  intros Hnet Hb Ht Hr.
  enough ((backed w ∧ told w) ∧ keeps w0 w) as [[_ ?] _] by done.
  apply (pool_invariant (λ w, backed w ∧ told w) keeps asked_service);
    [|done..]. intros p w1 Hp. apply (okp_attests backed keeps speaks).
  - intros w2 w3. by apply told_speaks.
  - by apply (safe_service metrics config), asked_api.
  - by apply says_service.
Qed.

(** C4: What the server announces is true.  Take any state the server reaches,
    whatever the requests, the faults and the interleaving, when the configured
    WireGuard network is one, from a start in which the database backs the
    cache and the announcements already on the bus are true.  Every announcement
    on the bus is either a batch that a request for a batch asked for, on the
    topic which that request named: a creation, each, of one or more connections
    that the request wanted; or it is one message about one connection, on the
    topic of that connection: the authentication service's when the connection
    has a token, else its environment's.  And each is of a connection that the
    database has under that id, with the protocol, the secrets, the environment,
    the owner and the expiry that the message was made from.  When no request
    for a batch is made, every announcement is of the second kind. *)
Theorem bus_truthful (w0 w : World) (Hnet : mask_ok (wireguard_network config))
    (Hstart : backed w0) (Htold : told w0) (Hreach : reachable asked_service w0 w)
    (topic : Topic) (msgs : list Message) (Hin : (topic, msgs) ∈ bus w) :
  (∃ req l, asked req ∧ topic = ct_topic req ∧ l ≠ [] ∧
    msgs = (λ '(i, c), as_create_message c i) <$> l ∧
    ∀ i c, (i, c) ∈ l → wanted req c ∧ vouched (db w) i c) ∨
  (∃ i c m, topic = (if is_some (Proto.token (Conn.proto c)) then Topic.Auth
                     else Topic.Updates (Conn.env c)) ∧ msgs = [m] ∧ vouched (db w) i c ∧
    (m = conn_create_message c i ∨ m = conn_update_message c i ∨ m = conn_delete_message c i)).
Proof.
  destruct (told_always w0 w Hnet Hstart Htold Hreach (topic, msgs) Hin)
    as [(req & l & Ha & Hne & Hp & Hl)|(i & c & m & Hp & Hv & Hm)]; injection Hp as -> ->.
  - left. by exists req, l.
  - right. exists i, c, m. split_and!; [|done..]. unfold conn_topic, get_token. cbn.
    by destruct (Conn.proto c).
Qed.
End truth.

Section truthful.
Context `{!Oracle, !Postgres, !Ipv6Text, !UuidText, !IterOrder, !Chrono, !WgCrypto, !UrlLib,
  !Base32, !Hmac, !SeriesHash, !Rfc3339}.

Lemma truthful_speaks w w' : truthful w → keeps w w' → speaks (λ _, True) w w' → truthful w'.
Proof. apply told_speaks. Qed.
Lemma service_asked {V} (metrics : MetricStorage (V := V)) config p :
  api_service metrics config p → asked_service (λ _, True) metrics config p.
Proof. intros []; by constructor. Qed.
Lemma truthful_always {V} (metrics : MetricStorage (V := V)) config (w0 w : World) :
  mask_ok (wireguard_network config) → backed w0 → truthful w0 →
  reachable (api_service metrics config) w0 w → truthful w.
Proof.
  intros Hnet Hb Ht Hr. eapply (told_always (λ _, True) metrics config w0 w); [done..|].
  eapply reachable_same; [|exact Hr]. intros p Hp. exists p.
  split; [by apply service_asked|apply same_refl].
Qed.

(** ** What the services behind the bus hold *)

(** A message of a true announcement is made of a connection that the
    database has. *)
Lemma true_message d topic msgs m :
  true_of d (topic, msgs) → m ∈ msgs →
  ∃ c, vouched d (Message.conn_id m) c ∧
    (m = conn_create_message c (Message.conn_id m) ∨ m = conn_update_message c (Message.conn_id m) ∨
     m = conn_delete_message c (Message.conn_id m)).
Proof.
  intros [(req & l & _ & _ & [= -> ->] & Hv)|(i & c & m' & [= -> ->] & Hv & Hm)] Hin; cbn in *.
  - apply list_elem_of_fmap in Hin as ([i c] & -> & Hic). exists c.
    split; [by apply (Hv _ _ Hic)|by left].
  - apply list_elem_of_singleton in Hin as ->. exists c.
    destruct Hm as [-> |[-> | ->]]; (split; [exact Hv|]); auto.
Qed.

Lemma true_token d topic msgs m tok :
  true_of d (topic, msgs) → m ∈ msgs → Message.token m = Some tok →
  ∃ r, t_connections d !! (Message.conn_id m) = Some r ∧ c_token r = Some tok.
Proof.
  intros Ht Hin Htok. destruct (true_message _ _ _ _ Ht Hin) as (c & (r & Hr & Hf) & Hm).
  exists r. split; [done|]. unfold row_fixed in Hf. injection Hf as _ -> _ _ _ _ _ _ _.
  cbn. unfold get_token. cbn.
  destruct Hm as [Hm|[Hm|Hm]]; rewrite Hm in Htok; cbn in Htok; by destruct (Conn.proto c).
Qed.
End truthful.

(** ** What a message carries to a service *)
Section carried.
Context `{!Oracle, !Postgres, !Ipv6Text, !UuidText, !IterOrder, !Chrono, !WgCrypto}.

(** The token of a Hysteria2 connection, as the authentication service keeps
    it. *)
Definition has_token (d : Db) (id : Uuid) (b : Base) : Prop :=
  ∀ tok, Base.proto b = Proto.Hysteria2 tok →
  ∃ r, t_connections d !! id = Some r ∧ c_token r = Some tok.
(** A row agrees with a connection of an agent's table: on its protocol, its
    secrets and its owner. *)
Definition agrees (r : ConnRecord) (b : Base) : Prop :=
  c_proto r = Proto.proto (Base.proto b) ∧ c_subscription_id r = Base.subscription_id b ∧
  match Base.proto b with
  | Proto.Shadowsocks password => c_password r = Some password
  | Proto.Wireguard wg => c_wg_privkey r = Some (privkey (keys wg)) ∧
      c_wg_address r = Some (mask_fmt (param_address wg))
  | _ => True
  end.
Definition in_rows (d : Db) (id : Uuid) (b : Base) : Prop :=
  ∃ r, t_connections d !! id = Some r ∧ agrees r b.

Lemma has_token_le d d' id b : db_le d d' → has_token d id b → has_token d' id b.
Proof.
  intros Hle Hh tok Ht. destruct (Hh tok Ht) as (r & Hr & Hc).
  destruct (le_conns _ _ Hle _ _ Hr) as (r' & Hr' & Hf). exists r'. split; [done|].
  unfold row_fixed in Hf. congruence.
Qed.
Lemma in_rows_le d d' id b : db_le d d' → in_rows d id b → in_rows d' id b.
Proof.
  intros Hle (r & Hr & Hp & Hs & Hb). destruct (le_conns _ _ Hle _ _ Hr) as (r' & Hr' & Hf).
  exists r'. split; [done|]. unfold row_fixed in Hf. injection Hf as ? ? ? ? ? ? ? ? ?.
  split; [congruence|]. split; [congruence|].
  destruct (Base.proto b); try done; [|congruence]. destruct Hb. split; congruence.
Qed.

Lemma granted_token d topic msgs m :
  true_of d (topic, msgs) → m ∈ msgs → granted (has_token d) m.
Proof.
  intros Ht Hin t tok b Htok Hc%message_conn_proto tok' Hp. rewrite Hc in Hp. injection Hp as <-.
  by eapply true_token.
Qed.

(** What a creation puts in the table agrees with the row of its message. *)
Lemma carried_row d topic msgs m :
  true_of d (topic, msgs) → m ∈ msgs → carried (in_rows d) m.
Proof.
  intros Ht Hin Hcr b (t & p & Hp & Hconn).
  destruct (true_message _ _ _ _ Ht Hin) as (c & (r & Hr & Hf) & Hm).
  exists r. split; [done|]. unfold row_fixed in Hf.
  injection Hf as Hpw _ _ _ _ Hsub Hpr Hkey Haddr. unfold agrees.
  rewrite (message_conn_proto _ _ _ _ Hconn), Hpr, Hsub, Hpw, Hkey, Haddr.
  assert (Base.subscription_id b = Message.subscription_id m) as ->.
  { revert Hconn. unfold message_conn. destruct (Message.expires_at m) as [e|]; [destruct (of_rkyv e)|];
      by try intros [= <-]. }
  clear Hconn Hpw Hsub Hpr Hkey Haddr. unfold message_proto in Hp.
  destruct Hm as [Hm|[Hm|Hm]]; rewrite Hm in Hp |- *; cbn in Hp |- *.
  3:{ destruct Hcr as [Ha|Ha]; rewrite Hm in Ha; discriminate Ha. }
  all: unfold get_password, get_wireguard; cbn;
    destruct (Conn.proto c) as [wg|pw|tag|tok|sec]; cbn in Hp; try done;
    try (destruct tag; try done); injection Hp as <-; done.
Qed.
End carried.

(** ** Runs *)
Lemma example_network : mask_ok (wireguard_network example_config).
Proof. unfold mask_ok, addr_ok, u32_ok, U32_MAX. cbn. lia. Qed.
Lemma backed_new : backed world_new.
Proof. split; [exact db_ok_empty|exact (mem_ok_new _ db_ok_empty)]. Qed.
Lemma truthful_new : truthful world_new.
Proof. intros p Hp. by apply not_elem_of_nil in Hp. Qed.

Lemma created_vmess_asked :
  reachable (asked_service (λ _, False) no_metrics example_config) world_new created_vmess.2.
Proof.
  exists created_vmess.1. rewrite <- surjective_pairing. eapply rtc_l;
    [apply (step_spawn _ post_vmess), (asked_request _ no_metrics example_config (Some "Bearer t")
      (PostConnection _)); discriminate|].
  apply schedule_steps.
Qed.

(** No request for a batch is made, so the one announcement is of the one
    connection created. *)
Lemma bus_truthful_witness :
  mask_ok (wireguard_network example_config) ∧ backed world_new ∧ told (λ _, False) world_new ∧
  reachable (asked_service (λ _, False) no_metrics example_config) world_new created_vmess.2 ∧
  ∃ topic msgs, bus created_vmess.2 = [(topic, msgs)] ∧
    (∃ i c m, topic = (if is_some (Proto.token (Conn.proto c)) then Topic.Auth
                       else Topic.Updates (Conn.env c)) ∧ msgs = [m] ∧
       vouched (db created_vmess.2) i c ∧
       (m = conn_create_message c i ∨ m = conn_update_message c i ∨ m = conn_delete_message c i)).
Proof.
  assert (told (λ _, False) world_new) as Ht by (intros p Hp; by apply not_elem_of_nil in Hp).
  split; [exact example_network|]. split; [exact backed_new|]. split; [exact Ht|].
  split; [exact created_vmess_asked|].
  destruct (bus created_vmess.2) as [|[topic msgs] l] eqn:Hb; [discriminate Hb|].
  assert (l = []) as -> by (vm_compute in Hb; injection Hb as _ _ <-; reflexivity).
  exists topic, msgs. split; [reflexivity|].
  destruct (bus_truthful (λ _, False) no_metrics example_config world_new created_vmess.2
    example_network backed_new Ht created_vmess_asked topic msgs) as [(req & _ & [] & _)|Hone];
    [rewrite Hb; left|exact Hone].
Defined.
