(* ===== verification/Deployed.v ===== *)
(** * The API server as it is deployed

    Settings from a file, requests as they arrive over HTTP, and the invariants
    of the server and its bus in every interleaving. *)
From S2P Require Import Prelude Task Foreign Naming Wireguard Connection ConnStore Subscription.
From S2P Require Import Key Inbound Node Link Metrics Db World Sync Consistency SyncSafe Http.
From S2P Require Import Reload ApiConn Api Config Settings Warp Routing HttpSpec Truth.
Local Open Scope Z_scope.

Section deployed.
Context `{!ConfigFiles, !Oracle, !Postgres, !Ipv6Text, !UuidText, !IterOrder, !Chrono, !WgCrypto,
  !UrlLib, !Base32, !Hmac, !SeriesHash, !Rfc3339, !Warp World, !Readers}.
Context {V : Type} (metrics : MetricStorage (V := V)) (preflight : HttpRequest → result Answer Causes).

(** The server with the settings [s]. *)
Definition deployed (s : ApiSettings) : Prog World unit → Prop :=
  http_service metrics (handler_config s) (as_cors_origins (api_service s)) preflight.

(** A server started from a file keeps its invariants, whatever is sent to
    it.  When the file writes the WireGuard network as text or leaves it out,
    then from a cache that the database backs and a bus that told the truth, in
    every state that raw HTTP requests and the server's tasks reach, however
    they interleave and whatever fails: the cache is backed, nothing that the
    database held was lost, no connection changed its protocol, owner or
    secrets, no key was deactivated, nothing published was withdrawn, and every
    announcement on the bus is of a connection that the database has, as it has
    it.  No condition on the settings, on the requests or on the environment is
    left. *)
Theorem deployed_invariant (file : string) (s : ApiSettings) (w0 w : World) :
  from_file read_api file = Some s →
  (∀ text t, config_text file = Ok text → toml_parse text = Ok t → network_as_text t) →
  backed w0 → truthful w0 → reachable (deployed s) w0 w →
  backed w ∧ keeps w0 w ∧ truthful w.
Proof.
  intros Hs Ht Hb Htrue Hr%http_reaches.
  assert (mask_ok (wireguard_network (handler_config s))) as Hnet by by eapply loaded_network.
  rewrite (and_assoc (backed w)). split; [|by eapply truthful_always].
  apply (pool_invariant backed keeps (Api.api_service metrics (handler_config s))); [|done..].
  intros p w1. by apply safe_service.
Qed.
End deployed.

#[local] Existing Instances example_files example_readers.

(** A WireGuard connection is created over HTTP, action by action. *)
Definition creating : list (Prog World unit) * World :=
  schedule (replicate 12 0%nat)
    ([bind (ask_filter (served no_metrics (handler_config loaded_example)
        (as_cors_origins (api_service loaded_example)) no_preflight) create_request)
        (λ _, Ret tt)], world_new).

Lemma deployed_invariant_witness :
  from_file read_api "api.toml" = Some loaded_example ∧ backed world_new ∧ truthful world_new ∧
  reachable (deployed no_metrics no_preflight loaded_example) world_new creating.2 ∧
  backed creating.2 ∧ truthful creating.2 ∧ length (bus creating.2) = 1%nat.
Proof.
  assert (backed world_new) as Hb by (split; [exact db_ok_empty|exact (mem_ok_new _ db_ok_empty)]).
  assert (reachable (deployed no_metrics no_preflight loaded_example) world_new creating.2) as Hr.
  { exists creating.1. rewrite <- surjective_pairing.
    eapply rtc_l; [apply step_spawn, (http_request _ _ _ _ create_request)|].
    apply schedule_steps. }
  split; [exact loaded_example_eq|]. split; [exact Hb|]. split; [exact truthful_new|].
  split; [exact Hr|].
  destruct (deployed_invariant no_metrics no_preflight "api.toml" loaded_example world_new
    creating.2 loaded_example_eq plain_network Hb truthful_new Hr) as (Hb' & _ & Ht').
  split; [exact Hb'|]. split; [exact Ht'|]. vm_compute. reflexivity.
Defined.
