(* ===== verification/Lifetime.v ===== *)
(** * The life of the API server

    [main] of [bin/api/main.rs], from its arguments to the tasks it spawns, and
    the process over its lives: it is started from a file, serves, ends at any
    moment (a panic aborts it), and is started again, perhaps from another
    file, with nothing left but the database and the record of trials. *)
From S2P Require Import Prelude Task Foreign Naming Wireguard Connection ConnStore Subscription.
From S2P Require Import Key Inbound Node Link Metrics Db World Pool Trials Sync Consistency SyncSafe.
From S2P Require Import Reload Background Http ApiConn Api Config Settings Warp Routing HttpSpec Listen.
From S2P Require Import Truth Deployed.
Local Open Scope Z_scope.
Local Open Scope prog_scope.

(** The host: the arguments, what its sockets answer when they are set up, and
    whether mail can be relayed to a server of that name. *)
Class ApiHost := {
  args : list string;
  pub_sndhwm : nat → result unit string;
  pub_bind : nat → result unit string;
  sub_bind : nat → bool;
  sub_rcvhwm : nat → result unit string;
  mail_relay : string → bool;
}.

(** A host on which all that works. *)
#[export] Instance able_host : ApiHost | 100 := {|
  args := ["api"; "api.toml"]; pub_sndhwm _ := Ok tt; pub_bind _ := Ok tt; sub_bind _ := true;
  sub_rcvhwm _ := Ok tt; mail_relay _ := true |}.

Section main.
Context `{!ConfigFiles, !ApiHost, !Oracle, !Postgres, !Ipv6Text, !UuidText, !IterOrder, !Chrono,
  !WgCrypto, !UrlLib, !Base32, !Hmac, !SeriesHash, !Rfc3339}.

(** [Subscriber::new_bound] -- zmq/subscriber.rs:78-98

    Binding is expected to work; only the socket's option may fail. *)
Definition new_bound : IO (result unit Error) :=
  bound <- ask sub_bind;;
  if bound : bool then
    r <- ask sub_rcvhwm;;
    Ret match r with Ok _ => Ok tt | Err e => Err (Error.Zmq e) end
  else Panic.

(** [EmailStore::new] -- bin/api/email.rs:31-40

    With [build_mailer], which expects the server's name to be one. *)
Definition email_store_new (smtp : SmtpConfig) : IO unit :=
  if mail_relay (smtp_server smtp) then Ret tt else Panic.

(** [main] -- bin/api/main.rs:31-151

    The tasks it spawns, each with its first [n] rounds, when it gets that far;
    the clients of the database are opened when they are first used
    ([Pool]). *)
Definition api_main (n : nat) : IO (result (list (IO unit)) Error) :=
  match args !! 1%nat with
  | None => Panic
  | Some config_path =>
    match from_file read_api config_path with
    | None => Panic
    | Some settings =>
      match validate_api settings with
      | Err _ => Panic
      | Ok _ =>
        publisher <- publisher_init (ask pub_sndhwm) (ask pub_bind);;
        match publisher with
        | Err e => Ret (Err (Error.Zmq e))
        | Ok _ =>
          email_store_new (api_smtp settings);;
          trials <- load_trials;;
          match trials with
          | Err e => Ret (Err (Error.Io e))
          | Ok _ =>
            _ <-? get_state_from_db;;
            _ <-? new_bound;;
            Ret (Ok (api_spawned settings n))
          end
        end
      end
    end
  end.

Lemma safe_load_trials w : okp backed keeps load_trials w.
Proof.
  unfold load_trials. safe. all: try by apply safe_outside.
Qed.
Lemma safe_init_loop setup retries w :
  (∀ w', okp backed keeps setup w') → okp backed keeps (init_loop setup retries) w.
Proof.
  intros Hs. revert w. induction retries as [|n IH]; intros w; cbn [init_loop]; safe; auto.
Qed.
Lemma safe_api_main n w : okp backed keeps (api_main n) w.
Proof.
  unfold api_main, publisher_init, email_store_new, new_bound. safe.
  - apply safe_init_loop. intros w2. apply safe_ask.
  - apply safe_load_trials.
  - apply safe_get_state_from_db.
Qed.
Lemma mute_init_loop setup retries : mute setup → mute (init_loop setup retries).
Proof. intros Hs. induction retries as [|n IH]; cbn [init_loop]; hush; auto. Qed.
Lemma mute_api_main n : mute (api_main n).
Proof.
  unfold api_main, publisher_init, email_store_new, new_bound, load_trials. hush.
  - by apply mute_init_loop, mute_ask.

  - done.
Qed.
End main.

(** ** One run and the next *)

(** A process that has just been started: nothing in memory. *)
Definition fresh (w : World) : Prop := memory w = Cache_new ∧ bus w = [] ∧ emails w = ∅.

(** It ended and was started again: the database and the file of trials are as
    they were. *)
Definition restarted (w w' : World) : Prop :=
  fresh w' ∧ db w' = db w ∧ email_file w' = email_file w.

Section life.
Context `{!Oracle, !Postgres, !Ipv6Text, !UuidText, !IterOrder, !Chrono, !WgCrypto,
  !UrlLib, !Base32, !Hmac, !SeriesHash, !Rfc3339, !Warp World, !Readers}.
Context {V : Type} (metrics : MetricStorage (V := V)) (preflight : HttpRequest → result Answer Causes).

(** From a start in [w0], with some files on some host, [main] got to spawning
    its tasks, and the server has come to [w]. *)
Inductive runs (w0 w : World) : Prop :=
| runs_from (F : ConfigFiles) (host : ApiHost) (file : string) (s : ApiSettings) (n : nat)
    (tasks : list (IO unit)) (w1 : World) :
    args !! 1%nat = Some file → from_file read_api file = Some s →
    (∀ text t, config_text file = Ok text → toml_parse text = Ok t → network_as_text t) →
    run (api_main n) w0 = (w1, Some (Ok tasks)) →
    reachable (deployed metrics preflight s) w1 w → runs w0 w.

(** One life: a start that fails, or a run that ends at any moment. *)
Inductive lives : World → World → Prop :=
| lives_failed w w' : restarted w w' → lives w w'
| lives_ran w0 w w' : runs w0 w → restarted w w' → lives w0 w'.

Lemma backed_fresh w : fresh w → db_ok (db w) → backed w ∧ truthful w.
Proof.
  intros (Hm & Hb & _) Hd. split; [split; [done|rewrite Hm; by apply mem_ok_new]|].
  intros p Hp. rewrite Hb in Hp. by apply not_elem_of_nil in Hp.
Qed.

Lemma runs_good w0 w :
  fresh w0 → db_ok (db w0) → runs w0 w → backed w ∧ truthful w ∧ db_le (db w0) (db w).
Proof.
  intros Hf Hd [F host file s n tasks w1 Ha Hs Ht Hrun Hr].
  destruct (backed_fresh w0 Hf Hd) as [Hb Htrue].
  destruct (rg_run backed keeps _ _ _ (safe_api_main n w0) Hb) as (Hb1 & [Hle1 Hbus] & _).
  pose proof (spares_run bus (api_main n) w0 (mute_api_main n)) as Hmute.
  rewrite Hrun in Hb1, Hle1, Hbus, Hmute. cbn in Hb1, Hle1, Hmute.
  assert (truthful w1) as Ht1.
  { intros p Hp. rewrite Hmute in Hp. eapply true_of_le; [exact Hle1|by apply Htrue]. }
  apply http_reaches in Hr.
  assert (mask_ok (wireguard_network (handler_config s))) as Hnet by by eapply loaded_network.
  assert (backed w ∧ keeps w1 w) as [Hbw [Hle _]].
  { apply (pool_invariant backed keeps (Api.api_service metrics (handler_config s))); [|done..].
    intros p w2 Hp. by apply (safe_service metrics (handler_config s)). }
  split; [done|]. split; [|by etransitivity].
  by apply (truthful_always metrics (handler_config s) w1 w).
Qed.

(** C1: whatever befalls the server, from the first start on.  Starting from a
    well-formed database, the process is started, from any configuration files
    that write the WireGuard network as text or leave it out, serves any HTTP
    requests in any interleaving with its own tasks, and ends at any moment, by
    a panic of any of them or while it starts; and it is started again, any
    number of times.  In every state it then reaches the cache is backed by the
    database, every announcement on the bus is of a connection that the
    database has as announced, and since the first start no row was lost, no
    connection changed its protocol, owner or secrets, and no key was
    deactivated. *)
Theorem lifetime_invariant (w0 w1 w : World) :
  fresh w0 → db_ok (db w0) → rtc lives w0 w1 → runs w1 w →
  backed w ∧ truthful w ∧ db_le (db w0) (db w).
Proof.
  intros Hf Hd Hl. revert w. induction Hl as [w0|w0 w2 w3 Hlife _ IH]; intros w Hrun.
  { by apply runs_good. }
  assert (fresh w2 ∧ db_ok (db w2) ∧ db_le (db w0) (db w2)) as (Hf2 & Hd2 & Hle).
  { destruct Hlife as [w0 w2 (Hf2 & Hdb & _)|w0 wr w2 Hr (Hf2 & Hdb & _)].
    - rewrite Hdb. split_and!; [done..|reflexivity].
    - destruct (runs_good w0 wr Hf Hd Hr) as ([Hdr _] & _ & Hle). by rewrite Hdb. }
  destruct (IH Hf2 Hd2 w Hrun) as (Hb & Ht & Hle2). split; [done|]. split; [done|by etransitivity].
Qed.

(** The tasks that [main] spawns are tasks of the service, unless they panic. *)
Lemma spawned_deployed s n p :
  p ∈ api_spawned s n → p = Panic ∨ deployed metrics preflight s p.
Proof.
  unfold api_spawned, ticking, deployed. intros Hp.
  repeat (apply elem_of_cons in Hp as [->|Hp]); [..|by inversion Hp];
    repeat case_decide; (by left) || (right; constructor).
Qed.
End life.

(** ** Two lives *)

#[local] Existing Instances example_files example_readers.

Definition restart (w : World) : World := {|
  memory := Cache_new; db := db w; bus := []; emails := ∅; email_file := email_file w;
  tick := tick w |}.
Lemma restart_fresh w : fresh (restart w).
Proof. done. Qed.
Lemma restart_restarted w : restarted w (restart w).
Proof. done. Qed.

(** The server is started, a WireGuard connection is created, and the process
    ends and is started again. *)
Definition first_start : World := (run (api_main 1) world_new).1.
Definition first_life : list (IO unit) * World :=
  schedule (replicate 12 0%nat)
    ([ask_filter (served no_metrics (handler_config loaded_example)
        (as_cors_origins (api_service loaded_example)) no_preflight) create_request;; Ret tt],
     first_start).
Definition second_start : World := (run (api_main 1) (restart first_life.2)).1.

Definition booted (w : World) : bool :=
  match (run (api_main 1) w).2 with Some (Ok _) => true | _ => false end.
Lemma started w :
  booted w = true →
  ∀ w', reachable (deployed no_metrics no_preflight loaded_example) (run (api_main 1) w).1 w' →
  runs no_metrics no_preflight w w'.
Proof.
  unfold booted. intros Ht w' Hr. destruct (run (api_main 1) w).2 as [[tasks|]|] eqn:He; try done.
  refine (runs_from _ _ w w' _ able_host "api.toml" loaded_example 1 tasks _ eq_refl
    loaded_example_eq plain_network _ Hr).
  rewrite <- He. apply surjective_pairing.
Qed.

Lemma lifetime_invariant_witness :
  fresh world_new ∧ db_ok (db world_new) ∧
  rtc (lives no_metrics no_preflight) world_new (restart first_life.2) ∧
  runs no_metrics no_preflight (restart first_life.2) second_start ∧
  backed second_start ∧ size (connections (memory second_start)) = 1%nat.
Proof.
  assert (runs no_metrics no_preflight world_new first_life.2) as Hr1.
  { apply started; [vm_compute; reflexivity|].
    exists first_life.1. rewrite <- surjective_pairing.
    eapply rtc_l; [apply step_spawn, (http_request _ _ _ _ create_request)|].
    apply schedule_steps. }
  assert (runs no_metrics no_preflight (restart first_life.2) second_start) as Hr2.
  { apply started; [vm_compute; reflexivity|]. unfold second_start. exists []. apply rtc_refl. }
  assert (rtc (lives no_metrics no_preflight) world_new (restart first_life.2)) as Hl.
  { apply rtc_once. eapply lives_ran; [exact Hr1|apply restart_restarted]. }
  split; [done|]. split; [exact db_ok_empty|]. split; [exact Hl|]. split; [exact Hr2|].
  split; [|vm_compute; reflexivity].
  exact (proj1 (lifetime_invariant no_metrics no_preflight world_new _ _
    ltac:(done) db_ok_empty Hl Hr2)).
Defined.
