(* ===== verification/System.v ===== *)
(** * The whole system

    The API server and a service behind its bus as one program: every request
    that arrives over HTTP, the server's own tasks, the service from its
    arguments to the tasks it leaves running, its requests answered by the
    server's own handlers, what it hears of the bus; and the end of either
    process at any moment, and its new start from any file.

    What was published stays on the model's bus, and a service may be delivered
    any of it, at any time, in any order and any number of times: of the
    messages on their way nothing is assumed.  A task of a process that has
    ended may still act in the model, which only adds to its behaviours.  Other
    services are further requests to the server, and are covered as such. *)
From S2P Require Import Prelude Task Foreign Naming Wireguard Connection ConnStore Subscription.
From S2P Require Import Key Inbound Node Link Metrics Db World Pool Trials Sync Consistency SyncSafe.
From S2P Require Import Reload SyncSpec Background Http ApiConn ApiSub ApiKey ApiTrial ApiNode.
From S2P Require Import Api Service Client Warp Routing HttpSpec Auth AuthHttp Xray Agent Batch Collect.
From S2P Require Import Startup NodeInit Config Settings Tables Mirror Listen Contract Truth Deployed.
From S2P Require Import Lifetime.
Local Open Scope Z_scope.
Local Open Scope prog_scope.

(** ** The API server, over its lives *)
Section api.
Context `{!Oracle, !Postgres, !Ipv6Text, !UuidText, !IterOrder, !Chrono, !WgCrypto,
  !UrlLib, !Base32, !Hmac, !SeriesHash, !Rfc3339, !Warp World, !Readers}.
Context {V : Type} (metrics : MetricStorage (V := V)) (preflight : HttpRequest → result Answer Causes).

(** Settings that some file gives, with the WireGuard network as text or left
    out. *)
Definition loads (s : ApiSettings) : Prop :=
  ∃ (F : ConfigFiles) (file : string), from_file read_api file = Some s ∧
    ∀ text t, config_text file = Ok text → toml_parse text = Ok t → network_as_text t.

(** The process ends: its memory is gone. *)
Definition ended (w : World) : World := {|
  memory := Cache_new; db := db w; bus := bus w; emails := ∅; email_file := email_file w;
  tick := tick w |}.

Inductive api_side : IO unit → Prop :=
| api_starts (F : ConfigFiles) (host : ApiHost) (n : nat) : api_side (api_main n;; Ret tt)
| api_works s p : loads s → deployed metrics preflight s p → api_side p
| api_ends : api_side (modifies ended).

Definition sound (w : World) : Prop := backed w ∧ truthful w.

Lemma loads_network s : loads s → mask_ok (wireguard_network (handler_config s)).
Proof. intros (F & file & Hs & Ht). by eapply loaded_network. Qed.

Lemma sound_says {A} (p : IO A) w :
  okp backed keeps p w → attests backed keeps (speaks (λ _, True)) p (λ _ _, True) w →
  okp sound keeps p w.
Proof. apply okp_attests. intros w1 w2. by apply truthful_speaks. Qed.

Lemma api_side_sound p w : api_side p → okp sound keeps p w.
Proof.
  intros [F host n|s p' Hs Hp|].
  - apply (okp_bind sound keeps); [|by intros].
    apply sound_says; [apply safe_api_main|apply says_mute, mute_api_main].
  - destruct (http_task _ _ _ _ _ Hp) as (q & Hq & Hsame). eapply okp_same; [exact Hsame|].
    pose proof (loads_network s Hs). apply sound_says; [by eapply safe_service|by eapply says_service, service_asked].
  - apply okp_act; [|by intros]. intros w1 [[Hd Hm] Ht]. cbn. split; [|by split].
    split; [|exact Ht]. split; [done|by apply mem_ok_new].
Qed.
End api.

(** ** The server and one service *)
Section net.
Context `{!Oracle, !Postgres, !Ipv6Text, !UuidText, !IterOrder, !Chrono, !WgCrypto,
  !UrlLib, !Base32, !Hmac, !SeriesHash, !Rfc3339} {D : Type}.
Notation W := (Net D).
Implicit Type s : W.

(** What the service's table may hold is the database's to say, and the
    database forgets nothing of it. *)
Context (P : Db → Uuid → Base → Prop) (HP : ∀ d d' id b, db_le d d' → P d id b → P d' id b).

Definition whole s : Prop := sound (net_api s) ∧ tabled (P (db (net_api s))) (net_svc s).
Definition onwards s s' : Prop := keeps (net_api s) (net_api s').
#[export] Instance onwards_preorder : PreOrder onwards.
Proof. split; [by intros s|]. intros s1 s2 s3. apply (transitivity (R := keeps)). Qed.

Lemma tabled_le d d' (a : Svc D) : db_le d d' → tabled (P d) a → tabled (P d') a.
Proof using HP.
  intros Hle [Hm Hf]. split; [|intros f Hs; specialize (Hf f Hs)]; eapply map_Forall_impl; eauto.
Qed.

(** What the server does and what the service does keep the whole. *)
Lemma whole_server {A} (p : IO A) s :
  okp sound keeps p (net_api s) → okp whole onwards (at_server p) s.
Proof using HP.
  revert s. induction p as [a| |X f k IH]; intros s Hp; cbn [at_server]; [by intros|by apply okp_ret|].
  intros s1 Hg [Hs Ht]. specialize (Hp (net_api s1) Hg Hs).
  destruct (f (net_api s1)) as [w x]. cbn in Hp. destruct Hp as (Hs' & Hg' & Hk). cbn.
  split; [|split; [exact Hg'|by apply IH]]. split; [done|].
  eapply tabled_le; [by destruct Hg'|exact Ht].
Qed.

Lemma whole_service {A} (p : Prog (Svc D) A) s :
  (∀ d, db_le (db (net_api s)) d → okp (tabled (P d)) anyhow p (net_svc s)) →
  okp whole onwards (at_service p) s.
Proof using HP.
  revert s. induction p as [a| |X f k IH]; intros s Hp; cbn [at_service]; [by intros|done|].
  intros s1 [Hle _] [Hs Ht]. pose proof (Hp _ Hle (net_svc s1) I Ht) as Hact.
  assert (∀ d, db_le (db (net_api s1)) d →
    okp (tabled (P d)) anyhow (k (f (net_svc s1)).2) (f (net_svc s1)).1) as Hk.
  { intros d Hd. apply (Hp d); [by etransitivity|done|]. by eapply tabled_le. }
  destruct (f (net_svc s1)) as [a x]. cbn in *. destruct Hact as (Ht' & _ & _).
  split; [by split|]. split; [by apply (reflexivity (R := keeps))|]. by apply IH.
Qed.

Lemma whole_aside {A} (p : Prog (Svc D) A) s :
  spares kept_of p → okp whole onwards (at_service p) s.
Proof using HP. intros Hp. apply whole_service. intros d _. by apply tables_spares. Qed.

Lemma whole_until_ok n (p : Prog W (result unit Error)) s :
  (∀ s, okp whole onwards p s) → okp whole onwards (until_ok n p) s.
Proof using.
  intros Hp. revert s; induction n as [|n IH]; intros s; cbn [until_ok]; [by apply okp_ret|].
  apply (okp_bind whole onwards); [done|]. intros [u|e] s'; [by apply okp_ret|apply IH].
Qed.

(** *** What a subscriber is delivered *)

(** Something that was published, under a topic subscribed to. *)
Definition delivered (topics : list Topic) (receive : Frame → Prog (Svc D) unit) (i : nat) :
    Prog W unit :=
  published <- reads (λ s, bus (net_api s) !! i);;
  match published with
  | Some (topic, msgs) =>
    if delivers topics (Topic.as_str topic) then at_service (receive (Topic.as_str topic, Some msgs))
    else Ret tt
  | None => Ret tt
  end.

Lemma whole_delivered topics receive i s :
  (∀ d topic msgs a, true_of d (topic, msgs) →
    okp (tabled (P d)) anyhow (receive (Topic.as_str topic, Some msgs)) a) →
  okp whole onwards (delivered topics receive i) s.
Proof using HP.
  intros Hr. unfold delivered.
  eapply (rg_bind whole onwards _ _ (λ o s, ∀ p, o = Some p → true_of (db (net_api s)) p)).
  - intros s1 _ [[Hb Ht] Htab]. split; [by split_and!|]. split; [by apply (reflexivity (R := onwards))|].
    intros s2 [Hle _] _ p Hp. cbn in Hle. eapply true_of_le; [exact Hle|].
    apply Ht. by eapply list_elem_of_lookup_2.
  - intros [[topic msgs]|] s1 _ _ Ht; [|by apply okp_ret].
    destruct (delivers _ _); [|by apply okp_ret]. apply (rg_delay whole onwards). intros s2 Hg Hw.
    specialize (Ht s2 Hg Hw _ eq_refl). apply whole_service. intros d Hd.
    apply Hr. by eapply true_of_le.
Qed.

(** The service's process ends, and leaves its file. *)
Definition svc_ended (device : D) s : W := set_net_svc {| svc_mem := ∅; svc_file := svc_file (net_svc s);
  svc_device := device; svc_tick := svc_tick (net_svc s) |} s.

Lemma whole_ended device s : okp whole onwards (modifies (svc_ended device)) s.
Proof using.
  apply okp_act; [|by intros]. intros s1 [Hs [Hm Hf]]. split; [|by apply (reflexivity (R := keeps))].
  split; [done|]. split; [apply map_Forall_empty|exact Hf].
Qed.
End net.

(** *** What a service asks of the server *)
Section requests.
Context `{!Oracle, !Postgres, !Ipv6Text, !UuidText, !IterOrder, !Chrono, !WgCrypto,
  !UrlLib, !Base32, !Hmac, !SeriesHash, !Rfc3339, !HttpText}.
Context {V : Type} (metrics : MetricStorage (V := V)) {D : Type}.
Context (P : Db → Uuid → Base → Prop) (HP : ∀ d d' id b, db_le d d' → P d id b → P d' id b).
Notation W := (Net D).

Lemma whole_http_post config header r (s : W) :
  mask_ok (wireguard_network config) →
  okp (whole P) onwards (http_post metrics config (D := D) header r) s.
Proof using HP.
  intros Hnet. unfold http_post. destruct (header_value header) as [h|]; [|by apply okp_ret].
  apply (okp_bind (whole P) onwards); [by apply whole_aside|]. intros [e|] s1; [by apply okp_ret|].
  apply (okp_bind (whole P) onwards).
  - apply whole_server; [done|]. apply sound_says.
    + assert (okp backed keeps (serve metrics config (Some h) r;; Ret tt) (net_api s1)) as Hs
        by (apply (safe_service metrics config); [done|constructor]).
      eapply okp_same; [apply same_sym, (same_bind _ (λ _, Ret tt)); eauto|exact Hs].
    + unfold serve. destruct (guarded r); [destruct (auth _ _)|]; [|by intros ? _ _|];
        by apply says_handler.
  - intros a s2. apply (okp_bind (whole P) onwards); [by apply whole_aside|].
    intros [e|] s3; [by apply okp_ret|]. destruct a as [a|]; [|by apply okp_ret].
    apply (okp_bind (whole P) onwards); [by apply whole_aside|]. intros. by apply okp_ret.
Qed.

Lemma whole_get_connections config node endpoint token tag last s :
  mask_ok (wireguard_network config) →
  okp (whole P) onwards (get_connections metrics config (D := D) node endpoint token tag last) s.
Proof using HP.
  intros Hnet. unfold get_connections. cbv zeta. destruct (endpoint_url _ _ _); [|by apply okp_ret].
  apply (okp_bind (whole P) onwards); [by apply whole_http_post|]. intros. by apply okp_ret.
Qed.
Lemma whole_sync_connections config node endpoint token tag last s :
  mask_ok (wireguard_network config) →
  okp (whole P) onwards (sync_connections metrics config (D := D) node endpoint token tag last) s.
Proof using HP.
  intros Hnet. unfold sync_connections. cbv zeta. destruct (endpoint_url _ _ _); [|by apply okp_ret].
  apply (okp_bind (whole P) onwards); [by apply whole_http_post|]. intros. by apply okp_ret.
Qed.
Lemma whole_register_node config node endpoint token s :
  mask_ok (wireguard_network config) →
  okp (whole P) onwards (register_node metrics config (D := D) node endpoint token) s.
Proof using HP.
  intros Hnet. unfold register_node. destruct (endpoint_url _ _ _); [|by apply okp_ret].
  apply (okp_bind (whole P) onwards); [by apply whole_http_post|]. intros [?|[]] s1;
    by apply okp_ret.
Qed.
End requests.

(** ** The services, from their arguments on *)

(** The host of a service: the arguments, what the system says of itself, and
    what its sockets answer when they are set up. *)
Class ServiceHost := {
  svc_args : list string;
  svc_cpus : result Z string;
  svc_host_var : option string;
  sub_ready : nat → bool;
  tx_sndhwm : nat → result unit string;
  tx_connect : nat → result unit string;
}.

Section services.
Context `{!Oracle, !Postgres, !Ipv6Text, !UuidText, !IterOrder, !Chrono, !WgCrypto,
  !UrlLib, !Base32, !Hmac, !SeriesHash, !Rfc3339, !HttpText, !F64, !SysInfo, !Tonic}.
Context {V : Type} (metrics : MetricStorage (V := V)).

Section start.
Context {D : Type} `{!ServiceHost}.

(** [Subscriber::new] -- zmq/subscriber.rs:15-37

    Its socket is expected to be made, to connect and to subscribe. *)
Definition subscriber_new : Prog (Svc D) unit :=
  ready <- svc_ask sub_ready;;
  if ready : bool then Ret tt else Panic.

(** The sockets of a service: its subscriber, and the publisher of its metrics. *)
Definition service_sockets : Prog (Svc D) (result unit Error) :=
  subscriber_new;;
  publisher <- publisher_init (svc_ask tx_sndhwm) (svc_ask tx_connect);;
  Ret match publisher with Ok _ => Ok tt | Err e => Err (Error.Zmq e) end.

(** [main] -- bin/auth/main.rs:22-53

    And the same of [bin/node/main.rs]: [run] with the settings of the file
    that the first argument names. *)
Definition service_main {S A} `{!ConfigFiles} (read : Table → option S)
    (run : S → Prog (Net D) (result A Error)) : Prog (Net D) (result A Error) :=
  match svc_args !! 1%nat with
  | None => Panic
  | Some config_path =>
    match from_file read config_path with
    | None => Panic
    | Some settings =>
      match svc_cpus with Err e => Ret (Err (Error.Io e)) | Ok _ => run settings end
    end
  end.
End start.

(** *** The authentication service *)
Section auth.
Context `{!ServiceHost}.
Notation W := (Net (MetricBuffer (V := f64))).

(** [run] -- bin/auth/service.rs:88-211

    Up to the answer to its request for connections, asked for at most [k]
    times; its node, when it is answered. *)
Definition auth_run (config : ServiceConfig) (k : nat) (s : AuthFile) :
    Prog W (result (option Node) Error) :=
  match from_raw svc_cpus svc_host_var (af_node s) with
  | Err e => Ret (Err e)
  | Ok node_config =>
    now <- at_service (svc_ask clock);;
    match Node.new now node_config None None None None with
    | None => Panic
    | Some node =>
      _ <-? at_service service_sockets;;
      started <- auth_start metrics config node (access_endpoint (af_api s))
        (access_token (af_api s)) k;;
      Ret (Ok (if started : bool then Some node else None))
    end
  end.
End auth.

Context `{!Warp AuthWorld}.

(** [run] -- bin/auth/service.rs:146-257

    The tasks it leaves running beside the subscriber and the server, each
    with its first [n] rounds. *)
Definition auth_spawned (s : AuthFile) (node : Node) (n : nat) : list (Prog AuthWorld unit) :=
  let _ := auth_metrics node in [
  ticking (au_snapshot_interval (af_service s)) (snapshot_task n);
  rounds n collect_system;
  rounds n (flush;; Ret tt)].

(** Everything the service does, with any files and on any host. *)
Inductive auth_side : Prog (Net (MetricBuffer (V := f64))) unit → Prop :=
| auth_starts (F : ConfigFiles) (host : ServiceHost) (s : ApiSettings) (k : nat) :
    loads s → auth_side (service_main read_auth (auth_run (handler_config s) k);; Ret tt)
| auth_works s node n p : p ∈ auth_spawned s node n → auth_side (at_service p)
| auth_delivered node_uuid i :
    auth_side (delivered (auth_topics node_uuid) (auth_receive node_uuid) i)
| auth_garbled node_uuid topic_str : auth_side (at_service (auth_receive node_uuid (topic_str, None)))
| auth_asked read_body origin answer r :
    auth_side (at_service (ask_filter (start_server read_body origin answer) r;; Ret tt))
| auth_ends buffer : auth_side (modifies (svc_ended buffer)).

Lemma whole_sockets {D} (P : Db → Uuid → Base → Prop)
    (HP : ∀ d d' id b, db_le d d' → P d id b → P d' id b) (host : ServiceHost) (s : Net D) :
  okp (whole P) onwards (at_service service_sockets) s.
Proof.
  apply whole_aside; [done|]. unfold service_sockets, subscriber_new, publisher_init. spare.
  assert (∀ n, spares (kept_of (D := D)) (init_loop (svc_ask tx_connect) n)) as Hl
    by (intros n; induction n; cbn [init_loop]; spare; done). apply Hl.
Qed.

Lemma ticking_spares {W : Type} {B} (view : W → B) period (p : Prog W unit) :
  spares view p → spares view (ticking period p).
Proof. intros Hp. unfold ticking. by case_decide. Qed.
Lemma rounds_spares {W : Type} {B} (view : W → B) n (round : Prog W unit) :
  spares view round → spares view (rounds n round).
Proof. intros Hr. induction n as [|n IH]; cbn [rounds]; [done|]. by apply spares_bind. Qed.

Lemma auth_side_whole p s : auth_side p → okp (whole has_token) onwards p s.
Proof.
  intros [F host st k Hload|st node n p' Hp|node_uuid i|node_uuid topic_str|req|buffer].
  - apply (okp_bind (whole has_token) onwards); [|by intros]. unfold service_main, auth_run.
    destruct (svc_args !! 1%nat) as [path|]; [|done]. destruct (from_file _ _) as [f|]; [|done].
    destruct svc_cpus as [cpus|e]; [|by apply okp_ret].
    destruct (from_raw _ _ _) as [cfg|e]; [|by apply okp_ret].
    apply (okp_bind (whole has_token) onwards); [apply whole_aside; [apply has_token_le|done]|]. intros now s1.
    destruct (Node.new _ _ _ _ _ _) as [node|]; [|done].
    apply (okp_bind (whole has_token) onwards); [apply whole_sockets, has_token_le|].
    intros [[]|e] s2; [|by apply okp_ret].
    apply (okp_bind (whole has_token) onwards); [|intros; by apply okp_ret]. unfold auth_start.
    apply (okp_bind (whole has_token) onwards).
    + apply whole_service; [apply has_token_le|]. intros d _. apply tables_auth_load.
    + intros ts s3. apply whole_until_ok. intros s4. apply whole_get_connections; [apply has_token_le|].
      by apply loads_network.
  - unfold auth_spawned in Hp. apply whole_service; [apply has_token_le|]. intros d _.
    repeat (apply elem_of_cons in Hp as [->|Hp]); [| | |by inversion Hp].
    + unfold ticking. case_decide; [done|]. apply tables_snapshot_task.
    + apply tables_spares, rounds_spares, spares_auth_system.
    + apply tables_spares, rounds_spares, spares_bind; [apply spares_auth_flush|done].
  - apply whole_delivered; [apply has_token_le|]. intros d topic msgs a Ht. apply tables_auth_receive.
    intros msgs' m [= <-] Hm. by eapply granted_token.
  - apply whole_service; [apply has_token_le|]. intros d _. by apply tables_auth_receive.
  - apply whole_aside; [apply has_token_le|]. apply spares_bind; [|done].
    by apply spares_start_server, spares_auth_handler.
  - apply whole_ended.
Qed.

(** *** The node *)
Section node.
Context {D X : Type} `{!KernelIface D, !XrayService X}.
Notation W := (Net (Devices D X)).

(** [run] -- bin/node/node.rs:77-326

    Up to the end of its requests for connections, its registration tried at
    most [k] times; with what the restoration of its devices spawns. *)
Definition node_run `{!ServiceHost, !ConfigFiles, !Surroundings D} (config : ServiceConfig) (k : nat)
    (s : NodeFile) : Prog W (result (list (Prog W unit)) Error) :=
  now <- at_service (svc_ask clock);;
  match node_init now (nf_parts s) with
  | None => Panic
  | Some (Err e) => Ret (Err e)
  | Some (Ok (agent, _)) =>
    _ <-? at_service service_sockets;;
    loaded <- at_service (node_load agent);;
    let '(snapshot_timestamp, restoring) := loaded in
    joined <- node_join metrics config agent (access_endpoint (nf_api s))
      (access_token (nf_api s)) k snapshot_timestamp;;
    Ret match joined with
        | Some (Err e) => Err e
        | _ => Ok (at_service <$> restoring)
        end
  end.

(** [run] -- bin/node/node.rs:242-360

    The tasks it leaves running beside the subscriber, each with its first [n]
    rounds. *)
Definition node_spawned (s : NodeFile) (agent : AgentConfig) (n : nat) :
    list (Prog (Svc (Devices D X)) unit) :=
  let _ := node_metrics agent in [
  ticking (ns_snapshot_interval (nf_service s)) (snapshot_task n);
  rounds n (collect_metrics agent);
  rounds n (flush;; Ret tt)].

(** Everything the node does, with any files, devices and surroundings. *)
Inductive node_side : Prog W unit → Prop :=
| node_starts (F : ConfigFiles) (host : ServiceHost) (around : Surroundings D) (s : ApiSettings)
    (k : nat) :
    loads s → node_side (service_main read_node (node_run (handler_config s) k);; Ret tt)
| node_restores agent a ts p :
    (run (node_load agent) a).2 = Some ts → p ∈ ts.2 → node_side (at_service p)
| node_works s agent n p : p ∈ node_spawned s agent n → node_side (at_service p)
| node_delivered agent i :
    node_side (delivered (node_topics (agent_node agent)) (agent_receive agent) i)
| node_garbled agent topic_str : node_side (at_service (agent_receive agent (topic_str, None)))
| node_ends devices : node_side (modifies (svc_ended devices)).

Lemma node_side_whole p s : node_side p → okp (whole in_rows) onwards p s.
Proof.
  intros [F host around st k Hload|agent a ts p' Hts Hp|st agent n p' Hp|agent i|agent topic_str|devices].
  - apply (okp_bind (whole in_rows) onwards); [|by intros]. unfold service_main, node_run.
    destruct (svc_args !! 1%nat) as [path|]; [|done]. destruct (from_file _ _) as [f|]; [|done].
    destruct svc_cpus as [cpus|e]; [|by apply okp_ret].
    apply (okp_bind (whole in_rows) onwards); [apply whole_aside; [apply in_rows_le|done]|].
    intros now s1. destruct (node_init _ _) as [[[agent wg]|e]|]; [|by apply okp_ret|done].
    apply (okp_bind (whole in_rows) onwards); [apply whole_sockets, in_rows_le|].
    intros [[]|e] s2; [|by apply okp_ret].
    apply (okp_bind (whole in_rows) onwards).
    { apply whole_service; [apply in_rows_le|]. intros d _. apply tables_node_load. }
    intros [ts restoring] s3. apply (okp_bind (whole in_rows) onwards); [|intros; by apply okp_ret].
    apply loads_network in Hload. unfold node_join. apply (okp_bind (whole in_rows) onwards).
    { apply whole_until_ok. intros s4. apply whole_register_node; [apply in_rows_le|done]. }
    intros [] s4; [|by apply okp_ret]. apply (okp_bind (whole in_rows) onwards);
      [|intros; by apply okp_ret].
    generalize (synced_tags agent). intros tags. revert s4.
    induction tags as [|tag tags IH]; intros s4; cbn [sync_tags]; [by apply okp_ret|].
    apply (okp_bind (whole in_rows) onwards);
      [apply whole_sync_connections; [apply in_rows_le|done]|].
    intros [[]|e] s5; [apply IH|by apply okp_ret].
  - apply whole_aside; [apply in_rows_le|]. by eapply restored_spares.
  - unfold node_spawned in Hp. apply whole_service; [apply in_rows_le|]. intros d _.
    repeat (apply elem_of_cons in Hp as [->|Hp]); [| | |by inversion Hp].
    + unfold ticking. case_decide; [done|]. apply tables_snapshot_task.
    + apply tables_spares, rounds_spares, spares_collect_metrics.
    + apply tables_spares, rounds_spares, spares_bind; [apply spares_node_flush|done].
  - apply whole_delivered; [apply in_rows_le|]. intros d topic msgs a Ht. apply tables_agent_receive.
    intros msgs' m [= <-] Hm. by eapply carried_row.
  - apply whole_service; [apply in_rows_le|]. intros d _. by apply tables_agent_receive.
  - apply whole_ended.
Qed.
End node.
End services.

(** ** What holds of the whole, always *)
Section always.
Context `{!Oracle, !Postgres, !Ipv6Text, !UuidText, !IterOrder, !Chrono, !WgCrypto,
  !UrlLib, !Base32, !Hmac, !SeriesHash, !Rfc3339, !Warp World, !Readers, !HttpText, !F64, !SysInfo, !Tonic,
  !Warp AuthWorld}.
Context {V : Type} (metrics : MetricStorage (V := V)) (preflight : HttpRequest → result Answer Causes).

(** The tasks of the server and those of a service. *)
Inductive system {D} (side : Prog (Net D) unit → Prop) : Prog (Net D) unit → Prop :=
| at_the_server p : api_side metrics preflight p → system side (at_server p;; Ret tt)
| at_the_service p : side p → system side p.

(** Neither process was started before. *)
Definition unstarted {D} (s : Net D) : Prop :=
  fresh (net_api s) ∧ db_ok (db (net_api s)) ∧ svc_mem (net_svc s) = ∅ ∧ svc_file (net_svc s) = None.

Lemma system_whole {D} (P : Db → Uuid → Base → Prop) (side : Prog (Net D) unit → Prop) s0 s :
  (∀ d d' id b, db_le d d' → P d id b → P d' id b) →
  (∀ p s, side p → okp (whole P) onwards p s) →
  unstarted s0 → reachable (system side) s0 s → whole P s.
Proof.
  intros HP Hside (Hf & Hd & Hm & Hfile) Hr.
  refine (proj1 (pool_invariant (whole P) onwards (system side) s0 s _ _ Hr)).
  - intros p s1 [q Hq|q Hq]; [|by apply Hside].
    apply (okp_bind (whole P) onwards); [|by intros].
    by apply whole_server, (api_side_sound metrics preflight).
  - split; [by apply backed_fresh|]. split; [rewrite Hm; apply map_Forall_empty|].
    intros f Hs. by rewrite Hfile in Hs.
Qed.

(** C5: an authentication service lets in only what the server has, always.
    From the first start of both on, the server's over a well-formed database,
    whatever requests the server gets over
    HTTP, whatever is delivered of what was published, early or late, once or
    often, in any order, whatever is asked of the service, whenever snapshots
    are written, however all their tasks interleave, whatever fails, and however
    often either process ends and is started again, from the snapshot it wrote
    and from any configuration files, the server's with the WireGuard network
    left out or written as text: a token the service says yes to is the token of a connection that the database has, under the id it says; and the
    server's cache is backed by its database and its announcements are true. *)
Theorem auth_always_true (s0 s : Net (MetricBuffer (V := f64))) (tok : Uuid) :
  unstarted s0 → reachable (system (auth_side metrics)) s0 s →
  sound (net_api s) ∧
  match (run (auth_handler tok) (net_svc s)).2 with
  | Some answer => auth_ok answer = true →
      ∃ id r, auth_id answer = Some (uuid_str id) ∧
        t_connections (db (net_api s)) !! id = Some r ∧ c_token r = Some tok
  | None => False
  end.
Proof.
  intros Hstart Hr. destruct (system_whole has_token (auth_side metrics) s0 s) as [Hs [Hm _]];
    [apply has_token_le|apply auth_side_whole|done..|]. split; [done|].
  pose proof (auth_handler_spec tok (net_svc s)) as Ha.
  destruct (run (auth_handler tok) _) as [a' [r|]]; destruct Ha as [_ Ha]; [|done]. cbn.
  intros Hok. rewrite Hok in Ha. destruct Ha as (id & c & Hid & Hc & Hp).
  destruct (Hm id c Hc tok Hp) as (row & Hrow & Htok). by exists id, row.
Qed.

(** C6: a node carries only what the server has, always.  In the same way, and
    from the same starts and files, from the first start of the server and of a
    node's agent on, and over all their lives: every connection of the node's table, and of the snapshot that its
    next life will restore, is one that the database has under that id, with
    the same protocol, the same password or WireGuard key and address, and the
    same owner. *)
Theorem node_always_true {D X : Type} `{!KernelIface D, !XrayService X}
    (s0 s : Net (Devices D X)) (id : Uuid) (b : Base) :
  unstarted s0 → reachable (system (node_side metrics)) s0 s →
  svc_mem (net_svc s) !! id = Some b ∨
    (∃ snap, svc_file (net_svc s) = Some snap ∧ snap_memory snap !! id = Some b) →
  ∃ r, t_connections (db (net_api s)) !! id = Some r ∧ agrees r b.
Proof.
  intros Hstart Hr Hin. destruct (system_whole in_rows (node_side metrics) s0 s) as [_ [Hm Hf]];
    [apply in_rows_le|apply node_side_whole|done..|].
  destruct Hin as [Hb|(snap & Hs & Hb)]; [exact (Hm id b Hb)|exact (Hf snap Hs id b Hb)].
Qed.
End always.

(** ** Two runs *)

(** The readers of one body: a connection of Hysteria2, or of VMess. *)
Definition one_body (tag : ProtoTag) : Readers := {|
  query_sub_id _ := None; query_nodes _ := None; query_node_id _ := None; query_conn _ := None;
  query_key _ := None; query_sub_info _ := None; query_conn_info _ := None; json_node _ := None;
  json_sub _ := None; json_conn_type _ := None;
  json_conn _ := Some {| cc_env := Env.Dev; cc_subscription_id := None; cc_proto := tag;
    cc_days := None |};
  json_key _ := None; json_activate _ := None; json_trial _ := None |}.

#[local] Existing Instance example_files.

Lemma loads_example : loads loaded_example.
Proof. exists _, "api.toml". split; [exact loaded_example_eq|exact plain_network]. Qed.

(** A request over HTTP that creates it. *)
Definition creates_over_http (tag : ProtoTag) : IO unit :=
  let _ := one_body tag in
  ask_filter (Routing.served no_metrics (handler_config loaded_example)
    (as_cors_origins (api_service loaded_example)) no_preflight) create_request;; Ret tt.
Lemma creates_over_http_side tag :
  let _ := one_body tag in api_side no_metrics no_preflight (creates_over_http tag).
Proof.
  intros R. eapply api_works; [exact loads_example|]. apply (http_request _ _ _ _ create_request).
Qed.

(** The file of an authentication service, and its host. *)
Definition auth_doc : Table := [
  ("service", TTable [("log_level", TStr "info"); ("snapshot_interval", TInt 60);
    ("snapshot_path", TStr "auth.bin"); ("updates_endpoint_zmq", TStr "tcp://api:3000")]);
  ("node", TTable [("env", TStr "dev"); ("hostname", TStr "auth"); ("default_interface", TStr "eth0");
    ("address", TStr "127.0.0.1"); ("uuid", TStr "00000000-0000-0000-0000-000000000009");
    ("label", TStr "auth"); ("max_bandwidth_bps", TInt 1000); ("country", TStr "NL");
    ("type", TStr "Service")]);
  ("api", TTable [("endpoint", TStr "http://api:3005"); ("token", TStr "t")]);
  ("metrics", TTable [("publisher", TStr "tcp://api:3001"); ("interval", TInt 10)])].
Definition auth_files : ConfigFiles := {|
  config_text _ := Ok ""; toml_parse _ := Ok auth_doc; toml_message _ := "missing field";
  key_borrowed := true |}.
Definition able_service : ServiceHost := {|
  svc_args := ["auth"; "auth.toml"]; svc_cpus := Ok 2; svc_host_var := None; sub_ready _ := true;
  tx_sndhwm _ := Ok tt; tx_connect _ := Ok tt |}.

Definition auth_file_read : AuthFile :=
  let _ := auth_files in
  match from_file read_auth "auth.toml" with
  | Some f => f
  | None => {| af_service := {| au_log_level := ""; au_listen := 0; au_port := 0;
      au_snapshot_interval := 0; au_snapshot_path := ""; au_origin := "";
      au_updates_endpoint_zmq := "" |}; af_node := {| raw_env := Env.Dev; raw_hostname := None;
      raw_default_interface := ""; raw_address := 0; raw_uuid := 0%N; raw_label := "";
      raw_max_bandwidth_bps := 0; raw_country := ""; raw_type := "" |};
      af_api := no_access; af_metrics := no_metrics_tx |}
  end.
(** A token is created, its announcement delivered and a snapshot written; the
    service ends and is started again from the snapshot. *)
Definition starts_again : Prog (Net (MetricBuffer (V := f64))) unit :=
  let _ := auth_files in let _ := able_service in
  service_main read_auth (auth_run no_metrics (handler_config loaded_example) 1);; Ret tt.
Definition alone : Net (MetricBuffer (V := f64)) := {| net_api := world_new; net_svc := idle |}.
Definition auth_course : list (Prog (Net (MetricBuffer (V := f64))) unit) * Net (MetricBuffer (V := f64)) :=
  schedule (replicate 12 0%nat ++ replicate 12 1%nat ++ replicate 8 2%nat ++ [3%nat] ++ replicate 24 4%nat)
    ([at_server (creates_over_http ProtoTag.Hysteria2);; Ret tt;
      delivered (auth_topics 9%N) (auth_receive 9%N) 0;
      at_service (snapshot_task 1);
      modifies (svc_ended {| batch := []; beat_index := 0 |});
      starts_again], alone).

Lemma auth_always_true_witness :
  let _ := one_body ProtoTag.Hysteria2 in
  unstarted alone ∧
  reachable (system no_metrics no_preflight (auth_side no_metrics)) alone auth_course.2 ∧
  ∃ tok id r, (run (auth_handler tok) (net_svc auth_course.2)).2 =
      Some {| auth_ok := true; auth_id := Some (uuid_str id) |} ∧
    t_connections (db (net_api auth_course.2)) !! id = Some r ∧ c_token r = Some tok.
Proof.
  intros R.
  assert (unstarted alone) as Hs by (split; [done|]; split; [exact db_ok_empty|done]).
  assert (reachable (system no_metrics no_preflight (auth_side no_metrics)) alone auth_course.2) as Hr.
  { apply schedule_reachable. repeat (apply Forall_cons_2; [|]); [..|apply Forall_nil_2].
    - apply at_the_server, creates_over_http_side.
    - apply at_the_service, auth_delivered.
    - apply at_the_service. by apply (auth_works _ auth_file_read example_node 1), list_elem_of_here.
    - apply at_the_service, auth_ends.
    - apply at_the_service, (auth_starts _ auth_files able_service loaded_example 1), loads_example. }
  split; [exact Hs|]. split; [exact Hr|].
  destruct (proj2 (auth_always_true no_metrics no_preflight alone auth_course.2 0%N Hs Hr)
    ltac:(vm_compute; reflexivity)) as (id & r & Hid & Hrow & Htok).
  exists 0%N, id, r. split; [|by split]. rewrite <- Hid. vm_compute. reflexivity.
Defined.

(** A node with Xray alone. *)
Definition node_doc : Table := [
  ("service", TTable [("snapshot_interval", TInt 60); ("snapshot_path", TStr "node.bin");
    ("updates_endpoint_zmq", TStr "tcp://api:3000")]);
  ("xray", TTable [("enabled", TBool true); ("path", TStr "xray.json")]);
  ("node", TTable [("env", TStr "dev"); ("hostname", TStr "node"); ("default_interface", TStr "eth0");
    ("address", TStr "127.0.0.1"); ("uuid", TStr "00000000-0000-0000-0000-000000000009");
    ("label", TStr "node"); ("max_bandwidth_bps", TInt 1000); ("country", TStr "NL");
    ("type", TStr "Common")]);
  ("api", TTable [("endpoint", TStr "http://api:3005"); ("token", TStr "t")]);
  ("metrics", TTable [("publisher", TStr "tcp://api:3001"); ("interval", TInt 10)])].
Definition node_files : ConfigFiles := {|
  config_text _ := Ok ""; toml_parse _ := Ok node_doc; toml_message _ := "missing field";
  key_borrowed := true |}.
Definition node_loads : NodeFile :=
  let _ := node_files in
  match from_file read_node "node.toml" with
  | Some f => f
  | None => {| nf_service := no_service; nf_parts := {| set_xray := no_part; set_wg := no_part;
      set_h2 := no_part; set_mtproto := no_part; set_node := af_node auth_file_read |};
      nf_api := no_access; nf_metrics := no_metrics_tx |}
  end.
Definition node_around : Surroundings (gmap (list Z) Peer) := {|
  json_settings _ := Ok {| xray_inbounds := [no_settings ProtoTag.Vmess 443];
    api_listen := "127.0.0.1:1" |};
  yaml_settings _ := Err "no document";
  xray_stats _ := Ok tt; xray_handler _ := Ok tt; wg_open _ := Ok ∅; num_cpus := Ok 2;
  host_var := None |}.

Notation Small := (Devices (gmap (list Z) Peer) XrayTable).
Definition node_starts_again : Prog (Net Small) unit :=
  let _ := node_files in let _ := able_service in let _ := node_around in
  service_main read_node (node_run no_metrics (handler_config loaded_example) 1);; Ret tt.
Definition node_alone : Net Small := {| net_api := world_new; net_svc := fresh_agent |}.
(** A VMess connection is created, carried out on the node and written to its
    snapshot; the node ends, and is started again. *)
Definition node_course : list (Prog (Net Small) unit) * Net Small :=
  schedule (replicate 12 0%nat ++ replicate 14 1%nat ++ replicate 8 2%nat ++ [3%nat] ++ replicate 60 4%nat)
    ([at_server (creates_over_http ProtoTag.Vmess);; Ret tt;
      delivered (node_topics (agent_node example_agent)) (agent_receive example_agent) 0;
      at_service (snapshot_task 1);
      modifies (svc_ended (svc_device fresh_agent));
      node_starts_again], node_alone).

Lemma node_always_true_witness :
  let _ := one_body ProtoTag.Vmess in
  unstarted node_alone ∧
  reachable (system no_metrics no_preflight (node_side no_metrics)) node_alone node_course.2 ∧
  ∃ id b r, svc_mem (net_svc node_course.2) !! id = Some b ∧
    t_connections (db (net_api node_course.2)) !! id = Some r ∧ agrees r b.
Proof.
  intros R.
  assert (unstarted node_alone) as Hs by (split; [done|]; split; [exact db_ok_empty|done]).
  assert (reachable (system no_metrics no_preflight (node_side no_metrics)) node_alone node_course.2)
    as Hr.
  { apply schedule_reachable. repeat (apply Forall_cons_2; [|]); [..|apply Forall_nil_2].
    - apply at_the_server, creates_over_http_side.
    - apply at_the_service, node_delivered.
    - apply at_the_service. by apply (node_works _ node_loads example_agent 1), list_elem_of_here.
    - apply at_the_service, node_ends.
    - apply at_the_service, (node_starts _ node_files able_service node_around loaded_example 1),
        loads_example. }
  split; [exact Hs|]. split; [exact Hr|].
  destruct (svc_mem (net_svc node_course.2) !! 1%N) as [b|] eqn:Hb; [|vm_compute in Hb; discriminate Hb].
  destruct (node_always_true no_metrics no_preflight node_alone node_course.2 1%N b Hs Hr (or_introl Hb))
    as (r & Hrow & Ha).
  exists 1%N, b, r. split; [exact Hb|]. by split.
Defined.
