(* ===== verification/CodeErrors.v ===== *)
(** * Mistyped codes

    What the checksum of an activation code ([memory/key.rs]) is for: a code
    with one wrong character.  A character of base 32 is five bits, which may
    lie across two bytes, so that the error of one character is an error of up
    to two bytes; the sum tells the two codes apart all the same. *)
From S2P Require Import Prelude Foreign Naming Key.
Local Open Scope Z_scope.

(** ** Base 32 by its bits

    RFC 4648: a text is the digits of its bits, five at a time, and the bits
    left over after the last byte are dropped. *)
Definition digits_ok : list Z → Prop := Forall (λ d, 0 <= d < 32).
Definition b32_text (ds : list Z) : string :=
  String.string_of_list_ascii (Alphabet.char Alphabet.b32 <$> ds).
Definition b32_bytes (ds : list Z) : list Z :=
  let k := (length ds * 5 / 8)%nat in
  to_be_bytes k (Radix.of_be 32 ds / 2 ^ Z.of_nat (length ds * 5 - 8 * k)).

Class Base32Digits (B : Base32) := {
  b32_decode_digits : ∀ ds, digits_ok ds → b32_decode (b32_text ds) = Some (b32_bytes ds);
  b32_encode_digits : ∀ l, bytes_ok l → ∃ ds, digits_ok ds ∧ b32_encode l = b32_text ds;
}.

#[export, program] Instance rfc4648_digits : Base32Digits base32_rfc4648.
Next Obligation.
  intros ds Hds. cbn. unfold PowCode.decode, b32_text.
  rewrite String.list_ascii_of_string_of_list_ascii.
  by rewrite (PowCode.mapM_char 5 _ _ Alphabet.b32_char).
Qed.
Next Obligation.
  intros l _. eexists. split; [|reflexivity]. by apply Radix.to_be_ok.
Qed.

(** ** Numbers in a radix *)
Section radix.
Context (r : Z) (Hr : 1 < r).

Lemma of_le_app l l' :
  Radix.of_le r (l ++ l') = Radix.of_le r l + r ^ Z.of_nat (length l) * Radix.of_le r l'.
Proof using Hr.
  induction l as [|b l IH].
  - cbn [app length Radix.of_le]. change (r ^ Z.of_nat 0) with 1. lia.
  - cbn [app length Radix.of_le]. rewrite IH, Nat2Z.inj_succ, Z.pow_succ_r by lia. ring.
Qed.

Lemma of_be_split l d l' :
  Radix.of_be r (l ++ d :: l') =
    Radix.of_be r l * r ^ Z.of_nat (S (length l')) + d * r ^ Z.of_nat (length l') +
    Radix.of_be r l'.
Proof using Hr.
  unfold Radix.of_be. rewrite rev_app_distr. cbn [rev].
  rewrite !of_le_app, length_app, !length_rev. cbn [Radix.of_le length].
  rewrite Nat.add_1_r, Nat2Z.inj_succ, Z.pow_succ_r by lia. ring.
Qed.
End radix.

(** The sum of the low [k] bytes of a number. *)
Definition byte_sum (k : nat) (z : Z) : Z := foldr Z.add 0 (Radix.to_le 256 k z).

Lemma byte_sum_S k z : byte_sum (S k) z = z mod 256 + byte_sum k (z / 256).
Proof. done. Qed.

Lemma byte_sum_add q k L R :
  0 <= L < 256 ^ Z.of_nat q →
  byte_sum (q + k) (L + 256 ^ Z.of_nat q * R) = byte_sum q L + byte_sum k R.
Proof.
  revert L; induction q as [|q IH]; intros L HL.
  - change (256 ^ Z.of_nat 0) with 1 in *. replace (L + 1 * R) with R by lia. done.
  - rewrite Nat2Z.inj_succ, Z.pow_succ_r in HL |- * by lia.
    change (S q + k)%nat with (S (q + k)). rewrite !byte_sum_S.
    replace (L + 256 * 256 ^ Z.of_nat q * R) with (L + (256 ^ Z.of_nat q * R) * 256) by ring.
    rewrite Z_mod_plus_full, Z.div_add by lia.
    rewrite IH; [ring|]. split; [apply Z.div_pos; lia|apply Z.div_lt_upper_bound; lia].
Qed.

Lemma sum_rev l : foldr Z.add 0 (rev l) = foldr Z.add 0 l.
Proof.
  induction l as [|b l IH]; [done|]. cbn [rev]. rewrite foldr_app. cbn [foldr].
  rewrite <- IH. generalize (rev l). intros l'. induction l' as [|c l' IH']; cbn; lia.
Qed.

(** what the checksum of sixteen bytes says of their number *)
Definition checks (M : Z) : Prop := byte_sum 15 (M / 256) mod 256 = M mod 256.

Lemma checks_bytes M :
  Some (Code.checksum (take 15 (to_be_bytes 16 M))) = head (drop 15 (to_be_bytes 16 M)) →
  checks M.
Proof.
  assert (to_be_bytes 16 M = to_be_bytes 15 (M / 256) ++ [M mod 256]) as -> by done.
  rewrite take_app_length', drop_app_length' by (by rewrite Radix.length_to_be).
  intros [= H]. rewrite Code.checksum_sum in H. unfold checks, byte_sum.
  unfold Radix.to_be in H. by rewrite sum_rev in H.
Qed.

(** One case for each offset, with its powers of two written out. *)
Ltac offsets H :=
  repeat destruct H as [->|H]; try subst;
  repeat match goal with
    | |- context [2 ^ ?e] => let v := eval vm_compute in (2 ^ e) in change (2 ^ e) with v
    | h : context [2 ^ ?e] |- _ =>
      let v := eval vm_compute in (2 ^ e) in change (2 ^ e) with v in h
    end; Z.to_euclidean_division_equations; lia.

(** ** One digit, in one byte or across two *)
Definition with_digit (hi d a lo : Z) : Z := hi * 2 ^ (a + 5) + d * 2 ^ a + lo.

Lemma low_byte x q b : x = q * 256 + b → 0 <= b < 256 → x mod 256 = b ∧ x / 256 = q.
Proof.
  intros -> Hb. split; symmetry; [apply (Z.mod_unique _ _ q)|apply (Z.div_unique _ _ _ b)]; lia.
Qed.

Lemma mod_close u v : u mod 256 = v mod 256 → Z.abs (u - v) < 256 → u = v.
Proof.
  intros Hm Ha. pose proof (Z.div_mod u 256 ltac:(lia)).
  pose proof (Z.div_mod v 256 ltac:(lia)). nia.
Qed.

(** inside its byte *)
Lemma digit_one_byte a hi lo d d' k :
  0 <= a <= 3 → 0 <= lo < 2 ^ a → 0 <= d < 32 → 0 <= d' < 32 →
  byte_sum (S k) (with_digit hi d a lo) mod 256 =
    byte_sum (S k) (with_digit hi d' a lo) mod 256 → d = d'.
Proof.
  intros Ha Hlo Hd Hd'.
  assert (∀ e, 0 <= e < 32 → byte_sum (S k) (with_digit hi e a lo) =
    hi mod 2 ^ (3 - a) * 2 ^ (a + 5) + e * 2 ^ a + lo + byte_sum k (hi / 2 ^ (3 - a))) as Hsum.
  { intros e He. rewrite byte_sum_S.
    destruct (low_byte (with_digit hi e a lo) (hi / 2 ^ (3 - a))
      (hi mod 2 ^ (3 - a) * 2 ^ (a + 5) + e * 2 ^ a + lo)) as [-> ->]; [| |done];
      unfold with_digit; assert (a = 0 ∨ a = 1 ∨ a = 2 ∨ a = 3) as Hcases by lia;
      offsets Hcases. }
  rewrite !Hsum by done. intros Hm%mod_close;
    assert (a = 0 ∨ a = 1 ∨ a = 2 ∨ a = 3) as Hcases by lia;
    offsets Hcases.
Qed.

(** across two *)
Lemma digit_two_bytes a hi lo d d' k :
  4 <= a < 8 → 0 <= lo < 2 ^ a → 0 <= d < 32 → 0 <= d' < 32 →
  byte_sum (S (S k)) (with_digit hi d a lo) mod 256 =
    byte_sum (S (S k)) (with_digit hi d' a lo) mod 256 → d = d'.
Proof.
  intros Ha Hlo Hd Hd'.
  assert (a = 4 ∨ a = 5 ∨ a = 6 ∨ a = 7) as Hcases by lia.
  assert (∀ e, 0 <= e < 32 → byte_sum (S (S k)) (with_digit hi e a lo) =
    (e mod 2 ^ (8 - a) * 2 ^ a + lo) +
    (hi mod 2 ^ (11 - a) * 2 ^ (a - 3) + e / 2 ^ (8 - a)) + byte_sum k (hi / 2 ^ (11 - a))) as Hsum.
  { intros e He. rewrite !byte_sum_S.
    destruct (low_byte (with_digit hi e a lo) (hi * 2 ^ (a - 3) + e / 2 ^ (8 - a))
      (e mod 2 ^ (8 - a) * 2 ^ a + lo)) as [-> ->];
      [unfold with_digit; offsets Hcases..|].
    destruct (low_byte (hi * 2 ^ (a - 3) + e / 2 ^ (8 - a)) (hi / 2 ^ (11 - a))
      (hi mod 2 ^ (11 - a) * 2 ^ (a - 3) + e / 2 ^ (8 - a))) as [-> ->];
      [offsets Hcases..|].
    lia. }
  rewrite !Hsum by done. intros Hm%mod_close;
    offsets Hcases.
Qed.

(** ** One character of a code *)

(** Above the checksum's byte the remaining 120 bits are 24 whole characters. *)
Lemma digit_above (m : nat) A d d' B :
  (m ≤ 23)%nat → 0 <= B < 32 ^ Z.of_nat m → 0 <= d < 32 → 0 <= d' < 32 →
  byte_sum 15 (A * 32 ^ Z.of_nat (S m) + d * 32 ^ Z.of_nat m + B) mod 256 =
    byte_sum 15 (A * 32 ^ Z.of_nat (S m) + d' * 32 ^ Z.of_nat m + B) mod 256 →
  d = d'.
Proof.
  intros Hm HB Hd Hd'.
  set (q := (5 * m / 8)%nat). set (a := Z.of_nat (5 * m mod 8)).
  assert (5 * Z.of_nat m = 8 * Z.of_nat q + a) as Hqa.
  { subst q a. pose proof (Nat.div_mod_eq (5 * m) 8). lia. }
  assert (0 <= a < 8) as Ha.
  { subst a. pose proof (Nat.mod_upper_bound (5 * m) 8). lia. }
  assert (32 ^ Z.of_nat m = 256 ^ Z.of_nat q * 2 ^ a) as Hp.
  { change 32 with (2 ^ 5). change 256 with (2 ^ 8).
    rewrite <- !Z.pow_mul_r, <- Z.pow_add_r by lia. f_equal. lia. }
  assert (0 < 256 ^ Z.of_nat q) as Hq0 by (apply Z.pow_pos_nonneg; lia).
  set (L := B mod 256 ^ Z.of_nat q). set (lo := B / 256 ^ Z.of_nat q).
  assert (0 <= lo < 2 ^ a) as Hlo.
  { subst lo. rewrite Hp in HB.
    split; [apply Z.div_pos; lia|apply Z.div_lt_upper_bound; lia]. }
  assert (0 <= L < 256 ^ Z.of_nat q) as HL by (subst L; apply Z.mod_pos_bound; lia).
  assert (∀ e, A * 32 ^ Z.of_nat (S m) + e * 32 ^ Z.of_nat m + B
    = L + 256 ^ Z.of_nat q * with_digit A e a lo) as Hsplit.
  { intros e. unfold with_digit. rewrite Nat2Z.inj_succ, Z.pow_succ_r, Hp, Z.pow_add_r by lia.
    pose proof (Z.div_mod B (256 ^ Z.of_nat q) ltac:(lia)) as HB'. fold L lo in HB'.
    change (2 ^ 5) with 32. rewrite HB' at 1. ring. }
  rewrite !Hsplit. clearbody L lo. clear Hsplit HB.
  assert (q ≤ 14)%nat as Hq by lia. replace 15%nat with (q + (15 - q))%nat by lia.
  rewrite !byte_sum_add by done. intros H. assert (byte_sum (15 - q) (with_digit A d a lo) mod 256
    = byte_sum (15 - q) (with_digit A d' a lo) mod 256) as H'.
  { revert H. generalize (byte_sum q L). intros s H. Z.to_euclidean_division_equations. lia. }
  destruct (decide (a <= 3)) as [Ha3|Ha3].
  - replace (15 - q)%nat with (S (14 - q)) in H' by lia.
    eapply digit_one_byte; [|done..|exact H']. lia.
  - assert (q ≤ 13)%nat by lia. replace (15 - q)%nat with (S (S (13 - q))) in H' by lia.
    eapply digit_two_bytes; [|done..|exact H']. lia.
Qed.

(** Of the number of a text of 26 digits, two bits are dropped and the low byte
    is the checksum. *)
Lemma checks_digit l d d' l' :
  (0 < length l' ≤ 25)%nat → digits_ok l' → 0 <= d < 32 → 0 <= d' < 32 →
  checks (Radix.of_be 32 (l ++ d :: l') / 4) → checks (Radix.of_be 32 (l ++ d' :: l') / 4) →
  d = d'.
Proof.
  intros Hn Hl' Hd Hd'. rewrite !of_be_split by lia.
  pose proof (Radix.of_be_bound 32 ltac:(lia) l' Hl') as HB.
  set (A := Radix.of_be 32 l). set (B := Radix.of_be 32 l') in *.
  unfold checks. rewrite !Z.div_div by lia. change (4 * 256) with 1024.
  destruct (length l') as [|[|m]]; [lia| |].
  - change (32 ^ Z.of_nat 2) with 1024. change (32 ^ Z.of_nat 1) with 32 in *.
    assert (∀ e, 0 <= e < 32 → (A * 1024 + e * 32 + B) / 1024 = A) as HA
      by (intros; Z.to_euclidean_division_equations; lia).
    rewrite !HA by done. generalize (byte_sum 15 A). intros s.
    Z.to_euclidean_division_equations. lia.
  - assert (∀ k, 32 ^ Z.of_nat (S (S k)) = 1024 * 32 ^ Z.of_nat k) as Hpow.
    { intros k. rewrite !Nat2Z.inj_succ, !Z.pow_succ_r by lia. ring. }
    rewrite (Hpow m) in HB. rewrite (Hpow m), (Hpow (S m)).
    pose proof (Z.div_mod B 1024 ltac:(lia)) as HBd.
    pose proof (Z.mod_pos_bound B 1024 ltac:(lia)) as HBm.
    set (P1 := 32 ^ Z.of_nat (S m)). set (P := 32 ^ Z.of_nat m) in *.
    assert (∀ e, (A * (1024 * P1) + e * (1024 * P) + B) / 1024 = A * P1 + e * P + B / 1024) as Hdiv.
    { intros e. replace (A * (1024 * P1) + e * (1024 * P) + B)
        with (B + (A * P1 + e * P) * 1024) by ring. rewrite Z.div_add by lia. ring. }
    assert (∀ e, (A * (1024 * P1) + e * (1024 * P) + B) / 4 mod 256 = B / 4 mod 256) as Hmod.
    { intros e. replace (A * (1024 * P1) + e * (1024 * P) + B)
        with (B + (A * P1 + e * P) * 256 * 4) by ring.
      by rewrite Z.div_add, Z_mod_plus_full by lia. }
    rewrite !Hdiv, !Hmod. intros H1 H2. rewrite <- H2 in H1.
    eapply (digit_above m A d d' (B / 1024)); [lia| |done..|exact H1].
    split; [apply Z.div_pos; lia|apply Z.div_lt_upper_bound; lia].
Qed.

Section codes.
Context `{!Base32, !Base32Digits _, !Hmac}.

Lemma b32_text_all (P : ascii → Prop) ds :
  (∀ d, 0 <= d < 32 → P (Alphabet.char Alphabet.b32 d)) → digits_ok ds → Str.all P (b32_text ds).
Proof.
  intros HP Hds. unfold Str.all, b32_text.
  rewrite String.list_ascii_of_string_of_list_ascii. by eapply Forall_fmap, Forall_impl.
Qed.

Lemma decode_text ds :
  digits_ok ds →
  b32_decode (Str.to_uppercase (Str.remove "-" (Code.format (b32_text ds)))) = Some (b32_bytes ds).
Proof.
  intros Hds. rewrite Code.remove_format by by apply b32_text_all; [exact Alphabet.b32_dash|].
  rewrite StrFacts.upper_fix by by apply b32_text_all; [exact Alphabet.b32_upper|].
  by apply b32_decode_digits.
Qed.

Lemma b32_bytes_code ds :
  length ds = 26%nat → b32_bytes ds = to_be_bytes 16 (Radix.of_be 32 ds / 4).
Proof. intros Hl. unfold b32_bytes. by rewrite Hl. Qed.

Lemma parse_checks ds secret r :
  digits_ok ds → length ds = 26%nat →
  Code.parse (Code.format (b32_text ds)) secret = Some r → checks (Radix.of_be 32 ds / 4).
Proof.
  intros Hds Hl. unfold Code.parse. rewrite decode_text, b32_bytes_code by done.
  rewrite decide_False by (rewrite Radix.length_to_be; intros Hn; by apply Hn).
  case_decide as Hck; [done|]. intros _. apply checks_bytes.
  by destruct (decide (Some (Code.checksum (take 15 (to_be_bytes 16 (Radix.of_be 32 ds / 4))))
    = head (drop 15 (to_be_bytes 16 (Radix.of_be 32 ds / 4))))).
Qed.

(** At most one of two codes which differ in one character is accepted: the
    lemma behind [code_single_character] and the unit tests. *)
Lemma parse_one_digit ds i d d' secret secret' r r' :
  digits_ok ds → length ds = 26%nat → ds !! i = Some d → 0 <= d' < 32 → (i < 25)%nat →
  Code.parse (Code.format (b32_text ds)) secret = Some r →
  Code.parse (Code.format (b32_text (<[i := d']> ds))) secret' = Some r' → d = d'.
Proof.
  intros Hds Hl Hi Hd' Hlt H1 H2.
  assert (0 <= d < 32) as Hd by exact (Forall_lookup_1 _ _ _ _ Hds Hi).
  apply parse_checks in H1; [|done..].
  apply parse_checks in H2; [|by apply Forall_insert|by rewrite length_insert].
  rewrite insert_take_drop in H2 by lia. rewrite <- (take_drop_middle ds i d Hi) in H1.
  apply (checks_digit (take i ds) d d' (drop (S i) ds)); [|by apply Forall_drop|done..].
  rewrite length_drop. lia.
Qed.

(** C38: A code says when one of its characters is wrong: when a character of an
    accepted code, other than the last, is replaced by another of the
    alphabet, no secret accepts the result.  (The last one carries two bits
    that mean nothing.) *)
Theorem code_single_character (ds : list Z) (i : nat) (d d' : Z) (secret secret' : list Z)
    (r : Z * list Z)
    (Hds : digits_ok ds) (Hl : length ds = 26%nat) (Hi : ds !! i = Some d) (Hlt : (i < 25)%nat)
    (Hd' : 0 <= d' < 32) (Hne : d ≠ d')
    (Hacc : Code.parse (Code.format (b32_text ds)) secret = Some r) :
  Code.parse (Code.format (b32_text (<[i := d']> ds))) secret' = None.
Proof.
  destruct (Code.parse _ secret') as [r'|] eqn:Hp; [exfalso|done]. apply Hne.
  by eapply parse_one_digit.
Qed.

(** Every minted code is such a text. *)
Lemma minted_digits random days distributor secret :
  length random = 6%nat → bytes_ok random → length distributor = 4%nat → bytes_ok distributor →
  ∃ ds, digits_ok ds ∧ length ds = 26%nat ∧
    Code.text (Code.new random days distributor secret) = Code.format (b32_text ds).
Proof.
  intros Hr Hrok Hd Hdok.
  destruct (b32_encode_digits (Code.payload random days distributor secret)) as (ds & Hds & Heq);
    [by apply Code.payload_ok|].
  exists ds. split_and!; [done| |].
  - pose proof (b32_length (Code.payload random days distributor secret)) as Hl.
    rewrite Code.payload_length, Heq in Hl by done. unfold b32_text in Hl.
    rewrite <- StrFacts.length_list, String.list_ascii_of_string_of_list_ascii, length_fmap in Hl.
    exact Hl.
  - unfold Code.new. cbn. rewrite StrFacts.upper_fix by apply b32_upper. by rewrite Heq.
Qed.
End codes.

Definition test_digits : list Z :=
  Radix.to_be 32 26 (from_be_bytes
    (Code.payload zero_random 30 (Distributor.as_bytes test_distributor) [1; 2; 3]) * 4).

Lemma code_single_character_witness :
  Code.parse (Code.format (b32_text test_digits)) [1; 2; 3] = Some (30, [84; 69; 83; 84]) ∧
  Code.parse (Code.format (b32_text (<[7%nat := 9]> test_digits))) [1; 2; 3] = None.
Proof.
  assert (Code.parse (Code.format (b32_text test_digits)) [1; 2; 3]
    = Some (30, [84; 69; 83; 84])) as Hp by (vm_compute; reflexivity).
  split; [exact Hp|].
  exact (code_single_character test_digits 7 0 9 [1; 2; 3] [1; 2; 3] _
    (Radix.to_be_ok 32 ltac:(lia) 26 _) ltac:(vm_compute; reflexivity) ltac:(vm_compute; reflexivity)
    ltac:(lia) ltac:(lia) ltac:(lia) Hp).
Defined.
