(* ===== verification/UnitTests.v ===== *)
(** * The repository's own unit tests

    The tests of [memory/env.rs] and [memory/key.rs], each as the boolean its
    assertions compute over the model; what a test draws at random or takes
    from the clock is its argument. They tie the definitions of [Naming] and
    [Key] to what their authors expect of them: every test of environments
    passes; the tests of keys that can only pass do so for whatever HMAC; two
    codes differ exactly when their random bytes do; and the test that
    overwrites one character of a code passes exactly on the codes which do not
    already have that character there. *)
From S2P Require Import Prelude Foreign Naming Key CodeErrors.
Local Open Scope Z_scope.

(** [assert_eq!] and [unwrap] *)
Notation "a =? b" := (bool_decide (a = b)) (at level 70) : test_scope.
Delimit Scope test_scope with test.
Definition expect {A} (x : option A) (k : A → bool) : bool :=
  match x with Some a => k a | None => false end.
Definition unwrap {A E} (x : result A E) (k : A → bool) : bool :=
  match x with Ok a => k a | Err _ => false end.

(** ** Environments *)
Module EnvTests.
Local Open Scope test_scope.

(** [test_env_from_str] -- memory/env.rs:94-101 *)
Definition test_env_from_str : bool :=
  unwrap (Env.from_str "dev") (λ e, e =? Env.Dev) &&
  unwrap (Env.from_str "DEVELOPMENT") (λ e, e =? Env.Dev) &&
  unwrap (Env.from_str "prod") (λ e, e =? Env.Production) &&
  unwrap (Env.from_str "experimental") (λ e, e =? Env.Experimental) &&
  unwrap (Env.from_str "ru") (λ e, e =? Env.Ru).

(** [test_custom_parsing] -- memory/env.rs:103-116 *)
Definition test_custom_parsing : bool :=
  unwrap (Env.from_str "custom_env_123") (λ e, e =? Env.Custom "_env_123") &&
  unwrap (Env.from_str "custom") (λ e, e =? Env.Custom EmptyString) &&
  (Env.fmt (Env.Custom "777") =? "custom777").

(** [test_serde_serialization] -- memory/env.rs:118-124

    The quotes of a JSON string are serde's. *)
Definition test_serde_serialization : bool :=
  (Env.serialize Env.Dev =? "dev") &&
  (Env.serialize (Env.Custom "hehe") =? "hehe").

(** [test_serde_deserialization] -- memory/env.rs:126-133 *)
Definition test_serde_deserialization : bool :=
  (Env.deserialize "dev" =? Env.Dev) &&
  (Env.deserialize "some_random_id" =? Env.Custom "some_random_id").

(** [test_from_conversions] -- memory/env.rs:135-142 *)
Definition test_from_conversions : bool :=
  (Env.from "prod" =? Env.Production) &&
  (Env.from "unknown_garbage" =? Env.Experimental).

(** [test_error_handling] -- memory/env.rs:144-148 *)
Definition test_error_handling : bool :=
  match Env.from_str "invalid" with Err _ => true | Ok _ => false end.

Theorem tests_pass :
  test_env_from_str && test_custom_parsing && test_serde_serialization &&
  test_serde_deserialization && test_from_conversions && test_error_handling = true.
Proof. by vm_compute. Qed.
End EnvTests.

(** ** Keys and codes *)
Module KeyTests.
(** [SECRET] -- memory/key.rs:234-234 *)
Definition SECRET : list Z := str_bytes "sign-token".
Definition TEST : list Z := str_bytes "TEST".

(** [String::replace_range] on the range [a..b]: [None] is the panic. *)
Definition replace_range (a b : nat) (w s : string) : option string :=
  if decide (a ≤ b ≤ String.length s)%nat
  then Some (String.substring 0 a s +:+ w +:+ Str.drop b s) else None.

(** the first character but a hyphen, replaced *)
Fixpoint tamper_first (s : string) : string :=
  match s with
  | EmptyString => EmptyString
  | String c s =>
    if decide (c = "-"%char) then String c (tamper_first s)
    else String (if decide (c = "A"%char) then "B"%char else "A"%char) s
  end.

Section tests.
Context `{!Base32, !Hmac}.
Local Open Scope test_scope.

(** [distributor] -- memory/key.rs:236-238 *)
Definition distributor : result Distributor Error := Distributor.new "TEST".

(** the text of [Code::new(days, distributor, SECRET)] *)
Definition minted (random : list Z) (days : Z) (d : list Z) : string :=
  Code.text (Code.new random days d SECRET).

(** [test_code_generate_and_parse] -- memory/key.rs:240-248 *)
Definition test_code_generate_and_parse (random : list Z) : bool :=
  expect (Code.parse (minted random 10 TEST) SECRET)
    (λ parsed, (parsed.1 =? 10) && (parsed.2 =? TEST)).

(** [test_code_invalid_signature] -- memory/key.rs:250-260 *)
Definition test_code_invalid_signature (random : list Z) : bool :=
  let code_str := minted random 10 TEST in
  let n := String.length code_str in
  expect (replace_range (n - 1) n "X" code_str)
    (λ code_str, negb (is_some (Code.parse code_str SECRET))).

(** [test_code_invalid_format] -- memory/key.rs:262-268 *)
Definition test_code_invalid_format : bool :=
  negb (is_some (Code.parse "FRKN-INVALID-CODE" SECRET)).

(** [test_code_length] -- memory/key.rs:270-276 *)
Definition test_code_length (random : list Z) : bool :=
  negb (String.length (minted random 10 TEST) =? 39%nat).

(** [test_key_new] -- memory/key.rs:278-286 *)
Definition test_key_new (id : Uuid) (now : DateTime) (random : list Z) : bool :=
  unwrap distributor (λ d,
    let key := Key.new id now random 30 d SECRET in
    (Key.days key =? 30) && negb (Key.activated key) &&
    negb (is_some (Key.subscription_id key)) && negb (Key.code key =? EmptyString)).

(** [test_key_activation] -- memory/key.rs:288-297 *)
Definition test_key_activation (id : Uuid) (now : DateTime) (random : list Z)
    (sub_id : Uuid) (now' : DateTime) : bool :=
  unwrap distributor (λ d,
    let key := Key.new id now random 30 d SECRET in
    let key := (Key.activate now' sub_id key).1 in
    Key.activated key && (Key.subscription_id key =? Some sub_id)).

(** [test_code_invalid_checksum] -- memory/key.rs:299-318 *)
Definition test_code_invalid_checksum (random : list Z) : bool :=
  let tampered := tamper_first (minted random 10 TEST) in
  negb (is_some (Code.parse tampered SECRET)).

(** [test_checksum_catches_error_before_hmac] -- memory/key.rs:320-328 *)
Definition test_checksum_catches_error_before_hmac (random : list Z) : bool :=
  expect (replace_range 6 7 "Z" (minted random 10 TEST))
    (λ code_str, negb (is_some (Code.parse code_str SECRET))).

(** [test_distributor_roundtrip] -- memory/key.rs:330-337 *)
Definition test_distributor_roundtrip (random : list Z) : bool :=
  expect (Code.parse (minted random 123 (str_bytes "ABCD")) SECRET)
    (λ parsed, (parsed.1 =? 123) && (parsed.2 =? str_bytes "ABCD")).

(** [test_days_bounds] -- memory/key.rs:339-345 *)
Definition test_days_bounds (random : list Z) : bool :=
  expect (Code.parse (minted random (2 ^ 15 - 1) TEST) SECRET)
    (λ parsed, parsed.1 =? (2 ^ 15 - 1)).

(** [test_codes_are_different] -- memory/key.rs:347-353 *)
Definition test_codes_are_different (random1 random2 : list Z) : bool :=
  let code1 := minted random1 10 TEST in
  let code2 := minted random2 10 TEST in
  negb (code1 =? code2).
End tests.

(** *** Lemmas *)
Lemma join_cons w w' ws :
  Str.join "-" (w :: w' :: ws) = w +:+ String "-" (Str.join "-" (w' :: ws)).
Proof. done. Qed.

Lemma length_substring n s : String.length (String.substring 0 n s) = Nat.min n (String.length s).
Proof. revert s; induction n as [|n IH]; intros [|c s]; cbn; auto. Qed.

(** a hyphen after each full group of five but the last *)
Lemma length_join fuel s :
  (String.length s ≤ fuel)%nat →
  String.length (Str.join "-" (Code.chunks 5 fuel s))
    = (String.length s + (String.length s - 1) / 5)%nat.
Proof.
  revert s. induction fuel as [|fuel IH]; intros s Hs; [by destruct s; cbn in Hs; [|lia]|].
  destruct s as [|c s]; [done|]. set (t := String c s) in *.
  change (Code.chunks 5 (S fuel) t)
    with (String.substring 0 5 t :: Code.chunks 5 fuel (Str.drop 5 t)).
  assert (String.length t ≠ 0)%nat as Ht by done. clearbody t.
  pose proof (Code.drop_length 5 t) as Hd. specialize (IH (Str.drop 5 t) ltac:(lia)).
  pose proof (length_substring 5 t) as Hh.
  destruct (Str.drop 5 t) as [|c' u] eqn:Hdrop.
  - cbn [String.length] in Hd. assert (Code.chunks 5 fuel EmptyString = []) as -> by by destruct fuel.
    cbn [Str.join]. rewrite Hh, (Nat.div_small (String.length t - 1)) by lia. lia.
  - destruct fuel as [|fuel]; [cbn in Hd; lia|].
    change (Code.chunks 5 (S fuel) (String c' u))
      with (String.substring 0 5 (String c' u) :: Code.chunks 5 fuel (Str.drop 5 (String c' u))) in *.
    rewrite join_cons, StrFacts.length_app, Hh. cbn [String.length] in Hd |- *.
    rewrite IH. cbn [String.length] in *.
    replace (String.length t - 1)%nat with (1 * 5 + (S (String.length u) - 1))%nat by lia.
    rewrite Nat.div_add_l by done. lia.
Qed.

(** a character replaced by itself *)
Lemma replace_same n c s :
  String.get n s = Some c →
  String.substring 0 n s +:+ String c EmptyString +:+ Str.drop (S n) s = s.
Proof.
  revert s; induction n as [|n IH]; intros [|a s]; cbn; [done| |done|].
  - by intros [= ->].
  - intros Hs. by rewrite IH.
Qed.

(** *** The edited texts, by their digits *)
Lemma format_26 d0 d1 d2 d3 d4 d5 ds :
  length ds = 20%nat →
  Code.format (b32_text (d0 :: d1 :: d2 :: d3 :: d4 :: d5 :: ds)) =
    b32_text [d0; d1; d2; d3; d4] +:+ "-" +:+ b32_text [d5] +:+
    String.substring 0 4 (b32_text ds) +:+ "-" +:+ Code.format (Str.drop 4 (b32_text ds)).
Proof.
  intros Hl. do 20 (destruct ds as [|? ds]; [done|]). by destruct ds.
Qed.

Lemma seventh_replaced ds :
  length ds = 26%nat →
  String.substring 0 6 (Code.format (b32_text ds)) +:+ "Z" +:+
    Str.drop 7 (Code.format (b32_text ds)) = Code.format (b32_text (<[5%nat := 25]> ds)).
Proof.
  intros Hl. do 6 (destruct ds as [|? ds]; [done|]). cbn in Hl.
  cbn [insert list_insert]. by rewrite !format_26 by lia.
Qed.

Lemma seventh_char ds :
  length ds = 26%nat →
  String.get 6 (Code.format (b32_text ds)) = Alphabet.char Alphabet.b32 <$> ds !! 5%nat.
Proof.
  intros Hl. do 6 (destruct ds as [|? ds]; [done|]). cbn in Hl. by rewrite format_26 by lia.
Qed.

Lemma A_digit d : 0 <= d < 32 → Alphabet.char Alphabet.b32 d = "A"%char ↔ d = 0.
Proof.
  revert d. apply (Alphabet.below 32). by repeat constructor.
Qed.

Lemma first_replaced d ds :
  digits_ok (d :: ds) → length (d :: ds) = 26%nat →
  tamper_first (Code.format (b32_text (d :: ds))) =
    Code.format (b32_text ((if decide (d = 0) then 1 else 0) :: ds)).
Proof.
  intros [Hd Hds]%Forall_cons Hl. do 5 (destruct ds as [|? ds]; [done|]). cbn in Hl.
  rewrite !format_26 by lia. cbn.
  rewrite decide_False by by apply Alphabet.b32_dash.
  pose proof (A_digit d Hd). repeat case_decide; naive_solver.
Qed.

Section facts.
Context `{!Base32, !Hmac}.
Context (random : list Z) (Hlen : length random = 6%nat) (Hok : bytes_ok random).

Lemma minted_format r days d :
  minted r days d = Code.format (b32_encode (Code.payload r days d SECRET)).
Proof. unfold minted, Code.new. cbn. by rewrite (StrFacts.upper_fix _ (b32_upper _)). Qed.

Lemma parse_minted days d :
  - 2 ^ 15 <= days < 2 ^ 15 → length d = 4%nat → bytes_ok d →
  Code.parse (minted random days d) SECRET = Some (days, d).
Proof using Hlen Hok. intros. rewrite minted_format. by apply Code.parse_format. Qed.

Lemma TEST_ok : length TEST = 4%nat ∧ bytes_ok TEST.
Proof. split; [done|]. by repeat constructor. Qed.

Lemma distributor_TEST : distributor = Ok {| Distributor.bytes := TEST |}.
Proof. by vm_compute. Qed.

(** every code is 26 characters of base 32 and 5 hyphens *)
Lemma length_minted days d : length d = 4%nat → String.length (minted random days d) = 31%nat.
Proof using Hlen.
  intros Hd. rewrite minted_format. unfold Code.format. rewrite length_join by done.
  by rewrite b32_length, Code.payload_length.
Qed.

Lemma take_payload r days d : length r = 6%nat → take 6 (Code.payload r days d SECRET) = r.
Proof.
  intros Hr. unfold Code.payload. cbv zeta. rewrite <- !(assoc app). by apply take_app_length'.
Qed.

Lemma minted_inj r1 r2 days d :
  length r1 = 6%nat → length r2 = 6%nat → bytes_ok r1 → bytes_ok r2 → bytes_ok d →
  minted r1 days d = minted r2 days d → r1 = r2.
Proof.
  intros Hl1 Hl2 H1 H2 Hd Heq. rewrite !minted_format in Heq.
  assert (Some (Code.payload r1 days d SECRET) = Some (Code.payload r2 days d SECRET)) as [= Hp].
  { rewrite <- !Code.decode_format by by apply Code.payload_ok. by rewrite Heq. }
  apply (f_equal (take 6)) in Hp. by rewrite !take_payload in Hp.
Qed.

(** *** The tests that can only pass *)
Theorem tests_pass_always id now sub_id now' :
  test_code_generate_and_parse random && test_code_length random &&
  test_key_new id now random && test_key_activation id now random sub_id now' &&
  test_distributor_roundtrip random && test_days_bounds random = true.
Proof using Hlen Hok.
  destruct TEST_ok as [Ht Htok].
  assert (∀ days, - 2 ^ 15 <= days < 2 ^ 15 →
    Code.parse (minted random days TEST) SECRET = Some (days, TEST)) as HT
    by (intros; by apply parse_minted).
  rewrite !andb_true_iff. split_and!.
  - unfold test_code_generate_and_parse. by rewrite HT.
  - unfold test_code_length. by rewrite length_minted.
  - unfold test_key_new. rewrite distributor_TEST.
    change (true && true && true && negb (bool_decide (minted random 30 TEST = EmptyString)) = true).
    pose proof (length_minted 30 TEST Ht) as Hm. by destruct (minted random 30 TEST).
  - unfold test_key_activation. rewrite distributor_TEST. cbn. by rewrite bool_decide_true.
  - unfold test_distributor_roundtrip. rewrite parse_minted; [by vm_compute|lia|done|].
    by repeat constructor.
  - unfold test_days_bounds. rewrite HT by lia. by vm_compute.
Qed.

(** The last test is a question about the generator. *)
Theorem codes_are_different_iff random2 :
  length random2 = 6%nat → bytes_ok random2 →
  test_codes_are_different random random2 = true ↔ random ≠ random2.
Proof using Hlen Hok.
  intros Hl2 Hok2. unfold test_codes_are_different. rewrite negb_true_iff, bool_decide_eq_false.
  split; intros Hne Heq; apply Hne; [by rewrite Heq|].
  apply (minted_inj _ _ 10 TEST); try done. apply TEST_ok.
Qed.

(** The test which puts a [Z] at the seventh character fails when the code
    has a [Z] there: the text is then the code itself, and parses. *)
Theorem checksum_test_fails :
  String.get 6 (minted random 10 TEST) = Some "Z"%char →
  test_checksum_catches_error_before_hmac random = false.
Proof using Hlen Hok.
  intros Hget. destruct TEST_ok as [Ht Htok].
  unfold test_checksum_catches_error_before_hmac, replace_range.
  pose proof (length_minted 10 TEST Ht) as Hlm.
  rewrite decide_True by (rewrite Hlm; lia). cbn [expect].
  rewrite replace_same by done. rewrite parse_minted; [done|lia|done..].
Qed.

(** *** The tests of the checksum, with base 32 by its bits *)
Context `{!Base32Digits _}.

Lemma minted_text days d :
  length d = 4%nat → bytes_ok d →
  ∃ ds, digits_ok ds ∧ length ds = 26%nat ∧ minted random days d = Code.format (b32_text ds).
Proof using All. intros. by apply minted_digits. Qed.

(** Only that [Z] makes the test fail: any other character there is an error
    of one character, which the checksum finds. *)
Theorem checksum_test_iff :
  test_checksum_catches_error_before_hmac random = true ↔
  String.get 6 (minted random 10 TEST) ≠ Some "Z"%char.
Proof using All.
  split; [intros Ht Hget; by rewrite (checksum_test_fails Hget) in Ht|intros Hget].
  destruct TEST_ok as [HTl HTok]. destruct (minted_text 10 TEST HTl HTok) as (ds & Hds & Hl & Hm).
  pose proof (parse_minted 10 TEST ltac:(lia) HTl HTok) as Hp.
  unfold test_checksum_catches_error_before_hmac, replace_range.
  rewrite decide_True by (rewrite length_minted by done; lia). cbn [expect].
  rewrite Hm in *. rewrite seventh_replaced by done. rewrite seventh_char in Hget by done.
  destruct (Code.parse (Code.format (b32_text (<[5%nat := 25]> ds))) SECRET) as [r|] eqn:Hr; [|done].
  destruct (lookup_lt_is_Some_2 ds 5 ltac:(lia)) as [d Hd]. exfalso. apply Hget.
  rewrite Hd. cbn. by rewrite (parse_one_digit ds 5 d 25 _ _ _ _ Hds Hl Hd ltac:(lia) ltac:(lia) Hp Hr).
Qed.

Theorem invalid_checksum_passes : test_code_invalid_checksum random = true.
Proof using All.
  destruct TEST_ok as [HTl HTok]. destruct (minted_text 10 TEST HTl HTok) as (ds & Hds & Hl & Hm).
  pose proof (parse_minted 10 TEST ltac:(lia) HTl HTok) as Hp.
  unfold test_code_invalid_checksum. rewrite Hm in *.
  destruct ds as [|d ds]; [done|]. rewrite first_replaced by done.
  set (d' := if decide (d = 0) then 1 else 0).
  assert (0 <= d' < 32 ∧ d ≠ d') as [Hd' Hne] by (subst d'; case_decide; lia).
  destruct (Code.parse (Code.format (b32_text (d' :: ds))) SECRET) as [r|] eqn:Hr; [|done].
  exfalso. apply Hne.
  by apply (parse_one_digit (d :: ds) 0 d d' _ _ _ _ Hds Hl eq_refl Hd' ltac:(lia) Hp Hr).
Qed.
End facts.

(** *** The remaining tests, run with RFC 4648's alphabet *)
Theorem tests_run :
  test_code_invalid_format && test_code_invalid_signature zero_random = true.
Proof. by vm_compute. Qed.

(** Random bytes with which the code already has a [Z] at its seventh
    character: [AAAAA-ZAAAA-AAUVC-FKNKF-I3SUY-Q]. *)
Definition unlucky : list Z := [0; 0; 0; 100; 0; 0].
Lemma unlucky_Z : String.get 6 (minted unlucky 10 TEST) = Some "Z"%char.
Proof. by vm_compute. Qed.
Theorem checksum_test_unlucky : test_checksum_catches_error_before_hmac unlucky = false.
Proof. apply checksum_test_fails; [done|by repeat constructor|exact unlucky_Z]. Qed.

(** The last character carries three bits of the checksum and two of padding:
    where those three bits are an [X]'s, a decoder that does not look at the
    padding reads the tampered code as the code. *)
Theorem signature_test_unlucky : test_code_invalid_signature [0; 0; 0; 0; 0; 5] = false.
Proof. by vm_compute. Qed.
End KeyTests.
